(** * The continuity engine of 1code: a shallow embedding and its properties

    The definitions below follow [src/main/lib/continuity/index.ts] and the
    [getContinuity...] functions it imports from [../config], function by
    function and under the source's names.

    - A JavaScript string is the list of its UTF-16 code units ([jsstring]);
      [Buffer.byteLength(_, "utf8")] and the input of [sha] go through the
      UTF-8 encoder of Node, which writes U+FFFD for a lone surrogate.
    - [Map] fields of the service and the keyed tables of the store are
      [gmap]s; the artifact table, whose order matters, is a list.
    - A row of the store holds what SQLite holds: whole seconds in a
      timestamp column, UTF-8 in a text column.
    - A call runs against a [World]: what the environment variables, git,
      ripgrep, the file system and the clock answer during that call; a
      store whose handle throws is [databaseUp = false].
    - [String.prototype.toLowerCase] (full Unicode case mapping) is the
      section variable [toLowerCase]; on ASCII text it is [asciiLower]. *)

From Stdlib Require Import ZArith Lia List String Ascii Bool.
From Stdlib Require Import DecimalString DecimalPos.
From stdpp Require Import base list gmap sorting.

Import ListNotations.
Local Open Scope Z_scope.

(** ** JavaScript strings *)

Definition jsstring : Type := list Z.

Definition lit (s : string) : jsstring :=
  List.map (fun a => Z.of_N (N_of_ascii a)) (list_ascii_of_string s).

Definition len {A} (l : list A) : Z := Z.of_nat (length l).

(** [Array.prototype.slice] / [String.prototype.slice] with both bounds;
    a negative bound counts from the end, and bounds are clamped. *)
Definition relIndex (n i : Z) : Z :=
  if i <? 0 then Z.max (n + i) 0 else Z.min i n.

Definition slice {A} (l : list A) (start stop : Z) : list A :=
  let from := relIndex (len l) start in
  let to := relIndex (len l) stop in
  firstn (Z.to_nat (to - from)) (skipn (Z.to_nat from) l).

(** [slice(start)] with the end left out. *)
Definition sliceFrom {A} (l : list A) (start : Z) : list A :=
  slice l start (len l).

Definition streq (a b : jsstring) : bool := bool_decide (a = b).

(** ** UTF-8, as [Buffer.byteLength] and [Hash.update] see a string *)

Definition isHighSurrogate (c : Z) : bool := (0xD800 <=? c) && (c <=? 0xDBFF).
Definition isLowSurrogate (c : Z) : bool := (0xDC00 <=? c) && (c <=? 0xDFFF).
Definition isSurrogate (c : Z) : bool := isHighSurrogate c || isLowSurrogate c.

Definition REPLACEMENT : list Z := [0xEF; 0xBF; 0xBD].

Definition utf8_3 (c : Z) : list Z :=
  [Z.lor 0xE0 (Z.shiftr c 12);
   Z.lor 0x80 (Z.land (Z.shiftr c 6) 0x3F);
   Z.lor 0x80 (Z.land c 0x3F)].

Definition utf8_4 (hi lo : Z) : list Z :=
  let cp := 0x10000 + Z.shiftl (hi - 0xD800) 10 + (lo - 0xDC00) in
  [Z.lor 0xF0 (Z.shiftr cp 18);
   Z.lor 0x80 (Z.land (Z.shiftr cp 12) 0x3F);
   Z.lor 0x80 (Z.land (Z.shiftr cp 6) 0x3F);
   Z.lor 0x80 (Z.land cp 0x3F)].

Fixpoint utf8 (s : jsstring) : list Z :=
  match s with
  | [] => []
  | c :: rest =>
    if c <? 0x80 then c :: utf8 rest
    else if c <? 0x800 then
      Z.lor 0xC0 (Z.shiftr c 6) :: Z.lor 0x80 (Z.land c 0x3F) :: utf8 rest
    else if isHighSurrogate c then
      match rest with
      | d :: rest' =>
        if isLowSurrogate d then utf8_4 c d ++ utf8 rest'
        else REPLACEMENT ++ utf8 rest
      | [] => REPLACEMENT
      end
    else if isLowSurrogate c then REPLACEMENT ++ utf8 rest
    else utf8_3 c ++ utf8 rest
  end.

Definition byteLength (s : jsstring) : Z := len (utf8 s).

(** [String.prototype.isWellFormed]: no surrogate without its partner. *)
Fixpoint isWellFormed (s : jsstring) : bool :=
  match s with
  | [] => true
  | c :: rest =>
    if isHighSurrogate c then
      match rest with
      | d :: rest' => isLowSurrogate d && isWellFormed rest'
      | [] => false
      end
    else negb (isLowSurrogate c) && isWellFormed rest
  end.

(** [String.prototype.toWellFormed]: U+FFFD for every surrogate without its
    partner.  It is what comes back of a string that went through UTF-8. *)
Fixpoint toWellFormed (s : jsstring) : jsstring :=
  match s with
  | [] => []
  | c :: rest =>
    if isHighSurrogate c then
      match rest with
      | d :: rest' =>
        if isLowSurrogate d then c :: d :: toWellFormed rest'
        else 0xFFFD :: toWellFormed rest
      | [] => [0xFFFD]
      end
    else if isLowSurrogate c then 0xFFFD :: toWellFormed rest
    else c :: toWellFormed rest
  end.

(** ** [Math.floor(current.length * 0.85)]

    The literal [0.85] is the double [DOUBLE_0_85 * 2^-53].  A length is an
    integer below [2^53], so the product [n * 2^-53] with
    [n = length * DOUBLE_0_85] is exact before it is rounded to 53 significant
    bits, to nearest and ties to even. *)

Definition DOUBLE_0_85 : Z := 7656119366529843.

Definition bitLength (n : Z) : Z := if n <=? 0 then 0 else Z.log2 n + 1.

(** The rounded product as [(m, sh)], standing for [m * 2^(sh - 53)]. *)
Definition mulDouble_0_85 (length : Z) : Z * Z :=
  let n := length * DOUBLE_0_85 in
  if bitLength n <=? 53 then (n, 0)
  else
    let sh := bitLength n - 53 in
    let m := Z.shiftr n sh in
    let r := n mod 2 ^ sh in
    let half := 2 ^ (sh - 1) in
    if (half <? r) || ((r =? half) && Z.odd m) then (m + 1, sh) else (m, sh).

Definition floor_0_85 (length : Z) : Z :=
  let '(m, sh) := mulDouble_0_85 length in
  Z.shiftr (Z.shiftl m sh) 53.

(** ** [clampByBytes] *)

(** The guard and the body of the [while] loop. *)
Definition clampGuard (maxBytes : Z) (current : jsstring) : bool :=
  (maxBytes <? byteLength current) && (0 <? len current).

Definition clampBody (current : jsstring) : jsstring :=
  slice current 0 (floor_0_85 (len current)).

Fixpoint clampLoop (fuel : nat) (maxBytes : Z) (current : jsstring) : jsstring :=
  match fuel with
  | O => current
  | S fuel' =>
    if clampGuard maxBytes current
    then clampLoop fuel' maxBytes (clampBody current)
    else current
  end.

(** Every iteration drops a code unit, so the length of [value] is fuel
    enough ([clampLoop_fuel] below). *)
Definition clampByBytes (value : jsstring) (maxBytes : Z) : jsstring :=
  if byteLength value <=? maxBytes then value
  else clampLoop (length value) maxBytes value.

(** One turn of the loop, as a relation: [next] follows [current]. *)
Definition clampIter (maxBytes : Z) (next current : jsstring) : Prop :=
  clampGuard maxBytes current = true /\ next = clampBody current.

(** ** String helpers of the JavaScript library used by the service *)

Definition asciiLowerUnit (c : Z) : Z :=
  if (65 <=? c) && (c <=? 90) then c + 32 else c.

(** [toLowerCase] on ASCII text. *)
Definition asciiLower (s : jsstring) : jsstring := List.map asciiLowerUnit s.

(** White space and line terminators: what [trim] strips and [\s] matches. *)
Definition isWhiteSpace (c : Z) : bool :=
  ((9 <=? c) && (c <=? 13)) || (c =? 32) || (c =? 0xA0) || (c =? 0x1680)
  || ((0x2000 <=? c) && (c <=? 0x200A)) || (c =? 0x2028) || (c =? 0x2029)
  || (c =? 0x202F) || (c =? 0x205F) || (c =? 0x3000) || (c =? 0xFEFF).

(** [\w] *)
Definition isWordChar (c : Z) : bool :=
  ((48 <=? c) && (c <=? 57)) || ((65 <=? c) && (c <=? 90))
  || ((97 <=? c) && (c <=? 122)) || (c =? 95).

Fixpoint dropWhile {A} (p : A -> bool) (l : list A) : list A :=
  match l with
  | [] => []
  | x :: rest => if p x then dropWhile p rest else l
  end.

Definition trimStart (s : jsstring) : jsstring := dropWhile isWhiteSpace s.
Definition trimEnd (s : jsstring) : jsstring := rev (dropWhile isWhiteSpace (rev s)).
Definition trim (s : jsstring) : jsstring := trimEnd (trimStart s).

(** [s.split(sep)] for a one-unit separator: never the empty array. *)
Fixpoint split (sep : Z) (s : jsstring) : list jsstring :=
  match s with
  | [] => [[]]
  | c :: rest =>
    if c =? sep then [] :: split sep rest
    else match split sep rest with
         | cur :: more => (c :: cur) :: more
         | [] => [[c]]
         end
  end.

Fixpoint join (sep : jsstring) (parts : list jsstring) : jsstring :=
  match parts with
  | [] => []
  | [p] => p
  | p :: rest => p ++ sep ++ join sep rest
  end.

Fixpoint startsWith (s prefix : jsstring) : bool :=
  match prefix, s with
  | [], _ => true
  | p :: prefix', c :: s' => (c =? p) && startsWith s' prefix'
  | _ :: _, [] => false
  end.

Fixpoint includes (s needle : jsstring) : bool :=
  startsWith s needle ||
  match s with
  | [] => false
  | _ :: s' => includes s' needle
  end.

(** [s] without [prefix], when it starts with it. *)
Fixpoint stripPrefix (s prefix : jsstring) : option jsstring :=
  match prefix, s with
  | [], _ => Some s
  | p :: prefix', c :: s' => if c =? p then stripPrefix s' prefix' else None
  | _ :: _, [] => None
  end.

(** [String(n)] for an integer. *)
Definition showZ (n : Z) : jsstring := lit (NilZero.string_of_int (Z.to_int n)).

(** [[...new Set(xs)]]: first occurrences, in order. *)
Fixpoint dedupeFrom (seen xs : list jsstring) : list jsstring :=
  match xs with
  | [] => []
  | x :: rest =>
    if bool_decide (x ∈ seen) then dedupeFrom seen rest
    else x :: dedupeFrom (x :: seen) rest
  end.

Definition dedupe (xs : list jsstring) : list jsstring := dedupeFrom [] xs.

(** The default order of [Array.prototype.sort]: by UTF-16 code units. *)
Fixpoint strLeb (a b : jsstring) : bool :=
  match a, b with
  | [], _ => true
  | _ :: _, [] => false
  | x :: a', y :: b' => (x <? y) || ((x =? y) && strLeb a' b')
  end.

Fixpoint insertSorted (x : jsstring) (l : list jsstring) : list jsstring :=
  match l with
  | [] => [x]
  | y :: rest => if strLeb x y then x :: l else y :: insertSorted x rest
  end.

Definition sortStrings (l : list jsstring) : list jsstring :=
  foldr insertSorted [] l.

(** [xs.find(p)] *)
Fixpoint find {A} (p : A -> bool) (l : list A) : option A :=
  match l with
  | [] => None
  | x :: rest => if p x then Some x else find p rest
  end.

Definition isEmpty (s : jsstring) : bool := match s with [] => true | _ => false end.

(** [a || b] on strings: the empty string is falsy. *)
Definition orElse (a b : jsstring) : jsstring := if isEmpty a then b else a.

Definition NL : jsstring := [10].

(** ** [sha]: SHA-256 of the UTF-8 bytes, in lowercase hex *)

Module SHA256.

Definition w32 (x : Z) : Z := x mod 2 ^ 32.
Definition add32 (x y : Z) : Z := w32 (x + y).
Definition rotr (n x : Z) : Z := Z.lor (Z.shiftr x n) (w32 (Z.shiftl x (32 - n))).
Definition not32 (x : Z) : Z := 2 ^ 32 - 1 - x.

(** The constants of FIPS 180-4: the first 32 bits of the fractional parts
    of the cube roots of the first 64 primes, and of the square roots of the
    first 8. *)
Definition isPrime (n : Z) : bool :=
  (2 <=? n)
  && forallb (fun d => negb (n mod d =? 0)) (List.map Z.of_nat (seq 2 (Z.to_nat n - 2))).

Definition firstPrimes (count : nat) : list Z :=
  firstn count (List.filter isPrime (List.map Z.of_nat (seq 2 400))).

Fixpoint cubeRootBits (bits : nat) (n root : Z) : Z :=
  match bits with
  | O => root
  | S bits' =>
    let candidate := root + 2 ^ Z.of_nat bits' in
    cubeRootBits bits' n (if candidate * candidate * candidate <=? n then candidate else root)
  end.

Definition cubeRootFraction (p : Z) : Z := w32 (cubeRootBits 40 (p * 2 ^ 96) 0).
Definition squareRootFraction (p : Z) : Z := w32 (Z.sqrt (p * 2 ^ 64)).

Definition K : list Z := Eval vm_compute in List.map cubeRootFraction (firstPrimes 64).

Definition H0 : list Z := Eval vm_compute in List.map squareRootFraction (firstPrimes 8).

Definition bigEndian (nbytes : nat) (x : Z) : list Z :=
  List.map (fun i => Z.land (Z.shiftr x (8 * Z.of_nat i)) 0xFF) (rev (seq 0 nbytes)).

Definition pad (msg : list Z) : list Z :=
  let l := len msg in
  let zeros := (55 - l) mod 64 in
  msg ++ [0x80] ++ repeat 0 (Z.to_nat zeros) ++ bigEndian 8 (8 * l).

Fixpoint words (fuel : nat) (bytes : list Z) : list Z :=
  match fuel, bytes with
  | S fuel', a :: b :: c :: d :: rest =>
    (Z.shiftl a 24 + Z.shiftl b 16 + Z.shiftl c 8 + d) :: words fuel' rest
  | _, _ => []
  end.

Definition nthw (l : list Z) (i : nat) : Z := nth i l 0.

Definition sigma0 (x : Z) : Z := Z.lxor (Z.lxor (rotr 7 x) (rotr 18 x)) (Z.shiftr x 3).
Definition sigma1 (x : Z) : Z := Z.lxor (Z.lxor (rotr 17 x) (rotr 19 x)) (Z.shiftr x 10).
Definition Sigma0 (x : Z) : Z := Z.lxor (Z.lxor (rotr 2 x) (rotr 13 x)) (rotr 22 x).
Definition Sigma1 (x : Z) : Z := Z.lxor (Z.lxor (rotr 6 x) (rotr 11 x)) (rotr 25 x).
Definition Ch (e f g : Z) : Z := Z.lxor (Z.land e f) (Z.land (not32 e) g).
Definition Maj (a b c : Z) : Z :=
  Z.lxor (Z.lxor (Z.land a b) (Z.land a c)) (Z.land b c).

(** The message schedule, newest word first. *)
Fixpoint schedule (n : nat) (recent : list Z) : list Z :=
  match n with
  | O => recent
  | S n' =>
    let w := add32 (add32 (sigma1 (nthw recent 1)) (nthw recent 6))
                   (add32 (sigma0 (nthw recent 14)) (nthw recent 15)) in
    schedule n' (w :: recent)
  end.

Definition round (st : list Z) (kw : Z * Z) : list Z :=
  match st with
  | [a; b; c; d; e; f; g; h] =>
    let t1 := add32 (add32 (add32 h (Sigma1 e)) (add32 (Ch e f g) (fst kw))) (snd kw) in
    let t2 := add32 (Sigma0 a) (Maj a b c) in
    [add32 t1 t2; a; b; c; add32 d t1; e; f; g]
  | _ => st
  end.

Definition compress (h : list Z) (block : list Z) : list Z :=
  let w := rev (schedule 48 (rev (words 16 block))) in
  let st := fold_left round (combine K w) h in
  List.map (fun p => add32 (fst p) (snd p)) (combine h st).

Fixpoint blocks (fuel : nat) (h : list Z) (bytes : list Z) : list Z :=
  match fuel with
  | O => h
  | S fuel' =>
    match bytes with
    | [] => h
    | _ => blocks fuel' (compress h (firstn 64 bytes)) (skipn 64 bytes)
    end
  end.

Definition digest (msg : list Z) : list Z :=
  let padded := pad msg in
  flat_map (bigEndian 4) (blocks (length padded) H0 padded).

Definition hexDigit (n : Z) : Z := if n <? 10 then 48 + n else 87 + n.

Definition hex (bytes : list Z) : jsstring :=
  flat_map (fun b => [hexDigit (Z.shiftr b 4); hexDigit (Z.land b 0xF)]) bytes.

End SHA256.

Definition sha (input : jsstring) : jsstring := SHA256.hex (SHA256.digest (utf8 input)).

(** ** Configuration (the [getContinuity...] functions of [../config]) *)

Inductive ContinuityMode := ModeOff | ModePassive | ModeActive.
Inductive ContinuityTokenMode := TokenLow | TokenNormal | TokenDebug.
Inductive ContinuityArtifactPolicy := AutoWriteManualCommit | AutoWriteMemoryBranch.

Record ContinuityGovernorCapabilities := {
  snapshotEnabled : bool;
  rehydrateEnabled : bool;
}.

Record ContinuityBudgetProfile := {
  maxPackBytes : Z;
  maxContextFiles : Z;
  maxContextSummaryBytes : Z;
  maxFileReadBytes : Z;
}.

(** [process.env]: the variables the configuration reads. *)
Record Env := {
  ONECODE_CONTINUITY_MODE : option jsstring;
  ONECODE_CONTINUITY_ENABLED : option jsstring;
  ONECODE_CONTINUITY_ARTIFACT_POLICY : option jsstring;
  ONECODE_CONTINUITY_MEMORY_BRANCH : option jsstring;
  ONECODE_CONTINUITY_ENABLE_SNAPSHOT : option jsstring;
  ONECODE_CONTINUITY_ENABLE_REHYDRATE : option jsstring;
  ONECODE_TOKEN_MODE : option jsstring;
}.

(** [raw === "text"] for a variable that may be undefined. *)
Definition envIs (raw : option jsstring) (text : string) : bool :=
  match raw with
  | Some v => streq v (lit text)
  | None => false
  end.

Definition getContinuityMode (e : Env) : ContinuityMode :=
  let rawMode := ONECODE_CONTINUITY_MODE e in
  if envIs rawMode "active" then ModeActive
  else if envIs rawMode "passive" then ModePassive
  else if envIs rawMode "off" then ModeOff
  else if envIs (ONECODE_CONTINUITY_ENABLED e) "1" then ModeActive else ModeOff.

Definition getDefaultContinuityArtifactPolicy (e : Env) : ContinuityArtifactPolicy :=
  if envIs (ONECODE_CONTINUITY_ARTIFACT_POLICY e) "auto-write-memory-branch"
  then AutoWriteMemoryBranch else AutoWriteManualCommit.

Definition getDefaultContinuityMemoryBranch (e : Env) : jsstring :=
  match ONECODE_CONTINUITY_MEMORY_BRANCH e with
  | Some v => orElse v (lit "memory/continuity")
  | None => lit "memory/continuity"
  end.

Definition getContinuityGovernorCapabilities (e : Env) : ContinuityGovernorCapabilities :=
  {| snapshotEnabled := negb (envIs (ONECODE_CONTINUITY_ENABLE_SNAPSHOT e) "0");
     rehydrateEnabled := envIs (ONECODE_CONTINUITY_ENABLE_REHYDRATE e) "1" |}.

Definition getContinuityTokenMode (e : Env) : ContinuityTokenMode :=
  let rawMode := ONECODE_TOKEN_MODE e in
  if envIs rawMode "low" then TokenLow
  else if envIs rawMode "normal" then TokenNormal
  else if envIs rawMode "debug" then TokenDebug
  else TokenNormal.

Definition getContinuityBudgetProfile (mode : ContinuityTokenMode) : ContinuityBudgetProfile :=
  match mode with
  | TokenLow =>
    {| maxPackBytes := 14000; maxContextFiles := 4;
       maxContextSummaryBytes := 9000; maxFileReadBytes := 90000 |}
  | TokenDebug =>
    {| maxPackBytes := 42000; maxContextFiles := 12;
       maxContextSummaryBytes := 24000; maxFileReadBytes := 300000 |}
  | TokenNormal =>
    {| maxPackBytes := 24000; maxContextFiles := 8;
       maxContextSummaryBytes := 16000; maxFileReadBytes := 180000 |}
  end.

Definition tokenModeName (m : ContinuityTokenMode) : jsstring :=
  match m with
  | TokenLow => lit "low"
  | TokenNormal => lit "normal"
  | TokenDebug => lit "debug"
  end.

Definition artifactPolicyName (p : ContinuityArtifactPolicy) : jsstring :=
  match p with
  | AutoWriteManualCommit => lit "auto-write-manual-commit"
  | AutoWriteMemoryBranch => lit "auto-write-memory-branch"
  end.

(** ** Types of the service *)

Inductive ProviderKind := Claude | Codex.
Inductive ChatMode := Plan | Agent.

Definition providerName (p : ProviderKind) : jsstring :=
  match p with Claude => lit "claude" | Codex => lit "codex" end.

Definition chatModeName (m : ChatMode) : jsstring :=
  match m with Plan => lit "plan" | Agent => lit "agent" end.

Record ContinuityInput := {
  in_subChatId : jsstring;
  in_cwd : jsstring;
  in_projectPath : option jsstring;
  in_prompt : jsstring;
  in_mode : ChatMode;
  in_provider : ProviderKind;
}.

Record StateIds := {
  anchorPackId : jsstring;
  contextPackId : jsstring;
  deltaPackId : jsstring;
  planContractId : option jsstring;
}.

Record ContinuityOutput := {
  out_prompt : jsstring;
  cacheHit : bool;
  injectedBytes : Z;
  reusedPercent : Z;
  stateIds : StateIds;
}.

Record RunOutcomeInput := {
  ro_subChatId : jsstring;
  ro_cwd : jsstring;
  ro_projectPath : option jsstring;
  ro_provider : ProviderKind;
  ro_mode : ChatMode;
  ro_prompt : jsstring;
  ro_assistantResponse : jsstring;
  ro_injectedBytes : option Z;
  ro_wasError : option bool;
}.

Inductive GovernorAction := ActionOk | ActionSnapshot | ActionRehydrate.

Definition governorActionName (a : GovernorAction) : jsstring :=
  match a with
  | ActionOk => lit "ok"
  | ActionSnapshot => lit "snapshot"
  | ActionRehydrate => lit "rehydrate"
  end.

Record GovernorDecision := {
  action : GovernorAction;
  reasons : list jsstring;
}.

Record SafeguardSettings := {
  artifactPolicy : ContinuityArtifactPolicy;
  autoCommitToMemoryBranch : bool;
  tokenMode : ContinuityTokenMode;
  memoryBranch : jsstring;
}.

Record RepoState := {
  headCommit : jsstring;
  changedFiles : list jsstring;
  changedFilesHash : jsstring;
}.

Record CachedSearchResult := {
  timestamp : Z;
  files : list jsstring;
}.

Inductive ArtifactType := Devlog | Adr | RejectedApproach.

Global Instance ArtifactType_eq_dec : EqDecision ArtifactType.
Proof. solve_decision. Defined.

Definition artifactTypeName (t : ArtifactType) : jsstring :=
  match t with
  | Devlog => lit "devlog"
  | Adr => lit "adr"
  | RejectedApproach => lit "rejected-approach"
  end.

Definition SEARCH_TTL_MS : Z := 60000.
Definition MAX_SUMMARY_LINES : Z := 12.
Definition DEVLOG_DIFF_THRESHOLD : Z := 120.
Definition DEVLOG_FILE_THRESHOLD : Z := 6.
Definition REHYDRATE_TURN_THRESHOLD : Z := 12.
Definition SNAPSHOT_TURN_THRESHOLD : Z := 7.
Definition REHYDRATE_BYTES_THRESHOLD : Z := 150000.
Definition SNAPSHOT_BYTES_THRESHOLD : Z := 90000.
Definition REHYDRATE_FILES_THRESHOLD : Z := 18.
Definition SNAPSHOT_FILES_THRESHOLD : Z := 10.
Definition REHYDRATE_DIFF_THRESHOLD : Z := 280.
Definition SNAPSHOT_DIFF_THRESHOLD : Z := 160.
Definition REHYDRATE_ELAPSED_MS : Z := 50 * 60 * 1000.
Definition SNAPSHOT_ELAPSED_MS : Z := 25 * 60 * 1000.

Definition STOPWORDS : list jsstring :=
  List.map lit
    ["the"; "this"; "that"; "with"; "from"; "into"; "about"; "would"; "could";
     "should"; "there"; "their"; "your"; "need"; "have"; "please"; "just";
     "when"; "what"; "where"; "which"; "while"; "after"; "before"; "code";
     "repo"; "project"]%string.

Definition BOUNDARY_MODULE_PREFIXES : list jsstring :=
  List.map lit
    ["src/main/lib/trpc/"; "src/main/lib/db/"; "src/main/lib/continuity/";
     "src/main/lib/plugins/"; "src/main/lib/mcp-"; "src/main/lib/oauth";
     "src/main/lib/git/"]%string.

(** ** The store ([src/main/lib/db/schema/index.ts]) *)

(** A column declared [integer(..., { mode: "timestamp" })] holds whole
    seconds: drizzle writes a [Date] as [Math.floor(date.getTime() / 1000)]
    and reads the column as [new Date(value * 1000)].  The rows below hold
    the seconds; [timestampToDriver] and [timestampFromDriver] are the two
    conversions, from and to the milliseconds of [Date.now()]. *)
Definition timestampToDriver (ms : Z) : Z := ms / 1000.
Definition timestampFromDriver (seconds : Z) : Z := seconds * 1000.

(** A [text] column holds UTF-8.  A string the service has cut
    ([clampByBytes], [slice]) can end in the first half of a surrogate pair;
    written to the store it is encoded with U+FFFD in that place, and that is
    what a later read returns.  This concerns the pack, the file summary and
    the content of an artifact; JSON columns are not touched, as
    [JSON.stringify] escapes a lone surrogate, and keys, hashes, names, paths
    and branches are written as the service is given them. *)
Definition textColumn (s : jsstring) : jsstring := toWellFormed s.

Record ContinuityFileCacheRow := {
  fc_repoRoot : jsstring;
  fc_filePath : jsstring;
  fc_contentHash : jsstring;
  fc_summary : jsstring;
  fc_updatedAt : Z;
}.

(** [result_json] holds [{ files: [...] }]. *)
Record ContinuitySearchCacheRow := {
  sc_repoRoot : jsstring;
  sc_query : jsstring;
  sc_commitHash : jsstring;
  sc_scope : jsstring;
  sc_resultJson : list jsstring;
  sc_updatedAt : Z;
}.

Record ContinuityPackCacheRow := {
  pc_taskFingerprint : jsstring;
  pc_changedFilesHash : jsstring;
  pc_headCommit : jsstring;
  pc_provider : jsstring;
  pc_mode : jsstring;
  pc_budgetBytes : Z;
  pc_pack : jsstring;
  pc_updatedAt : Z;
}.

Record ContinuityStateRow := {
  st_lastChangedFilesHash : jsstring;
  st_turnsSinceSnapshot : Z;
  st_totalInjectedBytes : Z;
  st_lastSnapshotAt : option Z;
  st_updatedAt : Z;
}.

(** [provenance_json]: what [JSON.parse] reads back from the column.  The
    generated [id] of an artifact row is its insertion number. *)
Record Provenance := {
  eventFingerprint : option jsstring;
  createdBy : option jsstring;
}.

Record ContinuityArtifactRow := {
  ar_id : nat;
  ar_subChatId : jsstring;
  ar_type : ArtifactType;
  ar_content : jsstring;
  ar_status : jsstring;
  ar_provenanceJson : Provenance;
  ar_createdAt : Z;
  ar_updatedAt : Z;
}.

Record ContinuitySettingsRow := {
  se_artifactPolicy : jsstring;
  se_autoCommitToMemoryBranch : bool;
  se_tokenMode : jsstring;
  se_memoryBranch : jsstring;
  se_updatedAt : Z;
}.

(** A stored chat message, as far as the service reads and writes one. *)
Record MessagePart := {
  part_type : jsstring;
  part_text : option jsstring;
}.

Record Message := {
  msg_id : jsstring;
  msg_role : jsstring;
  msg_parts : option (list MessagePart);
  msg_continuityRehydrate : option Z;
}.

(** [messages] is [None] when the column is empty or does not parse to an
    array. *)
Record SubChatRow := {
  sub_chatId : jsstring;
  sub_mode : jsstring;
  sub_messages : option (list Message);
  sub_sessionId : option jsstring;
  sub_streamId : option jsstring;
  sub_updatedAt : Z;
}.

(** The artifact table lists its rows newest insert first; the singleton
    row of the settings table is [Some] once it exists.  [chats] maps a chat
    to its [updated_at]. *)
Record Database := {
  continuityFileCache : gmap jsstring ContinuityFileCacheRow;
  continuitySearchCache : gmap jsstring ContinuitySearchCacheRow;
  continuityPackCache : gmap jsstring ContinuityPackCacheRow;
  continuityState : gmap jsstring ContinuityStateRow;
  continuityArtifact : list ContinuityArtifactRow;
  continuitySettings : option ContinuitySettingsRow;
  subChats : gmap jsstring SubChatRow;
  chats : gmap jsstring Z;
}.

(** ** The service object, its surroundings and its effects *)

Record Service := {
  searchCache : gmap jsstring CachedSearchResult;
  fileSummaryCache : gmap jsstring jsstring;
  contextPackCache : gmap jsstring jsstring;
  subChatState : gmap jsstring jsstring;
  protocolState : gmap jsstring (option jsstring);
}.

(** What leaves the process: telemetry and the commands run. *)
Inductive Effect :=
| TrackPackMetrics (provider mode : jsstring) (hit : bool) (packBytes injected reused : Z)
| TrackGovernorAction (provider mode action : jsstring) (reasonsCount : Z)
| TrackSafeguard (action branch memoryBranch : jsstring)
| SimpleGit (repoRoot method : jsstring) (args : list jsstring)
| ExecFile (file : jsstring) (args : list jsstring) (cwd : option jsstring).

Record System := {
  service : Service;
  database : Database;
  effects : list Effect;
}.

(** What one call finds around it.  [databaseUp = false] is a
    [getDatabase()] that throws; a git, ripgrep or file system answer of
    [None] is a rejected promise; [now] is what [Date.now()] and
    [new Date()] read during the call; the file system is asked by repository
    root and relative path, which [path.join] puts together. *)
Record World := {
  env : Env;
  databaseUp : bool;
  now : Z;
  gitRevparseHead : jsstring -> option jsstring;
  gitStatusFiles : jsstring -> option (list jsstring);
  gitRevparseAbbrevRef : jsstring -> option jsstring;
  gitDiffUnified : jsstring -> option jsstring;
  gitDiffNumstat : jsstring -> option jsstring;
  rgFiles : jsstring -> option jsstring;
  fsStat : jsstring -> jsstring -> option (bool * Z);
  fsReadFile : jsstring -> jsstring -> option jsstring;
  randomUUID : jsstring;
}.

(** ** State passing *)

Definition M (A : Type) : Type := World -> System -> A * System.

Definition ret {A} (x : A) : M A := fun _ s => (x, s).

Definition bind {A B} (m : M A) (k : A -> M B) : M B :=
  fun w s => let r := m w s in k (fst r) w (snd r).

Declare Scope m_scope.
Delimit Scope m_scope with M.
Notation "x <- m ;; k" := (bind m (fun x => k))
  (at level 100, m at next level, right associativity) : m_scope.
Notation "m ;;; k" := (bind m (fun _ => k))
  (at level 100, right associativity) : m_scope.

Definition world : M World := fun w s => (w, s).
Definition readService : M Service := fun _ s => (service s, s).
Definition readDatabase : M Database := fun _ s => (database s, s).

Definition setService (f : Service -> Service) : M unit :=
  fun _ s => (tt, {| service := f (service s); database := database s; effects := effects s |}).

Definition setDatabase (f : Database -> Database) : M unit :=
  fun _ s => (tt, {| service := service s; database := f (database s); effects := effects s |}).

Definition emit (e : Effect) : M unit :=
  fun _ s => (tt, {| service := service s; database := database s; effects := effects s ++ [e] |}).

Definition when (c : bool) (m : M unit) : M unit := if c then m else ret tt.

Definition withSearchCache (f : gmap jsstring CachedSearchResult -> gmap jsstring CachedSearchResult)
    (v : Service) : Service :=
  {| searchCache := f (searchCache v); fileSummaryCache := fileSummaryCache v;
     contextPackCache := contextPackCache v; subChatState := subChatState v;
     protocolState := protocolState v |}.

Definition withFileSummaryCache (f : gmap jsstring jsstring -> gmap jsstring jsstring)
    (v : Service) : Service :=
  {| searchCache := searchCache v; fileSummaryCache := f (fileSummaryCache v);
     contextPackCache := contextPackCache v; subChatState := subChatState v;
     protocolState := protocolState v |}.

Definition withContextPackCache (f : gmap jsstring jsstring -> gmap jsstring jsstring)
    (v : Service) : Service :=
  {| searchCache := searchCache v; fileSummaryCache := fileSummaryCache v;
     contextPackCache := f (contextPackCache v); subChatState := subChatState v;
     protocolState := protocolState v |}.

Definition withSubChatState (f : gmap jsstring jsstring -> gmap jsstring jsstring)
    (v : Service) : Service :=
  {| searchCache := searchCache v; fileSummaryCache := fileSummaryCache v;
     contextPackCache := contextPackCache v; subChatState := f (subChatState v);
     protocolState := protocolState v |}.

Definition withProtocolState
    (f : gmap jsstring (option jsstring) -> gmap jsstring (option jsstring))
    (v : Service) : Service :=
  {| searchCache := searchCache v; fileSummaryCache := fileSummaryCache v;
     contextPackCache := contextPackCache v; subChatState := subChatState v;
     protocolState := f (protocolState v) |}.

Definition withFileCacheTable
    (f : gmap jsstring ContinuityFileCacheRow -> gmap jsstring ContinuityFileCacheRow)
    (d : Database) : Database :=
  {| continuityFileCache := f (continuityFileCache d);
     continuitySearchCache := continuitySearchCache d;
     continuityPackCache := continuityPackCache d;
     continuityState := continuityState d;
     continuityArtifact := continuityArtifact d;
     continuitySettings := continuitySettings d;
     subChats := subChats d; chats := chats d |}.

Definition withSearchCacheTable
    (f : gmap jsstring ContinuitySearchCacheRow -> gmap jsstring ContinuitySearchCacheRow)
    (d : Database) : Database :=
  {| continuityFileCache := continuityFileCache d;
     continuitySearchCache := f (continuitySearchCache d);
     continuityPackCache := continuityPackCache d;
     continuityState := continuityState d;
     continuityArtifact := continuityArtifact d;
     continuitySettings := continuitySettings d;
     subChats := subChats d; chats := chats d |}.

Definition withPackCacheTable
    (f : gmap jsstring ContinuityPackCacheRow -> gmap jsstring ContinuityPackCacheRow)
    (d : Database) : Database :=
  {| continuityFileCache := continuityFileCache d;
     continuitySearchCache := continuitySearchCache d;
     continuityPackCache := f (continuityPackCache d);
     continuityState := continuityState d;
     continuityArtifact := continuityArtifact d;
     continuitySettings := continuitySettings d;
     subChats := subChats d; chats := chats d |}.

Definition withStateTable
    (f : gmap jsstring ContinuityStateRow -> gmap jsstring ContinuityStateRow)
    (d : Database) : Database :=
  {| continuityFileCache := continuityFileCache d;
     continuitySearchCache := continuitySearchCache d;
     continuityPackCache := continuityPackCache d;
     continuityState := f (continuityState d);
     continuityArtifact := continuityArtifact d;
     continuitySettings := continuitySettings d;
     subChats := subChats d; chats := chats d |}.

Definition withArtifactTable
    (f : list ContinuityArtifactRow -> list ContinuityArtifactRow)
    (d : Database) : Database :=
  {| continuityFileCache := continuityFileCache d;
     continuitySearchCache := continuitySearchCache d;
     continuityPackCache := continuityPackCache d;
     continuityState := continuityState d;
     continuityArtifact := f (continuityArtifact d);
     continuitySettings := continuitySettings d;
     subChats := subChats d; chats := chats d |}.

Definition withSettingsTable
    (f : option ContinuitySettingsRow -> option ContinuitySettingsRow)
    (d : Database) : Database :=
  {| continuityFileCache := continuityFileCache d;
     continuitySearchCache := continuitySearchCache d;
     continuityPackCache := continuityPackCache d;
     continuityState := continuityState d;
     continuityArtifact := continuityArtifact d;
     continuitySettings := f (continuitySettings d);
     subChats := subChats d; chats := chats d |}.

Definition withSubChats
    (f : gmap jsstring SubChatRow -> gmap jsstring SubChatRow) (d : Database) : Database :=
  {| continuityFileCache := continuityFileCache d;
     continuitySearchCache := continuitySearchCache d;
     continuityPackCache := continuityPackCache d;
     continuityState := continuityState d;
     continuityArtifact := continuityArtifact d;
     continuitySettings := continuitySettings d;
     subChats := f (subChats d); chats := chats d |}.

Definition withChats (f : gmap jsstring Z -> gmap jsstring Z) (d : Database) : Database :=
  {| continuityFileCache := continuityFileCache d;
     continuitySearchCache := continuitySearchCache d;
     continuityPackCache := continuityPackCache d;
     continuityState := continuityState d;
     continuityArtifact := continuityArtifact d;
     continuitySettings := continuitySettings d;
     subChats := subChats d; chats := f (chats d) |}.

(** ** Pure helpers of [index.ts] *)

Fixpoint collapseWhiteSpace (inRun : bool) (s : jsstring) : jsstring :=
  match s with
  | [] => []
  | c :: rest =>
    if isWhiteSpace c
    then (if inRun then collapseWhiteSpace true rest else 32 :: collapseWhiteSpace true rest)
    else c :: collapseWhiteSpace false rest
  end.

(** [s.split(re)] for a regular expression [re] matching a non-empty run of
    the units [isSep] accepts. *)
Fixpoint splitRuns (isSep : Z -> bool) (inRun : bool) (s : jsstring) : list jsstring :=
  match s with
  | [] => [[]]
  | c :: rest =>
    if isSep c
    then (if inRun then splitRuns isSep true rest else [] :: splitRuns isSep true rest)
    else match splitRuns isSep false rest with
         | cur :: more => (c :: cur) :: more
         | [] => [[c]]
         end
  end.

(** The complement of [[a-z0-9_./-]]. *)
Definition isKeywordSeparator (c : Z) : bool :=
  negb (((97 <=? c) && (c <=? 122)) || ((48 <=? c) && (c <=? 57))
        || (c =? 95) || (c =? 46) || (c =? 47) || (c =? 45)).

(** The first line with something on it, trimmed, or else the trimmed
    prompt: [objectiveLine] of [apply], [objective] of [buildDeltaPack]. *)
Definition objectiveLineOf (prompt : jsstring) : jsstring :=
  orElse
    (match find (fun line => 0 <? len (trim line)) (split 10 prompt) with
     | Some line => trim line
     | None => []
     end)
    (trim prompt).

(** [/^(export\s+|module\.exports|class\s+\w+|function\s+\w+|interface\s+\w+|type\s+\w+)/] *)
Definition keywordThenName (keyword : string) (line : jsstring) : bool :=
  match stripPrefix line (lit keyword) with
  | Some (c :: rest) =>
    isWhiteSpace c &&
    match dropWhile isWhiteSpace rest with
    | d :: _ => isWordChar d
    | [] => false
    end
  | _ => false
  end.

Definition exportLikeLine (line : jsstring) : bool :=
  match stripPrefix line (lit "export") with
  | Some (c :: _) => isWhiteSpace c
  | _ => false
  end
  || startsWith line (lit "module.exports")
  || keywordThenName "class" line
  || keywordThenName "function" line
  || keywordThenName "interface" line
  || keywordThenName "type" line.

Definition buildFileSummary (filePath content : jsstring) : jsstring :=
  let lines := split 10 content in
  let exportLike :=
    List.map trim
      (slice (List.filter (fun line => exportLikeLine (trim line)) lines) 0 MAX_SUMMARY_LINES) in
  let firstNonEmpty :=
    match find (fun line => 0 <? len (trim line)) lines with
    | Some line => trim line
    | None => []
    end in
  let details :=
    [lit "file: " ++ filePath; lit "lines: " ++ showZ (len lines)]
    ++ (if isEmpty firstNonEmpty then []
        else [lit "first_line: " ++ slice firstNonEmpty 0 120])
    ++ (if 0 <? len exportLike
        then [lit "symbols: " ++ slice (join (lit " | ") exportLike) 0 900]
        else []) in
  join NL details.

(** [path.basename] (POSIX). *)
Definition basename (p : jsstring) : jsstring :=
  List.last (split 47 (rev (dropWhile (fun c => c =? 47) (rev p)))) [].

(** A stable sort by descending score, as [sort((a, b) => b.score - a.score)]. *)
Fixpoint insertByScore (x : jsstring * Z) (l : list (jsstring * Z)) : list (jsstring * Z) :=
  match l with
  | [] => [x]
  | y :: rest => if snd x <? snd y then y :: insertByScore x rest else x :: l
  end.

Definition sortByScore (l : list (jsstring * Z)) : list (jsstring * Z) :=
  foldr insertByScore [] l.

(** [Number(field)] on the fields of a numstat line: a decimal numeral is
    its value and the empty field is 0; anything else is read as [NaN], as the
    ["-"] of a binary file is (signs, fractions, exponents and radix prefixes
    do not occur in that output). *)
Definition isDigit (c : Z) : bool := (48 <=? c) && (c <=? 57).

Definition jsNumber (field : option jsstring) : option Z :=
  match field with
  | None => None
  | Some raw =>
    let t := trim raw in
    if forallb isDigit t then Some (fold_left (fun acc c => 10 * acc + (c - 48)) t 0)
    else None
  end.

Definition finiteOr0 (n : option Z) : Z := match n with Some v => v | None => 0 end.

(** [/fail|failed|error|exception|assert/i] *)
Definition failureLine (line : jsstring) : bool :=
  let l := asciiLower line in
  includes l (lit "fail") || includes l (lit "failed") || includes l (lit "error")
  || includes l (lit "exception") || includes l (lit "assert").

Definition boolName (b : bool) : jsstring := if b then lit "true" else lit "false".

(** [ORDER BY created_at DESC] over the rows a scan yields: a stable sort by
    descending time, so rows of one second stay in the order of the scan. *)
Fixpoint insertByCreatedAt (x : ContinuityArtifactRow) (l : list ContinuityArtifactRow)
    : list ContinuityArtifactRow :=
  match l with
  | [] => [x]
  | y :: rest => if ar_createdAt x <? ar_createdAt y then y :: insertByCreatedAt x rest else x :: l
  end.

Definition orderByCreatedAtDesc (l : list ContinuityArtifactRow) : list ContinuityArtifactRow :=
  foldr insertByCreatedAt [] l.

Record GovernorInput := {
  turnsSinceSnapshot : Z;
  totalInjectedBytes : Z;
  changedFilesCount : Z;
  diffLines : Z;
  elapsedSinceSnapshotMs : Z;
}.

Definition decideGovernor (input : GovernorInput) : GovernorDecision :=
  let reasons :=
    (if SNAPSHOT_TURN_THRESHOLD <=? turnsSinceSnapshot input then [lit "turn-pressure"] else [])
    ++ (if SNAPSHOT_BYTES_THRESHOLD <=? totalInjectedBytes input then [lit "context-pressure"] else [])
    ++ (if SNAPSHOT_FILES_THRESHOLD <=? changedFilesCount input then [lit "scope-pressure"] else [])
    ++ (if SNAPSHOT_DIFF_THRESHOLD <=? diffLines input then [lit "diff-pressure"] else [])
    ++ (if SNAPSHOT_ELAPSED_MS <=? elapsedSinceSnapshotMs input then [lit "time-pressure"] else []) in
  let severeReasons :=
    (if REHYDRATE_TURN_THRESHOLD <=? turnsSinceSnapshot input then [lit "turn-pressure-high"] else [])
    ++ (if REHYDRATE_BYTES_THRESHOLD <=? totalInjectedBytes input then [lit "context-pressure-high"] else [])
    ++ (if REHYDRATE_FILES_THRESHOLD <=? changedFilesCount input then [lit "scope-pressure-high"] else [])
    ++ (if REHYDRATE_DIFF_THRESHOLD <=? diffLines input then [lit "diff-pressure-high"] else [])
    ++ (if REHYDRATE_ELAPSED_MS <=? elapsedSinceSnapshotMs input then [lit "time-pressure-high"] else []) in
  if 2 <=? len severeReasons then {| action := ActionRehydrate; reasons := severeReasons |}
  else if 2 <=? len reasons then {| action := ActionSnapshot; reasons := reasons |}
  else {| action := ActionOk; reasons := [] |}.

(** The capability gate of [recordRunOutcome] ([effectiveGovernorAction]). *)
Definition effectiveAction (capabilities : ContinuityGovernorCapabilities)
    (decided : GovernorAction) : GovernorAction :=
  match decided with
  | ActionRehydrate =>
    if negb (rehydrateEnabled capabilities)
    then (if snapshotEnabled capabilities then ActionSnapshot else ActionOk)
    else decided
  | ActionSnapshot =>
    if negb (snapshotEnabled capabilities) then ActionOk else decided
  | ActionOk => decided
  end.

(** ** The service *)

Section ContinuityService.

(** [String.prototype.toLowerCase]. *)
Variable toLowerCase : jsstring -> jsstring.

Local Open Scope m_scope.

Definition normalizePrompt (prompt : jsstring) : jsstring :=
  collapseWhiteSpace false (toLowerCase (trim prompt)).

Definition extractKeywords (prompt : jsstring) : list jsstring :=
  let parts :=
    List.filter
      (fun part => (4 <=? len part) && negb (bool_decide (part ∈ STOPWORDS)))
      (List.map trim (splitRuns isKeywordSeparator false (toLowerCase prompt))) in
  slice (dedupe parts) 0 6.

(** *** Pack cache *)

Definition getCachedPack (key : jsstring) : M (option jsstring) :=
  svc <- readService ;;
  match contextPackCache svc !! key with
  | Some (c :: hot) => ret (Some (c :: hot))
  | _ =>
    w <- world ;;
    if databaseUp w then
      db <- readDatabase ;;
      match continuityPackCache db !! key with
      | Some row =>
        if isEmpty (pc_pack row) then ret None
        else
          setService (withContextPackCache (insert key (pc_pack row))) ;;;
          ret (Some (pc_pack row))
      | None => ret None
      end
    else ret None
  end.

Definition storeCachedPack (key taskFingerprint changedFilesHash headCommit : jsstring)
    (provider : ProviderKind) (mode : ChatMode) (budgetBytes : Z) (pack : jsstring)
    : M unit :=
  setService (withContextPackCache (insert key pack)) ;;;
  w <- world ;;
  when (databaseUp w)
    (setDatabase (withPackCacheTable (insert key
       {| pc_taskFingerprint := taskFingerprint;
          pc_changedFilesHash := changedFilesHash;
          pc_headCommit := headCommit;
          pc_provider := providerName provider;
          pc_mode := chatModeName mode;
          pc_budgetBytes := budgetBytes;
          pc_pack := textColumn pack;
          pc_updatedAt := timestampToDriver (now w) |}))).

(** *** Repo probe *)

Definition getRepoState (repoRoot : jsstring) : M RepoState :=
  w <- world ;;
  emit (SimpleGit repoRoot (lit "revparse") [lit "HEAD"]) ;;;
  emit (SimpleGit repoRoot (lit "status") []) ;;;
  match gitRevparseHead w repoRoot, gitStatusFiles w repoRoot with
  | Some head, Some paths =>
    let changed := sortStrings (dedupe paths) in
    ret {| headCommit := trim head;
           changedFiles := changed;
           changedFilesHash := sha (join NL changed) |}
  | _, _ =>
    ret {| headCommit := lit "no-git";
           changedFiles := [];
           changedFilesHash := lit "no-changes" |}
  end.

Definition getDiffSnippet (repoRoot : jsstring) : M jsstring :=
  w <- world ;;
  emit (ExecFile (lit "git")
          [lit "-C"; repoRoot; lit "diff"; lit "--unified=1"; lit "--"; lit "."] None) ;;;
  match gitDiffUnified w repoRoot with
  | Some stdout => ret (clampByBytes (trim stdout) 4000)
  | None => ret []
  end.

Definition getDiffStats (repoRoot : jsstring) : M Z :=
  w <- world ;;
  emit (ExecFile (lit "git") [lit "-C"; repoRoot; lit "diff"; lit "--numstat"] None) ;;;
  match gitDiffNumstat w repoRoot with
  | Some stdout =>
    let lines := List.filter (fun line => 0 <? len line) (List.map trim (split 10 stdout)) in
    ret (fold_left
           (fun sum line =>
              let fields := split 9 line in
              let added := jsNumber (fields !! 0%nat) in
              let removed := jsNumber (fields !! 1%nat) in
              sum + finiteOr0 added + finiteOr0 removed)
           lines 0)
  | None => ret 0
  end.

Definition listFiles (repoRoot : jsstring) : M (list jsstring) :=
  w <- world ;;
  emit (ExecFile (lit "rg") [lit "--files"] (Some repoRoot)) ;;;
  match rgFiles w repoRoot with
  | Some stdout =>
    ret (List.filter (fun line => 0 <? len line) (List.map trim (split 10 stdout)))
  | None => ret []
  end.

(** *** Anchor pack *)

Definition buildAnchorPack (repoRoot : jsstring) : M jsstring :=
  w <- world ;;
  let anchorFiles := [lit "AGENTS.md"; lit "CLAUDE.md"; lit "README.md"] in
  let parts :=
    flat_map
      (fun relativePath =>
         match fsReadFile w repoRoot relativePath with
         | Some content =>
           [lit "## " ++ relativePath ++ NL ++ clampByBytes content 3000]
         | None => []
         end)
      anchorFiles in
  if len parts =? 0 then ret (lit "No anchor files found.")
  else ret (join (NL ++ NL) parts).

(** *** Search cache *)

Definition getPersistedSearch (cacheKey : jsstring) : M (option CachedSearchResult) :=
  w <- world ;;
  if databaseUp w then
    db <- readDatabase ;;
    match continuitySearchCache db !! cacheKey with
    | Some row =>
      let updatedAt := timestampFromDriver (sc_updatedAt row) in
      let ageMs := now w - updatedAt in
      if SEARCH_TTL_MS <? ageMs then ret None
      else ret (Some {| timestamp := updatedAt; files := sc_resultJson row |})
    | None => ret None
    end
  else ret None.

Definition storePersistedSearch (cacheKey repoRoot keywordQuery headCommit : jsstring)
    (result : CachedSearchResult) : M unit :=
  w <- world ;;
  when (databaseUp w)
    (setDatabase (withSearchCacheTable (fun table =>
       <[cacheKey :=
           {| sc_repoRoot := repoRoot;
              sc_query := keywordQuery;
              sc_commitHash := headCommit;
              sc_scope := match table !! cacheKey with
                          | Some row => sc_scope row
                          | None => lit "repo"
                          end;
              sc_resultJson := files result;
              sc_updatedAt := timestampToDriver (timestamp result) |}]> table))).

Definition scoreFile (keywords : list jsstring) (filePath : jsstring) : Z :=
  let lower := toLowerCase filePath in
  fold_left
    (fun score keyword =>
       let score := if includes lower keyword then score + 3 else score in
       if includes (basename lower) keyword then score + 4 else score)
    keywords 0.

Definition searchRelevantFiles (repoRoot : jsstring) (keywords : list jsstring)
    (headCommit : jsstring) : M (list jsstring) :=
  if len keywords =? 0 then ret []
  else
    let keywordQuery := join (lit ",") keywords in
    let cacheKey := repoRoot ++ lit ":" ++ headCommit ++ lit ":" ++ keywordQuery in
    w <- world ;;
    svc <- readService ;;
    let fresh :=
      match searchCache svc !! cacheKey with
      | Some cached => if now w - timestamp cached <? SEARCH_TTL_MS then Some cached else None
      | None => None
      end in
    match fresh with
    | Some cached => ret (files cached)
    | None =>
      persistedSearch <- getPersistedSearch cacheKey ;;
      match persistedSearch with
      | Some found =>
        setService (withSearchCache (insert cacheKey found)) ;;;
        ret (files found)
      | None =>
        listed <- listFiles repoRoot ;;
        let scored :=
          List.map fst
            (slice
               (sortByScore
                  (List.filter (fun entry => 0 <? snd entry)
                     (List.map (fun filePath => (filePath, scoreFile keywords filePath)) listed)))
               0 24) in
        let persisted := {| timestamp := now w; files := scored |} in
        setService (withSearchCache (insert cacheKey persisted)) ;;;
        storePersistedSearch cacheKey repoRoot keywordQuery headCommit persisted ;;;
        ret scored
      end
    end.

(** *** File summaries *)

Definition getPersistedSummary (key : jsstring) : M (option jsstring) :=
  w <- world ;;
  if databaseUp w then
    db <- readDatabase ;;
    match continuityFileCache db !! key with
    | Some row => if isEmpty (fc_summary row) then ret None else ret (Some (fc_summary row))
    | None => ret None
    end
  else ret None.

Definition storePersistedSummary (key repoRoot filePath contentHash summary : jsstring)
    : M unit :=
  w <- world ;;
  when (databaseUp w)
    (setDatabase (withFileCacheTable (fun table =>
       match table !! key with
       | Some row =>
         <[key := {| fc_repoRoot := fc_repoRoot row;
                     fc_filePath := fc_filePath row;
                     fc_contentHash := contentHash;
                     fc_summary := textColumn summary;
                     fc_updatedAt := timestampToDriver (now w) |}]> table
       | None =>
         <[key := {| fc_repoRoot := repoRoot;
                     fc_filePath := filePath;
                     fc_contentHash := contentHash;
                     fc_summary := textColumn summary;
                     fc_updatedAt := timestampToDriver (now w) |}]> table
       end))).

Definition readSummary (repoRoot relativePath : jsstring) (maxFileReadBytes : Z)
    : M (option jsstring) :=
  w <- world ;;
  match fsStat w repoRoot relativePath with
  | Some (isFile, size) =>
    if negb isFile || (maxFileReadBytes <? size) then ret None
    else
      match fsReadFile w repoRoot relativePath with
      | Some content =>
        let contentHash := sha content in
        let summaryHash :=
          sha (repoRoot ++ lit ":" ++ relativePath ++ lit ":" ++ contentHash) in
        svc <- readService ;;
        match fileSummaryCache svc !! summaryHash with
        | Some cached => ret (Some cached)
        | None =>
          persisted <- getPersistedSummary summaryHash ;;
          match persisted with
          | Some found =>
            setService (withFileSummaryCache (insert summaryHash found)) ;;;
            ret (Some found)
          | None =>
            let summary := buildFileSummary relativePath content in
            setService (withFileSummaryCache (insert summaryHash summary)) ;;;
            storePersistedSummary summaryHash repoRoot relativePath contentHash summary ;;;
            ret (Some summary)
          end
        end
      | None => ret None
      end
  | None => ret None
  end.

(** *** Context pack *)

(** The [for] loop of [buildContextPack], with its [break]. *)
Fixpoint collectSummaries (repoRoot : jsstring) (budget : ContinuityBudgetProfile)
    (uniqueFiles : list jsstring) (totalBytes : Z) (summaries : list jsstring)
    : M (list jsstring) :=
  match uniqueFiles with
  | [] => ret summaries
  | filePath :: rest =>
    summary <- readSummary repoRoot filePath (maxFileReadBytes budget) ;;
    match summary with
    | Some (c :: text) =>
      let nextBytes := byteLength (c :: text) in
      if maxContextSummaryBytes budget <? totalBytes + nextBytes then ret summaries
      else collectSummaries repoRoot budget rest (totalBytes + nextBytes)
             (summaries ++ [c :: text])
    | _ => collectSummaries repoRoot budget rest totalBytes summaries
    end
  end.

Definition buildContextPack (repoRoot : jsstring) (repoState : RepoState)
    (prompt : jsstring) (budget : ContinuityBudgetProfile) : M jsstring :=
  let keywords := extractKeywords prompt in
  searchHits <- searchRelevantFiles repoRoot keywords (headCommit repoState) ;;
  let candidateFiles := slice (changedFiles repoState) 0 4 ++ searchHits in
  let uniqueFiles := slice (dedupe candidateFiles) 0 (maxContextFiles budget) in
  if len uniqueFiles =? 0 then ret (lit "No relevant files identified.")
  else
    summaries <- collectSummaries repoRoot budget uniqueFiles 0 [] ;;
    ret (join (NL ++ NL ++ lit "---" ++ NL ++ NL) summaries).

(** *** Per-session state *)

Definition getSubChatState (subChatId : jsstring) : M (option jsstring) :=
  svc <- readService ;;
  match subChatState svc !! subChatId with
  | Some hot => ret (Some hot)
  | None =>
    w <- world ;;
    if databaseUp w then
      db <- readDatabase ;;
      match continuityState db !! subChatId with
      | Some row =>
        setService (withSubChatState (insert subChatId (st_lastChangedFilesHash row))) ;;;
        ret (Some (st_lastChangedFilesHash row))
      | None => ret None
      end
    else ret None
  end.

Definition storeSubChatState (subChatId changedFilesHash pack : jsstring) : M unit :=
  setService (withSubChatState (insert subChatId changedFilesHash)) ;;;
  w <- world ;;
  when (databaseUp w)
    (setDatabase (withStateTable (fun table =>
       match table !! subChatId with
       | Some row =>
         <[subChatId := {| st_lastChangedFilesHash := changedFilesHash;
                           st_turnsSinceSnapshot := st_turnsSinceSnapshot row;
                           st_totalInjectedBytes := byteLength pack;
                           st_lastSnapshotAt := st_lastSnapshotAt row;
                           st_updatedAt := timestampToDriver (now w) |}]> table
       | None =>
         <[subChatId := {| st_lastChangedFilesHash := changedFilesHash;
                           st_turnsSinceSnapshot := 0;
                           st_totalInjectedBytes := byteLength pack;
                           st_lastSnapshotAt := None;
                           st_updatedAt := timestampToDriver (now w) |}]> table
       end))).

Record PersistedState := {
  cur_turnsSinceSnapshot : Z;
  cur_totalInjectedBytes : Z;
  cur_lastSnapshotAt : option Z;
}.

Definition noPersistedState : PersistedState :=
  {| cur_turnsSinceSnapshot := 0; cur_totalInjectedBytes := 0; cur_lastSnapshotAt := None |}.

Definition getPersistedState (subChatId : jsstring) : M PersistedState :=
  w <- world ;;
  if databaseUp w then
    db <- readDatabase ;;
    match continuityState db !! subChatId with
    | Some row =>
      ret {| cur_turnsSinceSnapshot := st_turnsSinceSnapshot row;
             cur_totalInjectedBytes := st_totalInjectedBytes row;
             cur_lastSnapshotAt := timestampFromDriver <$> st_lastSnapshotAt row |}
    | None => ret noPersistedState
    end
  else ret noPersistedState.

Definition persistGovernorState (subChatId lastChangedFilesHash : jsstring)
    (turns injected : Z) (lastSnapshotAt : option Z) : M unit :=
  setService (withSubChatState (insert subChatId lastChangedFilesHash)) ;;;
  w <- world ;;
  when (databaseUp w)
    (setDatabase (withStateTable (insert subChatId
       {| st_lastChangedFilesHash := lastChangedFilesHash;
          st_turnsSinceSnapshot := turns;
          st_totalInjectedBytes := injected;
          st_lastSnapshotAt := timestampToDriver <$> lastSnapshotAt;
          st_updatedAt := timestampToDriver (now w) |}))).

(** *** Delta pack *)

Definition messageTexts (message : Message) : list jsstring :=
  match msg_parts message with
  | Some parts =>
    flat_map
      (fun part =>
         match part_text part with
         | Some text => if streq (part_type part) (lit "text") then [text] else []
         | None => []
         end)
      parts
  | None => []
  end.

Definition getLatestFailingTestDigest (subChatId : jsstring) : M jsstring :=
  w <- world ;;
  if databaseUp w then
    db <- readDatabase ;;
    match subChats db !! subChatId with
    | Some row =>
      match sub_messages row with
      | Some parsed =>
        let textLines := flat_map messageTexts (sliceFrom parsed (-12)) in
        let joined := join NL textLines in
        let failureLines := sliceFrom (List.filter failureLine (split 10 joined)) (-40) in
        if len failureLines =? 0 then ret []
        else ret (clampByBytes (join NL failureLines) 2000)
      | None => ret []
      end
    | None => ret []
    end
  else ret [].

Definition buildDeltaPack (subChatId repoRoot : jsstring) (repoState : RepoState)
    (prompt : jsstring) : M jsstring :=
  diffSnippet <- getDiffSnippet repoRoot ;;
  failingTestDigest <- getLatestFailingTestDigest subChatId ;;
  let objective := objectiveLineOf prompt in
  previous <- getSubChatState subChatId ;;
  let changedLine :=
    lit "changed_files: "
    ++ orElse (join (lit ", ") (slice (changedFiles repoState) 0 20)) (lit "none") in
  match previous with
  | None =>
    ret (join NL
           [lit "first_run: true";
            lit "objective: " ++ clampByBytes objective 200;
            changedLine;
            lit "failing_test_digest: " ++ orElse failingTestDigest (lit "none");
            [];
            lit "[DIFF_SNIPPET]";
            orElse diffSnippet (lit "none")])
  | Some lastChangedFilesHash =>
    if streq lastChangedFilesHash (changedFilesHash repoState) then
      ret (join NL
             [lit "repo_delta: unchanged";
              lit "objective: " ++ clampByBytes objective 200;
              lit "failing_test_digest: " ++ orElse failingTestDigest (lit "none")])
    else
      ret (join NL
             [lit "repo_delta: changed";
              lit "objective: " ++ clampByBytes objective 200;
              changedLine;
              lit "failing_test_digest: " ++ orElse failingTestDigest (lit "none");
              [];
              lit "[DIFF_SNIPPET]";
              orElse diffSnippet (lit "none")])
  end.

(** *** Settings *)

Definition getSafeguardSettings : M SafeguardSettings :=
  w <- world ;;
  let fallback :=
    {| artifactPolicy := getDefaultContinuityArtifactPolicy (env w);
       autoCommitToMemoryBranch := false;
       tokenMode := getContinuityTokenMode (env w);
       memoryBranch := getDefaultContinuityMemoryBranch (env w) |} in
  if databaseUp w then
    db <- readDatabase ;;
    match continuitySettings db with
    | None =>
      setDatabase (withSettingsTable (fun _ => Some
        {| se_artifactPolicy := artifactPolicyName (artifactPolicy fallback);
           se_autoCommitToMemoryBranch := false;
           se_tokenMode := tokenModeName (tokenMode fallback);
           se_memoryBranch := memoryBranch fallback;
           se_updatedAt := timestampToDriver (now w) |})) ;;;
      ret fallback
    | Some row =>
      ret {| artifactPolicy :=
               if streq (se_artifactPolicy row) (lit "auto-write-memory-branch")
               then AutoWriteMemoryBranch else AutoWriteManualCommit;
             autoCommitToMemoryBranch := se_autoCommitToMemoryBranch row;
             tokenMode :=
               if streq (se_tokenMode row) (lit "low") then TokenLow
               else if streq (se_tokenMode row) (lit "normal") then TokenNormal
               else if streq (se_tokenMode row) (lit "debug") then TokenDebug
               else tokenMode fallback;
             memoryBranch := orElse (se_memoryBranch row) (memoryBranch fallback) |}
    end
  else ret fallback.

Definition getConfiguredTokenMode : M ContinuityTokenMode :=
  w <- world ;;
  let fallback := getContinuityTokenMode (env w) in
  if databaseUp w then
    db <- readDatabase ;;
    match continuitySettings db with
    | Some row =>
      if streq (se_tokenMode row) (lit "low") then ret TokenLow
      else if streq (se_tokenMode row) (lit "normal") then ret TokenNormal
      else if streq (se_tokenMode row) (lit "debug") then ret TokenDebug
      else ret fallback
    | None => ret fallback
    end
  else ret fallback.

(** *** [apply] *)

Definition stateIdsBlock (ids : StateIds) : list jsstring :=
  [lit "[1CODE_CONTINUITY_STATE_IDS]";
   lit "anchorPackId: " ++ anchorPackId ids;
   lit "contextPackId: " ++ contextPackId ids;
   lit "deltaPackId: " ++ deltaPackId ids;
   lit "planContractId: "
     ++ match planContractId ids with
        | Some id => orElse id (lit "none")
        | None => lit "none"
        end;
   []].

Definition deltaOnlyEnvelope (ids : StateIds) (deltaPack objectiveLine : jsstring)
    : jsstring :=
  join NL
    (stateIdsBlock ids
     ++ [lit "[1CODE_CONTINUITY_DELTA]";
         deltaPack;
         [];
         lit "[1CODE_OBJECTIVE]";
         clampByBytes objectiveLine 240;
         [];
         lit "[1CODE_USER_REQUEST]"]).

Definition compositeEnvelope (mode : ChatMode) (ids : StateIds)
    (anchorPack contextPack planContract deltaPack objectiveLine : jsstring) : jsstring :=
  join NL
    (stateIdsBlock ids
     ++ [lit "[1CODE_CONTINUITY_ANCHOR]";
         anchorPack;
         [];
         lit "[1CODE_CONTINUITY_CONTEXT]";
         contextPack;
         []]
     ++ match mode with
        | Plan => [lit "[1CODE_PLAN_CONTRACT]"; planContract; []]
        | Agent => []
        end
     ++ [lit "[1CODE_CONTINUITY_DELTA]";
         deltaPack;
         [];
         lit "[1CODE_OBJECTIVE]";
         clampByBytes objectiveLine 240;
         [];
         lit "[1CODE_USER_REQUEST]"]).

(** [input.projectPath || input.cwd] *)
Definition repoRootOf (projectPath : option jsstring) (cwd : jsstring) : jsstring :=
  match projectPath with
  | Some p => orElse p cwd
  | None => cwd
  end.

Definition cacheKeyOf (taskFingerprint : jsstring) (repoState : RepoState)
    (provider : ProviderKind) (mode : ChatMode) (budget : ContinuityBudgetProfile)
    : jsstring :=
  join (lit ":")
    [taskFingerprint;
     changedFilesHash repoState;
     headCommit repoState;
     providerName provider;
     chatModeName mode;
     showZ (maxPackBytes budget)].

Definition apply (input : ContinuityInput) : M ContinuityOutput :=
  w <- world ;;
  let continuityMode := getContinuityMode (env w) in
  configuredTokenMode <- getConfiguredTokenMode ;;
  let budget := getContinuityBudgetProfile configuredTokenMode in
  let fallbackStateIds :=
    {| anchorPackId := lit "none";
       contextPackId := lit "none";
       deltaPackId := lit "none";
       planContractId :=
         match in_mode input with
         | Plan => Some (sha (normalizePrompt (in_prompt input)))
         | Agent => None
         end |} in
  match continuityMode with
  | ModeOff =>
    ret {| out_prompt := in_prompt input;
           cacheHit := false;
           injectedBytes := 0;
           reusedPercent := 100;
           stateIds := fallbackStateIds |}
  | _ =>
    let repoRoot := repoRootOf (in_projectPath input) (in_cwd input) in
    let taskFingerprint := sha (normalizePrompt (in_prompt input)) in
    repoState <- getRepoState repoRoot ;;
    let cacheKey :=
      cacheKeyOf taskFingerprint repoState (in_provider input) (in_mode input) budget in
    let objectiveLine := objectiveLineOf (in_prompt input) in
    let anchorId := sha (repoRoot ++ lit ":anchor:" ++ headCommit repoState) in
    let contextId := sha cacheKey in
    let planId :=
      match in_mode input with
      | Plan => Some (sha (normalizePrompt (in_prompt input)))
      | Agent => None
      end in
    cached <- getCachedPack cacheKey ;;
    deltaPack <- buildDeltaPack (in_subChatId input) repoRoot repoState (in_prompt input) ;;
    let ids :=
      {| anchorPackId := anchorId;
         contextPackId := contextId;
         deltaPackId := sha deltaPack;
         planContractId := planId |} in
    svc <- readService ;;
    let canUseDeltaOnly :=
      match protocolState svc !! in_subChatId input with
      | Some (Some lastCacheKey) => streq lastCacheKey cacheKey
      | _ => false
      end in
    let deltaOnly := deltaOnlyEnvelope ids deltaPack objectiveLine in
    match cached with
    | Some pack =>
      let fullPrompt := pack ++ NL ++ NL ++ in_prompt input in
      let deltaOnlyPrompt := deltaOnly ++ NL ++ NL ++ in_prompt input in
      let selectedPrompt := if canUseDeltaOnly then deltaOnlyPrompt else fullPrompt in
      let injected :=
        Z.max (byteLength selectedPrompt - byteLength (in_prompt input)) 0 in
      let reused := if canUseDeltaOnly then 95 else 75 in
      emit (TrackPackMetrics (providerName (in_provider input))
              (chatModeName (in_mode input)) true (byteLength selectedPrompt)
              injected reused) ;;;
      setService (withProtocolState (insert (in_subChatId input) (Some cacheKey))) ;;;
      match continuityMode with
      | ModePassive =>
        ret {| out_prompt := in_prompt input;
               cacheHit := true;
               injectedBytes := 0;
               reusedPercent := reused;
               stateIds := ids |}
      | _ =>
        ret {| out_prompt := selectedPrompt;
               cacheHit := true;
               injectedBytes := injected;
               reusedPercent := reused;
               stateIds := ids |}
      end
    | None =>
      anchorPack <- buildAnchorPack repoRoot ;;
      contextPack <- buildContextPack repoRoot repoState (in_prompt input) budget ;;
      let planContract :=
        match planId with
        | Some id =>
          lit "id: " ++ id ++ NL ++ lit "max_steps: 6" ++ NL
          ++ lit "objective: " ++ clampByBytes objectiveLine 200 ++ NL
          ++ lit "format: compact-structured"
        | None => []
        end in
      let composite :=
        compositeEnvelope (in_mode input) ids anchorPack contextPack planContract
          deltaPack objectiveLine in
      let budgeted := clampByBytes composite (maxPackBytes budget) in
      storeCachedPack cacheKey taskFingerprint (changedFilesHash repoState)
        (headCommit repoState) (in_provider input) (in_mode input)
        (maxPackBytes budget) budgeted ;;;
      storeSubChatState (in_subChatId input) (changedFilesHash repoState) budgeted ;;;
      setService (withProtocolState (insert (in_subChatId input) (Some cacheKey))) ;;;
      let injected :=
        Z.max (byteLength (budgeted ++ NL ++ NL ++ in_prompt input)
               - byteLength (in_prompt input)) 0 in
      let reused := 35 in
      emit (TrackPackMetrics (providerName (in_provider input))
              (chatModeName (in_mode input)) false (byteLength budgeted)
              injected reused) ;;;
      match continuityMode with
      | ModePassive =>
        ret {| out_prompt := in_prompt input;
               cacheHit := false;
               injectedBytes := 0;
               reusedPercent := reused;
               stateIds := ids |}
      | _ =>
        ret {| out_prompt := budgeted ++ NL ++ NL ++ in_prompt input;
               cacheHit := false;
               injectedBytes := injected;
               reusedPercent := reused;
               stateIds := ids |}
      end
    end
  end.

(** *** Safeguard *)

Record AutoCommitPolicy := {
  requested : bool;
  allowed : bool;
  currentBranch : jsstring;
}.

Definition assessAutoCommitPolicy (repoRoot : jsstring) (settings : SafeguardSettings)
    : M AutoCommitPolicy :=
  w <- world ;;
  let isRequested :=
    match artifactPolicy settings with
    | AutoWriteMemoryBranch => autoCommitToMemoryBranch settings
    | AutoWriteManualCommit => false
    end in
  emit (SimpleGit repoRoot (lit "revparse") [lit "--abbrev-ref"; lit "HEAD"]) ;;;
  let branch :=
    match gitRevparseAbbrevRef w repoRoot with
    | Some out => trim out
    | None => lit "unknown"
    end in
  if negb isRequested then
    ret {| requested := false; allowed := false; currentBranch := branch |}
  else
    ret {| requested := true;
           allowed := streq branch (memoryBranch settings);
           currentBranch := branch |}.

(** *** Event detector *)

Record MeaningfulEvents := {
  devlog : bool;
  adr : bool;
  rejectedApproach : bool;
  rejectedReason : jsstring;
  eventReasons : list jsstring;
  boundaryFiles : list jsstring;
  ev_eventFingerprint : jsstring;
}.

Definition detectMeaningfulEvents (repoState : RepoState) (diffLines : Z)
    (assistantResponse : jsstring) (wasError : bool) : MeaningfulEvents :=
  let reasons0 :=
    (if DEVLOG_DIFF_THRESHOLD <=? diffLines
     then [lit "diff>" ++ showZ DEVLOG_DIFF_THRESHOLD] else [])
    ++ (if DEVLOG_FILE_THRESHOLD <=? len (changedFiles repoState)
        then [lit "changed_files>" ++ showZ DEVLOG_FILE_THRESHOLD] else []) in
  let responseLower := toLowerCase assistantResponse in
  let reason := if wasError then lit "run-error" else lit "direction-change" in
  let rejected :=
    wasError
    || includes responseLower (lit "instead")
    || includes responseLower (lit "alternative approach")
    || includes responseLower (lit "pivot") in
  let boundary :=
    List.filter
      (fun filePath => existsb (fun prefix => startsWith filePath prefix) BOUNDARY_MODULE_PREFIXES)
      (changedFiles repoState) in
  let isAdr := 0 <? len boundary in
  let reasons1 :=
    reasons0
    ++ (if isAdr then [lit "boundary-modules-touched"] else [])
    ++ (if wasError then [lit "run-error"] else []) in
  {| devlog := 0 <? len reasons1;
     adr := isAdr;
     rejectedApproach := rejected;
     rejectedReason := reason;
     eventReasons := reasons1;
     boundaryFiles := boundary;
     ev_eventFingerprint :=
       sha (join (lit ":")
              [headCommit repoState;
               changedFilesHash repoState;
               showZ diffLines;
               boolName wasError;
               slice responseLower 0 160]) |}.

(** *** Artifact writer *)

Definition carriesFingerprint (fingerprint : jsstring) (row : ContinuityArtifactRow) : bool :=
  match eventFingerprint (ar_provenanceJson row) with
  | Some found => streq found fingerprint
  | None => false
  end.

(** The rows of the artifact table as a scan yields them: in the order
    they were inserted, the oldest first. *)
Definition scanArtifacts (table : list ContinuityArtifactRow) : list ContinuityArtifactRow :=
  rev table.

(** The [SELECT ... WHERE sub_chat_id = ? AND type = ? ORDER BY created_at
    DESC LIMIT 12] of [writeArtifactIfNew]. *)
Definition recentArtifacts (subChatId : jsstring) (type : ArtifactType)
    (table : list ContinuityArtifactRow) : list ContinuityArtifactRow :=
  slice
    (orderByCreatedAtDesc
       (List.filter
          (fun row => streq (ar_subChatId row) subChatId && bool_decide (ar_type row = type))
          (scanArtifacts table)))
    0 12.

Definition writeArtifactIfNew (subChatId : jsstring) (type : ArtifactType)
    (fingerprint content : jsstring) : M unit :=
  w <- world ;;
  if databaseUp w then
    db <- readDatabase ;;
    let existing := recentArtifacts subChatId type (continuityArtifact db) in
    let alreadyExists := existsb (carriesFingerprint fingerprint) existing in
    if alreadyExists then ret tt
    else
      (* [sub_chat_id] references [sub_chats.id]: without that row the
         insert throws, and the [catch] of the function swallows it *)
      match subChats db !! subChatId with
      | Some _ =>
        setDatabase (withArtifactTable (fun table =>
          {| ar_id := length table;
             ar_subChatId := subChatId;
             ar_type := type;
             ar_content := textColumn content;
             ar_status := lit "draft";
             ar_provenanceJson :=
               {| eventFingerprint := Some fingerprint;
                  createdBy := Some (lit "continuity-service") |};
             ar_createdAt := timestampToDriver (now w);
             ar_updatedAt := timestampToDriver (now w) |} :: table))
      | None => ret tt
      end
  else ret tt.

(** *** Rehydrate *)

Definition executeRehydrate (subChatId prompt : jsstring) (why : list jsstring) : M unit :=
  w <- world ;;
  if databaseUp w then
    db <- readDatabase ;;
    match subChats db !! subChatId with
    | None => ret tt
    | Some subChat =>
      let artifacts :=
        slice
          (orderByCreatedAtDesc
             (List.filter (fun row => streq (ar_subChatId row) subChatId)
                (scanArtifacts (continuityArtifact db))))
          0 6 in
      let carryLines :=
        List.map
          (fun artifact =>
             let firstLine :=
               match find (fun line => 0 <? len (trim line))
                       (split 10 (ar_content artifact)) with
               | Some line => line
               | None => []
               end in
             lit "- " ++ artifactTypeName (ar_type artifact) ++ lit ": "
             ++ clampByBytes firstLine 180)
          artifacts in
      let structuredState :=
        join NL
          ([lit "[1CODE_CONTINUITY_REHYDRATE]";
            lit "mode: " ++ sub_mode subChat;
            lit "reasons: " ++ orElse (join (lit "; ") why) (lit "governor-pressure")]
           ++ carryLines
           ++ [[]; lit "latest_user_prompt: " ++ clampByBytes prompt 600]) in
      let compactedMessages :=
        [{| msg_id := randomUUID w;
            msg_role := lit "assistant";
            msg_parts := Some [{| part_type := lit "text"; part_text := Some structuredState |}];
            msg_continuityRehydrate := Some (now w) |}] in
      setDatabase (withSubChats (insert subChatId
        {| sub_chatId := sub_chatId subChat;
           sub_mode := sub_mode subChat;
           sub_messages := Some compactedMessages;
           sub_sessionId := None;
           sub_streamId := None;
           sub_updatedAt := timestampToDriver (now w) |})) ;;;
      setDatabase
        (withChats (alter (fun _ => timestampToDriver (now w)) (sub_chatId subChat)))
    end
  else ret tt.

(** *** [recordRunOutcome] *)

Definition recordRunOutcome (input : RunOutcomeInput) : M GovernorDecision :=
  w <- world ;;
  let continuityMode := getContinuityMode (env w) in
  match continuityMode with
  | ModeOff => ret {| action := ActionOk; reasons := [] |}
  | _ =>
    let isActive := match continuityMode with ModeActive => true | _ => false end in
    let repoRoot := repoRootOf (ro_projectPath input) (ro_cwd input) in
    repoState <- getRepoState repoRoot ;;
    totalLines <- getDiffStats repoRoot ;;
    current <- getPersistedState (ro_subChatId input) ;;
    let nextTurns := cur_turnsSinceSnapshot current + 1 in
    let nextInjectedBytes :=
      cur_totalInjectedBytes current
      + Z.max (match ro_injectedBytes input with Some n => n | None => 0 end) 0 in
    let wasError := match ro_wasError input with Some b => b | None => false end in
    safeguard <-
      (if isActive then
         settings <- getSafeguardSettings ;;
         policy <- assessAutoCommitPolicy repoRoot settings ;;
         ret (Some (settings, policy))
       else ret None) ;;
    let governorDecision :=
      decideGovernor
        {| turnsSinceSnapshot := nextTurns;
           totalInjectedBytes := nextInjectedBytes;
           changedFilesCount := len (changedFiles repoState);
           diffLines := totalLines;
           elapsedSinceSnapshotMs :=
             match cur_lastSnapshotAt current with
             | Some at_ => now w - at_
             | None => REHYDRATE_ELAPSED_MS + 1
             end |} in
    let capabilities := getContinuityGovernorCapabilities (env w) in
    let effectiveGovernorAction := effectiveAction capabilities (action governorDecision) in
    let isOk := match effectiveGovernorAction with ActionOk => true | _ => false end in
    let meaningful :=
      detectMeaningfulEvents repoState totalLines (ro_assistantResponse input) wasError in
    match safeguard with
    | Some (safeguardSettings, autoCommitPolicy) =>
      when (devlog meaningful)
        (writeArtifactIfNew (ro_subChatId input) Devlog (ev_eventFingerprint meaningful)
           (join NL
              [lit "provider: " ++ providerName (ro_provider input);
               lit "mode: " ++ chatModeName (ro_mode input);
               lit "commit: " ++ headCommit repoState;
               lit "changed_files: "
                 ++ orElse (join (lit ", ") (slice (changedFiles repoState) 0 24)) (lit "none");
               lit "diff_lines: " ++ showZ totalLines;
               lit "signals: " ++ join (lit "; ") (eventReasons meaningful);
               lit "artifact_policy: " ++ artifactPolicyName (artifactPolicy safeguardSettings);
               lit "memory_branch: " ++ memoryBranch safeguardSettings;
               lit "auto_commit_eligible: " ++ boolName (allowed autoCommitPolicy);
               [];
               lit "prompt: " ++ clampByBytes (ro_prompt input) 900;
               [];
               lit "assistant_summary: " ++ clampByBytes (ro_assistantResponse input) 1500]))
    | None => ret tt
    end ;;;
    when (isActive && adr meaningful)
      (writeArtifactIfNew (ro_subChatId input) Adr
         (ev_eventFingerprint meaningful ++ lit ":adr")
         (join NL
            [lit "status: draft";
             lit "context: boundary module touch detected ("
               ++ join (lit ", ") (slice (boundaryFiles meaningful) 0 12) ++ lit ")";
             lit "decision: TBD";
             lit "consequences: TBD";
             [];
             lit "prompt: " ++ clampByBytes (ro_prompt input) 900])) ;;;
    when (isActive && rejectedApproach meaningful)
      (writeArtifactIfNew (ro_subChatId input) RejectedApproach
         (ev_eventFingerprint meaningful ++ lit ":rejected")
         (join NL
            [lit "reason: " ++ rejectedReason meaningful;
             lit "prompt: " ++ clampByBytes (ro_prompt input) 900;
             lit "assistant_summary: " ++ clampByBytes (ro_assistantResponse input) 1200])) ;;;
    persistGovernorState (ro_subChatId input) (changedFilesHash repoState)
      (if isOk then nextTurns else 0)
      (if isOk then nextInjectedBytes else 0)
      (if isOk then cur_lastSnapshotAt current else Some (now w)) ;;;
    match safeguard with
    | Some (safeguardSettings, autoCommitPolicy) =>
      when (negb isOk)
        (writeArtifactIfNew (ro_subChatId input) Devlog
           (ro_subChatId input ++ lit ":" ++ showZ (now w) ++ lit ":"
            ++ governorActionName effectiveGovernorAction)
           (join NL
              [lit "governor_action: " ++ governorActionName effectiveGovernorAction;
               lit "reasons: " ++ join (lit "; ") (reasons governorDecision);
               lit "changed_files: "
                 ++ orElse (join (lit ", ") (slice (changedFiles repoState) 0 20)) (lit "none");
               lit "diff_lines: " ++ showZ totalLines;
               lit "artifact_policy: " ++ artifactPolicyName (artifactPolicy safeguardSettings);
               lit "auto_commit_eligible: " ++ boolName (allowed autoCommitPolicy)]))
    | None => ret tt
    end ;;;
    emit (TrackGovernorAction (providerName (ro_provider input)) (chatModeName (ro_mode input))
            (governorActionName effectiveGovernorAction) (len (reasons governorDecision))) ;;;
    match safeguard with
    | Some (safeguardSettings, autoCommitPolicy) =>
      when (requested autoCommitPolicy)
        (emit (TrackSafeguard
                 (if allowed autoCommitPolicy
                  then lit "auto-commit-allowed" else lit "auto-commit-blocked")
                 (currentBranch autoCommitPolicy) (memoryBranch safeguardSettings)) ;;;
         when (negb (allowed autoCommitPolicy))
           (writeArtifactIfNew (ro_subChatId input) Devlog
              (headCommit repoState ++ lit ":auto-commit-blocked:"
               ++ currentBranch autoCommitPolicy)
              (join NL
                 [lit "safeguard: auto commit blocked";
                  lit "current_branch: " ++ currentBranch autoCommitPolicy;
                  lit "required_memory_branch: " ++ memoryBranch safeguardSettings;
                  lit "policy: feature branches are protected from automatic continuity commits"])))
    | None => ret tt
    end ;;;
    when (isActive && match effectiveGovernorAction with ActionRehydrate => true | _ => false end)
      (executeRehydrate (ro_subChatId input) (ro_prompt input) (reasons governorDecision)) ;;;
    ret {| action := effectiveGovernorAction; reasons := reasons governorDecision |}
  end.

End ContinuityService.

(** ** Concrete surroundings for the examples *)

Definition noEnv : Env :=
  {| ONECODE_CONTINUITY_MODE := None;
     ONECODE_CONTINUITY_ENABLED := None;
     ONECODE_CONTINUITY_ARTIFACT_POLICY := None;
     ONECODE_CONTINUITY_MEMORY_BRANCH := None;
     ONECODE_CONTINUITY_ENABLE_SNAPSHOT := None;
     ONECODE_CONTINUITY_ENABLE_REHYDRATE := None;
     ONECODE_TOKEN_MODE := None |}.

Definition activeEnv : Env :=
  {| ONECODE_CONTINUITY_MODE := Some (lit "active");
     ONECODE_CONTINUITY_ENABLED := None;
     ONECODE_CONTINUITY_ARTIFACT_POLICY := None;
     ONECODE_CONTINUITY_MEMORY_BRANCH := None;
     ONECODE_CONTINUITY_ENABLE_SNAPSHOT := None;
     ONECODE_CONTINUITY_ENABLE_REHYDRATE := None;
     ONECODE_TOKEN_MODE := None |}.

Definition emptyService : Service :=
  {| searchCache := ∅; fileSummaryCache := ∅; contextPackCache := ∅;
     subChatState := ∅; protocolState := ∅ |}.

Definition emptyDatabase : Database :=
  {| continuityFileCache := ∅; continuitySearchCache := ∅; continuityPackCache := ∅;
     continuityState := ∅; continuityArtifact := []; continuitySettings := None;
     subChats := ∅; chats := ∅ |}.

Definition emptySystem : System :=
  {| service := emptyService; database := emptyDatabase; effects := [] |}.

(** A repository at commit [abc123] on branch [feature/x] with one changed
    file and a README. *)
Definition bucketSource : jsstring :=
  lit "export struct Bucket { tokens: u64 }" ++ NL ++ lit "fn refill() {}".

Definition exampleWorld (e : Env) (clock : Z) : World :=
  {| env := e;
     databaseUp := true;
     now := clock;
     gitRevparseHead := fun _ => Some (lit "abc123" ++ NL);
     gitStatusFiles := fun _ => Some [lit "src/rate/bucket.rs"];
     gitRevparseAbbrevRef := fun _ => Some (lit "feature/x" ++ NL);
     gitDiffUnified := fun _ => Some (lit "diff --git a/src/rate/bucket.rs b/src/rate/bucket.rs");
     gitDiffNumstat := fun _ => Some (lit "30" ++ [9] ++ lit "12" ++ [9] ++ lit "src/rate/bucket.rs" ++ NL);
     rgFiles := fun _ => Some (lit "README.md" ++ NL ++ lit "src/rate/bucket.rs" ++ NL);
     fsStat := fun _ rel =>
       if streq rel (lit "src/rate/bucket.rs") then Some (true, len bucketSource)
       else if streq rel (lit "README.md") then Some (true, 12)
       else None;
     fsReadFile := fun _ rel =>
       if streq rel (lit "src/rate/bucket.rs") then Some bucketSource
       else if streq rel (lit "README.md") then Some (lit "# Rate limit")
       else None;
     randomUUID := lit "00000000-0000-4000-8000-000000000000" |}.

Definition exampleInput (prompt : string) : ContinuityInput :=
  {| in_subChatId := lit "sub-1";
     in_cwd := lit "/repo";
     in_projectPath := None;
     in_prompt := lit prompt;
     in_mode := Agent;
     in_provider := Claude |}.

(** Ten times U+1F600, each a surrogate pair of four UTF-8 bytes. *)
Definition emoji10 : jsstring := concat (repeat [0xD83D; 0xDE00] 10).

(** ** Vocabulary of the statements *)

(** The order ok, snapshot, rehydrate. *)
Definition actionRank (a : GovernorAction) : Z :=
  match a with
  | ActionOk => 0
  | ActionSnapshot => 1
  | ActionRehydrate => 2
  end.

(** [j] is [i] with one of the five signals raised (or left as it is). *)
Definition raisesOneSignal (i j : GovernorInput) : Prop :=
  (turnsSinceSnapshot i <= turnsSinceSnapshot j
   /\ totalInjectedBytes i = totalInjectedBytes j
   /\ changedFilesCount i = changedFilesCount j
   /\ diffLines i = diffLines j
   /\ elapsedSinceSnapshotMs i = elapsedSinceSnapshotMs j)
  \/ (turnsSinceSnapshot i = turnsSinceSnapshot j
      /\ totalInjectedBytes i <= totalInjectedBytes j
      /\ changedFilesCount i = changedFilesCount j
      /\ diffLines i = diffLines j
      /\ elapsedSinceSnapshotMs i = elapsedSinceSnapshotMs j)
  \/ (turnsSinceSnapshot i = turnsSinceSnapshot j
      /\ totalInjectedBytes i = totalInjectedBytes j
      /\ changedFilesCount i <= changedFilesCount j
      /\ diffLines i = diffLines j
      /\ elapsedSinceSnapshotMs i = elapsedSinceSnapshotMs j)
  \/ (turnsSinceSnapshot i = turnsSinceSnapshot j
      /\ totalInjectedBytes i = totalInjectedBytes j
      /\ changedFilesCount i = changedFilesCount j
      /\ diffLines i <= diffLines j
      /\ elapsedSinceSnapshotMs i = elapsedSinceSnapshotMs j)
  \/ (turnsSinceSnapshot i = turnsSinceSnapshot j
      /\ totalInjectedBytes i = totalInjectedBytes j
      /\ changedFilesCount i = changedFilesCount j
      /\ diffLines i = diffLines j
      /\ elapsedSinceSnapshotMs i <= elapsedSinceSnapshotMs j).

(** A call of [writeArtifactIfNew] with the surroundings it runs in. *)
Record ArtifactCall := {
  ac_world : World;
  ac_subChatId : jsstring;
  ac_type : ArtifactType;
  ac_eventFingerprint : jsstring;
  ac_content : jsstring;
}.

Definition runArtifactCall (s : System) (c : ArtifactCall) : System :=
  snd (writeArtifactIfNew (ac_subChatId c) (ac_type c) (ac_eventFingerprint c)
         (ac_content c) (ac_world c) s).

Definition runArtifactCalls (calls : list ArtifactCall) (s : System) : System :=
  fold_left runArtifactCall calls s.

(** The whole second of the clock of a call. *)
Definition secondOf (c : ArtifactCall) : Z := timestampToDriver (now (ac_world c)).

(** Each call falls in a later whole second than [t] and than the call
    before it. *)
Fixpoint secondsAdvance (t : Z) (calls : list ArtifactCall) : Prop :=
  match calls with
  | [] => True
  | c :: rest => t < secondOf c /\ secondsAdvance (secondOf c) rest
  end.

Definition fingerprintOf (row : ContinuityArtifactRow) : option jsstring :=
  eventFingerprint (ar_provenanceJson row).

(** The artifacts of a sub-session and type in the order of the dedup
    query: by descending second, those of one second oldest first. *)
Definition artifactsOf (subChatId : jsstring) (type : ArtifactType)
    (table : list ContinuityArtifactRow) : list ContinuityArtifactRow :=
  orderByCreatedAtDesc
    (List.filter
       (fun row => streq (ar_subChatId row) subChatId && bool_decide (ar_type row = type))
       (scanArtifacts table)).

(** The row [writeArtifactIfNew] inserts: a draft with the content as the
    text column takes it and the second of the call. *)
Definition draftArtifact (id : nat) (subChatId : jsstring) (type : ArtifactType)
    (fingerprint content : jsstring) (w : World) : ContinuityArtifactRow :=
  {| ar_id := id;
     ar_subChatId := subChatId;
     ar_type := type;
     ar_content := textColumn content;
     ar_status := lit "draft";
     ar_provenanceJson :=
       {| eventFingerprint := Some fingerprint;
          createdBy := Some (lit "continuity-service") |};
     ar_createdAt := timestampToDriver (now w);
     ar_updatedAt := timestampToDriver (now w) |}.

(** How many artifacts carry a triple. *)
Definition countTriple (subChatId : jsstring) (type : ArtifactType) (fingerprint : jsstring)
    (table : list ContinuityArtifactRow) : nat :=
  length
    (List.filter
       (fun row =>
          streq (ar_subChatId row) subChatId && bool_decide (ar_type row = type)
          && carriesFingerprint fingerprint row)
       table).

(** The row of sub-chat [sub-1], which holds one message of the user, and a
    system with that row and its chat [chat-1] added. *)
Definition subChatRow : SubChatRow :=
  {| sub_chatId := lit "chat-1";
     sub_mode := lit "agent";
     sub_messages :=
       Some [{| msg_id := lit "m-1";
                msg_role := lit "user";
                msg_parts :=
                  Some [{| part_type := lit "text";
                           part_text := Some (lit "Refactor the token bucket") |}];
                msg_continuityRehydrate := None |}];
     sub_sessionId := Some (lit "session-1");
     sub_streamId := None;
     sub_updatedAt := 0 |}.

Definition withSubChat (s : System) : System :=
  {| service := service s;
     database :=
       withSubChats (insert (lit "sub-1") subChatRow)
         (withChats (insert (lit "chat-1") 0) (database s));
     effects := effects s |}.

(** Fourteen devlog writes for one sub-session, a second apart: thirteen
    fingerprints [fp-0] to [fp-12], then [fp-0] again. *)
Definition devlogCall (clock : Z) (k : Z) : ArtifactCall :=
  {| ac_world := exampleWorld activeEnv clock;
     ac_subChatId := lit "sub-1";
     ac_type := Devlog;
     ac_eventFingerprint := lit "fp-" ++ showZ k;
     ac_content := lit "event " ++ showZ k |}.

Definition fourteenWrites : list ArtifactCall :=
  List.map (fun k => devlogCall (1000 * (k + 1)) k) [0; 1; 2; 3; 4; 5; 6; 7; 8; 9; 10; 11; 12]
  ++ [devlogCall 14000 0].

(** Fourteen devlog writes within one second, ten milliseconds apart:
    fingerprints [fp-0] to [fp-12], then [fp-12] again. *)
Definition sameSecondWrites : list ArtifactCall :=
  List.map (fun k => devlogCall (5000 + 10 * k) k) [0; 1; 2; 3; 4; 5; 6; 7; 8; 9; 10; 11; 12]
  ++ [devlogCall 5130 12].

(** The parts of a [System] the statements speak of. *)
Definition packsOf (s : System) : gmap jsstring jsstring := contextPackCache (service s).
Definition protocolOf (s : System) : gmap jsstring (option jsstring) := protocolState (service s).
Definition packTableOf (s : System) : gmap jsstring ContinuityPackCacheRow :=
  continuityPackCache (database s).
Definition settingsOf (s : System) : option ContinuitySettingsRow :=
  continuitySettings (database s).
Definition stateTableOf (s : System) : gmap jsstring ContinuityStateRow :=
  continuityState (database s).
Definition artifactTableOf (s : System) : list ContinuityArtifactRow :=
  continuityArtifact (database s).
Definition subChatsOf (s : System) : gmap jsstring SubChatRow := subChats (database s).
Definition chatsOf (s : System) : gmap jsstring Z := chats (database s).

(** A computation that leaves a part of the system as it found it. *)
Definition keeps {X A} (part : System -> X) (m : M A) : Prop :=
  forall w s, part (snd (m w s)) = part s.

(** A computation under which a part of the system moves along [R]. *)
Definition evolves {X A} (part : System -> X) (R : X -> X -> Prop) (m : M A) : Prop :=
  forall w s, R (part s) (part (snd (m w s))).

(** The sub-chats with the artifacts that refer to them. *)
Definition artifactStoreOf (s : System)
    : gmap jsstring SubChatRow * list ContinuityArtifactRow :=
  (subChatsOf s, artifactTableOf s).

(** [orphanKept sub before after]: a sub-chat without row stays without row
    and the artifacts stay as they are. *)
Definition orphanKept (sub : jsstring)
    (before after : gmap jsstring SubChatRow * list ContinuityArtifactRow) : Prop :=
  fst before !! sub = None -> fst after !! sub = None /\ snd after = snd before.

(** A computation whose effects, appended to those before it, all satisfy
    [P]. *)
Definition emitsOnly {A} (P : Effect -> Prop) (m : M A) : Prop :=
  forall w s, exists new, effects (snd (m w s)) = effects s ++ new /\ Forall P new.

(** The cache key [apply] computes for [input] in world [w] from state [s]. *)
Definition applyKey (toLowerCase : jsstring -> jsstring) (input : ContinuityInput)
    (w : World) (s : System) : jsstring :=
  let repoRoot := repoRootOf (in_projectPath input) (in_cwd input) in
  cacheKeyOf (sha (normalizePrompt toLowerCase (in_prompt input)))
    (fst (getRepoState repoRoot w s)) (in_provider input) (in_mode input)
    (getContinuityBudgetProfile (fst (getConfiguredTokenMode w s))).

(** The repository of [exampleWorld], as [getRepoState] reports it. *)
Definition exampleRepoState : RepoState :=
  fst (getRepoState (lit "/repo") (exampleWorld activeEnv 1000) emptySystem).

Definition SUMMARY_SEPARATOR : jsstring := NL ++ NL ++ lit "---" ++ NL ++ NL.

(** The delta pack [apply] builds: after the repository state and the pack
    cache have been read. *)
Definition applyDeltaPack (toLowerCase : jsstring -> jsstring) (input : ContinuityInput)
    (w : World) (s : System) : jsstring * System :=
  let repoRoot := repoRootOf (in_projectPath input) (in_cwd input) in
  let state := getRepoState repoRoot w s in
  buildDeltaPack (in_subChatId input) repoRoot (fst state) (in_prompt input) w
    (snd (getCachedPack (applyKey toLowerCase input w s) w (snd state))).

(** The context pack [apply] builds on a miss, after the delta pack. *)
Definition applyContextPack (toLowerCase : jsstring -> jsstring) (input : ContinuityInput)
    (w : World) (s : System) : jsstring :=
  let repoRoot := repoRootOf (in_projectPath input) (in_cwd input) in
  fst (buildContextPack toLowerCase repoRoot (fst (getRepoState repoRoot w s))
         (in_prompt input) (getContinuityBudgetProfile (fst (getConfiguredTokenMode w s)))
         w (snd (applyDeltaPack toLowerCase input w s))).

(** The plan contract [apply] puts in the envelope of a miss. *)
Definition planContractOf (planContractId : option jsstring) (objectiveLine : jsstring)
    : jsstring :=
  match planContractId with
  | Some id =>
    lit "id: " ++ id ++ NL ++ lit "max_steps: 6" ++ NL
    ++ lit "objective: " ++ clampByBytes objectiveLine 200 ++ NL
    ++ lit "format: compact-structured"
  | None => []
  end.

(** The row [storeCachedPack] writes for a pack. *)
Definition packRow (fp : jsstring) (rs : RepoState) (provider : ProviderKind) (mode : ChatMode)
    (budget : ContinuityBudgetProfile) (pack : jsstring) (w : World) : ContinuityPackCacheRow :=
  {| pc_taskFingerprint := fp;
     pc_changedFilesHash := changedFilesHash rs;
     pc_headCommit := headCommit rs;
     pc_provider := providerName provider;
     pc_mode := chatModeName mode;
     pc_budgetBytes := maxPackBytes budget;
     pc_pack := textColumn pack;
     pc_updatedAt := timestampToDriver (now w) |}.


(** Two worlds that answer alike where the cache key looks: environment,
    store availability, HEAD and status of the repository. *)
Definition sameSurroundings (repoRoot : jsstring) (w w' : World) : Prop :=
  env w = env w'
  /\ databaseUp w = databaseUp w'
  /\ gitRevparseHead w repoRoot = gitRevparseHead w' repoRoot
  /\ gitStatusFiles w repoRoot = gitStatusFiles w' repoRoot.

(** The same request from another sub-session. *)
Definition fromSubChat (subChatId : jsstring) (input : ContinuityInput) : ContinuityInput :=
  {| in_subChatId := subChatId;
     in_cwd := in_cwd input;
     in_projectPath := in_projectPath input;
     in_prompt := in_prompt input;
     in_mode := in_mode input;
     in_provider := in_provider input |}.

Definition tokenBucketPrompt : string := "Refactor the token bucket to use monotonic time".

(** The colon-joined cache key of [tokenBucketPrompt] in [exampleWorld]. *)
Definition tokenBucketKey : jsstring :=
  lit "6581ab85ff186611cdc126e92aa902f90ba94f2804e5877d28dfa2c52921a160:048db47dbef1ee4293c0a3ccd8ac1a3f8fea290c85bba6f9c4a77e0277b91333:abc123:claude:agent:24000".

(** What [buildFileSummary] says of the changed file of [exampleWorld]. *)
Definition bucketSummary : jsstring :=
  join NL
    [lit "file: src/rate/bucket.rs";
     lit "lines: 2";
     lit "first_line: export struct Bucket { tokens: u64 }";
     lit "symbols: export struct Bucket { tokens: u64 }"].

(** The governor input [recordRunOutcome] computes in world [w] from [s]. *)
Definition governorInputOf (input : RunOutcomeInput) (w : World) (s : System) : GovernorInput :=
  let repoRoot := repoRootOf (ro_projectPath input) (ro_cwd input) in
  let current := fst (getPersistedState (ro_subChatId input) w s) in
  {| turnsSinceSnapshot := cur_turnsSinceSnapshot current + 1;
     totalInjectedBytes :=
       cur_totalInjectedBytes current
       + Z.max (match ro_injectedBytes input with Some n => n | None => 0 end) 0;
     changedFilesCount := len (changedFiles (fst (getRepoState repoRoot w s)));
     diffLines := fst (getDiffStats repoRoot w s);
     elapsedSinceSnapshotMs :=
       match cur_lastSnapshotAt current with
       | Some at_ => now w - at_
       | None => REHYDRATE_ELAPSED_MS + 1
       end |}.

(** The subcommand of a git command line, after a leading [-C <path>]. *)
Definition gitSubcommand (args : list jsstring) : jsstring :=
  match args with
  | flag :: path :: rest =>
    if streq flag (lit "-C") then List.hd [] rest else flag
  | flag :: _ => flag
  | [] => []
  end.

(** A command that commits: the [commit] method of simple-git (or its [raw]
    method given [commit]), or a process started as [git commit]. *)
Definition initiatesCommit (e : Effect) : bool :=
  match e with
  | SimpleGit _ method args =>
    streq method (lit "commit")
    || (streq method (lit "raw") && streq (gitSubcommand args) (lit "commit"))
  | ExecFile file args _ =>
    streq file (lit "git") && streq (gitSubcommand args) (lit "commit")
  | _ => false
  end.

(** Scenario F: the memory branch policy with auto-commit on, asked for on
    branch [feature/x]. *)
Definition memoryBranchSettings : ContinuitySettingsRow :=
  {| se_artifactPolicy := lit "auto-write-memory-branch";
     se_autoCommitToMemoryBranch := true;
     se_tokenMode := lit "normal";
     se_memoryBranch := lit "memory/continuity";
     se_updatedAt := 0 |}.

Definition memoryBranchSystem : System :=
  {| service := emptyService;
     database := withSettingsTable (fun _ => Some memoryBranchSettings) emptyDatabase;
     effects := [] |}.

Definition exampleOutcome : RunOutcomeInput :=
  {| ro_subChatId := lit "sub-1";
     ro_cwd := lit "/repo";
     ro_projectPath := None;
     ro_provider := Claude;
     ro_mode := Agent;
     ro_prompt := lit tokenBucketPrompt;
     ro_assistantResponse := lit "Done.";
     ro_injectedBytes := Some 817;
     ro_wasError := None |}.

(** A sub-session with eleven turns and 149,500 injected bytes since its
    snapshot at time 0: the next turn meets two rehydrate thresholds. *)
Definition pressuredSystem : System :=
  {| service := emptyService;
     database :=
       withStateTable
         (insert (lit "sub-1")
            {| st_lastChangedFilesHash := lit "no-changes";
               st_turnsSinceSnapshot := 11;
               st_totalInjectedBytes := 149500;
               st_lastSnapshotAt := Some 0;
               st_updatedAt := 0 |})
         emptyDatabase;
     effects := [] |}.

(** The surroundings with another answer of [git diff --numstat]. *)
Definition withNumstat (stdout : jsstring) (w : World) : World :=
  {| env := env w;
     databaseUp := databaseUp w;
     now := now w;
     gitRevparseHead := gitRevparseHead w;
     gitStatusFiles := gitStatusFiles w;
     gitRevparseAbbrevRef := gitRevparseAbbrevRef w;
     gitDiffUnified := gitDiffUnified w;
     gitDiffNumstat := fun _ => Some stdout;
     rgFiles := rgFiles w;
     fsStat := fsStat w;
     fsReadFile := fsReadFile w;
     randomUUID := randomUUID w |}.

Definition passiveEnv : Env :=
  {| ONECODE_CONTINUITY_MODE := Some (lit "passive");
     ONECODE_CONTINUITY_ENABLED := None;
     ONECODE_CONTINUITY_ARTIFACT_POLICY := None;
     ONECODE_CONTINUITY_MEMORY_BRANCH := None;
     ONECODE_CONTINUITY_ENABLE_SNAPSHOT := None;
     ONECODE_CONTINUITY_ENABLE_REHYDRATE := None;
     ONECODE_TOKEN_MODE := None |}.

(** A sub-session six turns after its start, never snapshotted. *)
Definition sixTurns : System :=
  {| service := emptyService;
     database :=
       withStateTable
         (insert (lit "sub-1")
            {| st_lastChangedFilesHash := lit "no-changes";
               st_turnsSinceSnapshot := 6;
               st_totalInjectedBytes := 5000;
               st_lastSnapshotAt := None;
               st_updatedAt := 0 |})
         emptyDatabase;
     effects := [] |}.

Definition failedOutcome : RunOutcomeInput :=
  {| ro_subChatId := lit "sub-1";
     ro_cwd := lit "/repo";
     ro_projectPath := None;
     ro_provider := Claude;
     ro_mode := Agent;
     ro_prompt := lit tokenBucketPrompt;
     ro_assistantResponse := lit "The build failed.";
     ro_injectedBytes := None;
     ro_wasError := Some true |}.

(** What cutting a well-formed string can leave: a well-formed string, or
    one followed by the first half of a pair. *)
Definition cutWellFormed (r : jsstring) : Prop :=
  isWellFormed r = true \/
  exists r' h, r = r' ++ [h] /\ isWellFormed r' = true /\ isHighSurrogate h = true.

(** The table is in order when every row is of a later second than the
    rows after it, the first of them of second [t] at the latest. *)
Inductive newestFirst : Z -> list ContinuityArtifactRow -> Prop :=
| newestFirst_nil t : newestFirst t []
| newestFirst_cons t row rest :
    ar_createdAt row <= t -> newestFirst (ar_createdAt row - 1) rest ->
    newestFirst t (row :: rest).

(** The rows of one sub-session and type. *)
Definition ofPair (subChatId : jsstring) (type : ArtifactType) (row : ContinuityArtifactRow)
    : bool :=
  streq (ar_subChatId row) subChatId && bool_decide (ar_type row = type).

(** No fingerprint twice among the 13 newest artifacts of a pair. *)
Definition windowUnique (table : list ContinuityArtifactRow) : Prop :=
  forall subChatId type,
    NoDup (List.map fingerprintOf (slice (artifactsOf subChatId type table) 0 13)).

(** No fingerprint twice in a pair that has 13 artifacts at most. *)
Definition smallPairsUnique (table : list ContinuityArtifactRow) : Prop :=
  forall subChatId type,
    (length (List.filter (ofPair subChatId type) table) <= 13)%nat ->
    NoDup (List.map fingerprintOf (List.filter (ofPair subChatId type) table)).

(** Whether the protocol state of [s] lets the sub-session use the
    delta-only envelope for [key]. *)
Definition canUseDeltaOnlyIn (s : System) (subChatId key : jsstring) : bool :=
  match protocolOf s !! subChatId with
  | Some (Some lastCacheKey) => streq lastCacheKey key
  | _ => false
  end.

Definition noCommit (e : Effect) : Prop := initiatesCommit e = false.
(** ** Vocabulary of the further properties *)

(** [isContinuityEnabled] of [../config]. *)
Definition isContinuityEnabled (e : Env) : bool :=
  match getContinuityMode e with ModeOff => false | _ => true end.

(** The tables of the store that are no cache of searches or file summaries. *)
Definition coreTablesOf (s : System) :=
  (continuityPackCache (database s), continuityState (database s),
   continuityArtifact (database s), continuitySettings (database s),
   subChats (database s), chats (database s)).

(** A table of session states that kept every session it had, each with its
    turn counter and the time of its last snapshot, and the rows of the
    sessions other than [owner] whole. *)
Definition sessionsKept (owner : jsstring)
    (before after : gmap jsstring ContinuityStateRow) : Prop :=
  forall sub row,
    before !! sub = Some row ->
    exists row',
      after !! sub = Some row'
      /\ st_turnsSinceSnapshot row' = st_turnsSinceSnapshot row
      /\ st_lastSnapshotAt row' = st_lastSnapshotAt row
      /\ (sub <> owner -> row' = row).

(** What [apply] starts or reports: the two reads through simple-git,
    [git diff], [rg --files] and the pack metrics. *)
Definition isProbe (e : Effect) : bool :=
  match e with
  | SimpleGit _ method args =>
    (streq method (lit "revparse") && bool_decide (args = [lit "HEAD"]))
    || (streq method (lit "status") && bool_decide (args = []))
  | ExecFile file args _ =>
    (streq file (lit "git") && streq (gitSubcommand args) (lit "diff"))
    || (streq file (lit "rg") && bool_decide (args = [lit "--files"]))
  | TrackPackMetrics _ _ _ _ _ _ => true
  | _ => false
  end.

Definition probeOnly (e : Effect) : Prop := isProbe e = true.

(** The table has an artifact of a sub-session and type that carries a
    fingerprint. *)
Definition hasArtifact (subChatId : jsstring) (type : ArtifactType) (fingerprint : jsstring)
    (table : list ContinuityArtifactRow) : Prop :=
  exists row,
    In row table
    /\ ar_subChatId row = subChatId /\ ar_type row = type
    /\ fingerprintOf row = Some fingerprint.

(** How many of the five signals reach their snapshot threshold, and how
    many their rehydrate threshold. *)
Definition snapshotSignals (i : GovernorInput) : Z :=
  Z.b2z (SNAPSHOT_TURN_THRESHOLD <=? turnsSinceSnapshot i)
  + Z.b2z (SNAPSHOT_BYTES_THRESHOLD <=? totalInjectedBytes i)
  + Z.b2z (SNAPSHOT_FILES_THRESHOLD <=? changedFilesCount i)
  + Z.b2z (SNAPSHOT_DIFF_THRESHOLD <=? diffLines i)
  + Z.b2z (SNAPSHOT_ELAPSED_MS <=? elapsedSinceSnapshotMs i).

Definition rehydrateSignals (i : GovernorInput) : Z :=
  Z.b2z (REHYDRATE_TURN_THRESHOLD <=? turnsSinceSnapshot i)
  + Z.b2z (REHYDRATE_BYTES_THRESHOLD <=? totalInjectedBytes i)
  + Z.b2z (REHYDRATE_FILES_THRESHOLD <=? changedFilesCount i)
  + Z.b2z (REHYDRATE_DIFF_THRESHOLD <=? diffLines i)
  + Z.b2z (REHYDRATE_ELAPSED_MS <=? elapsedSinceSnapshotMs i).

(** Every white space unit is a plain space, and none follows another. *)
Fixpoint singleSpaced (s : jsstring) : bool :=
  match s with
  | [] => true
  | c :: rest =>
    (negb (isWhiteSpace c)
     || ((c =? 32)
         && match rest with
            | d :: _ => negb (isWhiteSpace d)
            | [] => true
            end))
    && singleSpaced rest
  end.

(** The order of [Array.prototype.sort] without a comparator, as a relation. *)
Definition strLe (a b : jsstring) : Prop := strLeb a b = true.

(** The surroundings with another answer of [git status]. *)
Definition withStatus (paths : list jsstring) (w : World) : World :=
  {| env := env w;
     databaseUp := databaseUp w;
     now := now w;
     gitRevparseHead := gitRevparseHead w;
     gitStatusFiles := fun _ => Some paths;
     gitRevparseAbbrevRef := gitRevparseAbbrevRef w;
     gitDiffUnified := gitDiffUnified w;
     gitDiffNumstat := gitDiffNumstat w;
     rgFiles := rgFiles w;
     fsStat := fsStat w;
     fsReadFile := fsReadFile w;
     randomUUID := randomUUID w |}.

(** The system after the process was started anew: the same store and a
    service whose maps are empty. *)
Definition restarted (s : System) : System :=
  {| service := emptyService; database := database s; effects := effects s |}.

(** The bytes of the strings of a list, added up. *)
Definition totalBytes (parts : list jsstring) : Z :=
  fold_right (fun part sum => byteLength part + sum) 0 parts.

(** The key under which [searchRelevantFiles] caches a search. *)
Definition searchKey (repoRoot headCommit : jsstring) (keywords : list jsstring) : jsstring :=
  repoRoot ++ lit ":" ++ headCommit ++ lit ":" ++ join (lit ",") keywords.

(** ** The settings router ([continuitySettingsRouter])

    The procedures [get] and [update] over the singleton row of
    [continuity_settings].  A call comes to [None] when it throws: the store
    has no handle, or the input does not pass the schema of the procedure. *)

(** The input of [update] with the types its schema asks for; a field that
    is left out is [None]. *)
Record SettingsUpdate := {
  up_artifactPolicy : option jsstring;
  up_autoCommitToMemoryBranch : option bool;
  up_tokenMode : option jsstring;
  up_memoryBranch : option jsstring;
}.

Definition continuityPolicySchema (value : jsstring) : bool :=
  streq value (lit "auto-write-manual-commit")
  || streq value (lit "auto-write-memory-branch").

Definition continuityTokenModeSchema (value : jsstring) : bool :=
  streq value (lit "low") || streq value (lit "normal") || streq value (lit "debug").

(** [schema.optional()] *)
Definition optional {A} (schema : A -> bool) (field : option A) : bool :=
  match field with
  | Some value => schema value
  | None => true
  end.

(** The [z.object] of [update]; [z.string().min(1)] counts code units. *)
Definition updateInputSchema (input : SettingsUpdate) : bool :=
  optional continuityPolicySchema (up_artifactPolicy input)
  && optional continuityTokenModeSchema (up_tokenMode input)
  && optional (fun branch => 1 <=? len branch) (up_memoryBranch input).

Local Open Scope m_scope.

Definition ensureSettingsRow : M (option ContinuitySettingsRow) :=
  w <- world ;;
  if databaseUp w then
    db <- readDatabase ;;
    match continuitySettings db with
    | Some existing => ret (Some existing)
    | None =>
      let inserted :=
        {| se_artifactPolicy :=
             artifactPolicyName (getDefaultContinuityArtifactPolicy (env w));
           se_autoCommitToMemoryBranch := false;
           se_tokenMode := tokenModeName (getContinuityTokenMode (env w));
           se_memoryBranch := getDefaultContinuityMemoryBranch (env w);
           se_updatedAt := timestampToDriver (now w) |} in
      setDatabase (withSettingsTable (fun _ => Some inserted)) ;;;
      ret (Some inserted)
    end
  else ret None.

Module continuitySettingsRouter.

Definition get : M (option ContinuitySettingsRow) := ensureSettingsRow.

Definition update (input : SettingsUpdate) : M (option ContinuitySettingsRow) :=
  if updateInputSchema input then
    w <- world ;;
    if databaseUp w then
      ensured <- ensureSettingsRow ;;
      match ensured with
      | Some current =>
        let nextArtifactPolicy :=
          default (se_artifactPolicy current) (up_artifactPolicy input) in
        let nextAutoCommit :=
          default (se_autoCommitToMemoryBranch current) (up_autoCommitToMemoryBranch input) in
        let nextTokenMode := default (se_tokenMode current) (up_tokenMode input) in
        let nextMemoryBranch :=
          trim (default (se_memoryBranch current) (up_memoryBranch input)) in
        setDatabase (withSettingsTable (option_map (fun _ =>
          {| se_artifactPolicy := nextArtifactPolicy;
             se_autoCommitToMemoryBranch := nextAutoCommit;
             se_tokenMode := nextTokenMode;
             se_memoryBranch :=
               orElse nextMemoryBranch (getDefaultContinuityMemoryBranch (env w));
             se_updatedAt := timestampToDriver (now w) |}))) ;;;
        db <- readDatabase ;;
        ret (continuitySettings db)
      | None => ret None
      end
    else ret None
  else ret None.

End continuitySettingsRouter.

Local Close Scope m_scope.

(** ** The output of [git diff --numstat]

    One line per file: the added and the removed lines in decimal and the
    path, tab separated; [-] stands for both numbers of a binary file. *)
Inductive NumstatEntry :=
| TextFile (added removed : Z) (path : jsstring)
| BinaryFile (path : jsstring).

Definition numstatLine (entry : NumstatEntry) : jsstring :=
  match entry with
  | TextFile added removed path => showZ added ++ [9] ++ showZ removed ++ [9] ++ path
  | BinaryFile path => lit "-" ++ [9] ++ lit "-" ++ [9] ++ path
  end.

Definition numstatOutput (entries : list NumstatEntry) : jsstring :=
  flat_map (fun entry => numstatLine entry ++ NL) entries.

Definition changedLines (entry : NumstatEntry) : Z :=
  match entry with
  | TextFile added removed _ => added + removed
  | BinaryFile _ => 0
  end.

(** Counts are not negative, and a path holds no line feed (git quotes
    one). *)
Definition numstatEntryOk (entry : NumstatEntry) : Prop :=
  match entry with
  | TextFile added removed path => 0 <= added /\ 0 <= removed /\ ~ In 10 path
  | BinaryFile path => ~ In 10 path
  end.

Definition totalChangedLines (entries : list NumstatEntry) : Z :=
  fold_right (fun entry sum => changedLines entry + sum) 0 entries.

(** A digit of lowercase hexadecimal. *)
Definition isLowerHex (c : Z) : bool :=
  ((48 <=? c) && (c <=? 57)) || ((97 <=? c) && (c <=? 102)).

(** A digest as [sha] prints it: 64 digits of lowercase hexadecimal. *)
Definition isDigest (s : jsstring) : Prop := len s = 64 /\ forallb isLowerHex s = true.

(** The digits of a decimal numeral as a string, and the number a run of
    digits stands for when read from the left. *)
Definition digitsOf (d : Decimal.uint) : jsstring := lit (NilEmpty.string_of_uint d).

Definition readDigits (acc : Z) (s : jsstring) : Z :=
  fold_left (fun acc c => 10 * acc + (c - 48)) s acc.

(** A string with no white space in it. *)
Definition solid (s : jsstring) : Prop := Forall (fun c => isWhiteSpace c = false) s.

(** ** Further concrete surroundings *)

(** Passive mode with the rehydrate of the governor switched on. *)
Definition passiveRehydrateEnv : Env :=
  {| ONECODE_CONTINUITY_MODE := Some (lit "passive");
     ONECODE_CONTINUITY_ENABLED := None;
     ONECODE_CONTINUITY_ARTIFACT_POLICY := None;
     ONECODE_CONTINUITY_MEMORY_BRANCH := None;
     ONECODE_CONTINUITY_ENABLE_SNAPSHOT := None;
     ONECODE_CONTINUITY_ENABLE_REHYDRATE := Some (lit "1");
     ONECODE_TOKEN_MODE := None |}.

(** The pressured sub-session with its sub-chat, which holds one message
    of the user, and its chat. *)
Definition chattingSystem : System :=
  {| service := emptyService;
     database :=
       withSubChats
         (insert (lit "sub-1")
            {| sub_chatId := lit "chat-1";
               sub_mode := lit "agent";
               sub_messages :=
                 Some [{| msg_id := lit "m-1";
                          msg_role := lit "user";
                          msg_parts :=
                            Some [{| part_type := lit "text";
                                     part_text := Some (lit tokenBucketPrompt) |}];
                          msg_continuityRehydrate := None |}];
               sub_sessionId := Some (lit "session-1");
               sub_streamId := None;
               sub_updatedAt := 0 |})
         (withChats (insert (lit "chat-1") 0) (database pressuredSystem));
     effects := [] |}.

(** Two files as [git diff --numstat] reports them, one of them binary. *)
Definition twoEntries : list NumstatEntry :=
  [TextFile 30 12 (lit "src/rate/bucket.rs"); BinaryFile (lit "logo.png")].

(** An entry of the ranking comes before another: its score is no lower. *)
Definition byScore (a b : jsstring * Z) : Prop := snd b <= snd a.

(** A file path names a keyword: its lower-cased form, or the base name of
    that, includes it. *)
Definition namesKeyword (toLowerCase : jsstring -> jsstring) (keywords : list jsstring)
    (filePath : jsstring) : Prop :=
  exists keyword,
    keyword ∈ keywords
    /\ (includes (toLowerCase filePath) keyword = true
        \/ includes (basename (toLowerCase filePath)) keyword = true).

(** * Properties *)

(** ** [sha] on the test vectors of FIPS 180-4 *)

Example sha_empty :
  sha [] = lit "e3b0c44298fc1c149afbf4c8996fb92427ae41e4649b934ca495991b7852b855".
Proof. vm_compute. reflexivity. Qed.

Example sha_abc :
  sha (lit "abc") = lit "ba7816bf8f01cfea414140de5dae2223b00361a396177a9cb410ff61f20015ad".
Proof. vm_compute. reflexivity. Qed.

Example sha_two_blocks :
  sha (lit "abcdbcdecdefdefgefghfghighijhijkijkljklmklmnlmnomnopnopq")
  = lit "248d6a61d20638b8e5c026930c3e6039a33ce45964ff2167f6ecedd419db06c1".
Proof. vm_compute. reflexivity. Qed.

(** ** Lists and slices *)

Lemma len_nonneg {A} (l : list A) : 0 <= len l.
Proof. unfold len. lia. Qed.

Lemma slice_0_firstn {A} (l : list A) (k : Z) :
  0 <= k -> slice l 0 k = firstn (Z.to_nat k) l.
Proof.
  intros Hk. unfold slice, relIndex.
  pose proof (len_nonneg l) as Hl.
  replace (0 <? 0) with false by reflexivity.
  destruct (k <? 0) eqn:E; [apply Z.ltb_lt in E; lia|].
  rewrite (Z.min_l 0) by lia. simpl. rewrite Z.sub_0_r.
  destruct (Z.le_gt_cases k (len l)) as [H|H].
  - rewrite Z.min_l by lia. reflexivity.
  - rewrite Z.min_r by lia. unfold len in *. rewrite Nat2Z.id.
    rewrite (firstn_all2 (n:=Z.to_nat k)) by lia.
    rewrite firstn_all. reflexivity.
Qed.

Lemma slice_nil {A} (start stop : Z) : slice (@nil A) start stop = [].
Proof. unfold slice. rewrite skipn_nil, firstn_nil. reflexivity. Qed.

(** ** The rounded product stays below the length *)

Lemma bitLength_spec (n : Z) :
  0 < n -> 2 ^ (bitLength n - 1) <= n < 2 ^ bitLength n.
Proof.
  intros Hn. unfold bitLength.
  destruct (n <=? 0) eqn:E; [apply Z.leb_le in E; lia|].
  replace (Z.log2 n + 1 - 1) with (Z.log2 n) by lia.
  replace (Z.log2 n + 1) with (Z.succ (Z.log2 n)) by lia.
  apply Z.log2_spec. exact Hn.
Qed.

Lemma mulDouble_0_85_bound (n : Z) :
  1 <= n ->
  let '(m, sh) := mulDouble_0_85 n in
  0 <= sh /\ 0 <= m /\ m * 2 ^ sh < n * 2 ^ 53.
Proof.
  intros Hn. unfold mulDouble_0_85.
  set (p := n * DOUBLE_0_85).
  assert (Hp : 0 < p) by (unfold p, DOUBLE_0_85; lia).
  assert (HpM : p < n * 2 ^ 53).
  { unfold p, DOUBLE_0_85. change (2 ^ 53) with 9007199254740992. lia. }
  destruct (bitLength p <=? 53) eqn:Eb.
  - rewrite Z.pow_0_r, Z.mul_1_r. lia.
  - apply Z.leb_gt in Eb.
    set (sh := bitLength p - 53).
    assert (Hsh : 1 <= sh) by (unfold sh; lia).
    pose proof (bitLength_spec p Hp) as [Hlo _].
    replace (bitLength p - 1) with ((sh - 1) + 53) in Hlo by (unfold sh; lia).
    rewrite Z.pow_add_r in Hlo by lia.
    set (half := 2 ^ (sh - 1)) in *.
    assert (Hhalf : 0 < half) by (unfold half; apply Z.pow_pos_nonneg; lia).
    assert (H2 : 2 ^ sh = 2 * half).
    { unfold half. replace sh with (Z.succ (sh - 1)) at 1 by lia.
      rewrite Z.pow_succ_r by lia. reflexivity. }
    rewrite Z.shiftr_div_pow2 by lia.
    pose proof (Z.div_mod p (2 ^ sh) ltac:(lia)) as Hdm.
    pose proof (Z.mod_pos_bound p (2 ^ sh) ltac:(lia)) as Hr.
    assert (Hq : 0 <= p / 2 ^ sh) by (apply Z.div_pos; lia).
    set (q := p / 2 ^ sh) in *. set (r := p mod 2 ^ sh) in *.
    change (2 ^ 53) with 9007199254740992 in *.
    assert (HpC : p = n * 7656119366529843) by reflexivity.
    destruct ((half <? r) || ((r =? half) && Z.odd q)) eqn:Eround.
    + assert (Hge : half <= r).
      { apply orb_true_iff in Eround as [H|H].
        - apply Z.ltb_lt in H. lia.
        - apply andb_true_iff in H as [H _]. apply Z.eqb_eq in H. lia. }
      split; [lia|]. split; [lia|].
      rewrite H2 in *. nia.
    + split; [lia|]. split; [lia|].
      rewrite H2 in *. nia.
Qed.

Lemma floor_0_85_lt (n : Z) : 1 <= n -> 0 <= floor_0_85 n < n.
Proof.
  intros Hn. unfold floor_0_85.
  pose proof (mulDouble_0_85_bound n Hn) as Hb.
  destruct (mulDouble_0_85 n) as [m sh]. destruct Hb as (Hsh & Hm & Hlt).
  rewrite Z.shiftl_mul_pow2 by lia.
  rewrite Z.shiftr_div_pow2 by lia.
  split.
  - apply Z.div_pos; [|lia]. apply Z.mul_nonneg_nonneg; [lia|].
    apply Z.pow_nonneg. lia.
  - apply Z.div_lt_upper_bound; lia.
Qed.

(** On every length a string can have, the rounded product floors to 85
    percent in exact arithmetic. *)
Lemma floor_0_85_exact (n : Z) : 0 <= n < 2 ^ 31 -> floor_0_85 n = n * 17 / 20.
Proof.
  intros [Hn0 Hn].
  destruct (Z.eq_dec n 0) as [->|Hne0]; [reflexivity|].
  destruct (Z.eq_dec n 1) as [->|Hne1]; [reflexivity|].
  assert (Hn2 : 2 <= n) by lia.
  change (2 ^ 31) with 2147483648 in Hn.
  unfold floor_0_85, mulDouble_0_85.
  set (p := n * DOUBLE_0_85).
  assert (HpC : p = n * 7656119366529843) by reflexivity.
  set (q := n * 17 / 20).
  set (r := (n * 17) mod 20).
  assert (Hqr : n * 17 = 20 * q + r) by (apply Z.div_mod; lia).
  assert (Hr : 0 <= r < 20) by (apply Z.mod_pos_bound; lia).
  assert (Hq : 0 <= q) by (apply Z.div_pos; lia).
  assert (Hkey : 20 * (p - q * 9007199254740992) = r * 9007199254740992 - 4 * n) by lia.
  destruct (bitLength p <=? 53) eqn:Eb.
  { apply Z.leb_le in Eb. pose proof (bitLength_spec p ltac:(lia)) as [_ Hhi].
    assert (2 ^ bitLength p <= 2 ^ 53) by (apply Z.pow_le_mono_r; lia).
    change (2 ^ 53) with 9007199254740992 in *. lia. }
  apply Z.leb_gt in Eb.
  set (sh := bitLength p - 53).
  assert (Hsh : 1 <= sh) by (unfold sh; lia).
  pose proof (bitLength_spec p ltac:(lia)) as [Hlo Hhi].
  replace (bitLength p - 1) with ((sh - 1) + 53) in Hlo by (unfold sh; lia).
  replace (bitLength p) with ((sh - 1) + 54) in Hhi by (unfold sh; lia).
  rewrite Z.pow_add_r in Hlo, Hhi by lia.
  set (half := 2 ^ (sh - 1)) in *.
  assert (Hhalf : 0 < half) by (unfold half; apply Z.pow_pos_nonneg; lia).
  assert (H2 : 2 ^ sh = 2 * half).
  { unfold half. replace sh with (Z.succ (sh - 1)) at 1 by lia.
    rewrite Z.pow_succ_r by lia. reflexivity. }
  change (2 ^ 53) with 9007199254740992 in *.
  change (2 ^ 54) with 18014398509481984 in *.
  assert (Hhn : half < n) by nia.
  rewrite Z.shiftr_div_pow2 by lia.
  pose proof (Z.div_mod p (2 ^ sh) ltac:(lia)) as Hdm.
  pose proof (Z.mod_pos_bound p (2 ^ sh) ltac:(lia)) as Hrem.
  set (m := p / 2 ^ sh) in *. set (rem := p mod 2 ^ sh) in *.
  rewrite H2 in *.
  (* the rounded significand times its scale *)
  assert (Hround :
            q * 9007199254740992
            <= fst (if (half <? rem) || ((rem =? half) && Z.odd m) then (m + 1, sh) else (m, sh))
               * (2 * half)
            < (q + 1) * 9007199254740992).
  { destruct (Z.eq_dec r 0) as [Hr0|Hr0].
    - (* 17 n / 20 is whole: the product lies just below it and rounds up to it *)
      assert (Hbelow : 5 * (q * 9007199254740992 - p) = n) by lia.
      assert (Hn5 : 0 < q * 9007199254740992 - p < half) by lia.
      (* 2^53 q is a multiple of the scale *)
      assert (Hmult : exists a, q * 9007199254740992 = a * (2 * half)).
      { assert (Hsh53 : sh <= 53).
        { destruct (Z.le_gt_cases sh 53) as [H|H]; [exact H|exfalso].
          assert (2 ^ 53 <= 2 ^ (sh - 1)) by (apply Z.pow_le_mono_r; lia).
          change (2 ^ 53) with 9007199254740992 in *. fold half in H0. lia. }
        exists (q * 2 ^ (53 - sh)). rewrite <- H2, <- Z.mul_assoc, <- Z.pow_add_r by lia.
        replace (53 - sh + sh) with 53 by lia. reflexivity. }
      destruct Hmult as (a & Ha).
      assert (Hm : m = a - 1) by nia.
      assert (Hup : (half <? rem) = true) by (apply Z.ltb_lt; nia).
      rewrite Hup. cbn [orb fst]. nia.
    - destruct ((half <? rem) || ((rem =? half) && Z.odd m)) eqn:Eround; cbn [fst].
      + assert (Hge : half <= rem).
        { apply orb_true_iff in Eround as [H|H]; [apply Z.ltb_lt in H; lia|].
          apply andb_true_iff in H as [H _]. apply Z.eqb_eq in H. lia. }
        nia.
      + assert (Hle : rem <= half).
        { apply orb_false_iff in Eround as [H _]. apply Z.ltb_ge in H. exact H. }
        nia. }
  destruct ((half <? rem) || ((rem =? half) && Z.odd m)); cbn [fst] in Hround;
    rewrite Z.shiftl_mul_pow2 by lia; rewrite Z.shiftr_div_pow2 by lia;
    rewrite H2; change (2 ^ 53) with 9007199254740992;
    symmetry;
    match goal with
    | |- _ = ?X / _ => apply (Z.div_unique_pos X _ q (X - q * 9007199254740992)); lia
    end.
Qed.

(** ** The truncation loop *)

Lemma floor_0_85_0 : floor_0_85 0 = 0.
Proof. reflexivity. Qed.

Lemma clampBody_firstn (current : jsstring) :
  clampBody current = firstn (Z.to_nat (floor_0_85 (len current))) current.
Proof.
  unfold clampBody. apply slice_0_firstn.
  destruct current as [|c rest]; [change (len (@nil Z)) with 0; rewrite floor_0_85_0; lia|].
  apply floor_0_85_lt. unfold len. simpl length. lia.
Qed.

Lemma clampBody_shorter (c : Z) (rest : jsstring) :
  (length (clampBody (c :: rest)) < length (c :: rest))%nat.
Proof.
  rewrite clampBody_firstn, length_firstn.
  pose proof (floor_0_85_lt (len (c :: rest))) as H.
  unfold len in *. simpl length in *. lia.
Qed.

Lemma clampBody_prefix (current : jsstring) : clampBody current `prefix_of` current.
Proof. rewrite clampBody_firstn. apply prefix_take. Qed.

Lemma clampGuard_nonempty (maxBytes : Z) (current : jsstring) :
  clampGuard maxBytes current = true -> exists c rest, current = c :: rest.
Proof.
  unfold clampGuard. intros H. apply andb_true_iff in H as [_ H].
  destruct current as [|c rest]; [discriminate|eauto].
Qed.

Lemma clampIter_shorter (maxBytes : Z) (next current : jsstring) :
  clampIter maxBytes next current -> (length next < length current)%nat.
Proof.
  intros [Hg ->]. apply clampGuard_nonempty in Hg as (c & rest & ->).
  apply clampBody_shorter.
Qed.

Lemma clampLoop_prefix (fuel : nat) (maxBytes : Z) (current : jsstring) :
  clampLoop fuel maxBytes current `prefix_of` current.
Proof.
  revert current. induction fuel as [|fuel IH]; intros current; simpl.
  - reflexivity.
  - destruct (clampGuard maxBytes current); [|reflexivity].
    etransitivity; [apply IH|apply clampBody_prefix].
Qed.

Lemma clampLoop_exit (fuel : nat) (maxBytes : Z) (current : jsstring) :
  (length current <= fuel)%nat ->
  clampGuard maxBytes (clampLoop fuel maxBytes current) = false.
Proof.
  revert current. induction fuel as [|fuel IH]; intros current Hlen; simpl.
  - destruct current; [|simpl in Hlen; lia].
    unfold clampGuard. apply andb_false_r.
  - destruct (clampGuard maxBytes current) eqn:Hg; [|exact Hg].
    apply IH. pose proof (clampIter_shorter maxBytes _ current (conj Hg eq_refl)). lia.
Qed.

Lemma clampLoop_stable (fuel : nat) (maxBytes : Z) (current : jsstring) :
  clampGuard maxBytes current = false -> clampLoop fuel maxBytes current = current.
Proof. intros H. destruct fuel; simpl; [reflexivity|]. rewrite H. reflexivity. Qed.

Lemma clampLoop_fuel (extra fuel : nat) (maxBytes : Z) (current : jsstring) :
  (length current <= fuel)%nat ->
  clampLoop (fuel + extra) maxBytes current = clampLoop fuel maxBytes current.
Proof.
  revert current. induction fuel as [|fuel IH]; intros current Hlen.
  - destruct current; [|simpl in Hlen; lia].
    simpl. apply clampLoop_stable. unfold clampGuard. apply andb_false_r.
  - simpl. destruct (clampGuard maxBytes current) eqn:Hg; [|reflexivity].
    apply IH. pose proof (clampIter_shorter maxBytes _ current (conj Hg eq_refl)). lia.
Qed.

Lemma clampIter_wf (maxBytes : Z) : well_founded (clampIter maxBytes).
Proof.
  apply (Wf_nat.well_founded_lt_compat _ (fun s : jsstring => length s)).
  intros next current H. apply clampIter_shorter in H. exact H.
Qed.

Lemma byteLength_nil : byteLength [] = 0.
Proof. reflexivity. Qed.

Lemma clampByBytes_prefix (value : jsstring) (maxBytes : Z) :
  clampByBytes value maxBytes `prefix_of` value.
Proof.
  unfold clampByBytes. destruct (byteLength value <=? maxBytes); [reflexivity|].
  apply clampLoop_prefix.
Qed.

Lemma clampByBytes_bound (value : jsstring) (maxBytes : Z) :
  0 <= maxBytes -> byteLength (clampByBytes value maxBytes) <= maxBytes.
Proof.
  intros Hmax. unfold clampByBytes.
  destruct (byteLength value <=? maxBytes) eqn:E; [apply Z.leb_le in E; exact E|].
  pose proof (clampLoop_exit (length value) maxBytes value (Nat.le_refl _)) as Hx.
  unfold clampGuard in Hx. apply andb_false_iff in Hx as [Hx|Hx].
  - apply Z.ltb_ge in Hx. exact Hx.
  - apply Z.ltb_ge in Hx.
    destruct (clampLoop (length value) maxBytes value); [rewrite byteLength_nil; lia|].
    unfold len in Hx. simpl in Hx. lia.
Qed.

(** ** Truncation and surrogate pairs *)


Lemma cutWellFormed_cons (c : Z) (r : jsstring) :
  isSurrogate c = false -> cutWellFormed r -> cutWellFormed (c :: r).
Proof.
  unfold isSurrogate. intros Hc [H|(r' & h & -> & H & Hh)];
    apply orb_false_iff in Hc as [Hhi Hlo].
  - left. simpl. rewrite Hhi, Hlo, H. reflexivity.
  - right. exists (c :: r'), h. repeat split; [|exact Hh].
    simpl. rewrite Hhi, Hlo, H. reflexivity.
Qed.

Lemma cutWellFormed_pair (c d : Z) (r : jsstring) :
  isHighSurrogate c = true -> isLowSurrogate d = true ->
  cutWellFormed r -> cutWellFormed (c :: d :: r).
Proof.
  intros Hc Hd [H|(r' & h & -> & H & Hh)].
  - left. simpl. rewrite Hc, Hd, H. reflexivity.
  - right. exists (c :: d :: r'), h. repeat split; [|exact Hh].
    simpl. rewrite Hc, Hd, H. reflexivity.
Qed.

Lemma high_not_low (c : Z) : isHighSurrogate c = true -> isLowSurrogate c = false.
Proof. unfold isHighSurrogate, isLowSurrogate. lia. Qed.

Lemma firstn_cutWellFormed (n : nat) :
  forall (s : jsstring) (k : nat),
    (length s <= n)%nat -> isWellFormed s = true -> cutWellFormed (firstn k s).
Proof.
  induction n as [|n IH]; intros s k Hlen Hwf.
  - destruct s; [|simpl in Hlen; lia]. rewrite firstn_nil. left. reflexivity.
  - destruct s as [|c rest]; [rewrite firstn_nil; left; reflexivity|].
    destruct k as [|k]; [left; reflexivity|].
    simpl in Hwf, Hlen. destruct (isHighSurrogate c) eqn:Hc.
    + destruct rest as [|d rest']; [discriminate|].
      apply andb_true_iff in Hwf as [Hd Hwf].
      destruct k as [|k].
      * right. exists [], c. repeat split. exact Hc.
      * change (firstn (S (S k)) (c :: d :: rest')) with (c :: d :: firstn k rest').
        apply cutWellFormed_pair; [exact Hc|exact Hd|].
        apply IH; [simpl in Hlen; lia|exact Hwf].
    + apply andb_true_iff in Hwf as [Hlo Hwf].
      change (firstn (S k) (c :: rest)) with (c :: firstn k rest).
      apply cutWellFormed_cons.
      * unfold isSurrogate. rewrite Hc. simpl. apply negb_true_iff. exact Hlo.
      * apply IH; [lia|exact Hwf].
Qed.

Lemma prefix_cutWellFormed (r s : jsstring) :
  r `prefix_of` s -> isWellFormed s = true -> cutWellFormed r.
Proof.
  intros [t ->] Hwf.
  replace r with (firstn (length r) (r ++ t)) by apply take_app_length.
  apply (firstn_cutWellFormed (length (r ++ t))); [lia|exact Hwf].
Qed.

Lemma noSurrogate_wellFormed (s : jsstring) :
  forallb (fun c => negb (isSurrogate c)) s = true -> isWellFormed s = true.
Proof.
  induction s as [|c rest IH]; simpl; [reflexivity|].
  intros H. apply andb_true_iff in H as [Hc Hrest].
  apply negb_true_iff in Hc. unfold isSurrogate in Hc.
  apply orb_false_iff in Hc as [-> ->]. simpl. apply IH, Hrest.
Qed.

Lemma prefix_noSurrogate (r s : jsstring) :
  r `prefix_of` s ->
  forallb (fun c => negb (isSurrogate c)) s = true ->
  forallb (fun c => negb (isSurrogate c)) r = true.
Proof.
  intros [t ->]. rewrite forallb_app. intros H.
  apply andb_true_iff in H as [H _]. exact H.
Qed.

(** ** [clampByBytes]: what it guarantees *)

(** C3, as the claim states it, fails: a well-formed string of ten emoji
    clamped to 35 bytes comes back as eight emoji and the first half of the
    ninth, a lone high surrogate; and no string fits a negative limit. *)
Lemma clampByBytes_splits_surrogate_pair :
  isWellFormed emoji10 = true
  /\ 35 < byteLength emoji10
  /\ clampByBytes emoji10 35 = concat (repeat [0xD83D; 0xDE00] 8) ++ [0xD83D]
  /\ isWellFormed (clampByBytes emoji10 35) = false
  /\ ~ byteLength (clampByBytes (lit "a") (-1)) <= -1.
Proof. vm_compute. repeat split; try reflexivity. intros H. apply H. reflexivity. Qed.

(** C3 (amended): for a limit [n >= 0], a string within the limit comes back
    unchanged; a longer one comes back as a prefix, by code units, of at most
    [n] UTF-8 bytes.  Cutting is by code unit: of a well-formed string it
    leaves a well-formed string, or one followed by the first half of a
    surrogate pair; a string without surrogates stays well-formed. *)
Theorem clampByBytes_spec (s : jsstring) (n : Z) :
  0 <= n ->
  (byteLength s <= n -> clampByBytes s n = s)
  /\ (n < byteLength s ->
      byteLength (clampByBytes s n) <= n
      /\ clampByBytes s n `prefix_of` s
      /\ (isWellFormed s = true -> cutWellFormed (clampByBytes s n))
      /\ (forallb (fun c => negb (isSurrogate c)) s = true ->
          isWellFormed (clampByBytes s n) = true)).
Proof.
  intros Hn. split.
  - intros H. unfold clampByBytes. apply Z.leb_le in H. rewrite H. reflexivity.
  - intros _. pose proof (clampByBytes_prefix s n) as Hp.
    split; [apply clampByBytes_bound, Hn|].
    split; [exact Hp|]. split.
    + intros Hwf. eapply prefix_cutWellFormed; eassumption.
    + intros Hs. apply noSurrogate_wellFormed. eapply prefix_noSurrogate; eassumption.
Qed.

Lemma clampByBytes_spec_witness :
  0 <= 35
  /\ (byteLength emoji10 <= 35 -> clampByBytes emoji10 35 = emoji10)
  /\ (35 < byteLength emoji10 ->
      byteLength (clampByBytes emoji10 35) <= 35
      /\ clampByBytes emoji10 35 `prefix_of` emoji10
      /\ (isWellFormed emoji10 = true -> cutWellFormed (clampByBytes emoji10 35))
      /\ (forallb (fun c => negb (isSurrogate c)) emoji10 = true ->
          isWellFormed (clampByBytes emoji10 35) = true)).
Proof. split; [lia|]. apply (clampByBytes_spec emoji10 35). lia. Defined.

(** C10: the loop of [clampByBytes] terminates and returns a prefix.  No
    chain of iterations is infinite; an iteration on a non-empty string takes
    [floor(0.85 * length)] code units, fewer than it had; the guard fails on
    the empty string; the result is reached with the loop's guard false, and
    more fuel changes nothing; the result is a prefix of the input, empty or
    within the limit. *)
Theorem clampByBytes_terminates_with_prefix :
  (forall maxBytes, well_founded (clampIter maxBytes))
  /\ (forall c rest,
        0 <= floor_0_85 (len (c :: rest)) < len (c :: rest)
        /\ (length (clampBody (c :: rest)) < length (c :: rest))%nat)
  /\ (forall maxBytes, clampGuard maxBytes [] = false)
  /\ (forall s maxBytes,
        clampGuard maxBytes (clampByBytes s maxBytes) = false
        /\ (forall extra,
              clampLoop (length s + extra) maxBytes s = clampLoop (length s) maxBytes s)
        /\ clampByBytes s maxBytes `prefix_of` s
        /\ (clampByBytes s maxBytes = [] \/ byteLength (clampByBytes s maxBytes) <= maxBytes)).
Proof.
  split; [exact clampIter_wf|].
  split.
  { intros c rest. split; [|apply clampBody_shorter].
    apply floor_0_85_lt. unfold len. simpl length. lia. }
  split.
  { intros maxBytes. unfold clampGuard. apply andb_false_r. }
  intros s maxBytes.
  assert (Hexit : clampGuard maxBytes (clampByBytes s maxBytes) = false).
  { unfold clampByBytes. destruct (byteLength s <=? maxBytes) eqn:E.
    - unfold clampGuard. apply Z.leb_le in E.
      apply andb_false_iff. left. apply Z.ltb_ge. exact E.
    - apply clampLoop_exit. lia. }
  split; [exact Hexit|].
  split; [intros extra; apply clampLoop_fuel; lia|].
  split; [apply clampByBytes_prefix|].
  unfold clampGuard in Hexit. apply andb_false_iff in Hexit as [H|H].
  - right. apply Z.ltb_ge in H. exact H.
  - left. apply Z.ltb_ge in H. destruct (clampByBytes s maxBytes); [reflexivity|].
    unfold len in H. simpl in H. lia.
Qed.

(** ** The governor *)

Lemma len_app {A} (a b : list A) : len (a ++ b) = len a + len b.
Proof. unfold len. rewrite length_app. lia. Qed.

Lemma fires_le (T x y : Z) (r : jsstring) :
  x <= y ->
  len (if T <=? x then [r] else []) <= len (if T <=? y then [r] else []).
Proof.
  intros H. destruct (T <=? x) eqn:Ex, (T <=? y) eqn:Ey; unfold len; simpl; lia.
Qed.

Lemma decideGovernor_monotone_pointwise (i j : GovernorInput) :
  turnsSinceSnapshot i <= turnsSinceSnapshot j ->
  totalInjectedBytes i <= totalInjectedBytes j ->
  changedFilesCount i <= changedFilesCount j ->
  diffLines i <= diffLines j ->
  elapsedSinceSnapshotMs i <= elapsedSinceSnapshotMs j ->
  actionRank (action (decideGovernor i)) <= actionRank (action (decideGovernor j)).
Proof.
  intros H1 H2 H3 H4 H5. unfold decideGovernor. cbv zeta.
  match goal with
  | |- context [if 2 <=? len ?sev then _ else if 2 <=? len ?rs then _ else _] =>
    set (severe_i := sev); set (reasons_i := rs)
  end.
  match goal with
  | |- _ <= actionRank (action (if 2 <=? len ?sev then _ else if 2 <=? len ?rs then _ else _)) =>
    set (severe_j := sev); set (reasons_j := rs)
  end.
  assert (Hs : len severe_i <= len severe_j).
  { unfold severe_i, severe_j. rewrite !len_app.
    pose proof (fires_le REHYDRATE_TURN_THRESHOLD _ _ (lit "turn-pressure-high") H1).
    pose proof (fires_le REHYDRATE_BYTES_THRESHOLD _ _ (lit "context-pressure-high") H2).
    pose proof (fires_le REHYDRATE_FILES_THRESHOLD _ _ (lit "scope-pressure-high") H3).
    pose proof (fires_le REHYDRATE_DIFF_THRESHOLD _ _ (lit "diff-pressure-high") H4).
    pose proof (fires_le REHYDRATE_ELAPSED_MS _ _ (lit "time-pressure-high") H5).
    lia. }
  assert (Hr : len reasons_i <= len reasons_j).
  { unfold reasons_i, reasons_j. rewrite !len_app.
    pose proof (fires_le SNAPSHOT_TURN_THRESHOLD _ _ (lit "turn-pressure") H1).
    pose proof (fires_le SNAPSHOT_BYTES_THRESHOLD _ _ (lit "context-pressure") H2).
    pose proof (fires_le SNAPSHOT_FILES_THRESHOLD _ _ (lit "scope-pressure") H3).
    pose proof (fires_le SNAPSHOT_DIFF_THRESHOLD _ _ (lit "diff-pressure") H4).
    pose proof (fires_le SNAPSHOT_ELAPSED_MS _ _ (lit "time-pressure") H5).
    lia. }
  clearbody severe_i severe_j reasons_i reasons_j.
  destruct (2 <=? len severe_i) eqn:E1, (2 <=? len severe_j) eqn:E2,
           (2 <=? len reasons_i) eqn:E3, (2 <=? len reasons_j) eqn:E4;
    simpl; try lia;
    repeat match goal with
           | H : (_ <=? _) = true |- _ => apply Z.leb_le in H
           | H : (_ <=? _) = false |- _ => apply Z.leb_gt in H
           end; lia.
Qed.

(** C4: raising one signal of the governor's input and holding the other
    four never demotes the action along ok, snapshot, rehydrate. *)
Theorem decideGovernor_monotone (i j : GovernorInput) :
  raisesOneSignal i j ->
  actionRank (action (decideGovernor i)) <= actionRank (action (decideGovernor j)).
Proof.
  intros H. apply decideGovernor_monotone_pointwise;
    destruct H as [H|[H|[H|[H|H]]]]; lia.
Qed.

Lemma decideGovernor_monotone_witness :
  let i := {| turnsSinceSnapshot := 7; totalInjectedBytes := 0; changedFilesCount := 1;
              diffLines := 100; elapsedSinceSnapshotMs := 0 |} in
  let j := {| turnsSinceSnapshot := 7; totalInjectedBytes := 0; changedFilesCount := 1;
              diffLines := 210; elapsedSinceSnapshotMs := 0 |} in
  raisesOneSignal i j
  /\ action (decideGovernor i) = ActionOk
  /\ action (decideGovernor j) = ActionSnapshot
  /\ actionRank (action (decideGovernor i)) <= actionRank (action (decideGovernor j)).
Proof.
  intros i j.
  assert (H : raisesOneSignal i j).
  { right. right. right. left. unfold i, j. simpl. lia. }
  split; [exact H|]. split; [reflexivity|]. split; [reflexivity|].
  apply (decideGovernor_monotone i j H).
Defined.

(** ** The artifact writer *)

Lemma streq_true (a b : jsstring) : streq a b = true <-> a = b.
Proof. unfold streq. apply bool_decide_eq_true. Qed.

Lemma streq_refl (a : jsstring) : streq a a = true.
Proof. apply streq_true. reflexivity. Qed.


Lemma newestFirst_weaken (t t' : Z) (l : list ContinuityArtifactRow) :
  t <= t' -> newestFirst t l -> newestFirst t' l.
Proof. intros Ht H. destruct H; constructor; [lia|assumption]. Qed.

Lemma newestFirst_filter (p : ContinuityArtifactRow -> bool) (t : Z)
    (l : list ContinuityArtifactRow) :
  newestFirst t l -> newestFirst t (List.filter p l).
Proof.
  intros H. induction H as [t|t row rest Hle Hrest IH]; simpl; [constructor|].
  destruct (p row).
  - constructor; assumption.
  - eapply newestFirst_weaken; [|exact IH]. lia.
Qed.

Lemma newestFirst_bound (t : Z) (l : list ContinuityArtifactRow) :
  newestFirst t l -> Forall (fun row => ar_createdAt row <= t) l.
Proof.
  intros H. induction H as [t|t row rest Hle Hrest IH]; constructor; [exact Hle|].
  eapply Forall_impl; [exact IH|]. intros older Holder. simpl in Holder. lia.
Qed.

(** A row older than all it is sorted into goes last. *)
Lemma insertByCreatedAt_last (x : ContinuityArtifactRow) (acc : list ContinuityArtifactRow) :
  Forall (fun y => ar_createdAt x < ar_createdAt y) acc ->
  insertByCreatedAt x acc = acc ++ [x].
Proof.
  induction acc as [|y acc IH]; intros H; [reflexivity|].
  inversion H as [|? ? Hy Hacc]; subst. simpl.
  destruct (Z.ltb_spec (ar_createdAt x) (ar_createdAt y)); [|lia].
  rewrite IH by exact Hacc. reflexivity.
Qed.

Lemma orderByCreatedAtDesc_scan (l : list ContinuityArtifactRow) :
  forall (t : Z) (acc : list ContinuityArtifactRow),
    newestFirst t l ->
    Forall (fun y => t < ar_createdAt y) acc ->
    foldr insertByCreatedAt acc (rev l) = acc ++ l.
Proof.
  induction l as [|x l IH]; intros t acc Hl Hacc; simpl.
  - rewrite app_nil_r. reflexivity.
  - inversion Hl as [|? ? ? Hx Hrest]; subst.
    rewrite fold_right_app. simpl.
    rewrite insertByCreatedAt_last
      by (eapply Forall_impl; [exact Hacc|]; intros y Hy; simpl in Hy; lia).
    rewrite (IH (ar_createdAt x - 1)); [rewrite <- app_assoc; reflexivity|exact Hrest|].
    apply Forall_app. split.
    + eapply Forall_impl; [exact Hacc|]. intros y Hy. simpl in Hy. lia.
    + repeat constructor. lia.
Qed.

(** When no two rows are of one second, the query returns the newest
    inserts first. *)
Lemma orderByCreatedAtDesc_sorted (t : Z) (l : list ContinuityArtifactRow) :
  newestFirst t l -> orderByCreatedAtDesc (rev l) = l.
Proof.
  intros H. unfold orderByCreatedAtDesc.
  rewrite (orderByCreatedAtDesc_scan l t [] H); [reflexivity|constructor].
Qed.

Lemma In_insertByCreatedAt x y l : In x (insertByCreatedAt y l) <-> x = y \/ In x l.
Proof.
  induction l as [|z rest IH]; simpl.
  - intuition congruence.
  - destruct (ar_createdAt y <? ar_createdAt z); simpl; [rewrite IH|]; intuition congruence.
Qed.

Lemma In_orderByCreatedAtDesc x l : In x (orderByCreatedAtDesc l) <-> In x l.
Proof.
  unfold orderByCreatedAtDesc. induction l as [|y rest IH]; simpl; [reflexivity|].
  rewrite In_insertByCreatedAt, IH. intuition congruence.
Qed.

Lemma length_insertByCreatedAt x l : length (insertByCreatedAt x l) = S (length l).
Proof.
  induction l as [|y rest IH]; simpl; [reflexivity|].
  destruct (ar_createdAt x <? ar_createdAt y); simpl; [rewrite IH|]; reflexivity.
Qed.

Lemma length_orderByCreatedAtDesc l : length (orderByCreatedAtDesc l) = length l.
Proof.
  unfold orderByCreatedAtDesc. induction l as [|y rest IH]; simpl; [reflexivity|].
  rewrite length_insertByCreatedAt, IH. reflexivity.
Qed.

Lemma carriesFingerprint_spec (fp : jsstring) (row : ContinuityArtifactRow) :
  carriesFingerprint fp row = true <-> fingerprintOf row = Some fp.
Proof.
  unfold carriesFingerprint, fingerprintOf.
  destruct (eventFingerprint (ar_provenanceJson row)) as [found|].
  - rewrite streq_true. split; congruence.
  - split; discriminate.
Qed.

Lemma existsb_carries_false (fp : jsstring) (l : list ContinuityArtifactRow) :
  existsb (carriesFingerprint fp) l = false -> ~ In (Some fp) (List.map fingerprintOf l).
Proof.
  intros H Hin. apply in_map_iff in Hin as (row & Hfp & Hrow).
  apply carriesFingerprint_spec in Hfp.
  assert (existsb (carriesFingerprint fp) l = true) by (apply existsb_exists; eauto).
  congruence.
Qed.

(** The table after [writeArtifactIfNew]: a row is added when the store is
    up, none of the rows the query returns carries the fingerprint, and the
    sub-chat has its row. *)
Lemma writeArtifactIfNew_table (subChatId : jsstring) (type : ArtifactType)
    (fp content : jsstring) (w : World) (s : System) :
  continuityArtifact (database (snd (writeArtifactIfNew subChatId type fp content w s))) =
  if databaseUp w
  then
    if existsb (carriesFingerprint fp)
         (recentArtifacts subChatId type (continuityArtifact (database s)))
    then continuityArtifact (database s)
    else
      match subChats (database s) !! subChatId with
      | Some _ =>
        draftArtifact (length (continuityArtifact (database s))) subChatId type fp content w
        :: continuityArtifact (database s)
      | None => continuityArtifact (database s)
      end
  else continuityArtifact (database s).
Proof.
  unfold writeArtifactIfNew, bind, world, readDatabase, setDatabase, ret. simpl.
  destruct (databaseUp w); [|reflexivity]. simpl.
  destruct (existsb _ _); [reflexivity|].
  destruct (subChats (database s) !! subChatId); reflexivity.
Qed.

Lemma NoDup_firstn {A} (n : nat) (l : list A) : NoDup l -> NoDup (firstn n l).
Proof.
  intros H. rewrite <- (firstn_skipn n l) in H.
  apply NoDup_app in H as (H & _ & _). exact H.
Qed.

Lemma artifactsOf_sorted (t : Z) (subChatId : jsstring) (type : ArtifactType)
    (table : list ContinuityArtifactRow) :
  newestFirst t table ->
  artifactsOf subChatId type table = List.filter (ofPair subChatId type) table.
Proof.
  intros H. unfold artifactsOf, scanArtifacts.
  fold (ofPair subChatId type). rewrite filter_rev.
  eapply orderByCreatedAtDesc_sorted. apply newestFirst_filter. exact H.
Qed.

Lemma writeArtifactIfNew_invariant (t : Z) (c : ArtifactCall) (s : System) :
  t < secondOf c ->
  newestFirst t (continuityArtifact (database s)) ->
  windowUnique (continuityArtifact (database s)) ->
  newestFirst (secondOf c) (continuityArtifact (database (runArtifactCall s c)))
  /\ windowUnique (continuityArtifact (database (runArtifactCall s c))).
Proof.
  intros Ht Hsorted Huniq. unfold runArtifactCall.
  rewrite writeArtifactIfNew_table.
  set (table := continuityArtifact (database s)) in *.
  assert (Hkeep : newestFirst (secondOf c) table)
    by (apply (newestFirst_weaken t); [lia|exact Hsorted]).
  assert (Hbelow : newestFirst (secondOf c - 1) table)
    by (apply (newestFirst_weaken t); [lia|exact Hsorted]).
  destruct (databaseUp (ac_world c)); [|split; assumption].
  destruct (existsb _ _) eqn:Hex; [split; assumption|].
  destruct (subChats (database s) !! ac_subChatId c); [|split; assumption].
  set (row := draftArtifact _ _ _ _ _ _).
  assert (Hnew : newestFirst (secondOf c) (row :: table))
    by (constructor; [apply Z.le_refl|exact Hbelow]).
  split; [exact Hnew|].
  intros sub ty.
  rewrite (artifactsOf_sorted _ _ _ _ Hnew).
  specialize (Huniq sub ty).
  rewrite (artifactsOf_sorted _ _ _ _ Hsorted) in Huniq.
  simpl. unfold ofPair at 1. simpl.
  destruct (streq (ac_subChatId c) sub && bool_decide (ac_type c = ty)) eqn:Hpair;
    [|exact Huniq].
  apply andb_true_iff in Hpair as [Hsub Hty].
  apply streq_true in Hsub. apply bool_decide_eq_true in Hty. subst sub ty.
  unfold recentArtifacts in Hex. fold (artifactsOf (ac_subChatId c) (ac_type c) table) in Hex.
  rewrite (artifactsOf_sorted _ _ _ _ Hsorted) in Hex.
  set (rows := List.filter (ofPair (ac_subChatId c) (ac_type c)) table) in *.
  rewrite slice_0_firstn in * by lia.
  change (Z.to_nat 13) with (S 12) in *. change (Z.to_nat 12) with 12%nat in *.
  simpl. constructor.
  - apply existsb_carries_false in Hex. intros Hin.
    apply list_elem_of_In in Hin. exact (Hex Hin).
  - replace (firstn 12 rows) with (firstn 12 (firstn 13 rows))
      by (rewrite firstn_firstn; reflexivity).
    rewrite <- firstn_map. apply NoDup_firstn. exact Huniq.
Qed.

Lemma runArtifactCalls_invariant (calls : list ArtifactCall) :
  forall (t : Z) (s : System),
    secondsAdvance t calls ->
    newestFirst t (continuityArtifact (database s)) ->
    windowUnique (continuityArtifact (database s)) ->
    windowUnique (continuityArtifact (database (runArtifactCalls calls s))).
Proof.
  induction calls as [|c rest IH]; intros t s Hclock Hsorted Huniq; simpl.
  - exact Huniq.
  - destruct Hclock as [Ht Hrest].
    destruct (writeArtifactIfNew_invariant t c s Ht Hsorted Huniq) as [Hs Hu].
    eapply IH; eassumption.
Qed.

(** While a pair has 12 artifacts at most, the query returns them all. *)
Lemma recentArtifacts_all (subChatId : jsstring) (type : ArtifactType) (fp : jsstring)
    (table : list ContinuityArtifactRow) :
  (length (List.filter (ofPair subChatId type) table) <= 12)%nat ->
  existsb (carriesFingerprint fp) (recentArtifacts subChatId type table) = false ->
  ~ In (Some fp) (List.map fingerprintOf (List.filter (ofPair subChatId type) table)).
Proof.
  intros Hlen Hex Hin. apply in_map_iff in Hin as (row & Hfp & Hrow).
  assert (Hall : In row (recentArtifacts subChatId type table)).
  { unfold recentArtifacts, scanArtifacts. fold (ofPair subChatId type).
    rewrite slice_0_firstn by lia. rewrite firstn_all2.
    - apply In_orderByCreatedAtDesc. rewrite filter_rev. apply in_rev.
      rewrite rev_involutive. exact Hrow.
    - rewrite length_orderByCreatedAtDesc, filter_rev, length_rev.
      change (Z.to_nat 12) with 12%nat. exact Hlen. }
  apply carriesFingerprint_spec in Hfp.
  assert (existsb (carriesFingerprint fp) (recentArtifacts subChatId type table) = true)
    by (apply existsb_exists; eauto).
  congruence.
Qed.

Lemma writeArtifactIfNew_small (c : ArtifactCall) (s : System) :
  smallPairsUnique (continuityArtifact (database s)) ->
  smallPairsUnique (continuityArtifact (database (runArtifactCall s c))).
Proof.
  intros Huniq. unfold runArtifactCall. rewrite writeArtifactIfNew_table.
  set (table := continuityArtifact (database s)) in *.
  destruct (databaseUp (ac_world c)); [|assumption].
  destruct (existsb _ _) eqn:Hex; [assumption|].
  destruct (subChats (database s) !! ac_subChatId c); [|assumption].
  set (row := draftArtifact _ _ _ _ _ _).
  intros sub ty. cbn [List.filter].
  change (ofPair sub ty row)
    with (streq (ac_subChatId c) sub && bool_decide (ac_type c = ty)).
  destruct (streq (ac_subChatId c) sub && bool_decide (ac_type c = ty)) eqn:Hpair;
    [|exact (Huniq sub ty)].
  apply andb_true_iff in Hpair as [Hsub Hty].
  apply streq_true in Hsub. apply bool_decide_eq_true in Hty. subst sub ty.
  cbn [length List.map]. intros Hlen. constructor.
  - intros Hin. apply list_elem_of_In in Hin.
    assert (Hsmall : (length (List.filter (ofPair (ac_subChatId c) (ac_type c)) table)
                      <= 12)%nat) by lia.
    exact (recentArtifacts_all _ _ _ table Hsmall Hex Hin).
  - apply Huniq. lia.
Qed.

Lemma runArtifactCalls_small (calls : list ArtifactCall) :
  forall s : System,
    smallPairsUnique (continuityArtifact (database s)) ->
    smallPairsUnique (continuityArtifact (database (runArtifactCalls calls s))).
Proof.
  induction calls as [|c rest IH]; intros s Huniq; simpl; [exact Huniq|].
  apply IH, writeArtifactIfNew_small, Huniq.
Qed.

(** C7, as the claim states it, fails, and in two ways.  After thirteen
    devlog writes with thirteen fingerprints, a second apart, the first
    fingerprint is no longer among the 12 rows the query returns, and writing
    it again stores a second artifact for the same triple.  And as
    [created_at] holds whole seconds and rows of one second come oldest
    first, thirteen writes within one second hide the thirteenth from the
    query: writing its fingerprint again at once stores it twice.  (Both
    runs are of a sub-session that has its row in [sub_chats]; without the
    row the foreign key lets no artifact in.) *)
Lemma writeArtifactIfNew_duplicates_beyond_window :
  let table calls s := continuityArtifact (database (runArtifactCalls calls s)) in
  (countTriple (lit "sub-1") Devlog (lit "fp-0") (table fourteenWrites (withSubChat emptySystem))
   = 2%nat
   /\ length (table fourteenWrites (withSubChat emptySystem)) = 14%nat)
  /\ (countTriple (lit "sub-1") Devlog (lit "fp-12")
        (table sameSecondWrites (withSubChat emptySystem)) = 2%nat
      /\ length (table sameSecondWrites (withSubChat emptySystem)) = 14%nat)
  /\ table fourteenWrites emptySystem = [].
Proof. vm_compute. repeat split; reflexivity. Qed.

(** C7 (amended): [writeArtifactIfNew] reads up to 12 artifacts of the
    sub-session and type, by descending second of creation and those of one
    second oldest first; it writes nothing when one of them carries the
    fingerprint, when the store is down or when the sub-chat has no row (the
    foreign key), and otherwise inserts one draft artifact.  Over call
    sequences of any length started on an empty table, a pair that has 13
    artifacts at most has no fingerprint twice; and when every call falls in
    a later whole second than the call before it, the fingerprints of the 13
    newest artifacts of every pair are distinct.  Uniqueness of a triple over
    the whole table is not kept. *)
Theorem writeArtifactIfNew_window_unique (calls : list ArtifactCall) (t : Z) (s : System) :
  continuityArtifact (database s) = [] ->
  let table' := continuityArtifact (database (runArtifactCalls calls s)) in
  (forall subChatId type,
     (length (List.filter (ofPair subChatId type) table') <= 13)%nat ->
     NoDup (List.map fingerprintOf (List.filter (ofPair subChatId type) table')))
  /\ (secondsAdvance t calls ->
      forall subChatId type,
        NoDup (List.map fingerprintOf (slice (artifactsOf subChatId type table') 0 13)))
  /\ (forall c s',
        let before := continuityArtifact (database s') in
        let after := continuityArtifact (database (runArtifactCall s' c)) in
        if databaseUp (ac_world c)
           && negb (existsb (carriesFingerprint (ac_eventFingerprint c))
                      (recentArtifacts (ac_subChatId c) (ac_type c) before))
           && bool_decide (is_Some (subChats (database s') !! ac_subChatId c))
        then exists row,
            after = row :: before
            /\ ar_subChatId row = ac_subChatId c
            /\ ar_type row = ac_type c
            /\ fingerprintOf row = Some (ac_eventFingerprint c)
            /\ ar_content row = textColumn (ac_content c)
            /\ ar_status row = lit "draft"
            /\ ar_createdAt row = secondOf c
        else after = before).
Proof.
  intros Hempty table'. split; [|split].
  - apply (runArtifactCalls_small calls s).
    intros sub ty _. rewrite Hempty. constructor.
  - intros Hclock. apply (runArtifactCalls_invariant calls t s Hclock).
    + rewrite Hempty. constructor.
    + intros sub ty. rewrite Hempty. vm_compute. constructor.
  - intros c s' before after. unfold after, runArtifactCall.
    rewrite writeArtifactIfNew_table. fold before.
    destruct (databaseUp (ac_world c)); [|reflexivity].
    destruct (existsb _ _); [reflexivity|].
    destruct (subChats (database s') !! ac_subChatId c) as [chat|] eqn:Echat.
    + rewrite bool_decide_eq_true_2 by (exists chat; reflexivity).
      eexists. split; [reflexivity|]. repeat split.
    + rewrite bool_decide_eq_false_2 by (intros [chat Hchat]; discriminate).
      reflexivity.
Qed.

Lemma writeArtifactIfNew_window_unique_witness :
  let table' :=
    continuityArtifact (database (runArtifactCalls fourteenWrites (withSubChat emptySystem))) in
  continuityArtifact (database (withSubChat emptySystem)) = []
  /\ secondsAdvance 0 fourteenWrites
  /\ length table' = 14%nat
  /\ (forall subChatId type,
        (length (List.filter (ofPair subChatId type) table') <= 13)%nat ->
        NoDup (List.map fingerprintOf (List.filter (ofPair subChatId type) table')))
  /\ forall subChatId type,
      NoDup (List.map fingerprintOf (slice (artifactsOf subChatId type table') 0 13)).
Proof.
  intros table'.
  assert (Hclock : secondsAdvance 0 fourteenWrites) by (vm_compute; intuition congruence).
  split; [reflexivity|]. split; [exact Hclock|]. split; [vm_compute; reflexivity|].
  exact (conj
           (proj1 (writeArtifactIfNew_window_unique fourteenWrites 0 (withSubChat emptySystem)
                     eq_refl))
           (proj1 (proj2 (writeArtifactIfNew_window_unique fourteenWrites 0
                            (withSubChat emptySystem) eq_refl)) Hclock)).
Defined.

(** ** State passing: equations and frames *)

Lemma fst_bind {A B} (m : M A) (k : A -> M B) (w : World) (s : System) :
  fst (bind m k w s) = fst (k (fst (m w s)) w (snd (m w s))).
Proof. reflexivity. Qed.

Lemma snd_bind {A B} (m : M A) (k : A -> M B) (w : World) (s : System) :
  snd (bind m k w s) = snd (k (fst (m w s)) w (snd (m w s))).
Proof. reflexivity. Qed.

Lemma keeps_ret {X A} (part : System -> X) (x : A) : keeps part (ret x).
Proof. intros w s. reflexivity. Qed.

Lemma keeps_bind {X A B} (part : System -> X) (m : M A) (k : A -> M B) :
  keeps part m -> (forall a, keeps part (k a)) -> keeps part (bind m k).
Proof. intros Hm Hk w s. rewrite snd_bind, Hk, Hm. reflexivity. Qed.

Lemma keeps_when {X} (part : System -> X) (c : bool) (m : M unit) :
  keeps part m -> keeps part (when c m).
Proof. intros Hm. destruct c; [exact Hm|apply keeps_ret]. Qed.

Lemma keeps_world {X} (part : System -> X) : keeps part world.
Proof. intros w s. reflexivity. Qed.

Lemma keeps_readService {X} (part : System -> X) : keeps part readService.
Proof. intros w s. reflexivity. Qed.

Lemma keeps_readDatabase {X} (part : System -> X) : keeps part readDatabase.
Proof. intros w s. reflexivity. Qed.

Lemma keeps_through {X Y A} (part : System -> X) (g : X -> Y) (m : M A) :
  keeps part m -> keeps (fun s => g (part s)) m.
Proof. intros H w s. rewrite H. reflexivity. Qed.

Create HintDb keeps.

Ltac keeps_step :=
  lazymatch goal with
  | |- keeps _ (bind _ _) => apply keeps_bind; [|intros ?]
  | |- keeps _ (ret _) => apply keeps_ret
  | |- keeps _ (when _ _) => apply keeps_when
  | |- keeps _ world => apply keeps_world
  | |- keeps _ readService => apply keeps_readService
  | |- keeps _ readDatabase => apply keeps_readDatabase
  | |- keeps _ (let _ := _ in _) => cbv zeta
  | |- keeps _ (match ?x with _ => _ end) => destruct x
  | |- keeps _ _ => first [ solve [intros ? ?; reflexivity] | solve [eauto with keeps] ]
  end.

Ltac keeps_tac := repeat keeps_step.

(** *** Probes touch the effect log only *)

Lemma getRepoState_keeps_service root : keeps service (getRepoState root).
Proof. unfold getRepoState. keeps_tac. Qed.

Lemma getRepoState_keeps_database root : keeps database (getRepoState root).
Proof. unfold getRepoState. keeps_tac. Qed.

Lemma getDiffSnippet_keeps_service root : keeps service (getDiffSnippet root).
Proof. unfold getDiffSnippet. keeps_tac. Qed.

Lemma getDiffSnippet_keeps_database root : keeps database (getDiffSnippet root).
Proof. unfold getDiffSnippet. keeps_tac. Qed.

Lemma getDiffStats_keeps_service root : keeps service (getDiffStats root).
Proof. unfold getDiffStats. keeps_tac. Qed.

Lemma getDiffStats_keeps_database root : keeps database (getDiffStats root).
Proof. unfold getDiffStats. keeps_tac. Qed.

Lemma listFiles_keeps_service root : keeps service (listFiles root).
Proof. unfold listFiles. keeps_tac. Qed.

Lemma listFiles_keeps_database root : keeps database (listFiles root).
Proof. unfold listFiles. keeps_tac. Qed.

Lemma assessAutoCommitPolicy_keeps_service root settings :
  keeps service (assessAutoCommitPolicy root settings).
Proof. unfold assessAutoCommitPolicy. keeps_tac. Qed.

Lemma assessAutoCommitPolicy_keeps_database root settings :
  keeps database (assessAutoCommitPolicy root settings).
Proof. unfold assessAutoCommitPolicy. keeps_tac. Qed.

(** *** Reads change nothing *)

Lemma getConfiguredTokenMode_keeps : keeps (fun s => s) getConfiguredTokenMode.
Proof. unfold getConfiguredTokenMode. keeps_tac. Qed.

Lemma getPersistedState_keeps sub : keeps (fun s => s) (getPersistedState sub).
Proof. unfold getPersistedState. keeps_tac. Qed.

Lemma getPersistedSearch_keeps key : keeps (fun s => s) (getPersistedSearch key).
Proof. unfold getPersistedSearch. keeps_tac. Qed.

Lemma getPersistedSummary_keeps key : keeps (fun s => s) (getPersistedSummary key).
Proof. unfold getPersistedSummary. keeps_tac. Qed.

Lemma getLatestFailingTestDigest_keeps sub :
  keeps (fun s => s) (getLatestFailingTestDigest sub).
Proof. unfold getLatestFailingTestDigest. keeps_tac. Qed.

Lemma buildAnchorPack_keeps root : keeps (fun s => s) (buildAnchorPack root).
Proof. unfold buildAnchorPack. keeps_tac. Qed.

Lemma keeps_all {X A} (part : System -> X) (m : M A) :
  keeps (fun s => s) m -> keeps part m.
Proof. intros H w s. rewrite (H w s). reflexivity. Qed.

Lemma keeps_service {X A} (g : Service -> X) (m : M A) :
  keeps service m -> keeps (fun s => g (service s)) m.
Proof. apply keeps_through. Qed.

Lemma keeps_database {X A} (g : Database -> X) (m : M A) :
  keeps database m -> keeps (fun s => g (database s)) m.
Proof. apply keeps_through. Qed.

(** *** Frames of the named parts *)

Lemma keeps_packsOf {A} (m : M A) : keeps service m -> keeps packsOf m.
Proof. apply (keeps_service contextPackCache). Qed.

Lemma keeps_protocolOf {A} (m : M A) : keeps service m -> keeps protocolOf m.
Proof. apply (keeps_service protocolState). Qed.

Lemma keeps_packTableOf {A} (m : M A) : keeps database m -> keeps packTableOf m.
Proof. apply (keeps_database continuityPackCache). Qed.

Lemma keeps_settingsOf {A} (m : M A) : keeps database m -> keeps settingsOf m.
Proof. apply (keeps_database continuitySettings). Qed.

Lemma keeps_stateTableOf {A} (m : M A) : keeps database m -> keeps stateTableOf m.
Proof. apply (keeps_database continuityState). Qed.

Lemma keeps_artifactTableOf {A} (m : M A) : keeps database m -> keeps artifactTableOf m.
Proof. apply (keeps_database continuityArtifact). Qed.

#[local] Hint Resolve getRepoState_keeps_service getRepoState_keeps_database
  getDiffSnippet_keeps_service getDiffSnippet_keeps_database
  getDiffStats_keeps_service getDiffStats_keeps_database
  listFiles_keeps_service listFiles_keeps_database
  assessAutoCommitPolicy_keeps_service assessAutoCommitPolicy_keeps_database : keeps.

#[local] Hint Resolve getConfiguredTokenMode_keeps getPersistedState_keeps
  getPersistedSearch_keeps getPersistedSummary_keeps getLatestFailingTestDigest_keeps
  buildAnchorPack_keeps : keeps.

#[local] Hint Resolve keeps_packsOf keeps_protocolOf keeps_packTableOf keeps_settingsOf
  keeps_stateTableOf keeps_artifactTableOf | 5 : keeps.

#[local] Hint Resolve keeps_all | 8 : keeps.

Lemma getSubChatState_keeps_packsOf sub :
  keeps packsOf (getSubChatState sub).
Proof. unfold getSubChatState. keeps_tac. Qed.

#[local] Hint Resolve getSubChatState_keeps_packsOf : keeps.

Lemma getSubChatState_keeps_protocolOf sub :
  keeps protocolOf (getSubChatState sub).
Proof. unfold getSubChatState. keeps_tac. Qed.

#[local] Hint Resolve getSubChatState_keeps_protocolOf : keeps.

Lemma getSubChatState_keeps_settingsOf sub :
  keeps settingsOf (getSubChatState sub).
Proof. unfold getSubChatState. keeps_tac. Qed.

#[local] Hint Resolve getSubChatState_keeps_settingsOf : keeps.

Lemma getSubChatState_keeps_packTableOf sub :
  keeps packTableOf (getSubChatState sub).
Proof. unfold getSubChatState. keeps_tac. Qed.

#[local] Hint Resolve getSubChatState_keeps_packTableOf : keeps.

Lemma getSubChatState_keeps_stateTableOf sub :
  keeps stateTableOf (getSubChatState sub).
Proof. unfold getSubChatState. keeps_tac. Qed.

#[local] Hint Resolve getSubChatState_keeps_stateTableOf : keeps.

Lemma storePersistedSearch_keeps_packsOf key root query head result :
  keeps packsOf (storePersistedSearch key root query head result).
Proof. unfold storePersistedSearch. keeps_tac. Qed.

#[local] Hint Resolve storePersistedSearch_keeps_packsOf : keeps.

Lemma storePersistedSearch_keeps_protocolOf key root query head result :
  keeps protocolOf (storePersistedSearch key root query head result).
Proof. unfold storePersistedSearch. keeps_tac. Qed.

#[local] Hint Resolve storePersistedSearch_keeps_protocolOf : keeps.

Lemma storePersistedSearch_keeps_settingsOf key root query head result :
  keeps settingsOf (storePersistedSearch key root query head result).
Proof. unfold storePersistedSearch. keeps_tac. Qed.

#[local] Hint Resolve storePersistedSearch_keeps_settingsOf : keeps.

Lemma storePersistedSearch_keeps_packTableOf key root query head result :
  keeps packTableOf (storePersistedSearch key root query head result).
Proof. unfold storePersistedSearch. keeps_tac. Qed.

#[local] Hint Resolve storePersistedSearch_keeps_packTableOf : keeps.

Lemma storePersistedSummary_keeps_packsOf key root path hash summary :
  keeps packsOf (storePersistedSummary key root path hash summary).
Proof. unfold storePersistedSummary. keeps_tac. Qed.

#[local] Hint Resolve storePersistedSummary_keeps_packsOf : keeps.

Lemma storePersistedSummary_keeps_protocolOf key root path hash summary :
  keeps protocolOf (storePersistedSummary key root path hash summary).
Proof. unfold storePersistedSummary. keeps_tac. Qed.

#[local] Hint Resolve storePersistedSummary_keeps_protocolOf : keeps.

Lemma storePersistedSummary_keeps_settingsOf key root path hash summary :
  keeps settingsOf (storePersistedSummary key root path hash summary).
Proof. unfold storePersistedSummary. keeps_tac. Qed.

#[local] Hint Resolve storePersistedSummary_keeps_settingsOf : keeps.

Lemma storePersistedSummary_keeps_packTableOf key root path hash summary :
  keeps packTableOf (storePersistedSummary key root path hash summary).
Proof. unfold storePersistedSummary. keeps_tac. Qed.

#[local] Hint Resolve storePersistedSummary_keeps_packTableOf : keeps.

Lemma buildDeltaPack_keeps_packsOf sub root repoState prompt :
  keeps packsOf (buildDeltaPack sub root repoState prompt).
Proof. unfold buildDeltaPack. keeps_tac. Qed.

#[local] Hint Resolve buildDeltaPack_keeps_packsOf : keeps.

Lemma buildDeltaPack_keeps_protocolOf sub root repoState prompt :
  keeps protocolOf (buildDeltaPack sub root repoState prompt).
Proof. unfold buildDeltaPack. keeps_tac. Qed.

#[local] Hint Resolve buildDeltaPack_keeps_protocolOf : keeps.

Lemma buildDeltaPack_keeps_settingsOf sub root repoState prompt :
  keeps settingsOf (buildDeltaPack sub root repoState prompt).
Proof. unfold buildDeltaPack. keeps_tac. Qed.

#[local] Hint Resolve buildDeltaPack_keeps_settingsOf : keeps.

Lemma buildDeltaPack_keeps_packTableOf sub root repoState prompt :
  keeps packTableOf (buildDeltaPack sub root repoState prompt).
Proof. unfold buildDeltaPack. keeps_tac. Qed.

#[local] Hint Resolve buildDeltaPack_keeps_packTableOf : keeps.

Lemma searchRelevantFiles_keeps_packsOf tl root keywords head :
  keeps packsOf (searchRelevantFiles tl root keywords head).
Proof. unfold searchRelevantFiles. keeps_tac. Qed.

#[local] Hint Resolve searchRelevantFiles_keeps_packsOf : keeps.

Lemma searchRelevantFiles_keeps_protocolOf tl root keywords head :
  keeps protocolOf (searchRelevantFiles tl root keywords head).
Proof. unfold searchRelevantFiles. keeps_tac. Qed.

#[local] Hint Resolve searchRelevantFiles_keeps_protocolOf : keeps.

Lemma searchRelevantFiles_keeps_settingsOf tl root keywords head :
  keeps settingsOf (searchRelevantFiles tl root keywords head).
Proof. unfold searchRelevantFiles. keeps_tac. Qed.

#[local] Hint Resolve searchRelevantFiles_keeps_settingsOf : keeps.

Lemma searchRelevantFiles_keeps_packTableOf tl root keywords head :
  keeps packTableOf (searchRelevantFiles tl root keywords head).
Proof. unfold searchRelevantFiles. keeps_tac. Qed.

#[local] Hint Resolve searchRelevantFiles_keeps_packTableOf : keeps.

Lemma readSummary_keeps_packsOf root path maxBytes :
  keeps packsOf (readSummary root path maxBytes).
Proof. unfold readSummary. keeps_tac. Qed.

#[local] Hint Resolve readSummary_keeps_packsOf : keeps.

Lemma readSummary_keeps_protocolOf root path maxBytes :
  keeps protocolOf (readSummary root path maxBytes).
Proof. unfold readSummary. keeps_tac. Qed.

#[local] Hint Resolve readSummary_keeps_protocolOf : keeps.

Lemma readSummary_keeps_settingsOf root path maxBytes :
  keeps settingsOf (readSummary root path maxBytes).
Proof. unfold readSummary. keeps_tac. Qed.

#[local] Hint Resolve readSummary_keeps_settingsOf : keeps.

Lemma readSummary_keeps_packTableOf root path maxBytes :
  keeps packTableOf (readSummary root path maxBytes).
Proof. unfold readSummary. keeps_tac. Qed.

#[local] Hint Resolve readSummary_keeps_packTableOf : keeps.

Lemma collectSummaries_keeps_packsOf root budget files :
  forall total summaries, keeps packsOf (collectSummaries root budget files total summaries).
Proof. induction files as [|file rest IH]; intros total summaries; simpl; keeps_tac. Qed.
#[local] Hint Resolve collectSummaries_keeps_packsOf : keeps.

Lemma collectSummaries_keeps_protocolOf root budget files :
  forall total summaries, keeps protocolOf (collectSummaries root budget files total summaries).
Proof. induction files as [|file rest IH]; intros total summaries; simpl; keeps_tac. Qed.
#[local] Hint Resolve collectSummaries_keeps_protocolOf : keeps.

Lemma collectSummaries_keeps_settingsOf root budget files :
  forall total summaries, keeps settingsOf (collectSummaries root budget files total summaries).
Proof. induction files as [|file rest IH]; intros total summaries; simpl; keeps_tac. Qed.
#[local] Hint Resolve collectSummaries_keeps_settingsOf : keeps.

Lemma collectSummaries_keeps_packTableOf root budget files :
  forall total summaries, keeps packTableOf (collectSummaries root budget files total summaries).
Proof. induction files as [|file rest IH]; intros total summaries; simpl; keeps_tac. Qed.
#[local] Hint Resolve collectSummaries_keeps_packTableOf : keeps.

Lemma buildContextPack_keeps_packsOf tl root repoState prompt budget :
  keeps packsOf (buildContextPack tl root repoState prompt budget).
Proof. unfold buildContextPack. keeps_tac. Qed.

#[local] Hint Resolve buildContextPack_keeps_packsOf : keeps.

Lemma buildContextPack_keeps_protocolOf tl root repoState prompt budget :
  keeps protocolOf (buildContextPack tl root repoState prompt budget).
Proof. unfold buildContextPack. keeps_tac. Qed.

#[local] Hint Resolve buildContextPack_keeps_protocolOf : keeps.

Lemma buildContextPack_keeps_settingsOf tl root repoState prompt budget :
  keeps settingsOf (buildContextPack tl root repoState prompt budget).
Proof. unfold buildContextPack. keeps_tac. Qed.

#[local] Hint Resolve buildContextPack_keeps_settingsOf : keeps.

Lemma buildContextPack_keeps_packTableOf tl root repoState prompt budget :
  keeps packTableOf (buildContextPack tl root repoState prompt budget).
Proof. unfold buildContextPack. keeps_tac. Qed.

#[local] Hint Resolve buildContextPack_keeps_packTableOf : keeps.

Lemma storeCachedPack_keeps_protocolOf key fp hash head provider mode budget pack :
  keeps protocolOf (storeCachedPack key fp hash head provider mode budget pack).
Proof. unfold storeCachedPack. keeps_tac. Qed.

#[local] Hint Resolve storeCachedPack_keeps_protocolOf : keeps.

Lemma storeCachedPack_keeps_settingsOf key fp hash head provider mode budget pack :
  keeps settingsOf (storeCachedPack key fp hash head provider mode budget pack).
Proof. unfold storeCachedPack. keeps_tac. Qed.

#[local] Hint Resolve storeCachedPack_keeps_settingsOf : keeps.

Lemma storeCachedPack_keeps_stateTableOf key fp hash head provider mode budget pack :
  keeps stateTableOf (storeCachedPack key fp hash head provider mode budget pack).
Proof. unfold storeCachedPack. keeps_tac. Qed.

#[local] Hint Resolve storeCachedPack_keeps_stateTableOf : keeps.

Lemma storeSubChatState_keeps_packsOf sub hash pack :
  keeps packsOf (storeSubChatState sub hash pack).
Proof. unfold storeSubChatState. keeps_tac. Qed.

#[local] Hint Resolve storeSubChatState_keeps_packsOf : keeps.

Lemma storeSubChatState_keeps_protocolOf sub hash pack :
  keeps protocolOf (storeSubChatState sub hash pack).
Proof. unfold storeSubChatState. keeps_tac. Qed.

#[local] Hint Resolve storeSubChatState_keeps_protocolOf : keeps.

Lemma storeSubChatState_keeps_settingsOf sub hash pack :
  keeps settingsOf (storeSubChatState sub hash pack).
Proof. unfold storeSubChatState. keeps_tac. Qed.

#[local] Hint Resolve storeSubChatState_keeps_settingsOf : keeps.

Lemma storeSubChatState_keeps_packTableOf sub hash pack :
  keeps packTableOf (storeSubChatState sub hash pack).
Proof. unfold storeSubChatState. keeps_tac. Qed.

#[local] Hint Resolve storeSubChatState_keeps_packTableOf : keeps.

Lemma getSafeguardSettings_keeps_service  :
  keeps service (getSafeguardSettings).
Proof. unfold getSafeguardSettings. keeps_tac. Qed.

#[local] Hint Resolve getSafeguardSettings_keeps_service : keeps.

Lemma getSafeguardSettings_keeps_stateTableOf  :
  keeps stateTableOf (getSafeguardSettings).
Proof. unfold getSafeguardSettings. keeps_tac. Qed.

#[local] Hint Resolve getSafeguardSettings_keeps_stateTableOf : keeps.

Lemma getSafeguardSettings_keeps_artifactTableOf  :
  keeps artifactTableOf (getSafeguardSettings).
Proof. unfold getSafeguardSettings. keeps_tac. Qed.

#[local] Hint Resolve getSafeguardSettings_keeps_artifactTableOf : keeps.

Lemma writeArtifactIfNew_keeps_service sub type fp content :
  keeps service (writeArtifactIfNew sub type fp content).
Proof. unfold writeArtifactIfNew. keeps_tac. Qed.

#[local] Hint Resolve writeArtifactIfNew_keeps_service : keeps.

Lemma writeArtifactIfNew_keeps_stateTableOf sub type fp content :
  keeps stateTableOf (writeArtifactIfNew sub type fp content).
Proof. unfold writeArtifactIfNew. keeps_tac. Qed.

#[local] Hint Resolve writeArtifactIfNew_keeps_stateTableOf : keeps.

Lemma writeArtifactIfNew_keeps_settingsOf sub type fp content :
  keeps settingsOf (writeArtifactIfNew sub type fp content).
Proof. unfold writeArtifactIfNew. keeps_tac. Qed.

#[local] Hint Resolve writeArtifactIfNew_keeps_settingsOf : keeps.

Lemma persistGovernorState_keeps_artifactTableOf sub hash turns injected at_ :
  keeps artifactTableOf (persistGovernorState sub hash turns injected at_).
Proof. unfold persistGovernorState. keeps_tac. Qed.

#[local] Hint Resolve persistGovernorState_keeps_artifactTableOf : keeps.

Lemma persistGovernorState_keeps_settingsOf sub hash turns injected at_ :
  keeps settingsOf (persistGovernorState sub hash turns injected at_).
Proof. unfold persistGovernorState. keeps_tac. Qed.

#[local] Hint Resolve persistGovernorState_keeps_settingsOf : keeps.

Lemma executeRehydrate_keeps_service sub prompt why :
  keeps service (executeRehydrate sub prompt why).
Proof. unfold executeRehydrate. keeps_tac. Qed.

#[local] Hint Resolve executeRehydrate_keeps_service : keeps.

Lemma executeRehydrate_keeps_stateTableOf sub prompt why :
  keeps stateTableOf (executeRehydrate sub prompt why).
Proof. unfold executeRehydrate. keeps_tac. Qed.

#[local] Hint Resolve executeRehydrate_keeps_stateTableOf : keeps.

Lemma executeRehydrate_keeps_artifactTableOf sub prompt why :
  keeps artifactTableOf (executeRehydrate sub prompt why).
Proof. unfold executeRehydrate. keeps_tac. Qed.

#[local] Hint Resolve executeRehydrate_keeps_artifactTableOf : keeps.

Lemma executeRehydrate_keeps_settingsOf sub prompt why :
  keeps settingsOf (executeRehydrate sub prompt why).
Proof. unfold executeRehydrate. keeps_tac. Qed.

#[local] Hint Resolve executeRehydrate_keeps_settingsOf : keeps.

(** *** The pack cache *)

Lemma getCachedPack_keeps_protocolOf key : keeps protocolOf (getCachedPack key).
Proof. unfold getCachedPack. keeps_tac. Qed.

Lemma getCachedPack_keeps_database key : keeps database (getCachedPack key).
Proof. unfold getCachedPack. keeps_tac. Qed.

#[local] Hint Resolve getCachedPack_keeps_protocolOf getCachedPack_keeps_database : keeps.

Ltac mstep :=
  unfold bind, world, ret, readService, readDatabase, emit, setService, setDatabase;
  cbv beta zeta; cbn [fst snd].

(** A hot entry is returned as it is, and nothing moves. *)
Lemma getCachedPack_hot (key : jsstring) (c : Z) (pack : jsstring) (w : World) (s : System) :
  packsOf s !! key = Some (c :: pack) ->
  getCachedPack key w s = (Some (c :: pack), s).
Proof.
  unfold packsOf, getCachedPack. mstep. intros H.
  match goal with
  | |- context [match ?x with _ => _ end] =>
    replace x with (Some (c :: pack)) by (symmetry; exact H)
  end.
  reflexivity.
Qed.

(** With no entry in either tier the lookup misses, and nothing moves. *)
Lemma getCachedPack_cold (key : jsstring) (w : World) (s : System) :
  packsOf s !! key = None ->
  packTableOf s !! key = None ->
  getCachedPack key w s = (None, s).
Proof.
  unfold packsOf, packTableOf, getCachedPack. mstep. intros Hhot Htable.
  match goal with
  | |- context [match ?x with _ => _ end] =>
    replace x with (@None jsstring) by (symmetry; exact Hhot)
  end.
  cbv beta. destruct (databaseUp w); [|reflexivity]. cbv beta. cbn [fst snd].
  match goal with
  | |- context [match ?x with _ => _ end] =>
    replace x with (@None ContinuityPackCacheRow) by (symmetry; exact Htable)
  end.
  reflexivity.
Qed.

(** A miss leaves the hot tier as it was. *)
Lemma getCachedPack_miss (key : jsstring) (w : World) (s : System) :
  fst (getCachedPack key w s) = None -> packsOf (snd (getCachedPack key w s)) = packsOf s.
Proof.
  unfold packsOf, getCachedPack. mstep.
  destruct (contextPackCache _ !! key) as [[|c hot]|]; cbv beta; cbn [fst snd];
    try discriminate;
    (destruct (databaseUp w); [|reflexivity]); cbv beta; cbn [fst snd];
    (destruct (continuityPackCache _ !! key) as [row|]; [|reflexivity]);
    (destruct (isEmpty (pc_pack row)); [reflexivity|discriminate]).
Qed.

(** A hit is never the empty pack, and afterwards the hot tier holds it. *)
Lemma getCachedPack_hit (key pack : jsstring) (w : World) (s : System) :
  fst (getCachedPack key w s) = Some pack ->
  pack <> [] /\ packsOf (snd (getCachedPack key w s)) !! key = Some pack.
Proof.
  unfold packsOf, getCachedPack. mstep.
  destruct (contextPackCache _ !! key) as [[|c hot]|] eqn:Ehot;
    cbv beta; cbn [fst snd].
  2: { intros [= <-]. split; [discriminate|exact Ehot]. }
  all: destruct (databaseUp w); [|discriminate]; cbv beta; cbn [fst snd];
    (destruct (continuityPackCache _ !! key) as [row|]; [|discriminate]);
    destruct (isEmpty (pc_pack row)) eqn:Eempty; [discriminate|];
    cbn [fst snd service contextPackCache withContextPackCache];
    intros [= <-]; (split; [intros Hnil; rewrite Hnil in Eempty; discriminate|]);
    apply lookup_insert_eq.
Qed.

Lemma storeCachedPack_packsOf key fp hash head provider mode budget pack w s :
  packsOf (snd (storeCachedPack key fp hash head provider mode budget pack w s)) =
  <[key := pack]> (packsOf s).
Proof.
  unfold packsOf, storeCachedPack, when. mstep.
  destruct (databaseUp w); reflexivity.
Qed.

Lemma storeCachedPack_packTableOf key fp hash head provider mode budget pack w s :
  packTableOf (snd (storeCachedPack key fp hash head provider mode budget pack w s)) =
  if databaseUp w
  then <[key := {| pc_taskFingerprint := fp;
                   pc_changedFilesHash := hash;
                   pc_headCommit := head;
                   pc_provider := providerName provider;
                   pc_mode := chatModeName mode;
                   pc_budgetBytes := budget;
                   pc_pack := textColumn pack;
                   pc_updatedAt := timestampToDriver (now w) |}]> (packTableOf s)
  else packTableOf s.
Proof.
  unfold packTableOf, storeCachedPack, when. mstep.
  destruct (databaseUp w); reflexivity.
Qed.

(** *** What a probe reports does not depend on the system *)

Lemma getRepoState_fst (root : jsstring) (w w' : World) (s s' : System) :
  gitRevparseHead w root = gitRevparseHead w' root ->
  gitStatusFiles w root = gitStatusFiles w' root ->
  fst (getRepoState root w s) = fst (getRepoState root w' s').
Proof.
  unfold getRepoState. mstep. intros -> ->.
  destruct (gitRevparseHead w' root), (gitStatusFiles w' root); reflexivity.
Qed.

Lemma getConfiguredTokenMode_fst (w w' : World) (s s' : System) :
  env w = env w' -> databaseUp w = databaseUp w' -> settingsOf s = settingsOf s' ->
  fst (getConfiguredTokenMode w s) = fst (getConfiguredTokenMode w' s').
Proof.
  unfold settingsOf, getConfiguredTokenMode. mstep. intros -> -> Hs.
  destruct (databaseUp w'); [|reflexivity]. cbv beta. cbn [fst snd]. rewrite Hs.
  destruct (continuitySettings (database s')) as [row|]; [|reflexivity].
  destruct (streq _ _); [reflexivity|].
  destruct (streq _ _); [reflexivity|].
  destruct (streq _ _); reflexivity.
Qed.

(** ** A clamped envelope is never empty *)

Lemma mulDouble_0_85_lower (n : Z) :
  2 <= n ->
  let '(m, sh) := mulDouble_0_85 n in
  0 <= sh /\ 2 ^ 53 <= m * 2 ^ sh.
Proof.
  intros Hn. unfold mulDouble_0_85.
  set (p := n * DOUBLE_0_85).
  assert (Hp : 2 * 7656119366529843 <= p) by (unfold p, DOUBLE_0_85; lia).
  destruct (bitLength p <=? 53) eqn:Eb.
  - rewrite Z.pow_0_r, Z.mul_1_r. change (2 ^ 53) with 9007199254740992. lia.
  - apply Z.leb_gt in Eb.
    set (sh := bitLength p - 53).
    assert (Hsh : 1 <= sh) by (unfold sh; lia).
    pose proof (bitLength_spec p ltac:(lia)) as [Hlo _].
    replace (bitLength p - 1) with ((sh - 1) + 53) in Hlo by (unfold sh; lia).
    rewrite Z.pow_add_r in Hlo by lia.
    set (half := 2 ^ (sh - 1)) in *.
    assert (Hhalf : 0 < half) by (unfold half; apply Z.pow_pos_nonneg; lia).
    assert (H2 : 2 ^ sh = 2 * half).
    { unfold half. replace sh with (Z.succ (sh - 1)) at 1 by lia.
      rewrite Z.pow_succ_r by lia. reflexivity. }
    rewrite Z.shiftr_div_pow2 by lia.
    pose proof (Z.div_mod p (2 ^ sh) ltac:(lia)) as Hdm.
    pose proof (Z.mod_pos_bound p (2 ^ sh) ltac:(lia)) as Hr.
    set (q := p / 2 ^ sh) in *. set (r := p mod 2 ^ sh) in *.
    change (2 ^ 53) with 9007199254740992 in *.
    destruct ((half <? r) || ((r =? half) && Z.odd q)) eqn:Eround.
    + split; [lia|]. rewrite H2 in *. nia.
    + assert (Hle : r <= half).
      { apply orb_false_iff in Eround as [H _]. apply Z.ltb_ge in H. exact H. }
      split; [lia|]. rewrite H2 in *. nia.
Qed.

Lemma floor_0_85_pos (n : Z) : 2 <= n -> 1 <= floor_0_85 n.
Proof.
  intros Hn. unfold floor_0_85.
  pose proof (mulDouble_0_85_lower n Hn) as Hb.
  destruct (mulDouble_0_85 n) as [m sh]. destruct Hb as (Hsh & Hm).
  rewrite Z.shiftl_mul_pow2 by lia.
  rewrite Z.shiftr_div_pow2 by lia.
  apply Z.div_le_lower_bound; lia.
Qed.

Lemma utf8_length_bound (n : nat) :
  forall s : jsstring, (length s <= n)%nat -> (length (utf8 s) <= 3 * length s)%nat.
Proof.
  induction n as [|n IH]; intros s Hlen.
  - destruct s; [simpl; lia|simpl in Hlen; lia].
  - destruct s as [|c rest]; [simpl; lia|].
    simpl in Hlen. pose proof (IH rest ltac:(lia)) as Hrest.
    cbn [utf8].
    destruct (c <? 128); [simpl; lia|].
    destruct (c <? 2048); [simpl; lia|].
    destruct (isHighSurrogate c).
    + destruct rest as [|d rest']; [simpl; lia|].
      destruct (isLowSurrogate d).
      * pose proof (IH rest' ltac:(simpl in Hlen; lia)) as Hrest'.
        rewrite length_app. simpl in *. lia.
      * rewrite length_app. simpl in *. lia.
    + destruct (isLowSurrogate c); rewrite length_app; simpl in *; lia.
Qed.

Lemma byteLength_bound (s : jsstring) : byteLength s <= 3 * len s.
Proof.
  unfold byteLength, len. pose proof (utf8_length_bound (length s) s (Nat.le_refl _)). lia.
Qed.

Lemma clampBody_nonempty (maxBytes : Z) (current : jsstring) :
  3 <= maxBytes -> clampGuard maxBytes current = true -> clampBody current <> [].
Proof.
  intros Hmax Hg. unfold clampGuard in Hg. apply andb_true_iff in Hg as [Hb _].
  apply Z.ltb_lt in Hb. pose proof (byteLength_bound current) as Hbound.
  pose proof (floor_0_85_pos (len current) ltac:(lia)) as Hpos.
  rewrite clampBody_firstn. intros Hnil.
  apply (f_equal (@length Z)) in Hnil. rewrite length_firstn in Hnil.
  unfold len in *. simpl in Hnil. lia.
Qed.

Lemma clampLoop_nonempty (fuel : nat) (maxBytes : Z) (current : jsstring) :
  3 <= maxBytes -> current <> [] -> clampLoop fuel maxBytes current <> [].
Proof.
  intros Hmax. revert current. induction fuel as [|fuel IH]; intros current Hne; simpl.
  - exact Hne.
  - destruct (clampGuard maxBytes current) eqn:Hg; [|exact Hne].
    apply IH. eapply clampBody_nonempty; eassumption.
Qed.

Lemma clampByBytes_nonempty (value : jsstring) (maxBytes : Z) :
  3 <= maxBytes -> value <> [] -> clampByBytes value maxBytes <> [].
Proof.
  intros Hmax Hne. unfold clampByBytes.
  destruct (byteLength value <=? maxBytes); [exact Hne|].
  apply clampLoop_nonempty; assumption.
Qed.

Lemma budget_at_least_3 (mode : ContinuityTokenMode) :
  3 <= maxPackBytes (getContinuityBudgetProfile mode).
Proof. destruct mode; simpl; lia. Qed.

Lemma compositeEnvelope_nonempty mode ids anchorPack contextPack planContract delta objective :
  compositeEnvelope mode ids anchorPack contextPack planContract delta objective <> [].
Proof. unfold compositeEnvelope, stateIdsBlock. simpl. discriminate. Qed.

(** ** [apply], step by step *)

Lemma getRepoState_keeps_protocolOf root : keeps protocolOf (getRepoState root).
Proof. eauto with keeps. Qed.

Lemma getRepoState_keeps_packsOf root : keeps packsOf (getRepoState root).
Proof. eauto with keeps. Qed.

Lemma getRepoState_keeps_settingsOf root : keeps settingsOf (getRepoState root).
Proof. eauto with keeps. Qed.

Lemma getRepoState_keeps_packTableOf root : keeps packTableOf (getRepoState root).
Proof. eauto with keeps. Qed.

Lemma getCachedPack_keeps_settingsOf key : keeps settingsOf (getCachedPack key).
Proof. eauto with keeps. Qed.

Lemma getCachedPack_keeps_packTableOf key : keeps packTableOf (getCachedPack key).
Proof. eauto with keeps. Qed.


Lemma apply_hit tl input w s pack :
  getContinuityMode (env w) <> ModeOff ->
  let root := repoRootOf (in_projectPath input) (in_cwd input) in
  let key := applyKey tl input w s in
  fst (getCachedPack key w (snd (getRepoState root w s))) = Some pack ->
  let canDelta := canUseDeltaOnlyIn s (in_subChatId input) key in
  let r := fst (apply tl input w s) in
  let s' := snd (apply tl input w s) in
  cacheHit r = true
  /\ reusedPercent r = (if canDelta then 95 else 75)
  /\ contextPackId (stateIds r) = sha key
  /\ protocolOf s' = <[in_subChatId input := Some key]> (protocolOf s)
  /\ packsOf s' !! key = Some pack
  /\ settingsOf s' = settingsOf s
  /\ (getContinuityMode (env w) = ModeActive ->
      let delta := fst (applyDeltaPack tl input w s) in
      deltaPackId (stateIds r) = sha delta
      /\ out_prompt r =
         (if canDelta
          then deltaOnlyEnvelope (stateIds r) delta (objectiveLineOf (in_prompt input))
          else pack) ++ NL ++ NL ++ in_prompt input).
Proof.
  intros Hmode root key Hcached canDelta.
  pose proof (getCachedPack_hit _ _ _ _ Hcached) as [_ Hhot].
  revert Hcached Hhot.
  unfold canDelta, canUseDeltaOnlyIn, applyDeltaPack, key, applyKey. clear canDelta key.
  unfold apply. mstep.
  rewrite (getConfiguredTokenMode_keeps w s).
  fold root.
  set (rs := fst (getRepoState root w s)).
  set (s1 := snd (getRepoState root w s)).
  set (key := cacheKeyOf _ _ _ _ _).
  intros Hcached Hhot.
  destruct (getContinuityMode (env w)) eqn:Emode; [congruence| |];
    cbv beta; cbn [fst snd]; fold rs s1 key; rewrite Hcached; cbv beta;
    cbn [fst snd service database effects];
    set (s2 := snd (getCachedPack key w s1)) in *;
    set (delta := fst (buildDeltaPack _ _ _ _ w s2));
    set (s3 := snd (buildDeltaPack _ _ _ _ w s2));
    (assert (Hproto : protocolState (service s3) = protocolOf s)
      by (change (protocolState (service s3)) with (protocolOf s3);
          unfold s3, s2, s1;
          rewrite buildDeltaPack_keeps_protocolOf, getCachedPack_keeps_protocolOf,
            getRepoState_keeps_protocolOf; reflexivity));
    (assert (Hpacks : packsOf s3 = packsOf s2)
      by (unfold s3; rewrite buildDeltaPack_keeps_packsOf; reflexivity));
    (assert (Hsettings : settingsOf s3 = settingsOf s)
      by (unfold s3, s2, s1;
          rewrite buildDeltaPack_keeps_settingsOf, getCachedPack_keeps_settingsOf,
            getRepoState_keeps_settingsOf; reflexivity));
    rewrite Hproto;
    (split; [reflexivity|]); (split; [reflexivity|]); (split; [reflexivity|]);
    (split; [unfold protocolOf at 1; cbn [service protocolState withProtocolState];
             rewrite Hproto; reflexivity|]);
    (split; [unfold packsOf at 1; cbn [service contextPackCache withProtocolState];
             change (contextPackCache (service s3)) with (packsOf s3);
             rewrite Hpacks; exact Hhot|]);
    (split; [exact Hsettings|]).
  - intros [=].
  - intros _. cbv zeta. fold root rs s1 key s2 delta. split; [reflexivity|].
    cbn [stateIds out_prompt].
    destruct (match protocolOf s !! in_subChatId input with
              | Some (Some lastCacheKey) => streq lastCacheKey key
              | _ => false
              end); reflexivity.
Qed.

Lemma buildAnchorPack_fst (root : jsstring) (w : World) (s s' : System) :
  fst (buildAnchorPack root w s) = fst (buildAnchorPack root w s').
Proof. unfold buildAnchorPack. mstep. destruct (len _ =? 0); reflexivity. Qed.

Lemma apply_miss tl input w s :
  getContinuityMode (env w) <> ModeOff ->
  let root := repoRootOf (in_projectPath input) (in_cwd input) in
  let key := applyKey tl input w s in
  fst (getCachedPack key w (snd (getRepoState root w s))) = None ->
  let r := fst (apply tl input w s) in
  let s' := snd (apply tl input w s) in
  let budget := getContinuityBudgetProfile (fst (getConfiguredTokenMode w s)) in
  cacheHit r = false
  /\ reusedPercent r = 35
  /\ contextPackId (stateIds r) = sha key
  /\ protocolOf s' = <[in_subChatId input := Some key]> (protocolOf s)
  /\ settingsOf s' = settingsOf s
  /\ exists pack,
      pack <> []
      /\ byteLength pack <= maxPackBytes budget
      /\ packsOf s' = <[key := pack]> (packsOf s)
      /\ packTableOf s' =
         (if databaseUp w
          then <[key := packRow (sha (normalizePrompt tl (in_prompt input)))
                          (fst (getRepoState root w s)) (in_provider input) (in_mode input)
                          budget pack w]> (packTableOf s)
          else packTableOf s)
      /\ (getContinuityMode (env w) = ModeActive ->
          out_prompt r = pack ++ NL ++ NL ++ in_prompt input)
      /\ deltaPackId (stateIds r) = sha (fst (applyDeltaPack tl input w s))
      /\ pack =
         clampByBytes
           (compositeEnvelope (in_mode input) (stateIds r)
              (fst (buildAnchorPack root w s)) (applyContextPack tl input w s)
              (planContractOf (planContractId (stateIds r))
                 (objectiveLineOf (in_prompt input)))
              (fst (applyDeltaPack tl input w s)) (objectiveLineOf (in_prompt input)))
           (maxPackBytes budget).
Proof.
  intros Hmode root key Hcached.
  pose proof (getCachedPack_miss _ _ _ Hcached) as Hcold.
  revert Hcached Hcold. unfold applyContextPack, applyDeltaPack, key, applyKey. clear key.
  unfold apply. mstep.
  rewrite (getConfiguredTokenMode_keeps w s).
  fold root.
  set (rs := fst (getRepoState root w s)).
  set (s1 := snd (getRepoState root w s)).
  set (budget := getContinuityBudgetProfile _).
  set (key := cacheKeyOf _ _ _ _ _).
  intros Hcached Hcold.
  destruct (getContinuityMode (env w)) eqn:Emode; [congruence| |];
    cbv beta; cbn [fst snd]; fold rs s1 key; rewrite Hcached; cbv beta;
    cbn [fst snd service database effects];
    set (s2 := snd (getCachedPack key w s1)) in *;
    set (delta := fst (buildDeltaPack _ _ _ _ w s2));
    set (s3 := snd (buildDeltaPack _ _ _ _ w s2)).
  all: rewrite (buildAnchorPack_keeps root w s3);
    set (anchor := fst (buildAnchorPack root w s3));
    set (context := fst (buildContextPack _ _ _ _ _ w s3));
    set (s5 := snd (buildContextPack _ _ _ _ _ w s3));
    set (budgeted := clampByBytes (compositeEnvelope _ _ _ _ _ _ _) _);
    set (s6 := snd (storeCachedPack _ _ _ _ _ _ _ _ w s5));
    set (s7 := snd (storeSubChatState _ _ _ w s6)).
  all: assert (Hproto : protocolOf s7 = protocolOf s)
      by (unfold s7, s6, s5, s3, s2, s1;
          rewrite storeSubChatState_keeps_protocolOf, storeCachedPack_keeps_protocolOf,
            buildContextPack_keeps_protocolOf, buildDeltaPack_keeps_protocolOf,
            getCachedPack_keeps_protocolOf, getRepoState_keeps_protocolOf; reflexivity).
  all: assert (Hsettings : settingsOf s7 = settingsOf s)
      by (unfold s7, s6, s5, s3, s2, s1;
          rewrite storeSubChatState_keeps_settingsOf, storeCachedPack_keeps_settingsOf,
            buildContextPack_keeps_settingsOf, buildDeltaPack_keeps_settingsOf,
            getCachedPack_keeps_settingsOf, getRepoState_keeps_settingsOf; reflexivity).
  all: assert (Hpacks5 : packsOf s5 = packsOf s)
      by (unfold s5, s3;
          rewrite buildContextPack_keeps_packsOf, buildDeltaPack_keeps_packsOf, Hcold;
          unfold s1; rewrite getRepoState_keeps_packsOf; reflexivity).
  all: assert (Htable5 : packTableOf s5 = packTableOf s)
      by (unfold s5, s3, s2, s1;
          rewrite buildContextPack_keeps_packTableOf, buildDeltaPack_keeps_packTableOf,
            getCachedPack_keeps_packTableOf, getRepoState_keeps_packTableOf; reflexivity).
  all: assert (Hpacks7 : packsOf s7 = <[key := budgeted]> (packsOf s))
      by (unfold s7, s6;
          rewrite storeSubChatState_keeps_packsOf, storeCachedPack_packsOf, Hpacks5;
          reflexivity).
  all: assert (Htable7 :
                 packTableOf s7 =
                 if databaseUp w
                 then <[key := packRow (sha (normalizePrompt tl (in_prompt input))) rs
                                 (in_provider input) (in_mode input) budget budgeted w]>
                        (packTableOf s)
                 else packTableOf s)
      by (unfold s7, s6;
          rewrite storeSubChatState_keeps_packTableOf, storeCachedPack_packTableOf, Htable5;
          reflexivity).
  all: (split; [reflexivity|]); (split; [reflexivity|]); (split; [reflexivity|]);
    (split; [unfold protocolOf at 1; cbn [service protocolState withProtocolState];
             change (protocolState (service s7)) with (protocolOf s7);
             rewrite Hproto; reflexivity|]);
    (split; [exact Hsettings|]);
    exists budgeted;
    (split; [apply clampByBytes_nonempty;
             [apply budget_at_least_3|apply compositeEnvelope_nonempty]|]);
    (split; [apply clampByBytes_bound; pose proof (budget_at_least_3
               (fst (getConfiguredTokenMode w s))); fold budget in H; lia|]);
    (split; [exact Hpacks7|]);
    (split; [exact Htable7|]);
    (split; [|split; [reflexivity|];
              unfold budgeted, anchor; rewrite (buildAnchorPack_fst root w s3 s);
              destruct (in_mode input); reflexivity]).
  - intros [=].
  - intros _. reflexivity.
Qed.

Lemma applyKey_congr tl input (w w' : World) (s s' : System) :
  sameSurroundings (repoRootOf (in_projectPath input) (in_cwd input)) w w' ->
  settingsOf s = settingsOf s' ->
  applyKey tl input w s = applyKey tl input w' s'.
Proof.
  intros (Henv & Hup & Hhead & Hstatus) Hsettings. unfold applyKey. cbv zeta.
  rewrite (getRepoState_fst _ w w' s s' Hhead Hstatus).
  rewrite (getConfiguredTokenMode_fst w w' s s' Henv Hup Hsettings).
  reflexivity.
Qed.

Lemma applyKey_fromSubChat tl sub input w s :
  applyKey tl (fromSubChat sub input) w s = applyKey tl input w s.
Proof. reflexivity. Qed.

(** A call that finds its own key in the hot tier. *)
Lemma apply_on_hot_pack tl input w s c pack :
  getContinuityMode (env w) <> ModeOff ->
  let key := applyKey tl input w s in
  packsOf s !! key = Some (c :: pack) ->
  let canDelta := canUseDeltaOnlyIn s (in_subChatId input) key in
  let r := fst (apply tl input w s) in
  let s' := snd (apply tl input w s) in
  cacheHit r = true
  /\ reusedPercent r = (if canDelta then 95 else 75)
  /\ protocolOf s' !! in_subChatId input = Some (Some key)
  /\ packsOf s' !! key = Some (c :: pack)
  /\ settingsOf s' = settingsOf s
  /\ (getContinuityMode (env w) = ModeActive ->
      let delta := fst (applyDeltaPack tl input w s) in
      deltaPackId (stateIds r) = sha delta
      /\ out_prompt r =
         (if canDelta
          then deltaOnlyEnvelope (stateIds r) delta (objectiveLineOf (in_prompt input))
          else c :: pack) ++ NL ++ NL ++ in_prompt input).
Proof.
  intros Hmode key Hhot canDelta r s'.
  set (root := repoRootOf (in_projectPath input) (in_cwd input)).
  assert (Hcached : fst (getCachedPack key w (snd (getRepoState root w s))) = Some (c :: pack)).
  { rewrite (getCachedPack_hot key c pack); [reflexivity|].
    rewrite getRepoState_keeps_packsOf. exact Hhot. }
  destruct (apply_hit tl input w s (c :: pack) Hmode Hcached)
    as (H1 & H2 & _ & H4 & H5 & H6 & H7).
  split; [exact H1|]. split; [exact H2|].
  split; [unfold s'; rewrite H4; apply lookup_insert_eq|].
  split; [exact H5|]. split; [exact H6|]. exact H7.
Qed.

Lemma canUseDeltaOnlyIn_same s sub key :
  protocolOf s !! sub = Some (Some key) -> canUseDeltaOnlyIn s sub key = true.
Proof. unfold canUseDeltaOnlyIn. intros ->. apply streq_refl. Qed.

Lemma canUseDeltaOnlyIn_none s sub key :
  protocolOf s !! sub = None -> canUseDeltaOnlyIn s sub key = false.
Proof. unfold canUseDeltaOnlyIn. intros ->. reflexivity. Qed.

(** C1, as the claim states it, fails: the first repeat of a request already
    reports 95 percent and gets the delta-only envelope, which has no anchor
    section, because the missing first call has recorded the key. *)
Lemma apply_first_repeat_is_delta_only :
  let input := exampleInput tokenBucketPrompt in
  let r1 := apply asciiLower input (exampleWorld activeEnv 1000) emptySystem in
  let r2 := apply asciiLower input (exampleWorld activeEnv 2000) (snd r1) in
  cacheHit (fst r1) = false
  /\ protocolOf (snd r1) !! lit "sub-1" = Some (Some tokenBucketKey)
  /\ cacheHit (fst r2) = true
  /\ reusedPercent (fst r2) = 95
  /\ reusedPercent (fst r2) <> 75
  /\ includes (out_prompt (fst r2)) (lit "[1CODE_CONTINUITY_ANCHOR]") = false
  /\ includes (out_prompt (fst r1)) (lit "[1CODE_CONTINUITY_ANCHOR]") = true.
Proof. vm_compute. repeat split; try reflexivity. discriminate. Qed.

(** C1 (amended): of three consecutive [apply] calls with the same input in
    surroundings that answer alike, started with no pack cached, the first is
    a miss (35 percent, the full composite envelope) and records its key in
    the protocol state; so the second and the third are both hits with 95
    percent and the delta-only envelope.  75 percent with the full envelope
    is what a hit reports to a sub-session whose protocol state does not hold
    the key, as to another sub-session sending the same request. *)
Theorem apply_three_times tl input (w1 w2 w3 : World) (s0 : System) (other : jsstring) :
  let root := repoRootOf (in_projectPath input) (in_cwd input) in
  getContinuityMode (env w1) <> ModeOff ->
  sameSurroundings root w1 w2 ->
  sameSurroundings root w1 w3 ->
  packsOf s0 = ∅ ->
  packTableOf s0 = ∅ ->
  protocolOf s0 = ∅ ->
  other <> in_subChatId input ->
  let r1 := apply tl input w1 s0 in
  let r2 := apply tl input w2 (snd r1) in
  let r3 := apply tl input w3 (snd r2) in
  let r2' := apply tl (fromSubChat other input) w2 (snd r1) in
  let key := applyKey tl input w1 s0 in
  let objectiveLine := objectiveLineOf (in_prompt input) in
  let pack :=
    clampByBytes
      (compositeEnvelope (in_mode input) (stateIds (fst r1))
         (fst (buildAnchorPack root w1 s0)) (applyContextPack tl input w1 s0)
         (planContractOf (planContractId (stateIds (fst r1))) objectiveLine)
         (fst (applyDeltaPack tl input w1 s0)) objectiveLine)
      (maxPackBytes (getContinuityBudgetProfile (fst (getConfiguredTokenMode w1 s0)))) in
  (cacheHit (fst r1) = false /\ reusedPercent (fst r1) = 35
   /\ protocolOf (snd r1) !! in_subChatId input = Some (Some key)
   /\ packsOf (snd r1) !! key = Some pack)
  /\ (cacheHit (fst r2) = true /\ reusedPercent (fst r2) = 95
      /\ applyKey tl input w2 (snd r1) = key
      /\ protocolOf (snd r2) !! in_subChatId input = Some (Some key))
  /\ (cacheHit (fst r3) = true /\ reusedPercent (fst r3) = 95
      /\ applyKey tl input w3 (snd r2) = key)
  /\ (cacheHit (fst r2') = true /\ reusedPercent (fst r2') = 75
      /\ protocolOf (snd r1) !! other = None)
  /\ (getContinuityMode (env w1) = ModeActive ->
      out_prompt (fst r1) = pack ++ NL ++ NL ++ in_prompt input
      /\ out_prompt (fst r2) =
         deltaOnlyEnvelope (stateIds (fst r2)) (fst (applyDeltaPack tl input w2 (snd r1)))
           objectiveLine
         ++ NL ++ NL ++ in_prompt input
      /\ out_prompt (fst r3) =
         deltaOnlyEnvelope (stateIds (fst r3)) (fst (applyDeltaPack tl input w3 (snd r2)))
           objectiveLine
         ++ NL ++ NL ++ in_prompt input
      /\ out_prompt (fst r2') = pack ++ NL ++ NL ++ in_prompt input).
Proof.
  intros root Hmode Hw2 Hw3 Hpacks Htable Hproto Hother r1 r2 r3 r2' key objectiveLine pack.
  assert (Hmode2 : getContinuityMode (env w2) <> ModeOff)
    by (destruct Hw2 as (<- & _); exact Hmode).
  assert (Hmode3 : getContinuityMode (env w3) <> ModeOff)
    by (destruct Hw3 as (<- & _); exact Hmode).
  (* the first call misses *)
  assert (Hcold : fst (getCachedPack key w1 (snd (getRepoState root w1 s0))) = None).
  { rewrite getCachedPack_cold; [reflexivity| |].
    - rewrite getRepoState_keeps_packsOf, Hpacks. apply lookup_empty.
    - rewrite getRepoState_keeps_packTableOf, Htable. apply lookup_empty. }
  destruct (apply_miss tl input w1 s0 Hmode Hcold)
    as (M1 & M2 & _ & M4 & M5 & stored & Mne & _ & M6 & _ & M7 & _ & M9).
  fold r1 in M1, M2, M4, M5, M6, M7. fold key in M4, M6.
  change (stored = pack) in M9.
  destruct stored as [|c rest]; [congruence|].
  assert (Hhot1 : packsOf (snd r1) !! key = Some (c :: rest))
    by (rewrite M6; apply lookup_insert_eq).
  assert (Hp1 : protocolOf (snd r1) !! in_subChatId input = Some (Some key))
    by (rewrite M4; apply lookup_insert_eq).
  (* the second call *)
  assert (Hkey2 : applyKey tl input w2 (snd r1) = key)
    by (symmetry; apply applyKey_congr; [exact Hw2|symmetry; exact M5]).
  pose proof (apply_on_hot_pack tl input w2 (snd r1) c rest Hmode2) as A2.
  cbv zeta in A2. rewrite Hkey2 in A2. specialize (A2 Hhot1).
  rewrite (canUseDeltaOnlyIn_same _ _ _ Hp1) in A2.
  fold r2 in A2. destruct A2 as (A21 & A22 & A23 & A24 & A25 & A26).
  (* the third call *)
  assert (Hkey3 : applyKey tl input w3 (snd r2) = key).
  { symmetry. apply applyKey_congr; [exact Hw3|]. rewrite A25. symmetry. exact M5. }
  pose proof (apply_on_hot_pack tl input w3 (snd r2) c rest Hmode3) as A3.
  cbv zeta in A3. rewrite Hkey3 in A3. specialize (A3 A24).
  rewrite (canUseDeltaOnlyIn_same _ _ _ A23) in A3.
  fold r3 in A3. destruct A3 as (A31 & A32 & _ & _ & _ & A36).
  (* the same request from another sub-session *)
  pose proof (apply_on_hot_pack tl (fromSubChat other input) w2 (snd r1) c rest Hmode2) as B.
  cbv zeta in B. rewrite applyKey_fromSubChat, Hkey2 in B. specialize (B Hhot1).
  assert (Hpo : protocolOf (snd r1) !! other = None).
  { rewrite M4, lookup_insert_ne by congruence. rewrite Hproto. apply lookup_empty. }
  change (in_subChatId (fromSubChat other input)) with other in B.
  rewrite (canUseDeltaOnlyIn_none _ _ _ Hpo) in B.
  fold r2' in B. destruct B as (B1 & B2 & _ & _ & _ & B6).
  clearbody pack. subst pack.
  split; [exact (conj M1 (conj M2 (conj Hp1 Hhot1)))|].
  split; [exact (conj A21 (conj A22 (conj Hkey2 A23)))|].
  split; [exact (conj A31 (conj A32 Hkey3))|].
  split; [exact (conj B1 (conj B2 Hpo))|].
  intros Hactive.
  assert (Hactive2 : getContinuityMode (env w2) = ModeActive)
    by (destruct Hw2 as (<- & _); exact Hactive).
  assert (Hactive3 : getContinuityMode (env w3) = ModeActive)
    by (destruct Hw3 as (<- & _); exact Hactive).
  split; [apply M7, Hactive|].
  split; [apply (A26 Hactive2)|].
  split; [apply (A36 Hactive3)|apply (B6 Hactive2)].
Qed.

Lemma apply_three_times_witness :
  let input := exampleInput tokenBucketPrompt in
  let w1 := exampleWorld activeEnv 1000 in
  let w2 := exampleWorld activeEnv 2000 in
  let w3 := exampleWorld activeEnv 3000 in
  let r1 := apply asciiLower input w1 emptySystem in
  let r2 := apply asciiLower input w2 (snd r1) in
  let r3 := apply asciiLower input w3 (snd r2) in
  let r2' := apply asciiLower (fromSubChat (lit "sub-2") input) w2 (snd r1) in
  (getContinuityMode (env w1) <> ModeOff
   /\ sameSurroundings (lit "/repo") w1 w2
   /\ sameSurroundings (lit "/repo") w1 w3
   /\ packsOf emptySystem = ∅
   /\ packTableOf emptySystem = ∅
   /\ protocolOf emptySystem = ∅
   /\ lit "sub-2" <> in_subChatId input)
  /\ (cacheHit (fst r1) = false /\ reusedPercent (fst r1) = 35
      /\ protocolOf (snd r1) !! in_subChatId input
         = Some (Some (applyKey asciiLower input w1 emptySystem)))
  /\ (cacheHit (fst r2) = true /\ reusedPercent (fst r2) = 95)
  /\ (cacheHit (fst r3) = true /\ reusedPercent (fst r3) = 95)
  /\ (cacheHit (fst r2') = true /\ reusedPercent (fst r2') = 75).
Proof.
  intros input w1 w2 w3 r1 r2 r3 r2'.
  assert (Hmode : getContinuityMode (env w1) <> ModeOff) by (vm_compute; discriminate).
  assert (Hw2 : sameSurroundings (lit "/repo") w1 w2) by (repeat split; reflexivity).
  assert (Hw3 : sameSurroundings (lit "/repo") w1 w3) by (repeat split; reflexivity).
  assert (Hother : lit "sub-2" <> in_subChatId input) by (vm_compute; discriminate).
  split.
  { exact (conj Hmode (conj Hw2 (conj Hw3 (conj eq_refl (conj eq_refl (conj eq_refl Hother)))))). }
  destruct (apply_three_times asciiLower input w1 w2 w3 emptySystem (lit "sub-2")
              Hmode Hw2 Hw3 eq_refl eq_refl eq_refl Hother)
    as ((H1 & H1' & Hp & _) & (H2 & H2' & _) & (H3 & H3' & _) & (H4 & H4' & _) & _).
  exact (conj (conj H1 (conj H1' Hp)) (conj (conj H2 H2') (conj (conj H3 H3') (conj H4 H4')))).
Defined.

(** ** The key of the pack cache *)

Lemma hexDigit_not_colon (n : Z) : SHA256.hexDigit n <> 58.
Proof. unfold SHA256.hexDigit. destruct (n <? 10) eqn:E; lia. Qed.

Lemma hex_no_colon (bytes : list Z) : ~ In 58 (SHA256.hex bytes).
Proof.
  unfold SHA256.hex. intros H. apply in_flat_map in H as (b & _ & Hb).
  destruct Hb as [Hb|[Hb|[]]]; eapply hexDigit_not_colon; exact Hb.
Qed.

Lemma sha_no_colon (input : jsstring) : ~ In 58 (sha input).
Proof. apply hex_no_colon. Qed.

Lemma cacheKeyOf_has_colon fp rs provider mode budget :
  In 58 (cacheKeyOf fp rs provider mode budget).
Proof.
  unfold cacheKeyOf. cbn [join]. apply in_or_app. right. left. reflexivity.
Qed.

Lemma cacheKeyOf_not_sha fp rs provider mode budget (x : jsstring) :
  sha x <> cacheKeyOf fp rs provider mode budget.
Proof.
  intros H. apply (sha_no_colon x). rewrite H. apply cacheKeyOf_has_colon.
Qed.

(** C2, as the claim states it, fails: the one row of the pack cache after a
    first call is stored under the colon-joined string itself; under the
    sha256 of that string, which the call reports as context pack id, there
    is no row. *)
Lemma pack_cache_key_is_the_joined_string :
  let r1 := apply asciiLower (exampleInput tokenBucketPrompt)
              (exampleWorld activeEnv 1000) emptySystem in
  List.map fst (map_to_list (packTableOf (snd r1))) = [tokenBucketKey]
  /\ List.map fst (map_to_list (packsOf (snd r1))) = [tokenBucketKey]
  /\ contextPackId (stateIds (fst r1)) = sha tokenBucketKey
  /\ packTableOf (snd r1) !! sha tokenBucketKey = None
  /\ sha tokenBucketKey <> tokenBucketKey.
Proof. vm_compute. repeat split; try reflexivity. discriminate. Qed.

(** C2 (amended): for every [apply] call with the mode not off, the key of
    the pack cache is the six fields joined by colons, as it is.  It is not
    a sha256 digest (it contains a colon); its sha256 is only reported as the
    context pack id.  A hit is a lookup under that key; a miss stores the pack
    under it, in the hot tier and, with the store up, in the [pack_cache]
    table. *)
Theorem apply_pack_cache_key tl input (w : World) (s : System) :
  getContinuityMode (env w) <> ModeOff ->
  let root := repoRootOf (in_projectPath input) (in_cwd input) in
  let rs := fst (getRepoState root w s) in
  let budget := getContinuityBudgetProfile (fst (getConfiguredTokenMode w s)) in
  let taskFingerprint := sha (normalizePrompt tl (in_prompt input)) in
  let key :=
    join (lit ":")
      [taskFingerprint; changedFilesHash rs; headCommit rs;
       providerName (in_provider input); chatModeName (in_mode input);
       showZ (maxPackBytes budget)] in
  let r := fst (apply tl input w s) in
  let s' := snd (apply tl input w s) in
  (forall x, sha x <> key)
  /\ contextPackId (stateIds r) = sha key
  /\ (cacheHit r = true ->
      exists pack,
        fst (getCachedPack key w (snd (getRepoState root w s))) = Some pack
        /\ packsOf s' !! key = Some pack)
  /\ (cacheHit r = false ->
      exists pack,
        packsOf s' = <[key := pack]> (packsOf s)
        /\ packTableOf s' =
           (if databaseUp w
            then <[key := packRow taskFingerprint rs (in_provider input) (in_mode input)
                            budget pack w]> (packTableOf s)
            else packTableOf s)).
Proof.
  intros Hmode root rs budget taskFingerprint key r s'.
  change key with (applyKey tl input w s).
  split; [intros x; apply cacheKeyOf_not_sha|].
  destruct (fst (getCachedPack (applyKey tl input w s) w (snd (getRepoState root w s))))
    as [pack|] eqn:Hcached.
  - destruct (apply_hit tl input w s pack Hmode Hcached) as (H1 & _ & H3 & _ & H5 & _).
    split; [exact H3|]. split.
    + intros _. exists pack. split; [reflexivity|exact H5].
    + intros H. unfold r in H. rewrite H1 in H. discriminate.
  - destruct (apply_miss tl input w s Hmode Hcached)
      as (H1 & _ & H3 & _ & _ & pack & _ & _ & H6 & H7 & _).
    split; [exact H3|]. split.
    + intros H. unfold r in H. rewrite H1 in H. discriminate.
    + intros _. exists pack. split; [exact H6|exact H7].
Qed.

Lemma apply_pack_cache_key_witness :
  let input := exampleInput tokenBucketPrompt in
  let w := exampleWorld activeEnv 1000 in
  let r := fst (apply asciiLower input w emptySystem) in
  let s' := snd (apply asciiLower input w emptySystem) in
  getContinuityMode (env w) <> ModeOff
  /\ (forall x, sha x <> tokenBucketKey)
  /\ contextPackId (stateIds r) = sha tokenBucketKey
  /\ (cacheHit r = false -> exists pack, packsOf s' = <[tokenBucketKey := pack]> (packsOf emptySystem)).
Proof.
  intros input w r s'.
  assert (Hmode : getContinuityMode (env w) <> ModeOff) by (vm_compute; discriminate).
  split; [exact Hmode|].
  destruct (apply_pack_cache_key asciiLower input w emptySystem Hmode) as (H1 & H2 & _ & H4).
  assert (Hkey :
            join (lit ":")
              [sha (normalizePrompt asciiLower (in_prompt input));
               changedFilesHash (fst (getRepoState (lit "/repo") w emptySystem));
               headCommit (fst (getRepoState (lit "/repo") w emptySystem));
               providerName (in_provider input); chatModeName (in_mode input);
               showZ (maxPackBytes
                        (getContinuityBudgetProfile
                           (fst (getConfiguredTokenMode w emptySystem))))]
            = tokenBucketKey) by (vm_compute; reflexivity).
  change (repoRootOf (in_projectPath input) (in_cwd input)) with (lit "/repo") in H1, H2, H4.
  rewrite Hkey in H1, H2, H4.
  split; [exact H1|]. split; [exact H2|].
  intros Hmiss. destruct (H4 Hmiss) as (pack & Hp & _). exists pack. exact Hp.
Defined.

(** ** The context pack without keywords *)

(** C8, as the claim states it, fails: the prompt "fix it" has no keyword,
    yet with one changed file in the repository the builder returns that
    file's summary. *)
Lemma buildContextPack_without_keywords_summarises_changes :
  extractKeywords asciiLower (lit "fix it") = []
  /\ changedFiles exampleRepoState = [lit "src/rate/bucket.rs"]
  /\ fst (buildContextPack asciiLower (lit "/repo") exampleRepoState (lit "fix it")
            (getContinuityBudgetProfile TokenNormal) (exampleWorld activeEnv 1000) emptySystem)
     = bucketSummary
  /\ bucketSummary <> lit "No relevant files identified.".
Proof. vm_compute. repeat split; try reflexivity. discriminate. Qed.

(** C8 (amended): for every prompt whose keyword extraction is empty the
    search adds no file, so the candidates are the first four changed files
    (without repeats, at most [maxContextFiles]); the builder returns "No
    relevant files identified." when there is no candidate, in particular when
    the repository has no changed file, and the joined summaries of the
    candidates otherwise. *)
Theorem buildContextPack_without_keywords tl root repoState prompt budget
    (w : World) (s : System) :
  extractKeywords tl prompt = [] ->
  let candidates :=
    slice (dedupe (slice (changedFiles repoState) 0 4)) 0 (maxContextFiles budget) in
  fst (buildContextPack tl root repoState prompt budget w s) =
    (if len candidates =? 0 then lit "No relevant files identified."
     else join SUMMARY_SEPARATOR (fst (collectSummaries root budget candidates 0 [] w s)))
  /\ (changedFiles repoState = [] ->
      fst (buildContextPack tl root repoState prompt budget w s)
      = lit "No relevant files identified.").
Proof.
  intros Hkw candidates.
  assert (Heq : fst (buildContextPack tl root repoState prompt budget w s) =
                if len candidates =? 0 then lit "No relevant files identified."
                else join SUMMARY_SEPARATOR
                       (fst (collectSummaries root budget candidates 0 [] w s))).
  { unfold buildContextPack. rewrite Hkw.
    change (searchRelevantFiles tl root [] (headCommit repoState)) with (@ret (list jsstring) []).
    mstep. rewrite app_nil_r. fold candidates.
    destruct (len candidates =? 0); reflexivity. }
  split; [exact Heq|].
  intros Hnone. rewrite Heq. unfold candidates. rewrite Hnone.
  change (dedupe (slice [] 0 4)) with (@nil jsstring). rewrite slice_nil. reflexivity.
Qed.

Lemma buildContextPack_without_keywords_witness :
  extractKeywords asciiLower (lit "fix it") = []
  /\ fst (buildContextPack asciiLower (lit "/repo") exampleRepoState (lit "fix it")
            (getContinuityBudgetProfile TokenNormal) (exampleWorld activeEnv 1000) emptySystem)
     = (if len (slice (dedupe (slice (changedFiles exampleRepoState) 0 4)) 0
                  (maxContextFiles (getContinuityBudgetProfile TokenNormal))) =? 0
        then lit "No relevant files identified."
        else join SUMMARY_SEPARATOR
               (fst (collectSummaries (lit "/repo") (getContinuityBudgetProfile TokenNormal)
                       (slice (dedupe (slice (changedFiles exampleRepoState) 0 4)) 0
                          (maxContextFiles (getContinuityBudgetProfile TokenNormal)))
                       0 [] (exampleWorld activeEnv 1000) emptySystem))).
Proof.
  assert (Hkw : extractKeywords asciiLower (lit "fix it") = []) by reflexivity.
  split; [exact Hkw|].
  exact (proj1 (buildContextPack_without_keywords asciiLower (lit "/repo") exampleRepoState
                  (lit "fix it") (getContinuityBudgetProfile TokenNormal)
                  (exampleWorld activeEnv 1000) emptySystem Hkw)).
Defined.

(** ** Effects only accumulate *)

Lemma emitsOnly_ret {A} (P : Effect -> Prop) (x : A) : emitsOnly P (ret x).
Proof. intros w s. exists []. split; [symmetry; apply app_nil_r|constructor]. Qed.

Lemma emitsOnly_bind {A B} (P : Effect -> Prop) (m : M A) (k : A -> M B) :
  emitsOnly P m -> (forall a, emitsOnly P (k a)) -> emitsOnly P (bind m k).
Proof.
  intros Hm Hk w s. rewrite snd_bind.
  destruct (Hm w s) as (new1 & E1 & F1).
  destruct (Hk (fst (m w s)) w (snd (m w s))) as (new2 & E2 & F2).
  exists (new1 ++ new2). split.
  - rewrite E2, E1, app_assoc. reflexivity.
  - apply Forall_app. split; assumption.
Qed.

Lemma emitsOnly_when (P : Effect -> Prop) (c : bool) (m : M unit) :
  emitsOnly P m -> emitsOnly P (when c m).
Proof. intros Hm. destruct c; [exact Hm|apply emitsOnly_ret]. Qed.

Lemma emitsOnly_emit (P : Effect -> Prop) (e : Effect) : P e -> emitsOnly P (emit e).
Proof. intros He w s. exists [e]. split; [reflexivity|]. constructor; [exact He|constructor]. Qed.

Lemma emitsOnly_keeps {A} (P : Effect -> Prop) (m : M A) : keeps effects m -> emitsOnly P m.
Proof.
  intros Hm w s. exists []. split; [rewrite (Hm w s); symmetry; apply app_nil_r|constructor].
Qed.

Lemma emitsOnly_In {A} (P : Effect -> Prop) (m : M A) (e : Effect) (w : World) (s : System) :
  emitsOnly P m -> In e (effects s) -> In e (effects (snd (m w s))).
Proof.
  intros Hm Hin. destruct (Hm w s) as (new & E & _). rewrite E.
  apply in_or_app. left. exact Hin.
Qed.

Create HintDb emits.

Ltac emits_step :=
  cbv beta iota zeta;
  lazymatch goal with
  | |- emitsOnly _ (bind _ _) => apply emitsOnly_bind; [|intros ?]
  | |- emitsOnly _ (ret _) => apply emitsOnly_ret
  | |- emitsOnly _ (when _ _) => apply emitsOnly_when
  | |- emitsOnly _ (emit _) => apply emitsOnly_emit; reflexivity
  | |- emitsOnly _ (match ?x with _ => _ end) => destruct x
  | |- emitsOnly _ _ =>
    first [ solve [apply emitsOnly_keeps; keeps_tac; fail] | solve [eauto with emits] ]
  end.

Ltac emits_tac := repeat emits_step.


Lemma getRepoState_emits root : emitsOnly noCommit (getRepoState root).
Proof. unfold getRepoState. emits_tac. Qed.

Lemma getDiffStats_emits root : emitsOnly noCommit (getDiffStats root).
Proof. unfold getDiffStats. emits_tac. Qed.

Lemma assessAutoCommitPolicy_emits root settings :
  emitsOnly noCommit (assessAutoCommitPolicy root settings).
Proof. unfold assessAutoCommitPolicy. emits_tac. Qed.

Lemma getSafeguardSettings_keeps_effects : keeps effects getSafeguardSettings.
Proof. unfold getSafeguardSettings. keeps_tac. Qed.

Lemma writeArtifactIfNew_keeps_effects sub type fp content :
  keeps effects (writeArtifactIfNew sub type fp content).
Proof. unfold writeArtifactIfNew. keeps_tac. Qed.

Lemma persistGovernorState_keeps_effects sub hash turns injected at_ :
  keeps effects (persistGovernorState sub hash turns injected at_).
Proof. unfold persistGovernorState. keeps_tac. Qed.

Lemma executeRehydrate_keeps_effects sub prompt why :
  keeps effects (executeRehydrate sub prompt why).
Proof. unfold executeRehydrate. keeps_tac. Qed.

#[local] Hint Resolve getSafeguardSettings_keeps_effects writeArtifactIfNew_keeps_effects
  persistGovernorState_keeps_effects executeRehydrate_keeps_effects : keeps.

#[local] Hint Resolve getRepoState_emits getDiffStats_emits assessAutoCommitPolicy_emits : emits.

Lemma recordRunOutcome_emits tl input : emitsOnly noCommit (recordRunOutcome tl input).
Proof. unfold recordRunOutcome. emits_tac. Qed.

(** ** [recordRunOutcome], step by step *)

Ltac frame part :=
  repeat match goal with
         | |- context [part (snd (?m ?w ?s))] =>
           let H := fresh "Hkeep" in
           assert (H : keeps part m) by (keeps_tac; fail);
           rewrite (H w s); clear H
         end.

Ltac bindstep :=
  repeat (first [rewrite fst_bind | rewrite snd_bind]; cbv beta);
  cbn [fst snd world ret readService readDatabase].

Lemma getDiffStats_fst (root : jsstring) (w : World) (s s' : System) :
  fst (getDiffStats root w s) = fst (getDiffStats root w s').
Proof. unfold getDiffStats. mstep. destruct (gitDiffNumstat w root); reflexivity. Qed.

Lemma getPersistedState_fst (sub : jsstring) (w : World) (s s' : System) :
  stateTableOf s = stateTableOf s' ->
  fst (getPersistedState sub w s) = fst (getPersistedState sub w s').
Proof.
  unfold stateTableOf, getPersistedState. mstep. intros H.
  destruct (databaseUp w); [|reflexivity]. cbv beta. cbn [fst snd]. rewrite H. 
  destruct (continuityState (database s') !! sub); reflexivity.
Qed.

Lemma getPersistedState_prior (sub : jsstring) (w : World) (s : System) :
  databaseUp w = true ->
  fst (getPersistedState sub w s) =
  match stateTableOf s !! sub with
  | Some row =>
    {| cur_turnsSinceSnapshot := st_turnsSinceSnapshot row;
       cur_totalInjectedBytes := st_totalInjectedBytes row;
       cur_lastSnapshotAt := timestampFromDriver <$> st_lastSnapshotAt row |}
  | None => noPersistedState
  end.
Proof.
  unfold stateTableOf, getPersistedState. mstep. intros ->. cbv beta. cbn [fst snd].
  destruct (continuityState (database s) !! sub); reflexivity.
Qed.

(** A time read from the store is written back as it was. *)
Lemma timestamp_round_trip (seconds : Z) :
  timestampToDriver (timestampFromDriver seconds) = seconds.
Proof. unfold timestampToDriver, timestampFromDriver. apply Z.div_mul. lia. Qed.


(** The snapshot time [getPersistedState] reads is a time of the store. *)
Lemma getPersistedState_stored_time (sub : jsstring) (w : World) (s : System) :
  timestampFromDriver <$> (timestampToDriver <$> cur_lastSnapshotAt (fst (getPersistedState sub w s)))
  = cur_lastSnapshotAt (fst (getPersistedState sub w s)).
Proof.
  unfold getPersistedState. mstep.
  destruct (databaseUp w); [|reflexivity]. cbv beta. cbn [fst snd].
  destruct (continuityState (database s) !! sub) as [row|]; [|reflexivity].
  cbn [fst cur_lastSnapshotAt]. destruct (st_lastSnapshotAt row) as [seconds|]; [|reflexivity].
  cbn. rewrite timestamp_round_trip. reflexivity.
Qed.

Lemma getSafeguardSettings_fst (w : World) (s s' : System) :
  settingsOf s = settingsOf s' ->
  fst (getSafeguardSettings w s) = fst (getSafeguardSettings w s').
Proof.
  unfold settingsOf, getSafeguardSettings. mstep. intros H.
  destruct (databaseUp w); [|reflexivity]. cbv beta. cbn [fst snd]. rewrite H.
  destruct (continuitySettings (database s')); reflexivity.
Qed.

Lemma assessAutoCommitPolicy_fst root settings (w : World) (s s' : System) :
  fst (assessAutoCommitPolicy root settings w s) = fst (assessAutoCommitPolicy root settings w s').
Proof.
  unfold assessAutoCommitPolicy. mstep.
  destruct (negb _); reflexivity.
Qed.

Lemma persistGovernorState_stateTableOf sub hash turns injected at_ (w : World) (s : System) :
  stateTableOf (snd (persistGovernorState sub hash turns injected at_ w s)) =
  if databaseUp w
  then <[sub := {| st_lastChangedFilesHash := hash;
                   st_turnsSinceSnapshot := turns;
                   st_totalInjectedBytes := injected;
                   st_lastSnapshotAt := timestampToDriver <$> at_;
                   st_updatedAt := timestampToDriver (now w) |}]> (stateTableOf s)
  else stateTableOf s.
Proof.
  unfold stateTableOf, persistGovernorState, when. mstep.
  destruct (databaseUp w); reflexivity.
Qed.

Lemma getRepoState_keeps_stateTableOf root : keeps stateTableOf (getRepoState root).
Proof. eauto with keeps. Qed.

Lemma getDiffStats_keeps_stateTableOf root : keeps stateTableOf (getDiffStats root).
Proof. eauto with keeps. Qed.

Lemma governorInputOf_at (input : RunOutcomeInput) (w : World) (s : System) :
  let root := repoRootOf (ro_projectPath input) (ro_cwd input) in
  let rs := fst (getRepoState root w s) in
  let s1 := snd (getRepoState root w s) in
  let total := fst (getDiffStats root w s1) in
  let s2 := snd (getDiffStats root w s1) in
  let current := fst (getPersistedState (ro_subChatId input) w s2) in
  {| turnsSinceSnapshot := cur_turnsSinceSnapshot current + 1;
     totalInjectedBytes :=
       cur_totalInjectedBytes current
       + Z.max (match ro_injectedBytes input with Some n => n | None => 0 end) 0;
     changedFilesCount := len (changedFiles rs);
     diffLines := total;
     elapsedSinceSnapshotMs :=
       match cur_lastSnapshotAt current with
       | Some at_ => now w - at_
       | None => REHYDRATE_ELAPSED_MS + 1
       end |} = governorInputOf input w s.
Proof.
  intros root rs s1 total s2 current. unfold governorInputOf. cbv zeta. fold root.
  assert (Hcur : current = fst (getPersistedState (ro_subChatId input) w s)).
  { apply getPersistedState_fst. unfold s2, s1.
    rewrite getDiffStats_keeps_stateTableOf, getRepoState_keeps_stateTableOf. reflexivity. }
  rewrite <- Hcur. unfold total. rewrite (getDiffStats_fst root w s1 s). reflexivity.
Qed.

Lemma recordRunOutcome_result tl (input : RunOutcomeInput) (w : World) (s : System) :
  fst (recordRunOutcome tl input w s) =
  match getContinuityMode (env w) with
  | ModeOff => {| action := ActionOk; reasons := [] |}
  | _ =>
    let decided := decideGovernor (governorInputOf input w s) in
    {| action := effectiveAction (getContinuityGovernorCapabilities (env w)) (action decided);
       reasons := reasons decided |}
  end.
Proof.
  unfold recordRunOutcome.
  rewrite fst_bind. cbv beta. cbn [fst snd world].
  destruct (getContinuityMode (env w)) eqn:Emode; [reflexivity| |];
    bindstep; rewrite (governorInputOf_at input w s); reflexivity.
Qed.

(** ** Capability gating *)

(** C5: with [rehydrateEnabled = false] the action [recordRunOutcome]
    returns is never rehydrate: a rehydrate decision comes back as snapshot
    when [snapshotEnabled] holds and as ok otherwise, and a snapshot decision
    comes back as ok when [snapshotEnabled] does not hold. *)
Theorem recordRunOutcome_capability_gating tl (input : RunOutcomeInput)
    (w : World) (s : System) :
  let capabilities := getContinuityGovernorCapabilities (env w) in
  rehydrateEnabled capabilities = false ->
  let decided := decideGovernor (governorInputOf input w s) in
  let returned := fst (recordRunOutcome tl input w s) in
  action returned <> ActionRehydrate
  /\ (getContinuityMode (env w) = ModeOff -> action returned = ActionOk)
  /\ (getContinuityMode (env w) <> ModeOff ->
      action returned =
      match action decided with
      | ActionRehydrate =>
        if snapshotEnabled capabilities then ActionSnapshot else ActionOk
      | ActionSnapshot =>
        if snapshotEnabled capabilities then ActionSnapshot else ActionOk
      | ActionOk => ActionOk
      end).
Proof.
  intros capabilities Hoff decided returned.
  unfold returned. rewrite recordRunOutcome_result.
  fold capabilities. cbv zeta. fold decided.
  assert (Hgate :
            effectiveAction capabilities (action decided) =
            match action decided with
            | ActionRehydrate =>
              if snapshotEnabled capabilities then ActionSnapshot else ActionOk
            | ActionSnapshot =>
              if snapshotEnabled capabilities then ActionSnapshot else ActionOk
            | ActionOk => ActionOk
            end).
  { unfold effectiveAction. rewrite Hoff.
    destruct (action decided), (snapshotEnabled capabilities); reflexivity. }
  destruct (getContinuityMode (env w)) eqn:Emode; cbn [action].
  - split; [discriminate|]. split; [reflexivity|]. intros H. congruence.
  - rewrite Hgate. split.
    + destruct (action decided), (snapshotEnabled capabilities); discriminate.
    + split; [discriminate|]. intros _. reflexivity.
  - rewrite Hgate. split.
    + destruct (action decided), (snapshotEnabled capabilities); discriminate.
    + split; [discriminate|]. intros _. reflexivity.
Qed.

Lemma recordRunOutcome_capability_gating_witness :
  let w := exampleWorld activeEnv 5000 in
  rehydrateEnabled (getContinuityGovernorCapabilities (env w)) = false
  /\ action (decideGovernor (governorInputOf exampleOutcome w pressuredSystem)) = ActionRehydrate
  /\ action (fst (recordRunOutcome asciiLower exampleOutcome w pressuredSystem)) = ActionSnapshot
  /\ action (fst (recordRunOutcome asciiLower exampleOutcome w pressuredSystem)) <> ActionRehydrate.
Proof.
  intros w.
  assert (Hoff : rehydrateEnabled (getContinuityGovernorCapabilities (env w)) = false)
    by reflexivity.
  split; [exact Hoff|]. split; [vm_compute; reflexivity|]. split; [vm_compute; reflexivity|].
  exact (proj1 (recordRunOutcome_capability_gating asciiLower exampleOutcome w
                  pressuredSystem Hoff)).
Defined.

(** ** The state write of [recordRunOutcome] *)

(** C6, as the claim states it, fails in one point: the snapshot time that
    is persisted is not [now].  The column holds whole seconds, so a snapshot
    decided at 5,500 ms is stored as second 5 and read back by the next call
    as 5,000 ms. *)
Lemma recordRunOutcome_snapshot_time_in_seconds :
  let w := exampleWorld activeEnv 5500 in
  let r := recordRunOutcome asciiLower exampleOutcome w pressuredSystem in
  action (fst r) = ActionSnapshot
  /\ st_lastSnapshotAt <$> stateTableOf (snd r) !! lit "sub-1" = Some (Some 5)
  /\ cur_lastSnapshotAt (fst (getPersistedState (lit "sub-1") w (snd r))) = Some 5000
  /\ cur_lastSnapshotAt (fst (getPersistedState (lit "sub-1") w (snd r))) <> Some (now w).
Proof. vm_compute. repeat split; try reflexivity. discriminate. Qed.

(** C6 (amended): a [recordRunOutcome] call with the mode not off writes the
    session state once: with the store up, the table after the call is the
    table before it with the row of the sub-session replaced (a store that is
    down keeps its table).  The row carries the current changed-files hash;
    under the effective action ok it carries the incremented counters and the
    prior snapshot time, under snapshot or rehydrate both counters at zero and
    as snapshot time the whole second of [now], which reads back as [now]
    rounded down to a multiple of 1,000 ms.  The prior values are those the
    call reads with [getPersistedState]: the row of the table, or zeros and no
    snapshot. *)
Theorem recordRunOutcome_persists tl (input : RunOutcomeInput) (w : World) (s : System) :
  getContinuityMode (env w) <> ModeOff ->
  let sub := ro_subChatId input in
  let root := repoRootOf (ro_projectPath input) (ro_cwd input) in
  let prior := fst (getPersistedState sub w s) in
  let injected := Z.max (match ro_injectedBytes input with Some n => n | None => 0 end) 0 in
  let returned := fst (recordRunOutcome tl input w s) in
  exists row,
    stateTableOf (snd (recordRunOutcome tl input w s)) =
      (if databaseUp w then <[sub := row]> (stateTableOf s) else stateTableOf s)
    /\ st_lastChangedFilesHash row = changedFilesHash (fst (getRepoState root w s))
    /\ (action returned = ActionOk ->
        st_turnsSinceSnapshot row = cur_turnsSinceSnapshot prior + 1
        /\ st_totalInjectedBytes row = cur_totalInjectedBytes prior + injected
        /\ timestampFromDriver <$> st_lastSnapshotAt row = cur_lastSnapshotAt prior)
    /\ (action returned <> ActionOk ->
        st_turnsSinceSnapshot row = 0
        /\ st_totalInjectedBytes row = 0
        /\ st_lastSnapshotAt row = Some (timestampToDriver (now w))
        /\ timestampFromDriver <$> st_lastSnapshotAt row = Some (now w / 1000 * 1000))
    /\ (databaseUp w = true ->
        prior =
        match stateTableOf s !! sub with
        | Some before =>
          {| cur_turnsSinceSnapshot := st_turnsSinceSnapshot before;
             cur_totalInjectedBytes := st_totalInjectedBytes before;
             cur_lastSnapshotAt := timestampFromDriver <$> st_lastSnapshotAt before |}
        | None => noPersistedState
        end).
Proof.
  intros Hmode sub root prior injected returned.
  assert (Hret : action returned =
                 effectiveAction (getContinuityGovernorCapabilities (env w))
                   (action (decideGovernor (governorInputOf input w s)))).
  { unfold returned. rewrite recordRunOutcome_result.
    destruct (getContinuityMode (env w)); [congruence|reflexivity|reflexivity]. }
  set (eff := effectiveAction _ _) in Hret.
  set (isOk := match eff with ActionOk => true | _ => false end).
  exists {| st_lastChangedFilesHash := changedFilesHash (fst (getRepoState root w s));
            st_turnsSinceSnapshot := if isOk then cur_turnsSinceSnapshot prior + 1 else 0;
            st_totalInjectedBytes := if isOk then cur_totalInjectedBytes prior + injected else 0;
            st_lastSnapshotAt :=
              timestampToDriver <$> (if isOk then cur_lastSnapshotAt prior else Some (now w));
            st_updatedAt := timestampToDriver (now w) |}.
  split; [|split; [reflexivity|]].
  - clear Hret. subst eff isOk. unfold recordRunOutcome.
    rewrite snd_bind. cbv beta. cbn [fst snd world].
    subst prior sub root.
    destruct (getContinuityMode (env w)) eqn:Emode; [congruence| |];
      bindstep;
      rewrite (getPersistedState_keeps (ro_subChatId input) w);
      rewrite (governorInputOf_at input w s);
      frame stateTableOf;
      rewrite persistGovernorState_stateTableOf;
      frame stateTableOf;
      match goal with
      | |- context [fst (getPersistedState ?a w (snd ?st))] =>
        replace (fst (getPersistedState a w (snd st)))
          with (fst (getPersistedState (ro_subChatId input) w s))
          by (apply getPersistedState_fst;
              rewrite getDiffStats_keeps_stateTableOf, getRepoState_keeps_stateTableOf;
              reflexivity)
      end;
      reflexivity.
  - cbn [st_turnsSinceSnapshot st_totalInjectedBytes st_lastSnapshotAt].
    rewrite Hret. unfold isOk. split; [|split].
    + intros ->. split; [reflexivity|]. split; [reflexivity|].
      apply getPersistedState_stored_time.
    + intros Hne. destruct eff; [congruence| |]; repeat split.
    + intros Hup. apply getPersistedState_prior. exact Hup.
Qed.

Lemma recordRunOutcome_persists_witness :
  let w := exampleWorld activeEnv 5500 in
  getContinuityMode (env w) <> ModeOff
  /\ exists row,
      stateTableOf (snd (recordRunOutcome asciiLower exampleOutcome w pressuredSystem))
      = <[lit "sub-1" := row]> (stateTableOf pressuredSystem)
      /\ st_turnsSinceSnapshot row = 0
      /\ st_totalInjectedBytes row = 0
      /\ st_lastSnapshotAt row = Some 5
      /\ timestampFromDriver <$> st_lastSnapshotAt row = Some 5000.
Proof.
  intros w.
  assert (Hmode : getContinuityMode (env w) <> ModeOff) by (vm_compute; discriminate).
  split; [exact Hmode|].
  destruct (recordRunOutcome_persists asciiLower exampleOutcome w pressuredSystem Hmode)
    as (row & Htable & _ & _ & Hreset & _).
  exists row. split; [exact Htable|].
  apply Hreset. vm_compute. discriminate.
Defined.

(** ** The safeguard *)

Lemma assessAutoCommitPolicy_spec root settings (w : World) (s : System) :
  let policy := fst (assessAutoCommitPolicy root settings w s) in
  (requested policy = true <->
   artifactPolicy settings = AutoWriteMemoryBranch /\ autoCommitToMemoryBranch settings = true)
  /\ (allowed policy = true <->
      requested policy = true /\ currentBranch policy = memoryBranch settings).
Proof.
  unfold assessAutoCommitPolicy. mstep.
  destruct (artifactPolicy settings), (autoCommitToMemoryBranch settings);
    cbn [negb]; cbv beta; cbn [fst snd requested allowed currentBranch];
    (split; split; try (intros [? ?]); try discriminate; try congruence; try (split; congruence)).
  - intros H. split; [reflexivity|]. apply streq_true. exact H.
  - apply streq_true. assumption.
Qed.

Lemma getSafeguardSettings_autoCommit (w : World) (s : System) :
  autoCommitToMemoryBranch (fst (getSafeguardSettings w s)) = true -> databaseUp w = true.
Proof.
  unfold getSafeguardSettings. mstep.
  destruct (databaseUp w); [reflexivity|]. cbv beta. cbn [fst snd autoCommitToMemoryBranch].
  discriminate.
Qed.

(** *** The sub-chats and the chats *)

Lemma keeps_subChatsOf {A} (m : M A) : keeps database m -> keeps subChatsOf m.
Proof. apply (keeps_database subChats). Qed.

Lemma keeps_chatsOf {A} (m : M A) : keeps database m -> keeps chatsOf m.
Proof. apply (keeps_database chats). Qed.

#[local] Hint Resolve keeps_subChatsOf keeps_chatsOf | 5 : keeps.

Lemma persistGovernorState_keeps_subChatsOf sub hash turns injected at_ :
  keeps subChatsOf (persistGovernorState sub hash turns injected at_).
Proof. unfold persistGovernorState. keeps_tac. Qed.

Lemma persistGovernorState_keeps_chatsOf sub hash turns injected at_ :
  keeps chatsOf (persistGovernorState sub hash turns injected at_).
Proof. unfold persistGovernorState. keeps_tac. Qed.

#[local] Hint Resolve persistGovernorState_keeps_subChatsOf persistGovernorState_keeps_chatsOf
  : keeps.

Lemma writeArtifactIfNew_keeps_subChatsOf sub type fp content :
  keeps subChatsOf (writeArtifactIfNew sub type fp content).
Proof. unfold writeArtifactIfNew. keeps_tac. Qed.

Lemma writeArtifactIfNew_keeps_chatsOf sub type fp content :
  keeps chatsOf (writeArtifactIfNew sub type fp content).
Proof. unfold writeArtifactIfNew. keeps_tac. Qed.

Lemma getSafeguardSettings_keeps_subChatsOf : keeps subChatsOf getSafeguardSettings.
Proof. unfold getSafeguardSettings. keeps_tac. Qed.

Lemma getSafeguardSettings_keeps_chatsOf : keeps chatsOf getSafeguardSettings.
Proof. unfold getSafeguardSettings. keeps_tac. Qed.

#[local] Hint Resolve writeArtifactIfNew_keeps_subChatsOf writeArtifactIfNew_keeps_chatsOf
  getSafeguardSettings_keeps_subChatsOf getSafeguardSettings_keeps_chatsOf : keeps.

(** *** Parts that move along a preorder *)

Lemma evolves_ret {X A} (part : System -> X) (R : X -> X -> Prop) `{!Reflexive R} (x : A) :
  evolves part R (ret x).
Proof. intros w s. reflexivity. Qed.

Lemma evolves_bind {X A B} (part : System -> X) (R : X -> X -> Prop) `{!Transitive R}
    (m : M A) (k : A -> M B) :
  evolves part R m -> (forall a, evolves part R (k a)) -> evolves part R (bind m k).
Proof. intros Hm Hk w s. rewrite snd_bind. etransitivity; [apply Hm|apply Hk]. Qed.

Lemma evolves_keeps {X A} (part : System -> X) (R : X -> X -> Prop) `{!Reflexive R}
    (m : M A) :
  keeps part m -> evolves part R m.
Proof. intros Hm w s. rewrite (Hm w s). reflexivity. Qed.

Lemma evolves_when {X} (part : System -> X) (R : X -> X -> Prop) `{!Reflexive R}
    (c : bool) (m : M unit) :
  evolves part R m -> evolves part R (when c m).
Proof. intros Hm. destruct c; [exact Hm|apply evolves_ret; assumption]. Qed.

Create HintDb evolves.

Ltac evolves_step :=
  cbv beta iota zeta;
  lazymatch goal with
  | |- evolves _ _ (bind _ _) => apply evolves_bind; [typeclasses eauto| |intros ?]
  | |- evolves _ _ (ret _) => apply evolves_ret; typeclasses eauto
  | |- evolves _ _ (when _ _) => apply evolves_when; [typeclasses eauto|]
  | |- evolves _ _ (match ?x with _ => _ end) => destruct x
  | |- evolves _ _ _ =>
    first [ solve [eauto with evolves]
          | solve [apply evolves_keeps; [typeclasses eauto|keeps_tac; fail]] ]
  end.

Ltac evolves_tac := repeat evolves_step.

Lemma getRepoState_keeps_artifactTableOf root : keeps artifactTableOf (getRepoState root).
Proof. eauto with keeps. Qed.

Lemma getDiffStats_keeps_artifactTableOf root : keeps artifactTableOf (getDiffStats root).
Proof. eauto with keeps. Qed.

Lemma getPersistedState_keeps_artifactTableOf sub :
  keeps artifactTableOf (getPersistedState sub).
Proof. eauto with keeps. Qed.

Lemma assessAutoCommitPolicy_keeps_artifactTableOf root settings :
  keeps artifactTableOf (assessAutoCommitPolicy root settings).
Proof. eauto with keeps. Qed.

#[local] Hint Resolve getRepoState_keeps_artifactTableOf getDiffStats_keeps_artifactTableOf
  getPersistedState_keeps_artifactTableOf assessAutoCommitPolicy_keeps_artifactTableOf : keeps.

Lemma In_firstn_list {A} (n : nat) (x : A) (l : list A) : In x (firstn n l) -> In x l.
Proof.
  intros H. rewrite <- (firstn_skipn n l). apply in_or_app. left. exact H.
Qed.

Lemma recentArtifacts_carrier sub type fp table :
  existsb (carriesFingerprint fp) (recentArtifacts sub type table) = true ->
  exists row,
    In row table /\ ar_subChatId row = sub /\ ar_type row = type /\ fingerprintOf row = Some fp.
Proof.
  intros H. apply existsb_exists in H as (row & Hin & Hfp).
  unfold recentArtifacts, scanArtifacts in Hin. rewrite slice_0_firstn in Hin by lia.
  apply In_firstn_list, In_orderByCreatedAtDesc, filter_In in Hin as [Hin Hpair].
  apply in_rev in Hin.
  apply andb_true_iff in Hpair as [Hsub Hty].
  exists row. split; [exact Hin|]. split; [apply streq_true, Hsub|].
  split; [apply bool_decide_eq_true in Hty; exact Hty|].
  apply carriesFingerprint_spec, Hfp.
Qed.

(** After [writeArtifactIfNew] with the store up, for a sub-chat that has
    its row, the table holds an artifact of the triple. *)
Lemma writeArtifactIfNew_present sub type fp content (chat : SubChatRow)
    (w : World) (s : System) :
  databaseUp w = true ->
  subChatsOf s !! sub = Some chat ->
  exists row,
    In row (artifactTableOf (snd (writeArtifactIfNew sub type fp content w s)))
    /\ ar_subChatId row = sub /\ ar_type row = type /\ fingerprintOf row = Some fp.
Proof.
  unfold subChatsOf. intros Hup Hchat.
  unfold artifactTableOf. rewrite writeArtifactIfNew_table, Hup.
  destruct (existsb _ _) eqn:Hex.
  - apply recentArtifacts_carrier. exact Hex.
  - match goal with
    | |- context [match ?x with _ => _ end] => replace x with (Some chat)
    end.
    eexists. split; [left; reflexivity|]. repeat split.
Qed.

(** For a sub-chat without its row the foreign key lets no artifact in. *)
Lemma writeArtifactIfNew_orphan sub type fp content (w : World) (s : System) :
  subChatsOf s !! sub = None ->
  artifactTableOf (snd (writeArtifactIfNew sub type fp content w s)) = artifactTableOf s.
Proof.
  unfold subChatsOf. intros Hchat.
  unfold artifactTableOf. rewrite writeArtifactIfNew_table.
  destruct (databaseUp w); [|reflexivity].
  destruct (existsb _ _); [reflexivity|].
  match goal with
  | |- context [match ?x with _ => _ end] => replace x with (@None SubChatRow)
  end.
  reflexivity.
Qed.

Lemma getDiffStats_keeps_settingsOf root : keeps settingsOf (getDiffStats root).
Proof. eauto with keeps. Qed.

(** *** A sub-chat without row gets no artifact *)

#[local] Instance orphanKept_refl sub : Reflexive (orphanKept sub).
Proof. intros part Hnone. split; [exact Hnone|reflexivity]. Qed.

#[local] Instance orphanKept_trans sub : Transitive (orphanKept sub).
Proof.
  intros p1 p2 p3 H12 H23 Hnone.
  destruct (H12 Hnone) as [Hnone2 Hsame2]. destruct (H23 Hnone2) as [Hnone3 Hsame3].
  split; [exact Hnone3|congruence].
Qed.

Lemma keeps_artifactStoreOf {A} (m : M A) :
  keeps subChatsOf m -> keeps artifactTableOf m -> keeps artifactStoreOf m.
Proof. intros Hsubs Hrows w s. unfold artifactStoreOf. rewrite Hsubs, Hrows. reflexivity. Qed.

#[local] Hint Resolve keeps_artifactStoreOf | 6 : keeps.

Lemma writeArtifactIfNew_orphanKept sub type fp content :
  evolves artifactStoreOf (orphanKept sub) (writeArtifactIfNew sub type fp content).
Proof.
  intros w s Hnone. unfold artifactStoreOf in *. cbn [fst snd] in *.
  rewrite writeArtifactIfNew_keeps_subChatsOf.
  split; [exact Hnone|apply writeArtifactIfNew_orphan; exact Hnone].
Qed.

Lemma executeRehydrate_orphanKept sub prompt why :
  evolves artifactStoreOf (orphanKept sub) (executeRehydrate sub prompt why).
Proof.
  intros w s Hnone. unfold artifactStoreOf in *. cbn [fst snd] in *.
  assert (Hnoop : executeRehydrate sub prompt why w s = (tt, s)).
  { unfold executeRehydrate. mstep. destruct (databaseUp w); [|reflexivity].
    cbv beta. cbn [fst snd].
    change (subChats (database s) !! sub) with (subChatsOf s !! sub). rewrite Hnone.
    reflexivity. }
  rewrite Hnoop. split; [exact Hnone|reflexivity].
Qed.

#[local] Hint Resolve writeArtifactIfNew_orphanKept executeRehydrate_orphanKept : evolves.

(** Without the row of its sub-chat a call of [recordRunOutcome] leaves the
    artifacts as they are: every insert fails on the foreign key. *)
Lemma recordRunOutcome_orphan tl (input : RunOutcomeInput) (w : World) (s : System) :
  subChatsOf s !! ro_subChatId input = None ->
  artifactTableOf (snd (recordRunOutcome tl input w s)) = artifactTableOf s.
Proof.
  intros Hnone.
  assert (Hcall : evolves artifactStoreOf (orphanKept (ro_subChatId input))
                    (recordRunOutcome tl input))
    by (unfold recordRunOutcome; evolves_tac).
  apply (Hcall w s Hnone).
Qed.

(** C9, as the claim states it, fails for a sub-session that has no row in
    [sub_chats]: auto-commit is requested and not allowed, the block is
    reported, and the table of artifacts stays empty, as the insert of the
    devlog fails on the foreign key and the failure is swallowed. *)
Lemma recordRunOutcome_safeguard_needs_sub_chat :
  let w := exampleWorld activeEnv 5000 in
  let settings := fst (getSafeguardSettings w memoryBranchSystem) in
  let policy := fst (assessAutoCommitPolicy (lit "/repo") settings w memoryBranchSystem) in
  let s' := snd (recordRunOutcome asciiLower exampleOutcome w memoryBranchSystem) in
  subChatsOf memoryBranchSystem !! lit "sub-1" = None
  /\ requested policy = true
  /\ allowed policy = false
  /\ In (TrackSafeguard (lit "auto-commit-blocked") (lit "feature/x") (lit "memory/continuity"))
        (effects s')
  /\ artifactTableOf s' = [].
Proof. vm_compute. repeat split; try reflexivity. auto 10. Qed.

(** C9 (amended): in active mode auto-commit is requested exactly under the
    memory branch policy with auto-commit on, and allowed exactly when it is
    requested on the memory branch.  Requested and not allowed, the call
    reports [auto-commit-blocked]; and when the sub-session has its row in
    [sub_chats], it has after the call a devlog artifact with the
    fingerprint [<head_commit>:auto-commit-blocked:<current_branch>].  For a
    sub-session without that row the call leaves the artifacts as they
    are.  No command the call starts is a commit. *)
Theorem recordRunOutcome_safeguard tl (input : RunOutcomeInput) (w : World) (s : System) :
  getContinuityMode (env w) = ModeActive ->
  let root := repoRootOf (ro_projectPath input) (ro_cwd input) in
  let rs := fst (getRepoState root w s) in
  let settings := fst (getSafeguardSettings w s) in
  let policy := fst (assessAutoCommitPolicy root settings w s) in
  let s' := snd (recordRunOutcome tl input w s) in
  (requested policy = true <->
   artifactPolicy settings = AutoWriteMemoryBranch /\ autoCommitToMemoryBranch settings = true)
  /\ (allowed policy = true <->
      requested policy = true /\ currentBranch policy = memoryBranch settings)
  /\ (requested policy = true -> allowed policy = false ->
      In (TrackSafeguard (lit "auto-commit-blocked") (currentBranch policy)
            (memoryBranch settings))
         (effects s')
      /\ (is_Some (subChatsOf s !! ro_subChatId input) ->
          exists row,
            In row (artifactTableOf s')
            /\ ar_subChatId row = ro_subChatId input
            /\ ar_type row = Devlog
            /\ fingerprintOf row =
               Some (headCommit rs ++ lit ":auto-commit-blocked:" ++ currentBranch policy)))
  /\ (subChatsOf s !! ro_subChatId input = None -> artifactTableOf s' = artifactTableOf s)
  /\ (exists new,
        effects s' = effects s ++ new
        /\ Forall (fun e => initiatesCommit e = false) new).
Proof.
  intros Hmode root rs settings policy s'.
  destruct (assessAutoCommitPolicy_spec root settings w s) as [Hrequested Hallowed].
  split; [exact Hrequested|]. split; [exact Hallowed|].
  split; [|split; [apply (recordRunOutcome_orphan tl input w s)
                  |apply (recordRunOutcome_emits tl input w s)]].
  intros Hreq Hall.
  assert (Hup : databaseUp w = true).
  { apply (getSafeguardSettings_autoCommit w s). apply Hrequested. exact Hreq. }
  unfold s', recordRunOutcome.
  rewrite snd_bind. cbv beta. cbn [fst snd world].
  rewrite Hmode. bindstep.
  rewrite (getPersistedState_keeps (ro_subChatId input) w).
  rewrite (governorInputOf_at input w s).
  fold root. fold rs.
  set (s2 := snd (getDiffStats root w (snd (getRepoState root w s)))).
  replace (fst (getSafeguardSettings w s2)) with settings.
  2: { apply getSafeguardSettings_fst. unfold s2.
       rewrite getDiffStats_keeps_settingsOf, getRepoState_keeps_settingsOf. reflexivity. }
  set (s3 := snd (getSafeguardSettings w s2)).
  replace (fst (assessAutoCommitPolicy root settings w s3)) with policy
    by apply assessAutoCommitPolicy_fst.
  split.
  - frame effects.
    rewrite Hreq. unfold when at 1. rewrite snd_bind. cbv beta.
    rewrite Hall. cbn [negb]. unfold when at 1.
    frame effects.
    unfold emit at 1. cbn [snd effects].
    apply in_or_app. right. left. reflexivity.
  - intros [chat Hchat]. frame artifactTableOf.
    rewrite Hreq. unfold when at 1. rewrite snd_bind. cbv beta.
    rewrite Hall. cbn [negb]. unfold when at 1.
    apply (writeArtifactIfNew_present _ _ _ _ chat); [exact Hup|].
    unfold s3, s2. frame subChatsOf. exact Hchat.
Qed.

Lemma recordRunOutcome_safeguard_witness :
  let w := exampleWorld activeEnv 5000 in
  let s := withSubChat memoryBranchSystem in
  let s' := snd (recordRunOutcome asciiLower exampleOutcome w s) in
  getContinuityMode (env w) = ModeActive
  /\ is_Some (subChatsOf s !! lit "sub-1")
  /\ In (TrackSafeguard (lit "auto-commit-blocked") (lit "feature/x") (lit "memory/continuity"))
        (effects s')
  /\ (exists row,
        In row (artifactTableOf s')
        /\ ar_subChatId row = lit "sub-1"
        /\ ar_type row = Devlog
        /\ fingerprintOf row = Some (lit "abc123:auto-commit-blocked:feature/x"))
  /\ (exists new,
        effects s' = effects s ++ new
        /\ Forall (fun e => initiatesCommit e = false) new).
Proof.
  intros w s s'.
  assert (Hmode : getContinuityMode (env w) = ModeActive) by reflexivity.
  assert (Hchat : is_Some (subChatsOf s !! lit "sub-1")) by (exists subChatRow; reflexivity).
  split; [exact Hmode|]. split; [exact Hchat|].
  destruct (recordRunOutcome_safeguard asciiLower exampleOutcome w s Hmode)
    as (_ & _ & Hblocked & _ & Hquiet).
  destruct (Hblocked eq_refl eq_refl) as [Hevent Hrow].
  split; [exact Hevent|]. split; [exact (Hrow Hchat)|exact Hquiet].
Defined.

(** ** The engine on concrete runs *)

(** A first call in active mode: a miss, the fixed 35 percent, the envelope
    from the state header to the prompt, the bytes added to the prompt, and
    a state row counting the bytes of the pack. *)
Example apply_first_call :
  let r := apply asciiLower (exampleInput tokenBucketPrompt) (exampleWorld activeEnv 1000) emptySystem in
  let tail := lit "[1CODE_USER_REQUEST]" ++ NL ++ NL ++ lit tokenBucketPrompt in
  cacheHit (fst r) = false /\
  reusedPercent (fst r) = 35 /\
  startsWith (out_prompt (fst r)) (lit "[1CODE_CONTINUITY_STATE_IDS]") = true /\
  sliceFrom (out_prompt (fst r)) (- len tail) = tail /\
  injectedBytes (fst r)
    = byteLength (out_prompt (fst r)) - byteLength (lit tokenBucketPrompt) /\
  st_turnsSinceSnapshot <$> stateTableOf (snd r) !! lit "sub-1" = Some 0 /\
  st_totalInjectedBytes <$> stateTableOf (snd r) !! lit "sub-1"
    = (fun row => byteLength (pc_pack row)) <$> packTableOf (snd r) !! tokenBucketKey.
Proof. vm_compute. repeat split; reflexivity. Qed.

(** The same call in passive mode: the prompt comes back as it went in, no
    byte counts as injected, and the pack and state rows are written all the
    same. *)
Example apply_passive_call :
  let r := apply asciiLower (exampleInput tokenBucketPrompt) (exampleWorld passiveEnv 1000) emptySystem in
  out_prompt (fst r) = lit tokenBucketPrompt /\
  cacheHit (fst r) = false /\
  injectedBytes (fst r) = 0 /\
  size (packTableOf (snd r)) = 1%nat /\
  size (stateTableOf (snd r)) = 1%nat.
Proof. vm_compute. repeat split; reflexivity. Qed.

(** The seventh turn with 210 changed lines, at 9,400 ms: a snapshot for
    turn and diff pressure (and, never snapshotted before, for time),
    counters back to zero, the snapshot time set to second 9. *)
Example recordRunOutcome_seventh_turn :
  let w := withNumstat (lit "150" ++ [9] ++ lit "60" ++ [9] ++ lit "src/rate/bucket.rs")
             (exampleWorld activeEnv 9400) in
  let r := recordRunOutcome asciiLower exampleOutcome w sixTurns in
  action (fst r) = ActionSnapshot /\
  reasons (fst r) = [lit "turn-pressure"; lit "diff-pressure"; lit "time-pressure"] /\
  (fun row => (st_turnsSinceSnapshot row, st_totalInjectedBytes row, st_lastSnapshotAt row))
    <$> stateTableOf (snd r) !! lit "sub-1" = Some (0, 0, Some 9).
Proof. vm_compute. repeat split; reflexivity. Qed.

(** A failed run over a ten line diff: a devlog and a rejected approach with
    fingerprints apart, and no decision record. *)
Example recordRunOutcome_failed_run :
  let w := withNumstat (lit "7" ++ [9] ++ lit "3" ++ [9] ++ lit "src/rate/bucket.rs")
             (exampleWorld activeEnv 9000) in
  let r := recordRunOutcome asciiLower failedOutcome w (withSubChat emptySystem) in
  List.map ar_type (artifactTableOf (snd r)) = [RejectedApproach; Devlog] /\
  match List.map fingerprintOf (artifactTableOf (snd r)) with
  | [Some rejected; Some devlog] => rejected = devlog ++ lit ":rejected"
  | _ => False
  end.
Proof. vm_compute. repeat split; reflexivity. Qed.
(** ** UTF-8 across a seam *)

Lemma utf8_app_fuel (n : nat) :
  forall a b : jsstring,
    (length a <= n)%nat ->
    match b with d :: _ => isLowSurrogate d = false | [] => True end ->
    utf8 (a ++ b) = utf8 a ++ utf8 b.
Proof.
  induction n as [|n IH]; intros a b Hlen Hb.
  - destruct a; [reflexivity|simpl in Hlen; lia].
  - destruct a as [|c rest]; [reflexivity|].
    simpl in Hlen. rewrite <- app_comm_cons. cbn [utf8].
    destruct (c <? 128); [rewrite (IH rest b) by (assumption || lia); reflexivity|].
    destruct (c <? 2048); [rewrite (IH rest b) by (assumption || lia); reflexivity|].
    destruct (isHighSurrogate c).
    + destruct rest as [|d rest'].
      * simpl. destruct b as [|d b']; [reflexivity|]. rewrite Hb. reflexivity.
      * rewrite <- app_comm_cons. destruct (isLowSurrogate d).
        -- rewrite (IH rest' b); [|simpl in Hlen; lia|assumption].
           rewrite <- app_assoc. reflexivity.
        -- rewrite app_comm_cons, (IH (d :: rest') b); [|simpl in *; lia|assumption].
           rewrite <- app_assoc. reflexivity.
    + destruct (isLowSurrogate c);
        (rewrite (IH rest b); [|lia|assumption]); rewrite <- app_assoc; reflexivity.
Qed.

Lemma utf8_app (a b : jsstring) :
  match b with d :: _ => isLowSurrogate d = false | [] => True end ->
  utf8 (a ++ b) = utf8 a ++ utf8 b.
Proof. apply (utf8_app_fuel (length a)). reflexivity. Qed.

(** What is put before the prompt and the prompt count their bytes apart:
    the two line feeds between them keep surrogates from pairing up. *)
Lemma byteLength_before_prompt (front prompt : jsstring) :
  byteLength (front ++ NL ++ NL ++ prompt) = byteLength front + 2 + byteLength prompt.
Proof.
  unfold byteLength, NL. rewrite utf8_app by reflexivity.
  change (utf8 ([10] ++ [10] ++ prompt)) with (10 :: 10 :: utf8 prompt).
  unfold len. rewrite length_app. simpl length. lia.
Qed.

Lemma byteLength_nonneg (s : jsstring) : 0 <= byteLength s.
Proof. unfold byteLength, len. lia. Qed.

(** ** What [apply] returns *)

Lemma apply_returns tl (input : ContinuityInput) (w : World) (s : System) :
  let r := fst (apply tl input w s) in
  match getContinuityMode (env w) with
  | ModeActive =>
    exists front,
      out_prompt r = front ++ NL ++ NL ++ in_prompt input
      /\ injectedBytes r =
         Z.max (byteLength (front ++ NL ++ NL ++ in_prompt input)
                - byteLength (in_prompt input)) 0
  | _ => out_prompt r = in_prompt input /\ injectedBytes r = 0
  end.
Proof.
  unfold apply. mstep.
  destruct (getContinuityMode (env w)); cbv beta; cbn [fst snd].
  - split; reflexivity.
  - match goal with
    | |- context [match fst ?c with _ => _ end] => destruct (fst c)
    end; cbn [fst snd out_prompt injectedBytes]; split; reflexivity.
  - match goal with
    | |- context [match fst ?c with _ => _ end] => destruct (fst c)
    end; cbn [fst snd out_prompt injectedBytes].
    + match goal with
      | |- context [if ?c then _ else _] => destruct c
      end; eexists; split; reflexivity.
    + eexists; split; reflexivity.
Qed.

(** X1: With continuity off ([isContinuityEnabled] false) both entry points
    are inert: [apply] hands the prompt back with nothing injected and the
    fallback state ids, [recordRunOutcome] answers [ok] with no reasons, and
    neither touches the service, the store or the effect log. *)
Theorem continuity_off_is_inert tl (input : ContinuityInput) (outcome : RunOutcomeInput)
    (w : World) (s : System) :
  isContinuityEnabled (env w) = false ->
  apply tl input w s =
    ({| out_prompt := in_prompt input;
        cacheHit := false;
        injectedBytes := 0;
        reusedPercent := 100;
        stateIds :=
          {| anchorPackId := lit "none";
             contextPackId := lit "none";
             deltaPackId := lit "none";
             planContractId :=
               match in_mode input with
               | Plan => Some (sha (normalizePrompt tl (in_prompt input)))
               | Agent => None
               end |} |}, s)
  /\ recordRunOutcome tl outcome w s = ({| action := ActionOk; reasons := [] |}, s).
Proof.
  unfold isContinuityEnabled. intros Hoff.
  destruct (getContinuityMode (env w)) eqn:Emode; try discriminate.
  split.
  - unfold apply. mstep. rewrite Emode.
    rewrite (getConfiguredTokenMode_keeps w s). reflexivity.
  - unfold recordRunOutcome. mstep. rewrite Emode. reflexivity.
Qed.

Lemma continuity_off_is_inert_witness :
  isContinuityEnabled (env (exampleWorld noEnv 1000)) = false
  /\ apply asciiLower (exampleInput tokenBucketPrompt) (exampleWorld noEnv 1000) pressuredSystem
     = ({| out_prompt := lit tokenBucketPrompt;
           cacheHit := false;
           injectedBytes := 0;
           reusedPercent := 100;
           stateIds :=
             {| anchorPackId := lit "none";
                contextPackId := lit "none";
                deltaPackId := lit "none";
                planContractId := None |} |}, pressuredSystem)
  /\ recordRunOutcome asciiLower exampleOutcome (exampleWorld noEnv 1000) pressuredSystem
     = ({| action := ActionOk; reasons := [] |}, pressuredSystem).
Proof.
  split; [reflexivity|].
  exact (continuity_off_is_inert asciiLower (exampleInput tokenBucketPrompt) exampleOutcome
           (exampleWorld noEnv 1000) pressuredSystem eq_refl).
Defined.

(** In active mode: the front, and the bytes counted for it. *)
Lemma apply_prompt_accounting_front tl (input : ContinuityInput) (w : World) (s : System) :
  getContinuityMode (env w) = ModeActive ->
  exists front,
    out_prompt (fst (apply tl input w s)) = front ++ NL ++ NL ++ in_prompt input
    /\ injectedBytes (fst (apply tl input w s)) = byteLength front + 2.
Proof.
  intros Hmode. pose proof (apply_returns tl input w s) as H. cbv zeta in H.
  rewrite Hmode in H. destruct H as (front & Hout & Hinj).
  exists front. split; [exact Hout|].
  rewrite Hinj, byteLength_before_prompt.
  pose proof (byteLength_nonneg front). lia.
Qed.

(** X2: In active mode the prompt [apply] returns is what it puts in front,
    two line feeds and the caller's prompt, unchanged and last;
    [injectedBytes] is the byte length of the front plus the two line feeds,
    so the bytes of the returned prompt are the injected ones and the
    caller's, and the [Math.max(..., 0)] around the difference never
    matters.  In every other mode the prompt comes back as given and
    [injectedBytes] is 0. *)
Theorem apply_prompt_accounting tl (input : ContinuityInput) (w : World) (s : System) :
  let r := fst (apply tl input w s) in
  (getContinuityMode (env w) = ModeActive ->
   exists front,
     out_prompt r = front ++ NL ++ NL ++ in_prompt input
     /\ injectedBytes r = byteLength front + 2
     /\ byteLength (out_prompt r) = injectedBytes r + byteLength (in_prompt input))
  /\ (getContinuityMode (env w) <> ModeActive ->
      out_prompt r = in_prompt input /\ injectedBytes r = 0).
Proof.
  intros r. split.
  - intros Hmode.
    destruct (apply_prompt_accounting_front tl input w s Hmode) as (front & Hout & Hinj).
    fold r in Hout, Hinj. exists front.
    split; [exact Hout|]. split; [exact Hinj|].
    rewrite Hout, Hinj, byteLength_before_prompt. lia.
  - intros Hmode. pose proof (apply_returns tl input w s) as H. cbv zeta in H. fold r in H.
    destruct (getContinuityMode (env w)); [exact H|exact H|congruence].
Qed.

(** ** How much a truncation keeps *)

Lemma mulDouble_0_85_near (n : Z) :
  2 <= n ->
  let '(m, sh) := mulDouble_0_85 n in
  0 <= sh /\ (2 ^ 53 - 1) * (n * DOUBLE_0_85) <= 2 ^ 53 * (m * 2 ^ sh).
Proof.
  intros Hn. unfold mulDouble_0_85.
  set (p := n * DOUBLE_0_85).
  assert (Hp : 2 * 7656119366529843 <= p) by (unfold p, DOUBLE_0_85; lia).
  destruct (bitLength p <=? 53) eqn:Eb.
  - rewrite Z.pow_0_r, Z.mul_1_r. change (2 ^ 53) with 9007199254740992. lia.
  - apply Z.leb_gt in Eb.
    set (sh := bitLength p - 53).
    assert (Hsh : 1 <= sh) by (unfold sh; lia).
    pose proof (bitLength_spec p ltac:(lia)) as [Hlo _].
    replace (bitLength p - 1) with ((sh - 1) + 53) in Hlo by (unfold sh; lia).
    rewrite Z.pow_add_r in Hlo by lia.
    set (half := 2 ^ (sh - 1)) in *.
    assert (Hhalf : 0 < half) by (unfold half; apply Z.pow_pos_nonneg; lia).
    assert (H2 : 2 ^ sh = 2 * half).
    { unfold half. replace sh with (Z.succ (sh - 1)) at 1 by lia.
      rewrite Z.pow_succ_r by lia. reflexivity. }
    rewrite Z.shiftr_div_pow2 by lia.
    pose proof (Z.div_mod p (2 ^ sh) ltac:(lia)) as Hdm.
    pose proof (Z.mod_pos_bound p (2 ^ sh) ltac:(lia)) as Hr.
    set (q := p / 2 ^ sh) in *. set (r := p mod 2 ^ sh) in *.
    change (2 ^ 53) with 9007199254740992 in *.
    destruct ((half <? r) || ((r =? half) && Z.odd q)) eqn:Eround.
    + split; [lia|]. rewrite H2 in *. nia.
    + assert (Hle : r <= half).
      { apply orb_false_iff in Eround as [H _]. apply Z.ltb_ge in H. exact H. }
      split; [lia|]. rewrite H2 in *. nia.
Qed.

(** The loop never drops more than half of what is left, and one unit. *)
Lemma floor_0_85_half (n : Z) : 2 <= n -> n <= 2 * floor_0_85 n + 1.
Proof.
  intros Hn. unfold floor_0_85.
  pose proof (mulDouble_0_85_near n Hn) as Hb.
  destruct (mulDouble_0_85 n) as [m sh]. destruct Hb as (Hsh & Hm).
  rewrite Z.shiftl_mul_pow2 by lia.
  rewrite Z.shiftr_div_pow2 by lia.
  set (x := m * 2 ^ sh) in *.
  pose proof (Z.div_mod x (2 ^ 53) ltac:(lia)) as Hdm.
  pose proof (Z.mod_pos_bound x (2 ^ 53) ltac:(lia)) as Hr.
  unfold DOUBLE_0_85 in Hm. change (2 ^ 53) with 9007199254740992 in *.
  lia.
Qed.

Lemma clampBody_len (current : jsstring) :
  len (clampBody current) = Z.min (floor_0_85 (len current)) (len current).
Proof.
  rewrite clampBody_firstn. unfold len at 1. rewrite length_firstn.
  assert (0 <= floor_0_85 (len current)).
  { destruct current as [|c rest]; [change (len (@nil Z)) with 0; rewrite floor_0_85_0; lia|].
    apply floor_0_85_lt. unfold len. simpl length. lia. }
  unfold len in *. lia.
Qed.

Lemma clampLoop_keeps (fuel : nat) (maxBytes k : Z) (current : jsstring) :
  6 * k + 6 <= maxBytes -> k <= len current -> k <= len (clampLoop fuel maxBytes current).
Proof.
  intros Hmax.
  destruct (Z.le_gt_cases k 0) as [Hneg|Hpos];
    [intros _; pose proof (len_nonneg (clampLoop fuel maxBytes current)); lia|].
  revert current. induction fuel as [|fuel IH]; intros current Hk; simpl.
  - exact Hk.
  - destruct (clampGuard maxBytes current) eqn:Hg; [|exact Hk].
    apply IH. unfold clampGuard in Hg. apply andb_true_iff in Hg as [Hb _].
    apply Z.ltb_lt in Hb. pose proof (byteLength_bound current) as Hbound.
    pose proof (floor_0_85_half (len current) ltac:(lia)) as Hhalf.
    rewrite clampBody_len. lia.
Qed.

Lemma clampByBytes_keeps (value : jsstring) (maxBytes k : Z) :
  6 * k + 6 <= maxBytes -> k <= len value -> k <= len (clampByBytes value maxBytes).
Proof.
  intros Hmax Hk. unfold clampByBytes.
  destruct (byteLength value <=? maxBytes); [exact Hk|].
  apply clampLoop_keeps; assumption.
Qed.

Lemma startsWith_prefix (s p : jsstring) : startsWith s p = true <-> p `prefix_of` s.
Proof.
  revert s. induction p as [|c p IH]; intros s; simpl.
  - split; [intros _; apply prefix_nil|intros _; destruct s; reflexivity].
  - destruct s as [|d s]; simpl.
    + split; [discriminate|]. intros H. apply prefix_nil_inv in H. discriminate.
    + rewrite andb_true_iff, Z.eqb_eq, IH. split.
      * intros [-> H]. apply prefix_cons. exact H.
      * intros H. split; [symmetry; eapply prefix_cons_inv_1; exact H
                         |eapply prefix_cons_inv_2; exact H].
Qed.

(** A truncation to 6 bytes or more per unit of a head keeps that head. *)
Lemma clampByBytes_keeps_head (head rest : jsstring) (maxBytes : Z) :
  6 * len head + 6 <= maxBytes ->
  startsWith (clampByBytes (head ++ rest) maxBytes) head = true.
Proof.
  intros Hmax. apply startsWith_prefix.
  pose proof (clampByBytes_prefix (head ++ rest) maxBytes) as Hp.
  assert (Hk : len head <= len (clampByBytes (head ++ rest) maxBytes)).
  { apply clampByBytes_keeps; [exact Hmax|]. unfold len. rewrite length_app. lia. }
  destruct (prefix_weak_total _ _ _ Hp (prefix_app_r head head rest (reflexivity _)))
    as [H|H]; [|exact H].
  rewrite (prefix_length_eq _ _ H); [reflexivity|]. unfold len in Hk. lia.
Qed.

Lemma budget_at_least_14000 (mode : ContinuityTokenMode) :
  14000 <= maxPackBytes (getContinuityBudgetProfile mode) <= 42000.
Proof. destruct mode; simpl; lia. Qed.

(** On a miss the prompt is built from the composite envelope, cut to the
    budget of the configured token mode. *)
Lemma apply_miss_envelope tl (input : ContinuityInput) (w : World) (s : System) :
  getContinuityMode (env w) = ModeActive ->
  cacheHit (fst (apply tl input w s)) = false ->
  exists ids anchorPack contextPack planContract deltaPack,
    out_prompt (fst (apply tl input w s)) =
    clampByBytes
      (compositeEnvelope (in_mode input) ids anchorPack contextPack planContract deltaPack
         (objectiveLineOf (in_prompt input)))
      (maxPackBytes (getContinuityBudgetProfile (fst (getConfiguredTokenMode w s))))
    ++ NL ++ NL ++ in_prompt input.
Proof.
  intros Hmode. unfold apply. mstep. rewrite Hmode. cbv beta. cbn [fst snd].
  match goal with
  | |- context [match fst ?c with _ => _ end] => destruct (fst c)
  end; cbn [fst snd out_prompt cacheHit]; [discriminate|].
  intros _. do 5 eexists. reflexivity.
Qed.

(** X3: on a cache miss in active mode, whatever the repository holds, the
    bytes [apply] injects stay within the pack budget of the configured
    token mode and the two line feeds, so never above 42,002; and the
    truncation to the budget, which cuts the envelope from its end, leaves its
    first line [[1CODE_CONTINUITY_STATE_IDS]] in place. *)
Theorem apply_miss_within_budget tl (input : ContinuityInput) (w : World) (s : System) :
  getContinuityMode (env w) = ModeActive ->
  cacheHit (fst (apply tl input w s)) = false ->
  let r := fst (apply tl input w s) in
  let budget := getContinuityBudgetProfile (fst (getConfiguredTokenMode w s)) in
  injectedBytes r <= maxPackBytes budget + 2
  /\ injectedBytes r <= 42002
  /\ startsWith (out_prompt r) (lit "[1CODE_CONTINUITY_STATE_IDS]" ++ NL) = true.
Proof.
  intros Hmode Hmiss r budget.
  destruct (apply_miss_envelope tl input w s Hmode Hmiss)
    as (ids & anchorPack & contextPack & planContract & deltaPack & Hout).
  fold r budget in Hout.
  destruct (apply_prompt_accounting_front tl input w s Hmode) as (front & Hfront & Hinj).
  fold r in Hfront, Hinj.
  set (pack := clampByBytes _ _) in Hout.
  assert (Hpack : front = pack).
  { rewrite Hout in Hfront. apply app_inv_tail in Hfront. symmetry. exact Hfront. }
  subst front.
  pose proof (budget_at_least_14000 (fst (getConfiguredTokenMode w s))) as Hb. fold budget in Hb.
  assert (Hbytes : byteLength pack <= maxPackBytes budget)
    by (apply clampByBytes_bound; lia).
  split; [lia|]. split; [lia|].
  rewrite Hout. apply startsWith_prefix.
  etransitivity; [|apply prefix_app_r; reflexivity].
  apply startsWith_prefix. unfold pack, compositeEnvelope, stateIdsBlock.
  cbn [app join].
  rewrite (app_assoc (lit "[1CODE_CONTINUITY_STATE_IDS]") NL).
  apply clampByBytes_keeps_head.
  change (len (lit "[1CODE_CONTINUITY_STATE_IDS]" ++ NL)) with 29. lia.
Qed.

Lemma apply_miss_within_budget_witness :
  let w := exampleWorld activeEnv 1000 in
  let r := fst (apply asciiLower (exampleInput tokenBucketPrompt) w emptySystem) in
  getContinuityMode (env w) = ModeActive
  /\ cacheHit r = false
  /\ injectedBytes r <= maxPackBytes (getContinuityBudgetProfile TokenNormal) + 2
  /\ injectedBytes r <= 42002
  /\ startsWith (out_prompt r) (lit "[1CODE_CONTINUITY_STATE_IDS]" ++ NL) = true.
Proof.
  intros w r.
  assert (Hmode : getContinuityMode (env w) = ModeActive) by reflexivity.
  assert (Hmiss : cacheHit r = false) by (vm_compute; reflexivity).
  split; [exact Hmode|]. split; [exact Hmiss|].
  exact (apply_miss_within_budget asciiLower (exampleInput tokenBucketPrompt) w emptySystem
           Hmode Hmiss).
Defined.

(** ** What [apply] leaves alone *)

Lemma keeps_coreTablesOf {A} (m : M A) : keeps database m -> keeps coreTablesOf m.
Proof.
  apply (keeps_database (fun d => (continuityPackCache d, continuityState d,
                                     continuityArtifact d, continuitySettings d,
                                     subChats d, chats d))).
Qed.

#[local] Hint Resolve keeps_coreTablesOf | 5 : keeps.

Lemma getSubChatState_keeps_database sub : keeps database (getSubChatState sub).
Proof. unfold getSubChatState. keeps_tac. Qed.

#[local] Hint Resolve getSubChatState_keeps_database : keeps.

Lemma buildDeltaPack_keeps_database sub root repoState prompt :
  keeps database (buildDeltaPack sub root repoState prompt).
Proof. unfold buildDeltaPack. keeps_tac. Qed.

#[local] Hint Resolve buildDeltaPack_keeps_database : keeps.

Lemma storePersistedSearch_keeps_coreTablesOf key root query head result :
  keeps coreTablesOf (storePersistedSearch key root query head result).
Proof. unfold storePersistedSearch. keeps_tac. Qed.

Lemma storePersistedSummary_keeps_coreTablesOf key root path hash summary :
  keeps coreTablesOf (storePersistedSummary key root path hash summary).
Proof. unfold storePersistedSummary. keeps_tac. Qed.

#[local] Hint Resolve storePersistedSearch_keeps_coreTablesOf
  storePersistedSummary_keeps_coreTablesOf : keeps.

Lemma searchRelevantFiles_keeps_coreTablesOf tl root keywords head :
  keeps coreTablesOf (searchRelevantFiles tl root keywords head).
Proof. unfold searchRelevantFiles. keeps_tac. Qed.

Lemma readSummary_keeps_coreTablesOf root path maxBytes :
  keeps coreTablesOf (readSummary root path maxBytes).
Proof. unfold readSummary. keeps_tac. Qed.

#[local] Hint Resolve searchRelevantFiles_keeps_coreTablesOf readSummary_keeps_coreTablesOf
  : keeps.

Lemma collectSummaries_keeps_coreTablesOf root budget files :
  forall total summaries,
    keeps coreTablesOf (collectSummaries root budget files total summaries).
Proof. induction files as [|file rest IH]; intros total summaries; simpl; keeps_tac. Qed.

#[local] Hint Resolve collectSummaries_keeps_coreTablesOf : keeps.

Lemma buildContextPack_keeps_coreTablesOf tl root repoState prompt budget :
  keeps coreTablesOf (buildContextPack tl root repoState prompt budget).
Proof. unfold buildContextPack. keeps_tac. Qed.

(** The parts of the core tables. *)
Lemma coreTablesOf_parts (s s' : System) :
  coreTablesOf s' = coreTablesOf s ->
  packTableOf s' = packTableOf s /\ stateTableOf s' = stateTableOf s
  /\ artifactTableOf s' = artifactTableOf s /\ settingsOf s' = settingsOf s
  /\ subChatsOf s' = subChatsOf s /\ chatsOf s' = chatsOf s.
Proof.
  unfold coreTablesOf, packTableOf, stateTableOf, artifactTableOf, settingsOf, subChatsOf,
    chatsOf.
  intros [= -> -> -> -> -> ->]. repeat split.
Qed.

Lemma buildContextPack_keeps_stateTableOf tl root repoState prompt budget :
  keeps stateTableOf (buildContextPack tl root repoState prompt budget).
Proof.
  intros w s. apply coreTablesOf_parts, buildContextPack_keeps_coreTablesOf.
Qed.

Lemma buildContextPack_keeps_artifactTableOf tl root repoState prompt budget :
  keeps artifactTableOf (buildContextPack tl root repoState prompt budget).
Proof.
  intros w s. apply coreTablesOf_parts, buildContextPack_keeps_coreTablesOf.
Qed.

Lemma buildContextPack_keeps_subChatsOf tl root repoState prompt budget :
  keeps subChatsOf (buildContextPack tl root repoState prompt budget).
Proof.
  intros w s. apply coreTablesOf_parts, buildContextPack_keeps_coreTablesOf.
Qed.

Lemma buildContextPack_keeps_chatsOf tl root repoState prompt budget :
  keeps chatsOf (buildContextPack tl root repoState prompt budget).
Proof.
  intros w s. apply coreTablesOf_parts, buildContextPack_keeps_coreTablesOf.
Qed.

#[local] Hint Resolve buildContextPack_keeps_stateTableOf buildContextPack_keeps_artifactTableOf
  buildContextPack_keeps_subChatsOf buildContextPack_keeps_chatsOf : keeps.

Lemma storeCachedPack_keeps_artifactTableOf key fp hash head provider mode budget pack :
  keeps artifactTableOf (storeCachedPack key fp hash head provider mode budget pack).
Proof. unfold storeCachedPack. keeps_tac. Qed.

Lemma storeCachedPack_keeps_subChatsOf key fp hash head provider mode budget pack :
  keeps subChatsOf (storeCachedPack key fp hash head provider mode budget pack).
Proof. unfold storeCachedPack. keeps_tac. Qed.

Lemma storeCachedPack_keeps_chatsOf key fp hash head provider mode budget pack :
  keeps chatsOf (storeCachedPack key fp hash head provider mode budget pack).
Proof. unfold storeCachedPack. keeps_tac. Qed.

Lemma storeSubChatState_keeps_artifactTableOf sub hash pack :
  keeps artifactTableOf (storeSubChatState sub hash pack).
Proof. unfold storeSubChatState. keeps_tac. Qed.

Lemma storeSubChatState_keeps_subChatsOf sub hash pack :
  keeps subChatsOf (storeSubChatState sub hash pack).
Proof. unfold storeSubChatState. keeps_tac. Qed.

Lemma storeSubChatState_keeps_chatsOf sub hash pack :
  keeps chatsOf (storeSubChatState sub hash pack).
Proof. unfold storeSubChatState. keeps_tac. Qed.

#[local] Hint Resolve storeCachedPack_keeps_artifactTableOf storeCachedPack_keeps_subChatsOf
  storeCachedPack_keeps_chatsOf storeSubChatState_keeps_artifactTableOf
  storeSubChatState_keeps_subChatsOf storeSubChatState_keeps_chatsOf : keeps.

Lemma apply_keeps_artifactTableOf tl input : keeps artifactTableOf (apply tl input).
Proof. unfold apply. keeps_tac. Qed.

Lemma apply_keeps_settingsOf tl input : keeps settingsOf (apply tl input).
Proof. unfold apply. keeps_tac. Qed.

Lemma apply_keeps_subChatsOf tl input : keeps subChatsOf (apply tl input).
Proof. unfold apply. keeps_tac. Qed.

Lemma apply_keeps_chatsOf tl input : keeps chatsOf (apply tl input).
Proof. unfold apply. keeps_tac. Qed.

(** ** The sessions [apply] leaves alone *)

#[local] Instance sessionsKept_refl owner : Reflexive (sessionsKept owner).
Proof. intros t sub row H. exists row. repeat split. exact H. Qed.

#[local] Instance sessionsKept_trans owner : Transitive (sessionsKept owner).
Proof.
  intros t1 t2 t3 H12 H23 sub row H.
  destruct (H12 sub row H) as (row2 & H2 & Ht & Hs & Ho).
  destruct (H23 sub row2 H2) as (row3 & H3 & Ht' & Hs' & Ho').
  exists row3. split; [exact H3|]. split; [congruence|]. split; [congruence|].
  intros Hne. rewrite (Ho' Hne). apply Ho. exact Hne.
Qed.

Lemma storeSubChatState_sessionsKept sub hash pack :
  evolves stateTableOf (sessionsKept sub) (storeSubChatState sub hash pack).
Proof.
  intros w s. unfold stateTableOf, storeSubChatState, when. mstep.
  destruct (databaseUp w); cbn [snd database continuityState withStateTable];
    [|reflexivity].
  intros other row Hrow.
  destruct (decide (other = sub)) as [->|Hne].
  - rewrite Hrow. eexists. split; [apply lookup_insert_eq|].
    split; [reflexivity|]. split; [reflexivity|]. intros Hne. congruence.
  - exists row. split; [|repeat split].
    destruct (continuityState (database s) !! sub);
      rewrite lookup_insert_ne by congruence; exact Hrow.
Qed.

#[local] Hint Resolve storeSubChatState_sessionsKept : evolves.

Lemma getCachedPack_keeps_stateTableOf key : keeps stateTableOf (getCachedPack key).
Proof. eauto with keeps. Qed.

Lemma buildDeltaPack_keeps_stateTableOf sub root repoState prompt :
  keeps stateTableOf (buildDeltaPack sub root repoState prompt).
Proof. eauto with keeps. Qed.

#[local] Hint Resolve getCachedPack_keeps_stateTableOf buildDeltaPack_keeps_stateTableOf
  getRepoState_keeps_stateTableOf : keeps.

Lemma apply_sessionsKept tl input :
  evolves stateTableOf (sessionsKept (in_subChatId input)) (apply tl input).
Proof. unfold apply. evolves_tac. Qed.

(** X4: [apply] reads and fills caches and nothing else.  In every mode it
    leaves the artifacts, the settings row, the sub-chats and the chats as
    they were; and every session state row that existed stays, with its turn
    counter and the time of its last snapshot unchanged (a miss rewrites the
    changed-files hash and the injected bytes of the caller's row only). *)
Theorem apply_leaves_sessions_alone tl (input : ContinuityInput) (w : World) (s : System) :
  let s' := snd (apply tl input w s) in
  artifactTableOf s' = artifactTableOf s
  /\ settingsOf s' = settingsOf s
  /\ subChatsOf s' = subChatsOf s
  /\ chatsOf s' = chatsOf s
  /\ (forall sub row,
        stateTableOf s !! sub = Some row ->
        exists row',
          stateTableOf s' !! sub = Some row'
          /\ st_turnsSinceSnapshot row' = st_turnsSinceSnapshot row
          /\ st_lastSnapshotAt row' = st_lastSnapshotAt row
          /\ (sub <> in_subChatId input -> row' = row)).
Proof.
  intros s'.
  split; [apply apply_keeps_artifactTableOf|].
  split; [apply apply_keeps_settingsOf|].
  split; [apply apply_keeps_subChatsOf|].
  split; [apply apply_keeps_chatsOf|].
  apply (apply_sessionsKept tl input w s).
Qed.

(** ** What [apply] starts *)

Lemma getCachedPack_keeps_effects key : keeps effects (getCachedPack key).
Proof. unfold getCachedPack. keeps_tac. Qed.

Lemma getSubChatState_keeps_effects sub : keeps effects (getSubChatState sub).
Proof. unfold getSubChatState. keeps_tac. Qed.

Lemma storeCachedPack_keeps_effects key fp hash head provider mode budget pack :
  keeps effects (storeCachedPack key fp hash head provider mode budget pack).
Proof. unfold storeCachedPack. keeps_tac. Qed.

Lemma storeSubChatState_keeps_effects sub hash pack :
  keeps effects (storeSubChatState sub hash pack).
Proof. unfold storeSubChatState. keeps_tac. Qed.

Lemma storePersistedSearch_keeps_effects key root query head result :
  keeps effects (storePersistedSearch key root query head result).
Proof. unfold storePersistedSearch. keeps_tac. Qed.

Lemma storePersistedSummary_keeps_effects key root path hash summary :
  keeps effects (storePersistedSummary key root path hash summary).
Proof. unfold storePersistedSummary. keeps_tac. Qed.

#[local] Hint Resolve getCachedPack_keeps_effects getSubChatState_keeps_effects
  storeCachedPack_keeps_effects storeSubChatState_keeps_effects
  storePersistedSearch_keeps_effects storePersistedSummary_keeps_effects : keeps.

Lemma readSummary_keeps_effects root path maxBytes :
  keeps effects (readSummary root path maxBytes).
Proof. unfold readSummary. keeps_tac. Qed.

#[local] Hint Resolve readSummary_keeps_effects : keeps.

Lemma collectSummaries_keeps_effects root budget files :
  forall total summaries, keeps effects (collectSummaries root budget files total summaries).
Proof. induction files as [|file rest IH]; intros total summaries; simpl; keeps_tac. Qed.

#[local] Hint Resolve collectSummaries_keeps_effects : keeps.

Lemma getRepoState_probes root : emitsOnly probeOnly (getRepoState root).
Proof. unfold getRepoState. emits_tac. Qed.

Lemma getDiffSnippet_probes root : emitsOnly probeOnly (getDiffSnippet root).
Proof. unfold getDiffSnippet. emits_tac. Qed.

Lemma listFiles_probes root : emitsOnly probeOnly (listFiles root).
Proof. unfold listFiles. emits_tac. Qed.

#[local] Hint Resolve getRepoState_probes getDiffSnippet_probes listFiles_probes : emits.

Lemma searchRelevantFiles_probes tl root keywords head :
  emitsOnly probeOnly (searchRelevantFiles tl root keywords head).
Proof. unfold searchRelevantFiles. emits_tac. Qed.

#[local] Hint Resolve searchRelevantFiles_probes : emits.

Lemma buildContextPack_probes tl root repoState prompt budget :
  emitsOnly probeOnly (buildContextPack tl root repoState prompt budget).
Proof. unfold buildContextPack. emits_tac. Qed.

Lemma buildDeltaPack_probes sub root repoState prompt :
  emitsOnly probeOnly (buildDeltaPack sub root repoState prompt).
Proof. unfold buildDeltaPack. emits_tac. Qed.

#[local] Hint Resolve buildContextPack_probes buildDeltaPack_probes : emits.

Lemma apply_probes tl input : emitsOnly probeOnly (apply tl input).
Proof. unfold apply. emits_tac. Qed.

Lemma streq_lit_ne (a : jsstring) (x y : string) :
  streq a (lit x) = true -> lit x <> lit y -> streq a (lit y) = false.
Proof.
  unfold streq. intros H Hne. apply bool_decide_eq_true in H. subst a.
  apply bool_decide_eq_false. exact Hne.
Qed.

Lemma isProbe_noCommit (e : Effect) : isProbe e = true -> initiatesCommit e = false.
Proof.
  destruct e as [| | |root method args|file args cwd]; cbn [isProbe initiatesCommit];
    try reflexivity; try discriminate.
  - intros H. apply orb_true_iff in H as [H|H]; apply andb_true_iff in H as [Hm _];
      rewrite (streq_lit_ne _ _ "commit" Hm), (streq_lit_ne _ _ "raw" Hm) by discriminate;
      reflexivity.
  - intros H. apply orb_true_iff in H as [H|H]; apply andb_true_iff in H as [Hf Ha].
    + rewrite (streq_lit_ne _ _ "commit" Ha) by discriminate. apply andb_false_r.
    + rewrite (streq_lit_ne _ _ "git" Hf) by discriminate. reflexivity.
Qed.

(** X5: whatever [apply] starts or reports is a read: [revparse HEAD] and
    [status] through simple-git, [git diff], [rg --files], and the pack
    metrics.  It keeps every effect that was logged before, and starts no
    command that commits. *)
Theorem apply_only_probes tl (input : ContinuityInput) (w : World) (s : System) :
  exists new,
    effects (snd (apply tl input w s)) = effects s ++ new
    /\ Forall (fun e => isProbe e = true /\ initiatesCommit e = false) new.
Proof.
  destruct (apply_probes tl input w s) as (new & Heff & Hall).
  exists new. split; [exact Heff|].
  eapply Forall_impl; [exact Hall|].
  intros e He. split; [exact He|]. apply isProbe_noCommit. exact He.
Qed.

(** ** [recordRunOutcome] in passive mode *)

Ltac passive_frame part :=
  unfold recordRunOutcome;
  rewrite snd_bind; cbv beta; cbn [fst snd world];
  match goal with H : getContinuityMode _ = ModePassive |- _ => rewrite H end;
  bindstep; cbv beta iota zeta; cbn [andb when ret fst snd];
  frame part; reflexivity.

(** X6: in passive mode [recordRunOutcome] still runs the governor and
    writes the session state, but every artifact write and the rehydrate are
    left out, even when the action it returns is [rehydrate]: the artifacts,
    the settings row, the sub-chats with their messages and the chats are as
    they were. *)
Theorem recordRunOutcome_passive_writes_state_only tl (input : RunOutcomeInput)
    (w : World) (s : System) :
  getContinuityMode (env w) = ModePassive ->
  let s' := snd (recordRunOutcome tl input w s) in
  artifactTableOf s' = artifactTableOf s
  /\ settingsOf s' = settingsOf s
  /\ subChatsOf s' = subChatsOf s
  /\ chatsOf s' = chatsOf s.
Proof.
  intros Hmode s'. unfold s'.
  split; [passive_frame artifactTableOf|].
  split; [passive_frame settingsOf|].
  split; [passive_frame subChatsOf|].
  passive_frame chatsOf.
Qed.

Lemma recordRunOutcome_passive_writes_state_only_witness :
  let w := exampleWorld passiveRehydrateEnv 5000 in
  let s' := snd (recordRunOutcome asciiLower exampleOutcome w chattingSystem) in
  getContinuityMode (env w) = ModePassive
  /\ action (fst (recordRunOutcome asciiLower exampleOutcome w chattingSystem)) = ActionRehydrate
  /\ artifactTableOf s' = artifactTableOf chattingSystem
  /\ settingsOf s' = settingsOf chattingSystem
  /\ subChatsOf s' = subChatsOf chattingSystem
  /\ chatsOf s' = chatsOf chattingSystem.
Proof.
  intros w s'.
  assert (Hmode : getContinuityMode (env w) = ModePassive) by reflexivity.
  split; [exact Hmode|]. split; [vm_compute; reflexivity|].
  exact (recordRunOutcome_passive_writes_state_only asciiLower exampleOutcome w chattingSystem
           Hmode).
Defined.

(** ** The artifact table only grows *)

Lemma writeArtifactIfNew_grows sub type fp content :
  evolves artifactTableOf suffix (writeArtifactIfNew sub type fp content).
Proof.
  intros w s. unfold artifactTableOf. rewrite writeArtifactIfNew_table.
  destruct (databaseUp w); [|reflexivity].
  destruct (existsb _ _); [reflexivity|].
  destruct (subChats _ !! _); [apply suffix_cons_r|]; reflexivity.
Qed.

#[local] Hint Resolve writeArtifactIfNew_grows : evolves.

Lemma recordRunOutcome_grows tl input :
  evolves artifactTableOf suffix (recordRunOutcome tl input).
Proof. unfold recordRunOutcome. evolves_tac. Qed.

Lemma hasArtifact_grows {A} (m : M A) (w : World) (s : System) sub type fp :
  evolves artifactTableOf suffix m ->
  hasArtifact sub type fp (artifactTableOf s) ->
  hasArtifact sub type fp (artifactTableOf (snd (m w s))).
Proof.
  intros Hm (row & Hin & Hrow). destruct (Hm w s) as (new & ->).
  exists row. split; [apply in_or_app; right; exact Hin|exact Hrow].
Qed.

Lemma detectMeaningfulEvents_error tl rs total response :
  let events := detectMeaningfulEvents tl rs total response true in
  devlog events = true /\ rejectedApproach events = true
  /\ rejectedReason events = lit "run-error".
Proof.
  unfold detectMeaningfulEvents. cbn [devlog rejectedApproach rejectedReason orb].
  split; [|split; reflexivity].
  apply Z.ltb_lt. unfold len. rewrite !length_app. simpl length. lia.
Qed.

(** X7: in active mode with the store up, a run reported as failed for a
    sub-session that has its row in the sub-chats is always on record after
    [recordRunOutcome]: the sub-session has a devlog artifact carrying the
    fingerprint of the event and a rejected-approach artifact carrying that
    fingerprint with [:rejected] appended, whatever else the call writes
    after them.  For a sub-session without that row the call writes no
    artifact.  And in every mode the call only adds artifacts: the table it
    found is the tail of the table it leaves. *)
Theorem recordRunOutcome_records_failed_run tl (input : RunOutcomeInput)
    (w : World) (s : System) :
  let root := repoRootOf (ro_projectPath input) (ro_cwd input) in
  let rs := fst (getRepoState root w s) in
  let total := fst (getDiffStats root w s) in
  let event := detectMeaningfulEvents tl rs total (ro_assistantResponse input) true in
  let s' := snd (recordRunOutcome tl input w s) in
  artifactTableOf s `suffix_of` artifactTableOf s'
  /\ (subChatsOf s !! ro_subChatId input = None -> artifactTableOf s' = artifactTableOf s)
  /\ (getContinuityMode (env w) = ModeActive ->
      databaseUp w = true ->
      is_Some (subChatsOf s !! ro_subChatId input) ->
      ro_wasError input = Some true ->
      hasArtifact (ro_subChatId input) Devlog (ev_eventFingerprint event) (artifactTableOf s')
      /\ hasArtifact (ro_subChatId input) RejectedApproach
           (ev_eventFingerprint event ++ lit ":rejected") (artifactTableOf s')).
Proof.
  intros root rs total event s'.
  split; [apply (recordRunOutcome_grows tl input w s)|].
  split; [apply (recordRunOutcome_orphan tl input w s)|].
  intros Hmode Hup [chat Hchat] Herr.
  destruct (detectMeaningfulEvents_error tl rs total (ro_assistantResponse input))
    as (Hdevlog & Hrejected & _). fold event in Hdevlog, Hrejected.
  unfold s', recordRunOutcome.
  rewrite snd_bind. cbv beta. cbn [fst snd world].
  rewrite Hmode, Herr. bindstep. cbv beta iota zeta.
  fold root. fold rs.
  rewrite (getDiffStats_fst root w _ s). fold total. fold event.
  rewrite Hdevlog, Hrejected. cbn [andb].
  split.
  - do 7 (apply hasArtifact_grows; [solve [evolves_tac]|]).
    unfold when at 1. apply (writeArtifactIfNew_present _ _ _ _ chat); [exact Hup|].
    frame subChatsOf. exact Hchat.
  - do 5 (apply hasArtifact_grows; [solve [evolves_tac]|]).
    unfold when at 1. apply (writeArtifactIfNew_present _ _ _ _ chat); [exact Hup|].
    frame subChatsOf. exact Hchat.
Qed.

(** ** The governor counts signals *)

Lemma len_signal (c : bool) (name : jsstring) :
  len (if c then [name] else []) = Z.b2z c.
Proof. destruct c; reflexivity. Qed.

Lemma b2z_le (high low x : Z) : low <= high -> Z.b2z (high <=? x) <= Z.b2z (low <=? x).
Proof.
  intros H. destruct (Z.leb_spec high x); destruct (Z.leb_spec low x); simpl; lia.
Qed.

Lemma b2z_range (b : bool) : 0 <= Z.b2z b <= 1.
Proof. destruct b; simpl; lia. Qed.

(** X8: [decideGovernor] decides by counting.  A signal past its rehydrate
    threshold is past its snapshot threshold; the action is [rehydrate]
    exactly when two or more of the five signals reach their rehydrate
    threshold, [snapshot] exactly when fewer than two do and two or more
    reach their snapshot threshold, and [ok] exactly when fewer than two
    reach their snapshot threshold; and the reasons returned are as many as
    the signals counted for the action, none for [ok]. *)
Theorem decideGovernor_counts_signals (i : GovernorInput) :
  let d := decideGovernor i in
  0 <= rehydrateSignals i <= snapshotSignals i
  /\ snapshotSignals i <= 5
  /\ (action d = ActionRehydrate <-> 2 <= rehydrateSignals i)
  /\ (action d = ActionSnapshot <-> rehydrateSignals i < 2 <= snapshotSignals i)
  /\ (action d = ActionOk <-> snapshotSignals i < 2)
  /\ len (reasons d) =
     match action d with
     | ActionRehydrate => rehydrateSignals i
     | ActionSnapshot => snapshotSignals i
     | ActionOk => 0
     end.
Proof.
  unfold decideGovernor.
  match goal with
  | |- context [if 2 <=? len ?severe then _ else if 2 <=? len ?ordinary then _ else _] =>
    assert (Hsevere : len severe = rehydrateSignals i)
      by (rewrite !len_app, !len_signal; unfold rehydrateSignals; lia);
    assert (Hordinary : len ordinary = snapshotSignals i)
      by (rewrite !len_app, !len_signal; unfold snapshotSignals; lia);
    set (severeReasons := severe) in *; set (ordinaryReasons := ordinary) in *
  end.
  rewrite Hsevere, Hordinary.
  assert (Hle : 0 <= rehydrateSignals i <= snapshotSignals i /\ snapshotSignals i <= 5).
  { unfold rehydrateSignals, snapshotSignals.
    pose proof (b2z_le REHYDRATE_TURN_THRESHOLD SNAPSHOT_TURN_THRESHOLD
                  (turnsSinceSnapshot i) ltac:(unfold REHYDRATE_TURN_THRESHOLD, SNAPSHOT_TURN_THRESHOLD; lia)).
    pose proof (b2z_le REHYDRATE_BYTES_THRESHOLD SNAPSHOT_BYTES_THRESHOLD
                  (totalInjectedBytes i) ltac:(unfold REHYDRATE_BYTES_THRESHOLD, SNAPSHOT_BYTES_THRESHOLD; lia)).
    pose proof (b2z_le REHYDRATE_FILES_THRESHOLD SNAPSHOT_FILES_THRESHOLD
                  (changedFilesCount i) ltac:(unfold REHYDRATE_FILES_THRESHOLD, SNAPSHOT_FILES_THRESHOLD; lia)).
    pose proof (b2z_le REHYDRATE_DIFF_THRESHOLD SNAPSHOT_DIFF_THRESHOLD
                  (diffLines i) ltac:(unfold REHYDRATE_DIFF_THRESHOLD, SNAPSHOT_DIFF_THRESHOLD; lia)).
    pose proof (b2z_le REHYDRATE_ELAPSED_MS SNAPSHOT_ELAPSED_MS
                  (elapsedSinceSnapshotMs i) ltac:(unfold REHYDRATE_ELAPSED_MS, SNAPSHOT_ELAPSED_MS; lia)).
    pose proof (b2z_range (REHYDRATE_TURN_THRESHOLD <=? turnsSinceSnapshot i)).
    pose proof (b2z_range (REHYDRATE_BYTES_THRESHOLD <=? totalInjectedBytes i)).
    pose proof (b2z_range (REHYDRATE_FILES_THRESHOLD <=? changedFilesCount i)).
    pose proof (b2z_range (REHYDRATE_DIFF_THRESHOLD <=? diffLines i)).
    pose proof (b2z_range (REHYDRATE_ELAPSED_MS <=? elapsedSinceSnapshotMs i)).
    pose proof (b2z_range (SNAPSHOT_TURN_THRESHOLD <=? turnsSinceSnapshot i)).
    pose proof (b2z_range (SNAPSHOT_BYTES_THRESHOLD <=? totalInjectedBytes i)).
    pose proof (b2z_range (SNAPSHOT_FILES_THRESHOLD <=? changedFilesCount i)).
    pose proof (b2z_range (SNAPSHOT_DIFF_THRESHOLD <=? diffLines i)).
    pose proof (b2z_range (SNAPSHOT_ELAPSED_MS <=? elapsedSinceSnapshotMs i)).
    lia. }
  destruct Hle as (Hle & Hmax).
  split; [exact Hle|]. split; [exact Hmax|].
  destruct (Z.leb_spec 2 (rehydrateSignals i)) as [Hr|Hr];
    [|destruct (Z.leb_spec 2 (snapshotSignals i)) as [Hs|Hs]];
    cbn [action reasons];
    (split; [split; intros; first [discriminate|reflexivity|lia]|]);
    (split; [split; intros; first [discriminate|reflexivity|lia]|]);
    (split; [split; intros; first [discriminate|reflexivity|lia]|]).
  - exact Hsevere.
  - exact Hordinary.
  - reflexivity.
Qed.

(** ** Prompts: normal form and keywords *)

Lemma dropWhile_all {A} (p : A -> bool) (pre rest : list A) :
  forallb p pre = true -> dropWhile p (pre ++ rest) = dropWhile p rest.
Proof.
  induction pre as [|c pre IH]; simpl; [reflexivity|].
  intros H. apply andb_true_iff in H as [Hc Hpre]. rewrite Hc. apply IH. exact Hpre.
Qed.

Lemma dropWhile_app_keep {A} (p : A -> bool) (s post : list A) :
  dropWhile p s <> [] -> dropWhile p (s ++ post) = dropWhile p s ++ post.
Proof.
  induction s as [|c s IH]; simpl; [congruence|].
  destruct (p c); [exact IH|reflexivity].
Qed.

Lemma dropWhile_app_all {A} (p : A -> bool) (s post : list A) :
  dropWhile p s = [] -> forallb p post = true -> dropWhile p (s ++ post) = [].
Proof.
  induction s as [|c s IH]; simpl.
  - intros _ H. rewrite <- (app_nil_r post). rewrite dropWhile_all by exact H. reflexivity.
  - destruct (p c); [exact IH|discriminate].
Qed.

Lemma trimEnd_all (s post : jsstring) :
  forallb isWhiteSpace post = true -> trimEnd (s ++ post) = trimEnd s.
Proof.
  intros H. unfold trimEnd. rewrite rev_app_distr, dropWhile_all; [reflexivity|].
  rewrite forallb_forall in *. intros c Hc. apply H. apply in_rev. exact Hc.
Qed.

Lemma trim_padding (pre s post : jsstring) :
  forallb isWhiteSpace pre = true -> forallb isWhiteSpace post = true ->
  trim (pre ++ s ++ post) = trim s.
Proof.
  intros Hpre Hpost. unfold trim, trimStart. rewrite dropWhile_all by exact Hpre.
  destruct (dropWhile isWhiteSpace s) as [|c rest] eqn:E.
  - rewrite dropWhile_app_all by assumption. reflexivity.
  - rewrite dropWhile_app_keep by congruence. rewrite E. apply trimEnd_all. exact Hpost.
Qed.

Lemma collapseWhiteSpace_singleSpaced (s : jsstring) :
  forall inRun,
    singleSpaced (collapseWhiteSpace inRun s) = true
    /\ (inRun = true ->
        match collapseWhiteSpace inRun s with
        | d :: _ => isWhiteSpace d = false
        | [] => True
        end).
Proof.
  induction s as [|c s IH]; intros inRun; simpl.
  - split; [reflexivity|trivial].
  - destruct (isWhiteSpace c) eqn:Ec.
    + destruct (IH true) as [Hs Hhead]. specialize (Hhead eq_refl).
      destruct inRun.
      * split; [exact Hs|intros _; exact Hhead].
      * split; [|discriminate]. simpl. rewrite Hs.
        destruct (collapseWhiteSpace true s) as [|d rest]; [reflexivity|].
        rewrite Hhead. reflexivity.
    + destruct (IH false) as [Hs _]. split; [|intros _; exact Ec].
      simpl. rewrite Ec, Hs. reflexivity.
Qed.

(** X9: [normalizePrompt], and with it the task fingerprint, does not see
    white space around the prompt: a prompt padded with white space on
    either side has the normal form of the prompt itself.  And in a normal
    form every white space unit is a plain space that no other white space
    follows. *)
Theorem normalizePrompt_white_space tl (prompt : jsstring) :
  (forall pre post,
      forallb isWhiteSpace pre = true -> forallb isWhiteSpace post = true ->
      normalizePrompt tl (pre ++ prompt ++ post) = normalizePrompt tl prompt
      /\ sha (normalizePrompt tl (pre ++ prompt ++ post)) = sha (normalizePrompt tl prompt))
  /\ singleSpaced (normalizePrompt tl prompt) = true.
Proof.
  split.
  - intros pre post Hpre Hpost. unfold normalizePrompt.
    rewrite trim_padding by assumption. split; reflexivity.
  - apply collapseWhiteSpace_singleSpaced.
Qed.

(** *** Keywords *)

Lemma dedupeFrom_spec (xs : list jsstring) :
  forall seen,
    NoDup (dedupeFrom seen xs)
    /\ forall x, x ∈ dedupeFrom seen xs -> x ∈ xs /\ x ∉ seen.
Proof.
  induction xs as [|x xs IH]; intros seen; simpl.
  - split; [constructor|]. intros y Hy. inversion Hy.
  - destruct (bool_decide (x ∈ seen)) eqn:E.
    + destruct (IH seen) as [Hnd Hin]. split; [exact Hnd|].
      intros y Hy. destruct (Hin y Hy). split; [right; assumption|assumption].
    + apply bool_decide_eq_false in E.
      destruct (IH (x :: seen)) as [Hnd Hin]. split.
      * constructor; [|exact Hnd]. intros Hx. destruct (Hin x Hx) as [_ Hno].
        apply Hno. left.
      * intros y Hy. apply elem_of_cons in Hy as [->|Hy].
        -- split; [left|exact E].
        -- destruct (Hin y Hy) as [Hxs Hno]. split; [right; exact Hxs|].
           intros Hs. apply Hno. right. exact Hs.
Qed.

Lemma splitRuns_parts (isSep : Z -> bool) (s : jsstring) :
  forall inRun, Forall (Forall (fun c => isSep c = false)) (splitRuns isSep inRun s).
Proof.
  induction s as [|c s IH]; intros inRun; simpl.
  - repeat constructor.
  - destruct (isSep c) eqn:Ec.
    + destruct inRun; [apply IH|]. constructor; [constructor|apply IH].
    + specialize (IH false). destruct (splitRuns isSep false s) as [|cur more].
      * repeat constructor. exact Ec.
      * inversion IH; subst. constructor; [|assumption].
        constructor; assumption.
Qed.

Lemma Forall_dropWhile {A} (P : A -> Prop) (p : A -> bool) (l : list A) :
  Forall P l -> Forall P (dropWhile p l).
Proof.
  induction 1 as [|x l Hx Hl IH]; simpl; [constructor|].
  destruct (p x); [exact IH|constructor; assumption].
Qed.

Lemma Forall_trim (P : Z -> Prop) (s : jsstring) : Forall P s -> Forall P (trim s).
Proof.
  intros H. unfold trim, trimEnd, trimStart.
  apply Forall_rev, Forall_dropWhile, Forall_rev, Forall_dropWhile. exact H.
Qed.

(** X10: the keywords [extractKeywords] returns are at most six and all
    different; each is four units or longer, is no stop word, and is made
    of the units [[a-z0-9_./-]] only.  This holds whatever
    [toLowerCase] does to the prompt. *)
Theorem extractKeywords_invariants tl (prompt : jsstring) :
  let keywords := extractKeywords tl prompt in
  len keywords <= 6
  /\ NoDup keywords
  /\ Forall (fun keyword =>
               4 <= len keyword
               /\ (keyword ∉ STOPWORDS)
               /\ Forall (fun c => isKeywordSeparator c = false) keyword)
       keywords.
Proof.
  unfold extractKeywords. rewrite slice_0_firstn by lia.
  set (parts := List.filter _ _).
  destruct (dedupeFrom_spec parts []) as [Hnd Hin]. fold (dedupe parts) in Hnd, Hin.
  split; [unfold len; rewrite length_firstn; lia|].
  split; [apply NoDup_firstn; exact Hnd|].
  apply Forall_forall. intros keyword Hk.
  apply elem_of_take in Hk as (n & Hk & _).
  apply list_elem_of_lookup_2 in Hk. destruct (Hin keyword Hk) as [Hparts _].
  rewrite list_elem_of_In in Hparts. unfold parts in Hparts.
  apply filter_In in Hparts as [Hmapped Hkeep].
  apply andb_true_iff in Hkeep as [Hlen Hstop].
  apply Z.leb_le in Hlen. apply negb_true_iff, bool_decide_eq_false in Hstop.
  split; [exact Hlen|]. split; [exact Hstop|].
  apply in_map_iff in Hmapped as (part & <- & Hpart).
  apply Forall_trim.
  pose proof (splitRuns_parts isKeywordSeparator (tl prompt) false) as Hall.
  rewrite Forall_forall in Hall. apply Hall. apply list_elem_of_In. exact Hpart.
Qed.

(** ** The changed files as a set *)

Lemma strLeb_cons (x y : Z) (a b : jsstring) :
  strLeb (x :: a) (y :: b) = true <-> x < y \/ (x = y /\ strLeb a b = true).
Proof. simpl. rewrite orb_true_iff, andb_true_iff, Z.ltb_lt, Z.eqb_eq. reflexivity. Qed.

#[local] Instance strLe_trans : Transitive strLe.
Proof.
  unfold strLe. intros a. induction a as [|x a IH]; intros b c Hab Hbc; [reflexivity|].
  destruct b as [|y b]; [discriminate|]. destruct c as [|z c]; [discriminate|].
  apply strLeb_cons in Hab. apply strLeb_cons in Hbc. apply strLeb_cons.
  destruct Hab as [Hab|[-> Hab]], Hbc as [Hbc|[-> Hbc]]; try (left; lia).
  right. split; [reflexivity|]. eapply IH; eassumption.
Qed.

#[local] Instance strLe_antisymm : AntiSymm (=) strLe.
Proof.
  unfold strLe. intros a. induction a as [|x a IH]; intros b Hab Hba.
  - destruct b; [reflexivity|discriminate].
  - destruct b as [|y b]; [discriminate|].
    apply strLeb_cons in Hab. apply strLeb_cons in Hba.
    destruct Hab as [Hab|[-> Hab]], Hba as [Hba|[Heq Hba]]; try lia.
    f_equal. apply IH; assumption.
Qed.

#[local] Instance strLe_total : Total strLe.
Proof.
  unfold strLe. intros a. induction a as [|x a IH]; intros b; [left; reflexivity|].
  destruct b as [|y b]; [right; reflexivity|].
  rewrite !strLeb_cons.
  destruct (Z.lt_trichotomy x y) as [H|[->|H]]; [left; left; exact H| |right; left; exact H].
  destruct (IH b) as [H|H]; [left|right]; right; split; [reflexivity|exact H|reflexivity|exact H].
Qed.

Lemma insertSorted_Permutation (x : jsstring) (l : list jsstring) :
  insertSorted x l ≡ₚ x :: l.
Proof.
  induction l as [|y l IH]; simpl; [reflexivity|].
  destruct (strLeb x y); [reflexivity|].
  rewrite IH. apply Permutation_swap.
Qed.

Lemma insertSorted_Sorted (x : jsstring) (l : list jsstring) :
  Sorted strLe l -> Sorted strLe (insertSorted x l).
Proof.
  induction l as [|y l IH]; intros Hl; simpl.
  - repeat constructor.
  - destruct (strLeb x y) eqn:E.
    + constructor; [exact Hl|]. constructor. exact E.
    + inversion Hl as [|? ? Hl' Hhd]; subst.
      assert (Hyx : strLe y x).
      { destruct (strLe_total x y) as [H|H]; [unfold strLe in H; congruence|exact H]. }
      constructor; [apply IH; exact Hl'|].
      destruct l as [|z l]; simpl.
      * constructor. exact Hyx.
      * destruct (strLeb x z); constructor; [exact Hyx|].
        inversion Hhd; subst. assumption.
Qed.

Lemma sortStrings_Permutation (l : list jsstring) : sortStrings l ≡ₚ l.
Proof.
  induction l as [|x l IH]; simpl; [reflexivity|].
  rewrite insertSorted_Permutation, IH. reflexivity.
Qed.

Lemma sortStrings_Sorted (l : list jsstring) : Sorted strLe (sortStrings l).
Proof.
  induction l as [|x l IH]; simpl; [constructor|]. apply insertSorted_Sorted. exact IH.
Qed.

Lemma dedupeFrom_complete (xs : list jsstring) :
  forall seen x, x ∈ xs -> x ∉ seen -> x ∈ dedupeFrom seen xs.
Proof.
  induction xs as [|y xs IH]; intros seen x Hin Hno; [inversion Hin|]. simpl.
  destruct (bool_decide (y ∈ seen)) eqn:E.
  - apply bool_decide_eq_true in E.
    apply elem_of_cons in Hin as [->|Hin]; [contradiction|]. apply IH; assumption.
  - destruct (decide (x = y)) as [->|Hne]; [left|].
    apply elem_of_cons in Hin as [->|Hin]; [congruence|].
    right. apply IH; [exact Hin|]. intros Hs. apply elem_of_cons in Hs as [?|?]; congruence.
Qed.

Lemma dedupe_elements (xs : list jsstring) (x : jsstring) : x ∈ dedupe xs <-> x ∈ xs.
Proof.
  unfold dedupe. split.
  - intros H. apply (dedupeFrom_spec xs []). exact H.
  - intros H. apply dedupeFrom_complete; [exact H|]. intros Hnil. inversion Hnil.
Qed.

Lemma sortStrings_dedupe_set (l l' : list jsstring) :
  (forall x, x ∈ l <-> x ∈ l') -> sortStrings (dedupe l) = sortStrings (dedupe l').
Proof.
  intros Hsame. apply (Sorted_unique strLe); try apply sortStrings_Sorted.
  rewrite !sortStrings_Permutation.
  apply NoDup_Permutation; try apply (dedupeFrom_spec _ []).
  intros x. rewrite !dedupe_elements. apply Hsame.
Qed.

(** X11: [getRepoState] reports the changed files as a set.  The list it
    returns has no path twice, is in the order of [sort], and holds the
    paths [git status] gave and no other; and when two answers of
    [git status] hold the same paths, in whatever order and however often, the
    repository state (changed-files hash included) is the same. *)
Theorem getRepoState_reads_a_set (root : jsstring) (w w' : World) (s s' : System)
    (head : jsstring) (paths paths' : list jsstring) :
  gitRevparseHead w root = Some head -> gitRevparseHead w' root = Some head ->
  gitStatusFiles w root = Some paths -> gitStatusFiles w' root = Some paths' ->
  (forall path, path ∈ paths <-> path ∈ paths') ->
  let rs := fst (getRepoState root w s) in
  NoDup (changedFiles rs)
  /\ Sorted strLe (changedFiles rs)
  /\ (forall path, path ∈ changedFiles rs <-> path ∈ paths)
  /\ fst (getRepoState root w' s') = rs.
Proof.
  intros Hhead Hhead' Hpaths Hpaths' Hsame.
  unfold getRepoState. mstep. rewrite Hhead, Hhead', Hpaths, Hpaths'.
  cbn [fst changedFiles].
  split; [|split; [apply sortStrings_Sorted|split]].
  - rewrite sortStrings_Permutation. apply (dedupeFrom_spec paths []).
  - intros path. rewrite sortStrings_Permutation. apply dedupe_elements.
  - rewrite (sortStrings_dedupe_set paths' paths); [reflexivity|].
    intros x. symmetry. apply Hsame.
Qed.

Lemma getRepoState_reads_a_set_witness :
  let a := lit "src/a.rs" in
  let b := lit "src/b.rs" in
  let w := withStatus [b; a; b] (exampleWorld activeEnv 1000) in
  let w' := withStatus [a; b] (exampleWorld activeEnv 2000) in
  let rs := fst (getRepoState (lit "/repo") w emptySystem) in
  changedFiles rs = [a; b]
  /\ NoDup (changedFiles rs)
  /\ Sorted strLe (changedFiles rs)
  /\ (forall path, path ∈ changedFiles rs <-> path ∈ [b; a; b])
  /\ fst (getRepoState (lit "/repo") w' pressuredSystem) = rs.
Proof.
  intros a b w w' rs.
  split; [vm_compute; reflexivity|].
  refine (getRepoState_reads_a_set (lit "/repo") w w' emptySystem pressuredSystem
            (lit "abc123" ++ NL) [b; a; b] [a; b] eq_refl eq_refl eq_refl eq_refl _).
  intros path. rewrite !elem_of_cons, !elem_of_nil. tauto.
Defined.

(** ** Caches: what is stored is found *)

Lemma toWellFormed_nonempty (s : jsstring) : s <> [] -> toWellFormed s <> [].
Proof.
  destruct s as [|c rest]; [congruence|]. intros _. cbn [toWellFormed].
  destruct (isHighSurrogate c); [destruct rest as [|d rest']; [|destruct (isLowSurrogate d)]|
                                 destruct (isLowSurrogate c)]; discriminate.
Qed.

Lemma toWellFormed_fixes_fuel (n : nat) :
  forall s : jsstring, (length s <= n)%nat -> isWellFormed s = true -> toWellFormed s = s.
Proof.
  induction n as [|n IH]; intros s Hlen Hwf.
  - destruct s; [reflexivity|simpl in Hlen; lia].
  - destruct s as [|c rest]; [reflexivity|]. simpl in Hlen.
    cbn [isWellFormed] in Hwf. cbn [toWellFormed].
    destruct (isHighSurrogate c).
    + destruct rest as [|d rest']; [discriminate|]. simpl in Hlen.
      apply andb_prop in Hwf as [Hd Hrest]. rewrite Hd.
      rewrite (IH rest') by (assumption || lia). reflexivity.
    + apply andb_prop in Hwf as [Hc Hrest]. apply negb_true_iff in Hc. rewrite Hc.
      rewrite (IH rest) by (assumption || lia). reflexivity.
Qed.

(** A well-formed string goes through a text column unchanged. *)
Lemma textColumn_wellFormed (s : jsstring) : isWellFormed s = true -> textColumn s = s.
Proof. apply (toWellFormed_fixes_fuel (length s)). reflexivity. Qed.

(** A pack that ends in half a pair, as [clampByBytes] can leave it, comes
    back from the store with U+FFFD in its place. *)
Lemma pack_cache_lone_surrogate :
  let pack := lit "ab" ++ [0xD83D] in
  let w := exampleWorld activeEnv 1000 in
  let stored :=
    snd (storeCachedPack (lit "key") (lit "fp") (lit "hash") (lit "abc123") Claude Agent 14000
           pack w emptySystem) in
  fst (getCachedPack (lit "key") w stored) = Some pack
  /\ fst (getCachedPack (lit "key") w (restarted stored)) = Some (lit "ab" ++ [0xFFFD]).
Proof. vm_compute. split; reflexivity. Qed.

(** X12: a pack that [storeCachedPack] stored, if it is not empty, is what
    [getCachedPack] returns for its key afterwards as long as the service
    lives, whether or not the store answers then.  Stored while the store
    was up, it is also found after a restart, when the maps of the service
    are empty, as the text column gives it back: with U+FFFD for every
    surrogate without its partner, so unchanged when the pack is well
    formed; and the lookup puts that text in the map of the service.  Stored
    while the store was down, it is in the map of the service only. *)
Theorem pack_cache_round_trip (key fp hash head : jsstring) (provider : ProviderKind)
    (mode : ChatMode) (budget : Z) (pack : jsstring) (w w' : World) (s : System) :
  pack <> [] ->
  let stored := snd (storeCachedPack key fp hash head provider mode budget pack w s) in
  getCachedPack key w' stored = (Some pack, stored)
  /\ (databaseUp w = true -> databaseUp w' = true ->
      fst (getCachedPack key w' (restarted stored)) = Some (toWellFormed pack)
      /\ packsOf (snd (getCachedPack key w' (restarted stored))) !! key
         = Some (toWellFormed pack)
      /\ (isWellFormed pack = true ->
          fst (getCachedPack key w' (restarted stored)) = Some pack))
  /\ (databaseUp w = false -> database stored = database s).
Proof.
  intros Hne stored.
  pose proof (toWellFormed_nonempty pack Hne) as Hback.
  split; [|split].
  - destruct pack as [|c pack]; [congruence|].
    apply getCachedPack_hot. unfold stored. rewrite storeCachedPack_packsOf.
    apply lookup_insert_eq.
  - intros Hup Hup'.
    assert (Hrow : exists row,
               continuityPackCache (database (restarted stored)) !! key = Some row
               /\ pc_pack row = toWellFormed pack).
    { change (continuityPackCache (database (restarted stored))) with (packTableOf stored).
      unfold stored. rewrite storeCachedPack_packTableOf, Hup.
      eexists. split; [apply lookup_insert_eq|reflexivity]. }
    destruct Hrow as (row & Hrow & Hpack).
    assert (Hfound : fst (getCachedPack key w' (restarted stored)) = Some (toWellFormed pack)
                     /\ packsOf (snd (getCachedPack key w' (restarted stored))) !! key
                        = Some (toWellFormed pack)).
    { unfold getCachedPack. mstep.
      change (contextPackCache (service (restarted stored)) !! key)
        with ((∅ : gmap jsstring jsstring) !! key).
      rewrite lookup_empty, Hup'. cbv beta. cbn [fst snd].
      rewrite Hrow, Hpack. destruct (toWellFormed pack) as [|c back]; [congruence|].
      cbn [isEmpty fst snd].
      split; [reflexivity|]. unfold packsOf. cbn [service contextPackCache withContextPackCache].
      apply lookup_insert_eq. }
    destruct Hfound as (Hfst & Hmap).
    split; [exact Hfst|]. split; [exact Hmap|].
    intros Hwf. rewrite Hfst. f_equal. apply (textColumn_wellFormed pack Hwf).
  - intros Hdown. unfold stored, storeCachedPack, when. mstep. rewrite Hdown. reflexivity.
Qed.

Lemma pack_cache_round_trip_witness :
  let w := exampleWorld activeEnv 1000 in
  let w' := exampleWorld activeEnv 2000 in
  let stored :=
    snd (storeCachedPack (lit "key") (lit "fp") (lit "hash") (lit "abc123") Claude Agent 14000
           (lit "pack") w emptySystem) in
  lit "pack" <> []
  /\ getCachedPack (lit "key") w' stored = (Some (lit "pack"), stored)
  /\ (databaseUp w = true -> databaseUp w' = true ->
      fst (getCachedPack (lit "key") w' (restarted stored)) = Some (toWellFormed (lit "pack"))
      /\ packsOf (snd (getCachedPack (lit "key") w' (restarted stored))) !! lit "key"
         = Some (toWellFormed (lit "pack"))
      /\ (isWellFormed (lit "pack") = true ->
          fst (getCachedPack (lit "key") w' (restarted stored)) = Some (lit "pack")))
  /\ (databaseUp w = false -> database stored = database emptySystem).
Proof.
  intros w w' stored.
  assert (Hne : lit "pack" <> []) by discriminate.
  split; [exact Hne|].
  exact (pack_cache_round_trip (lit "key") (lit "fp") (lit "hash") (lit "abc123") Claude Agent
           14000 (lit "pack") w w' emptySystem Hne).
Defined.

(** X13: [readSummary] asked again for a file that [fs.stat] and
    [fs.readFile] report as before answers as before and leaves the system as
    it is: what the first call returned is served from the map of the
    service, wherever the first call took it from and whether or not the
    store is still up. *)
Theorem readSummary_repeats (root path : jsstring) (maxBytes : Z) (w w' : World) (s : System) :
  fsStat w' root path = fsStat w root path ->
  fsReadFile w' root path = fsReadFile w root path ->
  let first := readSummary root path maxBytes w s in
  readSummary root path maxBytes w' (snd first) = first.
Proof.
  intros Hstat Hread.
  unfold readSummary, getPersistedSummary, storePersistedSummary, when. mstep.
  rewrite Hstat.
  destruct (fsStat w root path) as [[isFile size]|]; [|reflexivity].
  destruct (negb isFile || (maxBytes <? size)); [reflexivity|].
  rewrite Hread. destruct (fsReadFile w root path) as [content|]; [|reflexivity].
  cbv beta. cbn [fst snd].
  set (key := sha (root ++ lit ":" ++ path ++ lit ":" ++ sha content)).
  destruct (fileSummaryCache (service s) !! key) as [cached|] eqn:Ehot.
  - cbn [fst snd]. rewrite Ehot. reflexivity.
  - destruct (databaseUp w) eqn:Eup; cbv beta; cbn [fst snd].
    + destruct (continuityFileCache (database s) !! key) as [row|]; cbn [fst snd];
        [destruct (isEmpty (fc_summary row))|];
        repeat (cbn [fst snd service fileSummaryCache withFileSummaryCache];
                cbv beta; rewrite ?Eup);
        rewrite lookup_insert_eq; reflexivity.
    + repeat (cbn [fst snd service fileSummaryCache withFileSummaryCache];
              cbv beta; rewrite ?Eup).
      rewrite lookup_insert_eq. reflexivity.
Qed.

Lemma readSummary_repeats_witness :
  let w := exampleWorld activeEnv 1000 in
  let w' := exampleWorld activeEnv 2000 in
  let first := readSummary (lit "/repo") (lit "src/rate/bucket.rs") 2000 w emptySystem in
  fsStat w' (lit "/repo") (lit "src/rate/bucket.rs")
    = fsStat w (lit "/repo") (lit "src/rate/bucket.rs")
  /\ fsReadFile w' (lit "/repo") (lit "src/rate/bucket.rs")
     = fsReadFile w (lit "/repo") (lit "src/rate/bucket.rs")
  /\ readSummary (lit "/repo") (lit "src/rate/bucket.rs") 2000 w' (snd first) = first.
Proof.
  intros w w' first.
  split; [reflexivity|]. split; [reflexivity|].
  exact (readSummary_repeats (lit "/repo") (lit "src/rate/bucket.rs") 2000 w w' emptySystem
           eq_refl eq_refl).
Defined.

(** ** The search cache *)

Lemma len_cons_nonzero {A} (x : A) (l : list A) : (len (x :: l) =? 0) = false.
Proof. apply Z.eqb_neq. unfold len. simpl length. lia. Qed.

(** The scrutinee of a [match] in the goal, brought to the form [l] of a
    lookup that is convertible with it. *)
Ltac scrutinee l :=
  match goal with
  | |- context [match ?x with _ => _ end] => progress change x with l
  | |- context [match l with _ => _ end] => idtac
  end.

(** A fresh entry of the map is served, and nothing moves. *)
Lemma searchRelevantFiles_hot tl (root head : jsstring) (keywords : list jsstring)
    (entry : CachedSearchResult) (w : World) (s : System) :
  keywords <> [] ->
  searchCache (service s) !! searchKey root head keywords = Some entry ->
  now w - timestamp entry < SEARCH_TTL_MS ->
  searchRelevantFiles tl root keywords head w s = (files entry, s).
Proof.
  intros Hne Hentry Hfresh. destruct keywords as [|k ks]; [congruence|].
  unfold searchRelevantFiles. rewrite len_cons_nonzero. mstep.
  fold (searchKey root head (k :: ks)).
  scrutinee (searchCache (service s) !! searchKey root head (k :: ks)). rewrite Hentry.
  apply Z.ltb_lt in Hfresh. rewrite Hfresh. reflexivity.
Qed.

(** What a call leaves in the map of the service. *)
Lemma searchRelevantFiles_entry tl (root head : jsstring) (keywords : list jsstring)
    (w : World) (s : System) :
  keywords <> [] ->
  exists stamp,
    searchCache (service (snd (searchRelevantFiles tl root keywords head w s)))
      !! searchKey root head keywords
    = Some {| timestamp := stamp;
              files := fst (searchRelevantFiles tl root keywords head w s) |}
    /\ now w - SEARCH_TTL_MS <= stamp
    /\ (searchCache (service s) !! searchKey root head keywords = None ->
        (databaseUp w = false
         \/ continuitySearchCache (database s) !! searchKey root head keywords = None) ->
        stamp = now w).
Proof.
  intros Hne. destruct keywords as [|k ks]; [congruence|].
  unfold searchRelevantFiles, getPersistedSearch, listFiles, storePersistedSearch, when.
  rewrite len_cons_nonzero. mstep.
  fold (searchKey root head (k :: ks)). set (key := searchKey root head (k :: ks)).
  scrutinee (searchCache (service s) !! key).
  destruct (searchCache (service s) !! key) as [[stamp0 files0]|] eqn:Ehot.
  - cbn [timestamp files].
    destruct (Z.ltb_spec (now w - stamp0) SEARCH_TTL_MS) as [Hfresh|Hstale].
    + cbn [fst snd]. exists stamp0. split; [exact Ehot|]. split; [lia|]. discriminate.
    + destruct (databaseUp w) eqn:Eup;
        repeat (cbn [fst snd service searchCache withSearchCache]; cbv beta; rewrite ?Eup).
      * scrutinee (continuitySearchCache (database s) !! key).
        destruct (continuitySearchCache (database s) !! key) as [row|] eqn:Erow;
          repeat (cbn [fst snd service searchCache withSearchCache]; cbv beta;
                  rewrite ?Eup).
        -- destruct (Z.ltb_spec SEARCH_TTL_MS (now w - timestampFromDriver (sc_updatedAt row)));
             repeat (cbn [fst snd service searchCache withSearchCache files]; cbv beta;
                     rewrite ?Eup).
           ++ destruct (rgFiles w root);
                repeat (cbn [fst snd service searchCache withSearchCache files]; cbv beta;
                        rewrite ?Eup);
                (exists (now w)); (split; [apply lookup_insert_eq|]);
                (split; [unfold SEARCH_TTL_MS; lia|reflexivity]).
           ++ exists (timestampFromDriver (sc_updatedAt row)). split; [apply lookup_insert_eq|].
              split; [lia|]. discriminate.
        -- destruct (rgFiles w root);
             repeat (cbn [fst snd service searchCache withSearchCache files]; cbv beta;
                     rewrite ?Eup);
             (exists (now w)); (split; [apply lookup_insert_eq|]);
             (split; [unfold SEARCH_TTL_MS; lia|reflexivity]).
      * destruct (rgFiles w root);
          repeat (cbn [fst snd service searchCache withSearchCache files]; cbv beta;
                  rewrite ?Eup);
          (exists (now w)); (split; [apply lookup_insert_eq|]);
          (split; [unfold SEARCH_TTL_MS; lia|reflexivity]).
  - destruct (databaseUp w) eqn:Eup;
      repeat (cbn [fst snd service searchCache withSearchCache]; cbv beta; rewrite ?Eup).
    + scrutinee (continuitySearchCache (database s) !! key).
      destruct (continuitySearchCache (database s) !! key) as [row|] eqn:Erow;
        repeat (cbn [fst snd service searchCache withSearchCache]; cbv beta;
                rewrite ?Eup).
      * destruct (Z.ltb_spec SEARCH_TTL_MS (now w - timestampFromDriver (sc_updatedAt row)));
          repeat (cbn [fst snd service searchCache withSearchCache files]; cbv beta;
                  rewrite ?Eup).
        -- destruct (rgFiles w root);
             repeat (cbn [fst snd service searchCache withSearchCache files]; cbv beta;
                     rewrite ?Eup);
             (exists (now w)); (split; [apply lookup_insert_eq|]);
             (split; [unfold SEARCH_TTL_MS; lia|reflexivity]).
        -- exists (timestampFromDriver (sc_updatedAt row)). split; [apply lookup_insert_eq|].
           split; [lia|]. intros _ [Hdown|Hnone]; discriminate.
      * destruct (rgFiles w root);
          repeat (cbn [fst snd service searchCache withSearchCache files]; cbv beta;
                  rewrite ?Eup);
          (exists (now w)); (split; [apply lookup_insert_eq|]);
          (split; [unfold SEARCH_TTL_MS; lia|reflexivity]).
    + destruct (rgFiles w root);
        repeat (cbn [fst snd service searchCache withSearchCache files]; cbv beta;
                rewrite ?Eup);
        (exists (now w)); (split; [apply lookup_insert_eq|]);
        (split; [unfold SEARCH_TTL_MS; lia|reflexivity]).
Qed.

(** X14: what [searchRelevantFiles] returned for a non-empty keyword list it
    returns again, from the map of the service, to every call that comes
    less than [SEARCH_TTL_MS] after the time stamp of the cached result:
    the same files, no ripgrep process, nothing written.  The time stamp is
    never more than [SEARCH_TTL_MS] old, and it is the time of the call when
    the search was not cached in the map or the store before. *)
Theorem searchRelevantFiles_repeats tl (root head : jsstring) (keywords : list jsstring)
    (w : World) (s : System) :
  keywords <> [] ->
  let key := searchKey root head keywords in
  let found := fst (searchRelevantFiles tl root keywords head w s) in
  let s1 := snd (searchRelevantFiles tl root keywords head w s) in
  exists stamp,
    searchCache (service s1) !! key = Some {| timestamp := stamp; files := found |}
    /\ now w - SEARCH_TTL_MS <= stamp
    /\ (searchCache (service s) !! key = None ->
        (databaseUp w = false \/ continuitySearchCache (database s) !! key = None) ->
        stamp = now w)
    /\ forall w',
        now w' - stamp < SEARCH_TTL_MS ->
        searchRelevantFiles tl root keywords head w' s1 = (found, s1).
Proof.
  intros Hne key found s1.
  destruct (searchRelevantFiles_entry tl root head keywords w s Hne)
    as (stamp & Hentry & Hrecent & Hcold).
  exists stamp. split; [exact Hentry|]. split; [exact Hrecent|]. split; [exact Hcold|].
  intros w' Hfresh.
  apply (searchRelevantFiles_hot tl root head keywords _ w' s1 Hne Hentry). exact Hfresh.
Qed.

Lemma searchRelevantFiles_repeats_witness :
  let w := exampleWorld activeEnv 1000 in
  let keywords := [lit "bucket"] in
  let key := searchKey (lit "/repo") (lit "abc123") keywords in
  let found := fst (searchRelevantFiles asciiLower (lit "/repo") keywords (lit "abc123") w
                      emptySystem) in
  let s1 := snd (searchRelevantFiles asciiLower (lit "/repo") keywords (lit "abc123") w
                   emptySystem) in
  keywords <> []
  /\ found = [lit "src/rate/bucket.rs"]
  /\ exists stamp,
      searchCache (service s1) !! key = Some {| timestamp := stamp; files := found |}
      /\ now w - SEARCH_TTL_MS <= stamp
      /\ (searchCache (service emptySystem) !! key = None ->
          (databaseUp w = false \/ continuitySearchCache (database emptySystem) !! key = None) ->
          stamp = now w)
      /\ forall w',
          now w' - stamp < SEARCH_TTL_MS ->
          searchRelevantFiles asciiLower (lit "/repo") keywords (lit "abc123") w' s1
          = (found, s1).
Proof.
  intros w keywords key found s1.
  assert (Hne : keywords <> []) by discriminate.
  split; [exact Hne|]. split; [vm_compute; reflexivity|].
  exact (searchRelevantFiles_repeats asciiLower (lit "/repo") (lit "abc123") keywords w
           emptySystem Hne).
Defined.

(** ** The context pack stays within its budget *)

Lemma totalBytes_app (a b : list jsstring) : totalBytes (a ++ b) = totalBytes a + totalBytes b.
Proof. induction a as [|x a IH]; simpl; [reflexivity|]. rewrite IH. lia. Qed.

Lemma collectSummaries_within (root : jsstring) (budget : ContinuityBudgetProfile)
    (uniqueFiles : list jsstring) :
  forall (summaries : list jsstring) (w : World) (s : System),
    totalBytes summaries <= maxContextSummaryBytes budget ->
    let collected :=
      fst (collectSummaries root budget uniqueFiles (totalBytes summaries) summaries w s) in
    totalBytes collected <= maxContextSummaryBytes budget
    /\ len collected <= len summaries + len uniqueFiles.
Proof.
  induction uniqueFiles as [|file rest IH]; intros summaries w s Hwithin; cbn [collectSummaries].
  - unfold ret. cbn [fst]. unfold len. simpl length. lia.
  - cbv zeta. rewrite fst_bind.
    destruct (fst (readSummary root file (maxFileReadBytes budget) w s)) as [[|c text]|].
    + specialize (IH summaries w (snd (readSummary root file (maxFileReadBytes budget) w s))
                    Hwithin).
      cbv zeta in IH. unfold len in *. simpl length. lia.
    + destruct (Z.ltb_spec (maxContextSummaryBytes budget)
                  (totalBytes summaries + byteLength (c :: text))) as [Hover|Hfits].
      * unfold ret. cbn [fst]. unfold len. simpl length. lia.
      * assert (Hsum : totalBytes (summaries ++ [c :: text])
                       = totalBytes summaries + byteLength (c :: text)).
        { rewrite totalBytes_app. simpl. lia. }
        rewrite <- Hsum.
        specialize (IH (summaries ++ [c :: text]) w
                      (snd (readSummary root file (maxFileReadBytes budget) w s))
                      ltac:(lia)).
        cbv zeta in IH. unfold len in *. rewrite length_app in IH. simpl length in *. lia.
    + specialize (IH summaries w (snd (readSummary root file (maxFileReadBytes budget) w s))
                    Hwithin).
      cbv zeta in IH. unfold len in *. simpl length. lia.
Qed.

Lemma byteLength_join_separator (parts : list jsstring) :
  byteLength (join SUMMARY_SEPARATOR parts)
  = totalBytes parts + 7 * Z.max (len parts - 1) 0.
Proof.
  induction parts as [|part rest IH]; [reflexivity|].
  destruct rest as [|next rest].
  - simpl. unfold len. simpl length. lia.
  - change (join SUMMARY_SEPARATOR (part :: next :: rest))
      with (part ++ SUMMARY_SEPARATOR ++ join SUMMARY_SEPARATOR (next :: rest)).
    unfold byteLength in *. rewrite utf8_app by reflexivity.
    change (utf8 (SUMMARY_SEPARATOR ++ join SUMMARY_SEPARATOR (next :: rest)))
      with (SUMMARY_SEPARATOR ++ utf8 (join SUMMARY_SEPARATOR (next :: rest))).
    unfold len in *. rewrite !length_app.
    change (length SUMMARY_SEPARATOR) with 7%nat.
    change (totalBytes (part :: next :: rest))
      with (Z.of_nat (length (utf8 part)) + totalBytes (next :: rest)).
    simpl length in *. lia.
Qed.

(** X15: whatever the repository holds, the context pack of
    [buildContextPack] under the budget of a token mode is the text
    [No relevant files identified.] or file summaries joined by the separator
    line: at most [maxContextFiles] summaries, whose bytes add up to at most
    [maxContextSummaryBytes].  With the separators the pack has at most
    [maxContextSummaryBytes + 7 * (maxContextFiles - 1)] bytes. *)
Theorem buildContextPack_within_budget tl (root : jsstring) (repoState : RepoState)
    (prompt : jsstring) (mode : ContinuityTokenMode) (w : World) (s : System) :
  let budget := getContinuityBudgetProfile mode in
  let pack := fst (buildContextPack tl root repoState prompt budget w s) in
  (pack = lit "No relevant files identified."
   \/ exists summaries,
       pack = join SUMMARY_SEPARATOR summaries
       /\ len summaries <= maxContextFiles budget
       /\ totalBytes summaries <= maxContextSummaryBytes budget)
  /\ byteLength pack
     <= maxContextSummaryBytes budget + 7 * (maxContextFiles budget - 1).
Proof.
  intros budget pack.
  assert (Hbudget : 9000 <= maxContextSummaryBytes budget /\ 4 <= maxContextFiles budget)
    by (unfold budget; destruct mode; simpl; lia).
  assert (Hshape :
            pack = lit "No relevant files identified."
            \/ exists summaries,
                pack = join SUMMARY_SEPARATOR summaries
                /\ len summaries <= maxContextFiles budget
                /\ totalBytes summaries <= maxContextSummaryBytes budget).
  { unfold pack, buildContextPack. cbv zeta. rewrite fst_bind.
    set (hits := fst (searchRelevantFiles tl root (extractKeywords tl prompt)
                        (headCommit repoState) w s)).
    set (s1 := snd (searchRelevantFiles tl root (extractKeywords tl prompt)
                      (headCommit repoState) w s)).
    set (uniqueFiles := slice _ 0 (maxContextFiles budget)).
    assert (Hunique : len uniqueFiles <= maxContextFiles budget).
    { unfold uniqueFiles. rewrite slice_0_firstn by lia.
      unfold len. rewrite length_firstn. lia. }
    destruct (len uniqueFiles =? 0); [left; reflexivity|].
    right. rewrite fst_bind. cbn [fst ret].
    change 0 with (totalBytes []) at 1.
    destruct (collectSummaries_within root budget uniqueFiles [] w s1 ltac:(simpl; lia))
      as [Hbytes Hcount].
    eexists. split; [reflexivity|].
    change (len (@nil jsstring)) with 0 in Hcount. split; [lia|exact Hbytes]. }
  split; [exact Hshape|].
  destruct Hshape as [->|(summaries & -> & Hcount & Hbytes)].
  - change (byteLength (lit "No relevant files identified.")) with 29. lia.
  - rewrite byteLength_join_separator. lia.
Qed.

(** ** The settings router *)

Lemma ensureSettingsRow_down (w : World) (s : System) :
  databaseUp w = false -> ensureSettingsRow w s = (None, s).
Proof. intros H. unfold ensureSettingsRow. mstep. rewrite H. reflexivity. Qed.

Lemma ensureSettingsRow_existing (w : World) (s : System) (row : ContinuitySettingsRow) :
  databaseUp w = true -> settingsOf s = Some row -> ensureSettingsRow w s = (Some row, s).
Proof.
  unfold settingsOf. intros Hup Hrow. unfold ensureSettingsRow. mstep.
  rewrite Hup. cbv beta. cbn [fst snd]. rewrite Hrow. reflexivity.
Qed.

(** The row both the router and the service insert when there is none. *)
Lemma ensureSettingsRow_missing (w : World) (s : System) :
  databaseUp w = true -> settingsOf s = None ->
  let row :=
    {| se_artifactPolicy := artifactPolicyName (getDefaultContinuityArtifactPolicy (env w));
       se_autoCommitToMemoryBranch := false;
       se_tokenMode := tokenModeName (getContinuityTokenMode (env w));
       se_memoryBranch := getDefaultContinuityMemoryBranch (env w);
       se_updatedAt := timestampToDriver (now w) |} in
  fst (ensureSettingsRow w s) = Some row
  /\ snd (ensureSettingsRow w s) = snd (getSafeguardSettings w s)
  /\ settingsOf (snd (ensureSettingsRow w s)) = Some row.
Proof.
  unfold settingsOf. intros Hup Hrow. unfold ensureSettingsRow, getSafeguardSettings. mstep.
  rewrite Hup. cbv beta. cbn [fst snd]. rewrite Hrow. cbn [fst snd].
  repeat split.
Qed.

(** X16: the [get] procedure of the settings router answers with the
    singleton row and creates it when it is missing, from the defaults of the
    environment and with auto-commit off: the very row
    [getSafeguardSettings] of the service would create.  A row that exists is
    returned as it is and nothing is written; asked again, [get] returns the
    same row and writes nothing.  With no handle on the store it throws and
    writes nothing. *)
Theorem settings_get_creates_once (w w' : World) (s : System) :
  let first := continuitySettingsRouter.get w s in
  (databaseUp w = false -> first = (None, s))
  /\ (databaseUp w = true ->
      exists row,
        fst first = Some row
        /\ settingsOf (snd first) = Some row
        /\ (forall existing, settingsOf s = Some existing -> row = existing /\ snd first = s)
        /\ (settingsOf s = None ->
            se_autoCommitToMemoryBranch row = false
            /\ se_artifactPolicy row
               = artifactPolicyName (getDefaultContinuityArtifactPolicy (env w))
            /\ se_tokenMode row = tokenModeName (getContinuityTokenMode (env w))
            /\ se_memoryBranch row = getDefaultContinuityMemoryBranch (env w)
            /\ snd first = snd (getSafeguardSettings w s))
        /\ (databaseUp w' = true ->
            continuitySettingsRouter.get w' (snd first) = (Some row, snd first))).
Proof.
  unfold continuitySettingsRouter.get. cbv zeta.
  split; [apply ensureSettingsRow_down|].
  intros Hup. destruct (settingsOf s) as [existing|] eqn:Erow.
  - rewrite (ensureSettingsRow_existing w s existing Hup Erow). cbn [fst snd].
    exists existing. split; [reflexivity|]. split; [exact Erow|].
    split; [intros ? [= <-]; split; reflexivity|]. split; [discriminate|].
    intros Hup'. apply ensureSettingsRow_existing; assumption.
  - destruct (ensureSettingsRow_missing w s Hup Erow) as (Hfst & Hsnd & Hrow).
    eexists. split; [exact Hfst|]. split; [exact Hrow|].
    split; [discriminate|]. split; [intros _; repeat split; exact Hsnd|].
    intros Hup'. rewrite (ensureSettingsRow_existing w' _ _ Hup' Hrow). reflexivity.
Qed.

Lemma getDefaultContinuityMemoryBranch_nonempty (e : Env) :
  getDefaultContinuityMemoryBranch e <> [].
Proof.
  unfold getDefaultContinuityMemoryBranch, orElse.
  destruct (ONECODE_CONTINUITY_MEMORY_BRANCH e) as [[|c v]|]; simpl; discriminate.
Qed.

Lemma orElse_nonempty (a b : jsstring) : b <> [] -> orElse a b <> [].
Proof. unfold orElse. destruct a; simpl; [trivial|discriminate]. Qed.

Lemma ensureSettingsRow_up (w : World) (s : System) :
  databaseUp w = true ->
  exists row,
    fst (ensureSettingsRow w s) = Some row
    /\ settingsOf (snd (ensureSettingsRow w s)) = Some row.
Proof.
  intros Hup. destruct (settingsOf s) as [existing|] eqn:Erow.
  - rewrite (ensureSettingsRow_existing w s existing Hup Erow). eauto.
  - destruct (ensureSettingsRow_missing w s Hup Erow) as (Hfst & _ & Hrow). eauto.
Qed.

(** What [update] writes, given what [ensureSettingsRow] found. *)
Lemma update_writes (input : SettingsUpdate) (w : World) (s : System)
    (current : ContinuitySettingsRow) :
  updateInputSchema input = true -> databaseUp w = true ->
  fst (ensureSettingsRow w s) = Some current ->
  settingsOf (snd (ensureSettingsRow w s)) = Some current ->
  let row :=
    {| se_artifactPolicy := default (se_artifactPolicy current) (up_artifactPolicy input);
       se_autoCommitToMemoryBranch :=
         default (se_autoCommitToMemoryBranch current) (up_autoCommitToMemoryBranch input);
       se_tokenMode := default (se_tokenMode current) (up_tokenMode input);
       se_memoryBranch :=
         orElse (trim (default (se_memoryBranch current) (up_memoryBranch input)))
           (getDefaultContinuityMemoryBranch (env w));
       se_updatedAt := timestampToDriver (now w) |} in
  fst (continuitySettingsRouter.update input w s) = Some row
  /\ settingsOf (snd (continuitySettingsRouter.update input w s)) = Some row.
Proof.
  unfold settingsOf. intros Hvalid Hup Hfst Hsnd.
  unfold continuitySettingsRouter.update. rewrite Hvalid. mstep. rewrite Hup.
  cbv beta. cbn [fst snd]. rewrite Hfst. cbv beta. cbn [fst snd database continuitySettings
    withSettingsTable]. rewrite Hsnd. split; reflexivity.
Qed.


(** X18: what the router wrote is what the service reads.  After an [update]
    that gives policy, auto-commit and token mode, [getSafeguardSettings]
    returns exactly these, with the memory branch of the row that [update]
    returned, which is not empty, and writes nothing;
    [getConfiguredTokenMode] returns the token mode given, whatever
    [ONECODE_TOKEN_MODE] says. *)
Theorem settings_update_reaches_service (policy : ContinuityArtifactPolicy)
    (autoCommit : bool) (mode : ContinuityTokenMode) (branch : option jsstring)
    (w w' : World) (s : System) :
  databaseUp w = true -> databaseUp w' = true ->
  optional (fun b => 1 <=? len b) branch = true ->
  let input :=
    {| up_artifactPolicy := Some (artifactPolicyName policy);
       up_autoCommitToMemoryBranch := Some autoCommit;
       up_tokenMode := Some (tokenModeName mode);
       up_memoryBranch := branch |} in
  let written := fst (continuitySettingsRouter.update input w s) in
  let s1 := snd (continuitySettingsRouter.update input w s) in
  let read := fst (getSafeguardSettings w' s1) in
  snd (getSafeguardSettings w' s1) = s1
  /\ artifactPolicy read = policy
  /\ autoCommitToMemoryBranch read = autoCommit
  /\ tokenMode read = mode
  /\ se_memoryBranch <$> written = Some (memoryBranch read)
  /\ memoryBranch read <> []
  /\ fst (getConfiguredTokenMode w' s1) = mode.
Proof.
  intros Hup Hup' Hbranch input written s1 read.
  assert (Hvalid : updateInputSchema input = true).
  { unfold updateInputSchema, input. cbn [up_artifactPolicy up_tokenMode up_memoryBranch
      optional]. rewrite Hbranch. destruct policy, mode; reflexivity. }
  destruct (ensureSettingsRow_up w s Hup) as (before & Hfst & Hsnd).
  destruct (update_writes input w s before Hvalid Hup Hfst Hsnd) as [Hret Hrow].
  fold s1 in Hrow. fold written in Hret. cbv zeta in Hrow, Hret.
  assert (Hne : orElse (trim (default (se_memoryBranch before) branch))
                  (getDefaultContinuityMemoryBranch (env w)) <> [])
    by apply orElse_nonempty, getDefaultContinuityMemoryBranch_nonempty.
  unfold settingsOf in Hrow. rewrite Hret.
  unfold read, getSafeguardSettings, getConfiguredTokenMode. mstep. rewrite Hup'.
  cbv beta. cbn [fst snd]. rewrite Hrow.
  cbn [fst snd input se_artifactPolicy se_autoCommitToMemoryBranch se_tokenMode
       se_memoryBranch up_artifactPolicy up_autoCommitToMemoryBranch up_tokenMode
       up_memoryBranch default memoryBranch artifactPolicy autoCommitToMemoryBranch
       tokenMode fmap option_fmap option_map].
  set (stored := orElse (trim _) _) in *.
  assert (Hstored : orElse stored (getDefaultContinuityMemoryBranch (env w')) = stored).
  { unfold orElse at 1. destruct stored; [congruence|reflexivity]. }
  rewrite Hstored.
  split; [reflexivity|]. split; [destruct policy; reflexivity|].
  split; [reflexivity|]. split; [destruct mode; reflexivity|].
  split; [reflexivity|]. split; [exact Hne|].
  destruct mode; reflexivity.
Qed.

Lemma settings_update_reaches_service_witness :
  let w := exampleWorld activeEnv 1000 in
  let w' := exampleWorld activeEnv 2000 in
  let input :=
    {| up_artifactPolicy := Some (artifactPolicyName AutoWriteMemoryBranch);
       up_autoCommitToMemoryBranch := Some true;
       up_tokenMode := Some (tokenModeName TokenLow);
       up_memoryBranch := Some (lit "  memory/x  ") |} in
  let written := fst (continuitySettingsRouter.update input w emptySystem) in
  let s1 := snd (continuitySettingsRouter.update input w emptySystem) in
  let read := fst (getSafeguardSettings w' s1) in
  (databaseUp w = true /\ databaseUp w' = true
   /\ optional (fun b => 1 <=? len b) (Some (lit "  memory/x  ")) = true)
  /\ memoryBranch read = lit "memory/x"
  /\ snd (getSafeguardSettings w' s1) = s1
  /\ artifactPolicy read = AutoWriteMemoryBranch
  /\ autoCommitToMemoryBranch read = true
  /\ tokenMode read = TokenLow
  /\ se_memoryBranch <$> written = Some (memoryBranch read)
  /\ memoryBranch read <> []
  /\ fst (getConfiguredTokenMode w' s1) = TokenLow.
Proof.
  intros w w' input written s1 read.
  split; [repeat split; reflexivity|]. split; [vm_compute; reflexivity|].
  exact (settings_update_reaches_service AutoWriteMemoryBranch true TokenLow
           (Some (lit "  memory/x  ")) w w' emptySystem eq_refl eq_refl eq_refl).
Defined.

(** ** When the history of a sub-chat is rewritten *)

(** Up to its last step [recordRunOutcome] leaves the sub-chats and the chats
    alone; the last step is the rehydrate, run in active mode when the
    action returned is [rehydrate]. *)
Lemma recordRunOutcome_last_step tl (input : RunOutcomeInput) (w : World) (s : System) :
  let returned := fst (recordRunOutcome tl input w s) in
  let runs :=
    match getContinuityMode (env w), action returned with
    | ModeActive, ActionRehydrate => true
    | _, _ => false
    end in
  exists before,
    subChatsOf before = subChatsOf s
    /\ chatsOf before = chatsOf s
    /\ snd (recordRunOutcome tl input w s) =
       (if runs
        then snd (executeRehydrate (ro_subChatId input) (ro_prompt input) (reasons returned)
                    w before)
        else before).
Proof.
  cbv zeta. rewrite recordRunOutcome_result.
  unfold recordRunOutcome. rewrite snd_bind. cbv beta. cbn [fst snd world].
  destruct (getContinuityMode (env w)) eqn:Emode.
  - exists s. repeat split.
  - bindstep. cbv beta iota zeta. cbn [andb when ret fst snd action reasons].
    eexists. split; [|split; [|reflexivity]].
    + frame subChatsOf. reflexivity.
    + frame chatsOf. reflexivity.
  - bindstep. cbv beta iota zeta. cbn [andb action reasons].
    rewrite (getPersistedState_keeps (ro_subChatId input) w).
    rewrite (governorInputOf_at input w s).
    set (decided := decideGovernor (governorInputOf input w s)).
    set (effective := effectiveAction _ (action decided)).
    match goal with
    | |- context [snd (when ?c ?m w ?before)] =>
      exists before
    end.
    split; [frame subChatsOf; reflexivity|].
    split; [frame chatsOf; reflexivity|].
    destruct effective; reflexivity.
Qed.

Lemma executeRehydrate_noop (sub prompt : jsstring) (why : list jsstring)
    (w : World) (s : System) :
  databaseUp w = false \/ subChatsOf s !! sub = None ->
  executeRehydrate sub prompt why w s = (tt, s).
Proof.
  unfold subChatsOf. intros H. unfold executeRehydrate. mstep.
  destruct (databaseUp w); [|reflexivity]. destruct H as [H|H]; [discriminate|].
  cbv beta. cbn [fst snd]. scrutinee (subChats (database s) !! sub). rewrite H. reflexivity.
Qed.

Lemma executeRehydrate_rewrites (sub prompt : jsstring) (why : list jsstring)
    (w : World) (s : System) (chat : SubChatRow) :
  databaseUp w = true -> subChatsOf s !! sub = Some chat ->
  exists text,
    subChatsOf (snd (executeRehydrate sub prompt why w s)) =
      <[sub := {| sub_chatId := sub_chatId chat;
                  sub_mode := sub_mode chat;
                  sub_messages :=
                    Some [{| msg_id := randomUUID w;
                             msg_role := lit "assistant";
                             msg_parts :=
                               Some [{| part_type := lit "text"; part_text := Some text |}];
                             msg_continuityRehydrate := Some (now w) |}];
                  sub_sessionId := None;
                  sub_streamId := None;
                  sub_updatedAt := timestampToDriver (now w) |}]> (subChatsOf s)
    /\ startsWith text
         (lit "[1CODE_CONTINUITY_REHYDRATE]" ++ NL ++ lit "mode: " ++ sub_mode chat ++ NL)
       = true
    /\ chatsOf (snd (executeRehydrate sub prompt why w s)) =
       alter (fun _ => timestampToDriver (now w)) (sub_chatId chat) (chatsOf s).
Proof.
  unfold subChatsOf, chatsOf. intros Hup Hchat. unfold executeRehydrate. mstep.
  rewrite Hup. cbv beta. cbn [fst snd]. scrutinee (subChats (database s) !! sub).
  rewrite Hchat. cbn [fst snd database subChats chats withSubChats withChats].
  eexists. split; [reflexivity|]. split; [|reflexivity].
  apply startsWith_prefix. cbn [join app]. eexists.
  rewrite <- !app_assoc. reflexivity.
Qed.

(** X19: [recordRunOutcome] rewrites the history of a sub-chat exactly when
    it runs in active mode, returns [rehydrate], the store is up and the
    sub-chat has a row.  Then the messages of that sub-chat are replaced by
    one assistant message, whose text starts with the rehydrate header and
    the mode of the sub-chat and whose metadata carry the time of the call;
    its session and stream ids are cleared; its row and the row of its chat
    get the time of the call in whole seconds, as their timestamp columns
    hold it; and no other sub-chat changes.  In every other case the
    sub-chats and the chats are as they were. *)
Theorem recordRunOutcome_rewrites_history tl (input : RunOutcomeInput) (w : World) (s : System) :
  let returned := fst (recordRunOutcome tl input w s) in
  let s' := snd (recordRunOutcome tl input w s) in
  let sub := ro_subChatId input in
  (getContinuityMode (env w) <> ModeActive \/ action returned <> ActionRehydrate
   \/ databaseUp w = false \/ subChatsOf s !! sub = None ->
   subChatsOf s' = subChatsOf s /\ chatsOf s' = chatsOf s)
  /\ (getContinuityMode (env w) = ModeActive -> action returned = ActionRehydrate ->
      databaseUp w = true ->
      forall chat,
        subChatsOf s !! sub = Some chat ->
        exists text,
          subChatsOf s' =
            <[sub := {| sub_chatId := sub_chatId chat;
                        sub_mode := sub_mode chat;
                        sub_messages :=
                          Some [{| msg_id := randomUUID w;
                                   msg_role := lit "assistant";
                                   msg_parts :=
                                     Some [{| part_type := lit "text";
                                              part_text := Some text |}];
                                   msg_continuityRehydrate := Some (now w) |}];
                        sub_sessionId := None;
                        sub_streamId := None;
                        sub_updatedAt := timestampToDriver (now w) |}]> (subChatsOf s)
          /\ startsWith text
               (lit "[1CODE_CONTINUITY_REHYDRATE]" ++ NL ++ lit "mode: " ++ sub_mode chat ++ NL)
             = true
          /\ chatsOf s' =
             alter (fun _ => timestampToDriver (now w)) (sub_chatId chat) (chatsOf s)).
Proof.
  intros returned s' sub.
  destruct (recordRunOutcome_last_step tl input w s)
    as (before & Hsubs & Hchats & Hlast).
  fold returned in Hlast. fold s' in Hlast. subst sub.
  split.
  - intros Hcase.
    destruct (getContinuityMode (env w)) eqn:Emode;
      try (rewrite Hlast; split; assumption).
    destruct (action returned) eqn:Eaction;
      try (rewrite Hlast; split; assumption).
    destruct Hcase as [Hcase|[Hcase|Hcase]]; try congruence.
    rewrite Hlast, executeRehydrate_noop; [split; assumption|].
    rewrite Hsubs. exact Hcase.
  - intros Hmode Haction Hup chat Hchat.
    rewrite Hmode, Haction in Hlast. rewrite Hlast.
    rewrite <- Hsubs in Hchat.
    destruct (executeRehydrate_rewrites (ro_subChatId input) (ro_prompt input)
                (reasons returned) w before
                chat Hup Hchat) as (text & Hnew & Hhead & Htouched).
    exists text. rewrite Hnew, Htouched, Hsubs, Hchats. repeat split. exact Hhead.
Qed.

(** ** Reading [git diff --numstat] *)

Lemma readDigits_acc (d : Decimal.uint) :
  forall acc : positive, readDigits (Z.pos acc) (digitsOf d) = Z.pos (Pos.of_uint_acc d acc).
Proof.
  unfold readDigits, digitsOf.
  induction d; intros acc; cbn [NilEmpty.string_of_uint lit list_ascii_of_string List.map
    fold_left Pos.of_uint_acc]; try reflexivity;
    rewrite <- IHd; f_equal; cbn; lia.
Qed.

Lemma readDigits_of_uint (d : Decimal.uint) :
  readDigits 0 (digitsOf d) = Z.of_N (Pos.of_uint d).
Proof.
  induction d; [reflexivity|exact IHd| | | | | | | | |];
    match goal with
    | |- _ = Z.of_N (Pos.of_uint (_ ?l)) =>
      match goal with
      | |- _ = Z.of_N (Pos.of_uint (Decimal.D1 _)) => exact (readDigits_acc l 1)
      | |- _ = Z.of_N (Pos.of_uint (Decimal.D2 _)) => exact (readDigits_acc l 2)
      | |- _ = Z.of_N (Pos.of_uint (Decimal.D3 _)) => exact (readDigits_acc l 3)
      | |- _ = Z.of_N (Pos.of_uint (Decimal.D4 _)) => exact (readDigits_acc l 4)
      | |- _ = Z.of_N (Pos.of_uint (Decimal.D5 _)) => exact (readDigits_acc l 5)
      | |- _ = Z.of_N (Pos.of_uint (Decimal.D6 _)) => exact (readDigits_acc l 6)
      | |- _ = Z.of_N (Pos.of_uint (Decimal.D7 _)) => exact (readDigits_acc l 7)
      | |- _ = Z.of_N (Pos.of_uint (Decimal.D8 _)) => exact (readDigits_acc l 8)
      | |- _ = Z.of_N (Pos.of_uint (Decimal.D9 _)) => exact (readDigits_acc l 9)
      end
    end.
Qed.

Lemma digitsOf_digits (d : Decimal.uint) : forallb isDigit (digitsOf d) = true.
Proof. unfold digitsOf. induction d; simpl; try reflexivity; exact IHd. Qed.

Lemma isDigit_not_white (c : Z) : isDigit c = true -> isWhiteSpace c = false.
Proof.
  unfold isDigit. intros H. apply andb_true_iff in H as [Hlo Hhi].
  apply Z.leb_le in Hlo. apply Z.leb_le in Hhi.
  assert (Hc : c = 48 \/ c = 49 \/ c = 50 \/ c = 51 \/ c = 52 \/ c = 53 \/ c = 54
               \/ c = 55 \/ c = 56 \/ c = 57) by lia.
  repeat destruct Hc as [->|Hc]; try reflexivity. subst c. reflexivity.
Qed.

(** The text of a count: not empty, digits only, and read back as the
    count. *)
Lemma showZ_digits (n : Z) :
  0 <= n ->
  showZ n <> [] /\ forallb isDigit (showZ n) = true /\ readDigits 0 (showZ n) = n.
Proof.
  intros Hn. unfold showZ. destruct n as [|p|p]; [repeat split; discriminate| |lia].
  cbn [Z.to_int NilZero.string_of_int]. unfold NilZero.string_of_uint.
  pose proof (Unsigned.to_uint_nonnil p) as Hnil.
  pose proof (digitsOf_digits (Pos.to_uint p)) as Hdigits.
  pose proof (readDigits_of_uint (Pos.to_uint p)) as Hread.
  rewrite Unsigned.of_to in Hread. unfold digitsOf in *.
  destruct (Pos.to_uint p); try congruence;
    (split; [discriminate|split; [exact Hdigits|exact Hread]]).
Qed.

Lemma digits_solid (s : jsstring) : forallb isDigit s = true -> solid s.
Proof.
  intros H. apply Forall_forall. intros c Hc. apply isDigit_not_white.
  rewrite forallb_forall in H. apply H. apply list_elem_of_In. exact Hc.
Qed.

Lemma dropWhile_stops {A} (p : A -> bool) (x : A) (l : list A) :
  p x = false -> dropWhile p (x :: l) = x :: l.
Proof. intros H. simpl. rewrite H. reflexivity. Qed.

Lemma trimEnd_app (u v : jsstring) :
  trimEnd (u ++ v) = if isEmpty (trimEnd v) then trimEnd u else u ++ trimEnd v.
Proof.
  unfold trimEnd. rewrite rev_app_distr.
  destruct (dropWhile isWhiteSpace (rev v)) as [|c rest] eqn:E.
  - simpl. f_equal. induction (rev v) as [|x l IH]; [reflexivity|].
    simpl in *. destruct (isWhiteSpace x); [apply IH; exact E|discriminate].
  - rewrite dropWhile_app_keep by congruence. rewrite E, rev_app_distr, rev_involutive.
    destruct (rev (c :: rest)) eqn:Erev; [|reflexivity].
    apply (f_equal (@rev Z)) in Erev. rewrite rev_involutive in Erev. discriminate.
Qed.

Lemma trimEnd_solid (s : jsstring) : solid s -> trimEnd s = s.
Proof.
  intros H. unfold trimEnd. apply Forall_rev in H.
  destruct (rev s) as [|c rest] eqn:E.
  - apply (f_equal (@rev Z)) in E. rewrite rev_involutive in E. exact (eq_sym E).
  - inversion H; subst. rewrite dropWhile_stops by assumption.
    rewrite <- E. apply rev_involutive.
Qed.

Lemma trim_solid (s : jsstring) : solid s -> trim s = s.
Proof.
  intros H. unfold trim, trimStart.
  destruct s as [|c rest]; [reflexivity|].
  inversion H; subst. rewrite dropWhile_stops by assumption. apply trimEnd_solid. exact H.
Qed.

Lemma solid_no_tab (s : jsstring) (c : Z) : solid s -> isWhiteSpace c = true -> ~ In c s.
Proof.
  intros H Hc Hin. unfold solid in H. rewrite Forall_forall in H.
  apply list_elem_of_In in Hin. rewrite (H c Hin) in Hc. discriminate.
Qed.

Lemma split_head (sep : Z) (l rest : jsstring) :
  ~ In sep l -> split sep (l ++ sep :: rest) = l :: split sep rest.
Proof.
  induction l as [|c l IH]; intros Hno; simpl.
  - rewrite Z.eqb_refl. reflexivity.
  - destruct (Z.eqb_spec c sep) as [->|Hne]; [exfalso; apply Hno; left; reflexivity|].
    rewrite IH; [reflexivity|]. intros Hin. apply Hno. right. exact Hin.
Qed.

Lemma split_none (sep : Z) (l : jsstring) : ~ In sep l -> split sep l = [l].
Proof.
  induction l as [|c l IH]; intros Hno; simpl; [reflexivity|].
  destruct (Z.eqb_spec c sep) as [->|Hne]; [exfalso; apply Hno; left; reflexivity|].
  rewrite IH; [reflexivity|]. intros Hin. apply Hno. right. exact Hin.
Qed.

(** A trimmed line of two solid fields and a path: the fields stay whole
    and first. *)
Lemma trimmed_line_fields (a r path : jsstring) :
  a <> [] -> r <> [] -> solid a -> solid r ->
  let line := trim (a ++ [9] ++ r ++ [9] ++ path) in
  line <> []
  /\ split 9 line !! 0%nat = Some a
  /\ split 9 line !! 1%nat = Some r.
Proof.
  intros Ha Hr Hsa Hsr.
  assert (Htrim : exists tail,
             trim (a ++ [9] ++ r ++ [9] ++ path) = a ++ 9 :: r ++ tail
             /\ (tail = [] \/ exists q, tail = 9 :: q)).
  { unfold trim, trimStart. destruct a as [|c a']; [congruence|].
    inversion Hsa; subst. rewrite <- app_comm_cons, dropWhile_stops by assumption.
    rewrite app_comm_cons.
    replace ((c :: a') ++ [9] ++ r ++ [9] ++ path)
      with (((c :: a') ++ [9] ++ r) ++ [9] ++ path)
      by (rewrite <- !app_assoc; reflexivity).
    rewrite trimEnd_app.
    assert (Hu : trimEnd ((c :: a') ++ [9] ++ r) = (c :: a') ++ [9] ++ r).
    { rewrite (app_assoc (c :: a') [9] r), trimEnd_app, (trimEnd_solid r Hsr).
      destruct r; [congruence|]. simpl. rewrite <- app_assoc. reflexivity. }
    destruct (isEmpty (trimEnd ([9] ++ path))) eqn:Eempty.
    - exists []. rewrite Hu, app_nil_r. split; [reflexivity|left; reflexivity].
    - rewrite trimEnd_app in *.
      destruct (isEmpty (trimEnd path)).
      + exfalso. change (trimEnd [9]) with (@nil Z) in Eempty. discriminate.
      + exists ([9] ++ trimEnd path). rewrite <- !app_assoc.
        split; [reflexivity|right; eexists; reflexivity]. }
  destruct Htrim as (tail & -> & Htail).
  assert (Hna : ~ In 9 a) by (apply solid_no_tab; [exact Hsa|reflexivity]).
  assert (Hnr : ~ In 9 r) by (apply solid_no_tab; [exact Hsr|reflexivity]).
  split; [destruct a; [congruence|discriminate]|].
  rewrite split_head by exact Hna. split; [reflexivity|].
  destruct Htail as [->|(q & ->)].
  - rewrite app_nil_r, split_none by exact Hnr. reflexivity.
  - rewrite split_head by exact Hnr. reflexivity.
Qed.

Lemma jsNumber_showZ (n : Z) : 0 <= n -> jsNumber (Some (showZ n)) = Some n.
Proof.
  intros Hn. destruct (showZ_digits n Hn) as (_ & Hdigits & Hread).
  unfold jsNumber. rewrite (trim_solid _ (digits_solid _ Hdigits)), Hdigits.
  f_equal. exact Hread.
Qed.

Lemma numstat_line_value (entry : NumstatEntry) :
  numstatEntryOk entry ->
  let line := trim (numstatLine entry) in
  let fields := split 9 line in
  line <> []
  /\ finiteOr0 (jsNumber (fields !! 0%nat)) + finiteOr0 (jsNumber (fields !! 1%nat))
     = changedLines entry.
Proof.
  destruct entry as [added removed path|path]; cbn [numstatEntryOk numstatLine changedLines].
  - intros (Ha & Hr & _).
    destruct (showZ_digits added Ha) as (Hane & Had & _).
    destruct (showZ_digits removed Hr) as (Hrne & Hrd & _).
    destruct (trimmed_line_fields (showZ added) (showZ removed) path Hane Hrne
                (digits_solid _ Had) (digits_solid _ Hrd)) as (Hline & H0 & H1).
    cbv zeta in *. split; [exact Hline|].
    rewrite H0, H1, !jsNumber_showZ by assumption. reflexivity.
  - intros _.
    destruct (trimmed_line_fields (lit "-") (lit "-") path ltac:(discriminate)
                ltac:(discriminate) ltac:(repeat constructor) ltac:(repeat constructor))
      as (Hline & H0 & H1).
    cbv zeta in *. split; [exact Hline|]. rewrite H0, H1. reflexivity.
Qed.

Lemma numstat_line_no_feed (entry : NumstatEntry) :
  numstatEntryOk entry -> ~ In 10 (numstatLine entry).
Proof.
  destruct entry as [added removed path|path]; cbn [numstatEntryOk numstatLine].
  - intros (Ha & Hr & Hp) Hin.
    destruct (showZ_digits added Ha) as (_ & Had & _).
    destruct (showZ_digits removed Hr) as (_ & Hrd & _).
    rewrite !in_app_iff in Hin.
    destruct Hin as [Hin|[Hin|[Hin|[Hin|Hin]]]]; try (apply Hp; exact Hin).
    + revert Hin. apply solid_no_tab; [apply digits_solid; exact Had|reflexivity].
    + destruct Hin as [Hin|[]]. discriminate.
    + revert Hin. apply solid_no_tab; [apply digits_solid; exact Hrd|reflexivity].
    + destruct Hin as [Hin|[]]. discriminate.
  - intros Hp Hin. rewrite !in_app_iff in Hin.
    destruct Hin as [Hin|[Hin|[Hin|[Hin|Hin]]]]; try (apply Hp; exact Hin);
      destruct Hin as [Hin|[]]; discriminate.
Qed.

Lemma numstatOutput_lines (entries : list NumstatEntry) :
  Forall numstatEntryOk entries ->
  split 10 (numstatOutput entries) = List.map numstatLine entries ++ [[]].
Proof.
  induction 1 as [|entry entries Hentry _ IH]; [reflexivity|].
  cbn [numstatOutput flat_map List.map app]. fold (numstatOutput entries).
  unfold NL. rewrite <- app_assoc. cbn [app].
  rewrite split_head by (apply numstat_line_no_feed; exact Hentry).
  rewrite IH. reflexivity.
Qed.

Lemma numstatOutput_trimmed (entries : list NumstatEntry) :
  Forall numstatEntryOk entries ->
  List.filter (fun line => 0 <? len line) (List.map trim (split 10 (numstatOutput entries)))
  = List.map (fun entry => trim (numstatLine entry)) entries.
Proof.
  intros Hok. rewrite numstatOutput_lines by exact Hok.
  rewrite List.map_app, List.filter_app.
  change (List.filter (fun line => 0 <? len line) (List.map trim [[]])) with (@nil jsstring).
  rewrite app_nil_r, List.map_map.
  induction Hok as [|entry entries Hentry Hok IH]; [reflexivity|].
  destruct (numstat_line_value entry Hentry) as [Hline _]. cbv zeta in Hline.
  cbn [List.map List.filter].
  replace (0 <? len (trim (numstatLine entry))) with true.
  - rewrite IH. reflexivity.
  - symmetry. apply Z.ltb_lt. destruct (trim (numstatLine entry)); [congruence|].
    unfold len. simpl length. lia.
Qed.

Lemma numstat_fold (step : Z -> jsstring -> Z) (entries : list NumstatEntry) :
  (forall sum line,
      step sum line
      = sum + finiteOr0 (jsNumber (split 9 line !! 0%nat))
        + finiteOr0 (jsNumber (split 9 line !! 1%nat))) ->
  Forall numstatEntryOk entries ->
  forall acc,
    fold_left step (List.map (fun entry => trim (numstatLine entry)) entries) acc
    = acc + totalChangedLines entries.
Proof.
  intros Hstep Hok. induction Hok as [|entry entries Hentry Hok IH]; intros acc.
  - simpl. lia.
  - destruct (numstat_line_value entry Hentry) as [_ Hvalue]. cbv zeta in Hvalue.
    cbn [List.map fold_left totalChangedLines fold_right].
    rewrite IH, Hstep. fold (totalChangedLines entries). lia.
Qed.

(** X20: [getDiffStats] adds up the numstat report of git.  When
    [git diff --numstat] prints one line per file, counts in decimal and
    [-] for the two counts of a binary file, the total is the sum of the
    added and removed lines of the text files, binary files counting 0; when
    git fails the total is 0.  The store and the service are not touched. *)
Theorem getDiffStats_adds_up (root : jsstring) (w : World) (s : System)
    (entries : list NumstatEntry) :
  Forall numstatEntryOk entries ->
  (gitDiffNumstat w root = Some (numstatOutput entries) ->
   fst (getDiffStats root w s) = totalChangedLines entries)
  /\ (gitDiffNumstat w root = None -> fst (getDiffStats root w s) = 0)
  /\ service (snd (getDiffStats root w s)) = service s
  /\ database (snd (getDiffStats root w s)) = database s.
Proof.
  intros Hok.
  split; [|split; [|split; [apply getDiffStats_keeps_service
                           |apply getDiffStats_keeps_database]]].
  - intros Hout. unfold getDiffStats. mstep. rewrite Hout. cbn [fst].
    rewrite numstatOutput_trimmed by exact Hok.
    rewrite (numstat_fold _ entries); [lia| |exact Hok].
    intros sum line. reflexivity.
  - intros Hout. unfold getDiffStats. mstep. rewrite Hout. reflexivity.
Qed.

Lemma getDiffStats_adds_up_witness :
  let w := withNumstat (numstatOutput twoEntries) (exampleWorld activeEnv 1000) in
  Forall numstatEntryOk twoEntries
  /\ totalChangedLines twoEntries = 42
  /\ (gitDiffNumstat w (lit "/repo") = Some (numstatOutput twoEntries) ->
      fst (getDiffStats (lit "/repo") w emptySystem) = totalChangedLines twoEntries)
  /\ (gitDiffNumstat w (lit "/repo") = None -> fst (getDiffStats (lit "/repo") w emptySystem) = 0)
  /\ service (snd (getDiffStats (lit "/repo") w emptySystem)) = service emptySystem
  /\ database (snd (getDiffStats (lit "/repo") w emptySystem)) = database emptySystem.
Proof.
  intros w.
  assert (Hok : Forall numstatEntryOk twoEntries).
  { repeat constructor; try lia; cbn; intuition discriminate. }
  split; [exact Hok|]. split; [reflexivity|].
  exact (getDiffStats_adds_up (lit "/repo") w emptySystem twoEntries Hok).
Defined.

(** ** The shape of a digest *)

Lemma round_length (st : list Z) (kw : Z * Z) : length (SHA256.round st kw) = length st.
Proof.
  unfold SHA256.round.
  destruct st as [|a [|b [|c [|d [|e [|f [|g [|h [|i rest]]]]]]]]]; reflexivity.
Qed.

Lemma rounds_length (kws : list (Z * Z)) (st : list Z) :
  length (fold_left SHA256.round kws st) = length st.
Proof.
  revert st. induction kws as [|kw kws IH]; intros st; simpl; [reflexivity|].
  rewrite IH. apply round_length.
Qed.

Lemma compress_length (h block : list Z) : length (SHA256.compress h block) = length h.
Proof.
  unfold SHA256.compress. rewrite length_map, length_combine, rounds_length. lia.
Qed.

Lemma blocks_length (fuel : nat) :
  forall h bytes, length (SHA256.blocks fuel h bytes) = length h.
Proof.
  induction fuel as [|fuel IH]; intros h bytes; simpl; [reflexivity|].
  destruct bytes; [reflexivity|]. rewrite IH. apply compress_length.
Qed.

Lemma flat_map_length_const {A B} (f : A -> list B) (n : nat) (l : list A) :
  (forall x, length (f x) = n) -> length (flat_map f l) = (n * length l)%nat.
Proof.
  intros H. induction l as [|x l IH]; simpl; [lia|].
  rewrite length_app, H, IH. lia.
Qed.

Lemma hexDigit_lower (n : Z) : 0 <= n < 16 -> isLowerHex (SHA256.hexDigit n) = true.
Proof.
  intros Hn. unfold SHA256.hexDigit, isLowerHex.
  destruct (Z.ltb_spec n 10); apply orb_true_iff; [left|right];
    apply andb_true_iff; split; apply Z.leb_le; lia.
Qed.

Lemma hex_digest (bytes : list Z) :
  len (SHA256.hex bytes) = 2 * len bytes
  /\ (Forall (fun b => 0 <= b < 256) bytes -> forallb isLowerHex (SHA256.hex bytes) = true).
Proof.
  unfold SHA256.hex. split.
  - unfold len. rewrite (flat_map_length_const _ 2) by reflexivity. lia.
  - induction 1 as [|b bytes Hb _ IH]; [reflexivity|].
    cbn [flat_map app forallb]. rewrite IH, !hexDigit_lower; [reflexivity| |].
    + change 15 with (Z.ones 4). rewrite Z.land_ones by lia.
      apply Z.mod_pos_bound. lia.
    + rewrite Z.shiftr_div_pow2 by lia. change (2 ^ 4) with 16.
      split; [apply Z.div_pos; lia|apply Z.div_lt_upper_bound; lia].
Qed.

Lemma bigEndian_bytes (n : nat) (x : Z) :
  length (SHA256.bigEndian n x) = n
  /\ Forall (fun b => 0 <= b < 256) (SHA256.bigEndian n x).
Proof.
  unfold SHA256.bigEndian. split.
  - rewrite length_map, length_rev, length_seq. reflexivity.
  - apply Forall_forall. intros b Hb. apply list_elem_of_In, in_map_iff in Hb as (i & <- & _).
    change 255 with (Z.ones 8). rewrite Z.land_ones by lia.
    apply Z.mod_pos_bound. lia.
Qed.

(** The digest [sha] prints has 64 digits of lowercase hexadecimal. *)
Lemma sha_isDigest (input : jsstring) : isDigest (sha input).
Proof.
  unfold isDigest, sha, SHA256.digest. cbv zeta.
  set (state := SHA256.blocks _ _ _).
  assert (Hstate : length state = 8%nat) by (unfold state; rewrite blocks_length; reflexivity).
  destruct (hex_digest (flat_map (SHA256.bigEndian 4) state)) as [Hlen Hhex].
  split.
  - rewrite Hlen. unfold len.
    rewrite (flat_map_length_const _ 4) by (intros x; apply bigEndian_bytes). lia.
  - apply Hhex. apply Forall_flat_map. apply Forall_forall. intros x _.
    apply bigEndian_bytes.
Qed.

(** X21: the ids [apply] hands out are digests.  With continuity not off, the
    anchor, context and delta pack ids are each 64 digits of lowercase
    hexadecimal, whatever the prompt and the repository; with continuity
    off they are the text [none].  The plan contract id is present exactly in
    plan mode, in every continuity mode, and is the digest of the normalized
    prompt. *)
Theorem apply_state_ids tl (input : ContinuityInput) (w : World) (s : System) :
  let ids := stateIds (fst (apply tl input w s)) in
  (if isContinuityEnabled (env w)
   then isDigest (anchorPackId ids) /\ isDigest (contextPackId ids)
        /\ isDigest (deltaPackId ids)
   else anchorPackId ids = lit "none" /\ contextPackId ids = lit "none"
        /\ deltaPackId ids = lit "none")
  /\ planContractId ids =
     match in_mode input with
     | Plan => Some (sha (normalizePrompt tl (in_prompt input)))
     | Agent => None
     end
  /\ match planContractId ids with
     | Some id => isDigest id
     | None => True
     end.
Proof.
  cbv zeta.
  assert (Hids :
            (if isContinuityEnabled (env w)
             then isDigest (anchorPackId (stateIds (fst (apply tl input w s))))
                  /\ isDigest (contextPackId (stateIds (fst (apply tl input w s))))
                  /\ isDigest (deltaPackId (stateIds (fst (apply tl input w s))))
             else anchorPackId (stateIds (fst (apply tl input w s))) = lit "none"
                  /\ contextPackId (stateIds (fst (apply tl input w s))) = lit "none"
                  /\ deltaPackId (stateIds (fst (apply tl input w s))) = lit "none")
            /\ planContractId (stateIds (fst (apply tl input w s))) =
               match in_mode input with
               | Plan => Some (sha (normalizePrompt tl (in_prompt input)))
               | Agent => None
               end).
  { unfold isContinuityEnabled, apply. mstep.
    destruct (getContinuityMode (env w)); cbv beta; cbn [fst snd].
    - repeat split.
    - match goal with
      | |- context [match fst ?c with _ => _ end] => destruct (fst c)
      end; cbn [fst snd stateIds anchorPackId contextPackId deltaPackId planContractId];
        repeat split; apply sha_isDigest.
    - match goal with
      | |- context [match fst ?c with _ => _ end] => destruct (fst c)
      end; cbn [fst snd stateIds anchorPackId contextPackId deltaPackId planContractId];
        repeat split; apply sha_isDigest. }
  destruct Hids as [Hids Hplan]. split; [exact Hids|]. split; [exact Hplan|].
  rewrite Hplan. destruct (in_mode input); [apply sha_isDigest|trivial].
Qed.

(** ** The ranking of a search *)

Lemma insertByScore_Permutation (x : jsstring * Z) (l : list (jsstring * Z)) :
  insertByScore x l ≡ₚ x :: l.
Proof.
  induction l as [|y l IH]; simpl; [reflexivity|].
  destruct (snd x <? snd y); [|reflexivity].
  rewrite IH. apply Permutation_swap.
Qed.

Lemma sortByScore_Permutation (l : list (jsstring * Z)) : sortByScore l ≡ₚ l.
Proof.
  induction l as [|x l IH]; simpl; [reflexivity|].
  rewrite insertByScore_Permutation, IH. reflexivity.
Qed.

Lemma insertByScore_Sorted (x : jsstring * Z) (l : list (jsstring * Z)) :
  Sorted byScore l -> Sorted byScore (insertByScore x l).
Proof.
  induction l as [|y l IH]; intros Hl; simpl.
  - repeat constructor.
  - destruct (Z.ltb_spec (snd x) (snd y)) as [Hlt|Hge].
    + inversion Hl as [|? ? Hl' Hhd]; subst.
      constructor; [apply IH; exact Hl'|].
      destruct l as [|z l]; simpl.
      * constructor. unfold byScore. lia.
      * destruct (snd x <? snd z); constructor; [|unfold byScore; lia].
        inversion Hhd; subst. assumption.
    + constructor; [exact Hl|]. constructor. exact Hge.
Qed.

Lemma sortByScore_Sorted (l : list (jsstring * Z)) : Sorted byScore (sortByScore l).
Proof.
  induction l as [|x l IH]; simpl; [constructor|]. apply insertByScore_Sorted. exact IH.
Qed.

#[local] Instance byScore_trans : Transitive byScore.
Proof. unfold byScore. intros a b c Hab Hbc. lia. Qed.

Lemma sortByScore_StronglySorted (l : list (jsstring * Z)) :
  StronglySorted byScore (sortByScore l).
Proof. apply Sorted_StronglySorted; [exact byScore_trans|apply sortByScore_Sorted]. Qed.

Lemma elem_of_firstn {A} (l : list A) :
  forall n x, x ∈ firstn n l -> x ∈ l.
Proof.
  induction l as [|y l IH]; intros [|n] x H; simpl in H; try (inversion H; fail).
  apply elem_of_cons in H as [->|H]; [left|right; eapply IH; exact H].
Qed.

Lemma elem_of_skipn {A} (l : list A) :
  forall n x, x ∈ skipn n l -> x ∈ l.
Proof.
  induction l as [|y l IH]; intros [|n] x H; simpl in H; try exact H.
  right. eapply IH. exact H.
Qed.

(** In a ranking, what [firstn] keeps scores no lower than what it drops. *)
Lemma StronglySorted_firstn_skipn (l : list (jsstring * Z)) (n : nat) :
  StronglySorted byScore l ->
  forall a b, a ∈ firstn n l -> b ∈ skipn n l -> byScore a b.
Proof.
  intros Hl. revert n. induction Hl as [|x l Hl IH Hx]; intros n a b Ha Hb.
  - destruct n; inversion Ha.
  - destruct n as [|n]; [inversion Ha|]. simpl in Ha, Hb.
    apply elem_of_cons in Ha as [->|Ha].
    + rewrite Forall_forall in Hx. apply Hx.
      eapply elem_of_skipn. exact Hb.
    + eapply IH; eassumption.
Qed.

Lemma StronglySorted_firstn (l : list (jsstring * Z)) (n : nat) :
  StronglySorted byScore l -> StronglySorted byScore (firstn n l).
Proof.
  intros Hl. revert n. induction Hl as [|x l Hl IH Hx]; intros n.
  - destruct n; constructor.
  - destruct n as [|n]; simpl; constructor; [apply IH|].
    rewrite Forall_forall in *. intros y Hy. apply Hx.
    eapply elem_of_firstn. exact Hy.
Qed.

(** The score of a path: never negative, and positive exactly when the
    path names a keyword. *)
Lemma scoreFile_fold (lower : jsstring) (keywords : list jsstring) :
  forall acc,
    let result :=
      fold_left
        (fun score keyword =>
           let score := if includes lower keyword then score + 3 else score in
           if includes (basename lower) keyword then score + 4 else score)
        keywords acc in
    acc <= result
    /\ (acc < result <->
        exists keyword,
          keyword ∈ keywords
          /\ (includes lower keyword = true \/ includes (basename lower) keyword = true)).
Proof.
  induction keywords as [|k ks IH]; intros acc; simpl.
  - split; [lia|]. split; [lia|]. intros (k & Hk & _). inversion Hk.
  - cbv zeta in IH.
    destruct (IH (let score := if includes lower k then acc + 3 else acc in
                  if includes (basename lower) k then score + 4 else score))
      as [Hle Hiff]. cbv zeta in Hle, Hiff.
    destruct (includes lower k) eqn:E1, (includes (basename lower) k) eqn:E2.
    + split; [lia|]. split; [|lia]. intros _. exists k. split; [left|left; exact E1].
    + split; [lia|]. split; [|lia]. intros _. exists k. split; [left|left; exact E1].
    + split; [lia|]. split; [|lia]. intros _. exists k. split; [left|right; exact E2].
    + split; [exact Hle|]. rewrite Hiff. split.
      * intros (k' & Hk' & Hm). exists k'. split; [right; exact Hk'|exact Hm].
      * intros (k' & Hk' & Hm). apply elem_of_cons in Hk' as [->|Hk'].
        -- destruct Hm; congruence.
        -- exists k'. split; assumption.
Qed.

Lemma scoreFile_positive tl (keywords : list jsstring) (filePath : jsstring) :
  0 <= scoreFile tl keywords filePath
  /\ (0 < scoreFile tl keywords filePath <-> namesKeyword tl keywords filePath).
Proof. exact (scoreFile_fold (tl filePath) keywords 0). Qed.

(** A search that no cache answers ranks what [rg --files] lists. *)
Lemma searchRelevantFiles_cold tl (root head : jsstring) (keywords : list jsstring)
    (w : World) (s : System) :
  keywords <> [] ->
  searchCache (service s) !! searchKey root head keywords = None ->
  (databaseUp w = false
   \/ continuitySearchCache (database s) !! searchKey root head keywords = None) ->
  fst (searchRelevantFiles tl root keywords head w s)
  = List.map fst
      (firstn 24
         (sortByScore
            (List.filter (fun entry => 0 <? snd entry)
               (List.map (fun filePath => (filePath, scoreFile tl keywords filePath))
                  (fst (listFiles root w s)))))).
Proof.
  intros Hne Hhot Hcold. destruct keywords as [|k ks]; [congruence|].
  rewrite <- (slice_0_firstn _ 24) by lia.
  unfold searchRelevantFiles, getPersistedSearch, listFiles, storePersistedSearch, when.
  rewrite len_cons_nonzero. mstep.
  fold (searchKey root head (k :: ks)). set (key := searchKey root head (k :: ks)) in *.
  scrutinee (searchCache (service s) !! key). rewrite Hhot.
  destruct (databaseUp w) eqn:Eup;
    repeat (cbn [fst snd]; cbv beta; rewrite ?Eup).
  - destruct Hcold as [Hdown|Hnone]; [discriminate|].
    scrutinee (continuitySearchCache (database s) !! key). rewrite Hnone.
    destruct (rgFiles w root) eqn:Erg;
      repeat (cbn [fst snd]; cbv beta; rewrite ?Eup, ?Erg); reflexivity.
  - destruct (rgFiles w root) eqn:Erg;
      repeat (cbn [fst snd]; cbv beta; rewrite ?Eup, ?Erg); reflexivity.
Qed.

Lemma ranked_files (score : jsstring -> Z) (l : list (jsstring * Z)) :
  StronglySorted byScore l ->
  Forall (fun entry => snd entry = score (fst entry)) l ->
  StronglySorted (fun a b => score b <= score a) (List.map fst l).
Proof.
  intros Hl. induction Hl as [|x l Hl IH Hx]; intros Hall; simpl; constructor.
  - apply IH. inversion Hall; assumption.
  - inversion Hall as [|? ? Hsx Hrest]; subst.
    apply Forall_forall. intros f Hf.
    apply list_elem_of_fmap in Hf as (e & -> & He).
    pose proof (proj1 (Forall_forall _ _) Hx e He) as Hxe.
    pose proof (proj1 (Forall_forall _ _) Hrest e He) as Hre.
    unfold byScore in Hxe. cbv beta in Hre. lia.
Qed.

(** X22: a search that no cache answers ranks the files that [rg --files]
    lists.  It returns at most 24 paths, each of them listed and naming a
    keyword (in its lower-cased form or the base name of that), the higher
    score first; a listed file that is left out scores no higher than any
    file returned; and with fewer than 24 returned, every listed file that
    names a keyword is among them. *)
Theorem searchRelevantFiles_ranks tl (root head : jsstring) (keywords : list jsstring)
    (w : World) (s : System) :
  keywords <> [] ->
  searchCache (service s) !! searchKey root head keywords = None ->
  (databaseUp w = false
   \/ continuitySearchCache (database s) !! searchKey root head keywords = None) ->
  let listed := fst (listFiles root w s) in
  let found := fst (searchRelevantFiles tl root keywords head w s) in
  let score := scoreFile tl keywords in
  len found <= 24
  /\ (forall file, file ∈ found -> file ∈ listed /\ namesKeyword tl keywords file)
  /\ StronglySorted (fun a b => score b <= score a) found
  /\ (forall file other,
        file ∈ listed -> file ∉ found -> other ∈ found -> score file <= score other)
  /\ (len found < 24 ->
      forall file, file ∈ listed -> namesKeyword tl keywords file -> file ∈ found).
Proof.
  intros Hne Hhot Hcold listed found score.
  unfold found. rewrite (searchRelevantFiles_cold tl root head keywords w s Hne Hhot Hcold).
  fold listed. fold score. clear found.
  set (entries := List.filter (fun entry => 0 <? snd entry)
                    (List.map (fun filePath => (filePath, score filePath)) listed)).
  set (sorted := sortByScore entries).
  assert (Hentries : forall e, e ∈ sorted <->
            exists file, e = (file, score file) /\ file ∈ listed /\ 0 < score file).
  { intros e. unfold sorted. rewrite sortByScore_Permutation. unfold entries.
    rewrite list_elem_of_In, filter_In, <- list_elem_of_In, list_elem_of_fmap, Z.ltb_lt.
    split.
    - intros [(file & -> & Hfile) Hpos]. exists file. repeat split; assumption.
    - intros (file & -> & Hfile & Hpos). split; [exists file; split; [reflexivity|exact Hfile]|].
      exact Hpos. }
  assert (Hsorted : StronglySorted byScore sorted) by apply sortByScore_StronglySorted.
  assert (Htop : forall e, e ∈ firstn 24 sorted ->
            exists file, e = (file, score file) /\ file ∈ listed /\ 0 < score file).
  { intros e He. apply Hentries. eapply elem_of_firstn. exact He. }
  split; [|split; [|split; [|split]]].
  - unfold len. rewrite length_map, length_firstn. lia.
  - intros file Hfile. apply list_elem_of_fmap in Hfile as (e & -> & He).
    destruct (Htop e He) as (file & -> & Hlisted & Hpos). cbn [fst].
    split; [exact Hlisted|]. apply scoreFile_positive. exact Hpos.
  - apply ranked_files; [apply StronglySorted_firstn; exact Hsorted|].
    apply Forall_forall. intros e He. destruct (Htop e He) as (file & -> & _). reflexivity.
  - intros file other Hlisted Hout Hin.
    apply list_elem_of_fmap in Hin as (e & -> & He).
    destruct (Htop e He) as (g & Heq & _ & Hg). subst e. cbn [fst].
    destruct (Z.le_gt_cases (score file) 0) as [Hle|Hpos]; [lia|].
    assert (Hmem : (file, score file) ∈ sorted).
    { apply Hentries. exists file. repeat split; [exact Hlisted|lia]. }
    rewrite <- (firstn_skipn 24 sorted) in Hmem. apply elem_of_app in Hmem as [Hmem|Hmem].
    + exfalso. apply Hout. apply list_elem_of_fmap. exists (file, score file).
      split; [reflexivity|exact Hmem].
    + exact (StronglySorted_firstn_skipn sorted 24 Hsorted _ _ He Hmem).
  - intros Hfew file Hlisted Hnames.
    unfold len in Hfew. rewrite length_map, length_firstn in Hfew.
    assert (Hall : firstn 24 sorted = sorted) by (apply firstn_all2; lia).
    rewrite Hall. apply list_elem_of_fmap. exists (file, score file).
    split; [reflexivity|]. apply Hentries. exists file.
    repeat split; [exact Hlisted|]. apply scoreFile_positive. exact Hnames.
Qed.

Lemma searchRelevantFiles_ranks_witness :
  let w := exampleWorld activeEnv 1000 in
  let keywords := [lit "bucket"] in
  let key := searchKey (lit "/repo") (lit "abc123") keywords in
  let listed := fst (listFiles (lit "/repo") w emptySystem) in
  let found := fst (searchRelevantFiles asciiLower (lit "/repo") keywords (lit "abc123") w
                      emptySystem) in
  let score := scoreFile asciiLower keywords in
  (keywords <> []
   /\ searchCache (service emptySystem) !! key = None
   /\ continuitySearchCache (database emptySystem) !! key = None)
  /\ listed = [lit "README.md"; lit "src/rate/bucket.rs"]
  /\ found = [lit "src/rate/bucket.rs"]
  /\ len found <= 24
  /\ (forall file, file ∈ found -> file ∈ listed /\ namesKeyword asciiLower keywords file)
  /\ StronglySorted (fun a b => score b <= score a) found
  /\ (forall file other,
        file ∈ listed -> file ∉ found -> other ∈ found -> score file <= score other)
  /\ (len found < 24 ->
      forall file, file ∈ listed -> namesKeyword asciiLower keywords file -> file ∈ found).
Proof.
  intros w keywords key listed found score.
  assert (Hne : keywords <> []) by discriminate.
  assert (Hhot : searchCache (service emptySystem) !! key = None) by reflexivity.
  assert (Hcold : continuitySearchCache (database emptySystem) !! key = None) by reflexivity.
  split; [exact (conj Hne (conj Hhot Hcold))|].
  split; [vm_compute; reflexivity|]. split; [vm_compute; reflexivity|].
  exact (searchRelevantFiles_ranks asciiLower (lit "/repo") (lit "abc123") keywords w
           emptySystem Hne Hhot (or_intror Hcold)).
Defined.

(** ** The anchor pack *)

Lemma utf8_ascii_app (p x : jsstring) :
  forallb (fun c => c <? 128) p = true -> utf8 (p ++ x) = p ++ utf8 x.
Proof.
  induction p as [|c p IH]; intros Hp; [reflexivity|].
  simpl in Hp. apply andb_true_iff in Hp as [Hc Hp].
  rewrite <- !app_comm_cons. cbn [utf8]. rewrite Hc, (IH Hp). reflexivity.
Qed.

Lemma byteLength_join_blank (parts : list jsstring) :
  byteLength (join (NL ++ NL) parts) = totalBytes parts + 2 * Z.max (len parts - 1) 0.
Proof.
  induction parts as [|part rest IH]; [reflexivity|].
  destruct rest as [|next rest].
  - simpl. unfold len. simpl length. lia.
  - change (join (NL ++ NL) (part :: next :: rest))
      with (part ++ (NL ++ NL) ++ join (NL ++ NL) (next :: rest)).
    unfold byteLength in *. rewrite utf8_app by reflexivity.
    rewrite (utf8_ascii_app (NL ++ NL)) by reflexivity.
    unfold len in *. rewrite !length_app.
    change (length (NL ++ NL)) with 2%nat.
    change (totalBytes (part :: next :: rest))
      with (Z.of_nat (length (utf8 part)) + totalBytes (next :: rest)).
    simpl length in *. lia.
Qed.

Lemma anchor_part_bytes (name content : jsstring) :
  forallb (fun c => c <? 128) name = true ->
  byteLength (lit "## " ++ name ++ NL ++ clampByBytes content 3000) <= 4 + len name + 3000.
Proof.
  intros Hname. pose proof (clampByBytes_bound content 3000 ltac:(lia)) as Hclamp.
  unfold byteLength in *.
  rewrite (utf8_ascii_app (lit "## ")) by reflexivity.
  rewrite (utf8_ascii_app name) by exact Hname.
  rewrite (utf8_ascii_app NL) by reflexivity.
  unfold len in *. rewrite !length_app.
  change (length (lit "## ")) with 3%nat. change (length NL) with 1%nat. lia.
Qed.

(** X23: the anchor pack is bounded whatever the anchor files hold: each of
    [AGENTS.md], [CLAUDE.md] and [README.md] gives at most 3,000 bytes
    after its header line, so the pack never has more than 9,043 bytes.  It
    is the text [No anchor files found.] exactly when none of the three can
    be read, and starts with a header otherwise; building it changes
    nothing. *)
Theorem buildAnchorPack_bounded (root : jsstring) (w : World) (s : System) :
  let pack := fst (buildAnchorPack root w s) in
  byteLength pack <= 9043
  /\ (pack = lit "No anchor files found."
      <-> fsReadFile w root (lit "AGENTS.md") = None
          /\ fsReadFile w root (lit "CLAUDE.md") = None
          /\ fsReadFile w root (lit "README.md") = None)
  /\ (pack <> lit "No anchor files found." -> startsWith pack (lit "## ") = true)
  /\ snd (buildAnchorPack root w s) = s.
Proof.
  intros pack.
  assert (Hpart : forall name content,
            forallb (fun c => c <? 128) name = true -> len name = 9 ->
            byteLength (lit "## " ++ name ++ NL ++ clampByBytes content 3000) <= 3013).
  { intros name content Hascii Hlen.
    pose proof (anchor_part_bytes name content Hascii). lia. }
  unfold pack, buildAnchorPack. mstep. cbn [flat_map].
  destruct (fsReadFile w root (lit "AGENTS.md")) as [agents|];
    destruct (fsReadFile w root (lit "CLAUDE.md")) as [claude|];
    destruct (fsReadFile w root (lit "README.md")) as [readme|];
    cbn [app]; rewrite ?len_cons_nonzero;
    try match goal with
        | |- context [len (@nil ?A) =? 0] => change (len (@nil A) =? 0) with true
        end;
    cbv beta iota; cbn [fst snd ret];
    (split; [|split; [|split; [|reflexivity]]]).
  all: try (change (byteLength (lit "No anchor files found.")) with 22; lia).
  all: try (rewrite byteLength_join_blank; cbn [totalBytes fold_right];
            repeat match goal with
                   | |- context [byteLength (lit "## " ++ ?name ++ NL ++ clampByBytes ?c 3000)] =>
                     pose proof (Hpart name c eq_refl eq_refl);
                     set (byteLength (lit "## " ++ name ++ NL ++ clampByBytes c 3000)) in *
                   end;
            unfold len; simpl length; lia).
  all: try (split; [intros Hno; discriminate Hno | intros (? & ? & ?); discriminate]).
  all: try (intros _; reflexivity).
  - split; [intros _; repeat split; reflexivity|reflexivity].
  - intros Hno. congruence.
Qed.
